(** * Risk-calculation core of the crypto portfolio agent

    A shallow embedding of the position valuator ([src/analysis/valuation.py]),
    the risk-profile orchestrator ([src/analysis/riskprofile.py]), the data
    aligner ([src/analysis/data_service.py]) and the alert dashboard
    ([backend/src/analysis/graph.py]), with the properties the specification
    states about them.

    Conventions of the embedding.
    - A Python [float] is an exact rational ([Q]); equality of amounts is
      [Qeq] ([==]).  Rounding error, infinities and NaN are outside the model,
      except that a missing cell of a data frame (pandas' NaN) is [None].
    - A Python exception is a value of [exn]; a function that can raise
      returns [result].  The messages of [ValueError] are kept as tags.
    - A position is a Python [dict]: every key may be absent.
    - A price snapshot is a [dict] keyed by [(asset, position_type)] tuples or
      by bare asset strings: a [gmap] over the sum of both key shapes. *)

From stdpp Require Import gmap strings list pretty.
From Stdlib Require Import QArith Qround Qabs Qminmax Lqa Sorted.
Local Open Scope Q_scope.

(** ** Exceptions and results *)

Inductive value_error : Type :=
| NoCurrentPrice (asset position_type : string)
| UnknownPositionType (position_type : string)
| EmptyPortfolio
| TooManyPositions
| MissingField (i : nat) (field : string)
| InvalidPositionType (i : nat)
| InvalidQuantity (i : nat)
| InvalidEntryPrice (i : nat)
| InvalidLeverage (i : nat)
| NoDataAvailable
| NoSpotData (asset : string)
| NoFuturesData (asset : string).

(** [NaNAmount] is not an exception of the source: it marks a run that goes
    on with a NaN amount, which the rational model cannot follow. *)
Inductive exn : Type :=
| KeyError (key : string)
| IndexError
| ZeroDivisionError
| ValueError (e : value_error)
| NaNAmount.

Inductive result (A : Type) : Type :=
| Ok (a : A)
| Raise (e : exn).
Arguments Ok {A} a.
Arguments Raise {A} e.

Definition bind {A B : Type} (r : result A) (k : A -> result B) : result B :=
  match r with
  | Ok a => k a
  | Raise e => Raise e
  end.

Notation "'try' x <- r ; k" := (bind r (fun x => k))
  (at level 10, x name, r at level 100, k at level 200,
   format "'[v' 'try'  x  <-  r  ; '/' k ']'").

(** The failure kinds of the specification's taxonomy. *)
Definition InvalidPortfolio (e : exn) : Prop :=
  match e with
  | ValueError EmptyPortfolio | ValueError TooManyPositions
  | ValueError (MissingField _ _) | ValueError (InvalidPositionType _)
  | ValueError (InvalidQuantity _) | ValueError (InvalidEntryPrice _)
  | ValueError (InvalidLeverage _) => True
  | _ => False
  end.

Definition MissingPrice (e : exn) : Prop :=
  match e with
  | ValueError (NoCurrentPrice _ _) => True
  | _ => False
  end.

(** ** Positions and price snapshots *)

Record position : Type := Position {
  asset : option string;
  quantity : option Q;
  position_type : option string;
  entry_price : option Q;
  leverage : option Q
}.

(** [position[key]]: raises [KeyError] on an absent key. *)
Definition getitem {A : Type} (key : string) (field : option A) : result A :=
  match field with
  | Some v => Ok v
  | None => Raise (KeyError key)
  end.

(** [position.get(key, dflt)]. *)
Definition get_default {A : Type} (field : option A) (dflt : A) : A :=
  match field with
  | Some v => v
  | None => dflt
  end.

Definition price_key : Type := (string * string) + string.

Definition set_leverage (l : Q) (p : position) : position :=
  Position (asset p) (quantity p) (position_type p) (entry_price p) (Some l).

(** ** Valuator ([valuation.py]) *)

Definition calculate_spot_value (quantity current_price : Q) : Q :=
  quantity * current_price.

(** The two summands of a futures value, named as the locals of the source. *)
Definition margin (quantity entry_price leverage : Q) : Q :=
  (quantity * entry_price) / leverage.

Definition pnl_long (quantity entry_price current_price : Q) : Q :=
  (current_price - entry_price) * quantity.

Definition pnl_short (quantity entry_price current_price : Q) : Q :=
  (entry_price - current_price) * quantity.

(** Float division by zero raises [ZeroDivisionError]. *)
Definition calculate_futures_long_value
    (quantity entry_price current_price leverage : Q) : result Q :=
  if Qeq_bool leverage 0 then Raise ZeroDivisionError
  else Ok (margin quantity entry_price leverage
           + pnl_long quantity entry_price current_price).

Definition calculate_futures_short_value
    (quantity entry_price current_price leverage : Q) : result Q :=
  if Qeq_bool leverage 0 then Raise ZeroDivisionError
  else Ok (margin quantity entry_price leverage
           + pnl_short quantity entry_price current_price).

(** The price used for a position: the composite key first, the bare asset
    key when the composite one is absent. *)
Definition lookup_price (current_prices : gmap price_key Q)
    (asset position_type : string) : option Q :=
  match current_prices !! (inl (asset, position_type) : price_key) with
  | Some current_price => Some current_price
  | None => current_prices !! (inr asset : price_key)
  end.

Definition calculate_position_value
    (position : position) (current_prices : gmap price_key Q) : result Q :=
  try asset <- getitem "asset" (asset position) ;
  try quantity <- getitem "quantity" (quantity position) ;
  try position_type <- getitem "position_type" (position_type position) ;
  try entry_price <- getitem "entry_price" (entry_price position) ;
  let leverage := get_default (leverage position) 1 in
  match lookup_price current_prices asset position_type with
  | None => Raise (ValueError (NoCurrentPrice asset position_type))
  | Some current_price =>
      if String.eqb position_type "spot" then
        Ok (calculate_spot_value quantity current_price)
      else if String.eqb position_type "futures_long" then
        calculate_futures_long_value quantity entry_price current_price leverage
      else if String.eqb position_type "futures_short" then
        calculate_futures_short_value quantity entry_price current_price leverage
      else Raise (ValueError (UnknownPositionType position_type))
  end.

(** [total_value = 0.0; for position in positions: total_value += ...]. *)
Fixpoint portfolio_value_loop (total_value : Q) (positions : list position)
    (current_prices : gmap price_key Q) : result Q :=
  match positions with
  | [] => Ok total_value
  | position :: rest =>
      try v <- calculate_position_value position current_prices ;
      portfolio_value_loop (total_value + v) rest current_prices
  end.

Definition calculate_portfolio_value (positions : list position)
    (current_prices : gmap price_key Q) : result Q :=
  portfolio_value_loop 0 positions current_prices.

Definition apply_price_shock (base_prices : gmap price_key Q) (shock_pct : Q)
    : gmap price_key Q :=
  (fun price => price * (1 + shock_pct)) <$> base_prices.

(** [delta = 0.0; for position in positions: ...]; a position type outside
    the three kinds leaves [delta] as it is (the chain has no [else]). *)
Fixpoint delta_exposure_loop (delta : Q) (positions : list position)
    : result Q :=
  match positions with
  | [] => Ok delta
  | position :: rest =>
      try quantity <- getitem "quantity" (quantity position) ;
      try position_type <- getitem "position_type" (position_type position) ;
      if String.eqb position_type "spot" then
        delta_exposure_loop (delta + quantity) rest
      else if String.eqb position_type "futures_long" then
        delta_exposure_loop (delta + quantity) rest
      else if String.eqb position_type "futures_short" then
        delta_exposure_loop (delta - quantity) rest
      else delta_exposure_loop delta rest
  end.

Definition calculate_delta_exposure (positions : list position) : result Q :=
  delta_exposure_loop 0 positions.

Record sensitivity_row : Type := SensitivityRow {
  price_change_pct : Q;
  portfolio_value : Q;
  pnl : Q;
  return_pct : Q
}.

(** The body of the loop over [shock_range]; rows are appended in order. *)
Fixpoint sensitivity_rows (positions : list position)
    (base_prices : gmap price_key Q) (base_value : Q) (shock_range : list Q)
    : result (list sensitivity_row) :=
  match shock_range with
  | [] => Ok []
  | shock_pct :: rest =>
      let shocked_prices := apply_price_shock base_prices shock_pct in
      try shocked_value <- calculate_portfolio_value positions shocked_prices ;
      let pnl := shocked_value - base_value in
      let return_pct :=
        if Qeq_bool base_value 0 then 0 else pnl / base_value in
      try rows <- sensitivity_rows positions base_prices base_value rest ;
      Ok (SensitivityRow (shock_pct * 100) shocked_value pnl (return_pct * 100)
          :: rows)
  end.

Definition calculate_sensitivity_table (positions : list position)
    (base_prices : gmap price_key Q) (shock_range : list Q)
    : result (list sensitivity_row) :=
  try base_value <- calculate_portfolio_value positions base_prices ;
  sensitivity_rows positions base_prices base_value shock_range.

(** ** Input validation ([riskprofile.py], [_validate_positions]) *)

Definition Qlt_bool (x y : Q) : bool := negb (Qle_bool y x).

Definition has_key {A : Type} (field : option A) : bool :=
  match field with
  | Some _ => true
  | None => false
  end.

Definition valid_position_types : list string :=
  ["spot"; "futures_long"; "futures_short"]%string.

Definition string_in (s : string) (l : list string) : bool :=
  existsb (String.eqb s) l.

(** The body of [for i, pos in enumerate(positions)]. *)
Definition validate_position (i : nat) (pos : position) : result unit :=
  if negb (has_key (asset pos)) then
    Raise (ValueError (MissingField i "asset"))
  else if negb (has_key (quantity pos)) then
    Raise (ValueError (MissingField i "quantity"))
  else if negb (has_key (position_type pos)) then
    Raise (ValueError (MissingField i "position_type"))
  else if negb (has_key (entry_price pos)) then
    Raise (ValueError (MissingField i "entry_price"))
  else
    try position_type <- getitem "position_type" (position_type pos) ;
    if negb (string_in position_type valid_position_types) then
      Raise (ValueError (InvalidPositionType i))
    else
      try quantity <- getitem "quantity" (quantity pos) ;
      if Qle_bool quantity 0 then Raise (ValueError (InvalidQuantity i))
      else
        try entry_price <- getitem "entry_price" (entry_price pos) ;
        if Qle_bool entry_price 0 then Raise (ValueError (InvalidEntryPrice i))
        else
          let leverage := get_default (leverage pos) 1 in
          if Qle_bool leverage 0 || Qlt_bool 125 leverage then
            Raise (ValueError (InvalidLeverage i))
          else Ok tt.

Fixpoint validate_loop (i : nat) (positions : list position) : result unit :=
  match positions with
  | [] => Ok tt
  | pos :: rest =>
      try _u <- validate_position i pos ;
      validate_loop (S i) rest
  end.

Definition _validate_positions (positions : list position) : result unit :=
  match positions with
  | [] => Raise (ValueError EmptyPortfolio)
  | _ =>
      if (20 <? length positions)%nat then Raise (ValueError TooManyPositions)
      else validate_loop 0 positions
  end.

(** ** Alert dashboard ([graph.py], [calculate_alert_dashboard]) *)

(** The two entries of the [risk_metrics] dict the dashboard reads. *)
Record risk_metrics : Type := RiskMetrics {
  portfolio_volatility_annual : option Q;
  sharpe_ratio : option Q
}.

(** Python's [round(x, 1)]: to the nearest tenth, ties to the even tenth. *)
Definition round_half_even (x : Q) : Z :=
  let n := Qfloor x in
  match Qcompare (x - inject_Z n) (1 # 2) with
  | Lt => n
  | Gt => (n + 1)%Z
  | Eq => if Z.even n then n else (n + 1)%Z
  end.

Definition round1 (x : Q) : Q := inject_Z (round_half_even (x * 10)) / 10.

(** Python's [max(a, b)]: the second argument only when strictly larger. *)
Definition pymax (a b : Q) : Q := if Qlt_bool a b then b else a.

Record health_component : Type := HealthComponent {
  score : Q;
  status : string
}.

(** The status ladder shared by the three linearly scored components. *)
Definition linear_status (s : Q) : string :=
  if Qle_bool 18 s then "good"
  else if Qle_bool 10 s then "fair"
  else if Qle_bool 5 s then "warning"
  else "poor".

Definition delta_normalized (delta_exposure current_value : Q) : Q :=
  if Qlt_bool 0 current_value then Qabs delta_exposure / current_value else 0.

Definition delta_neutral_component (delta_exposure current_value : Q)
    : health_component :=
  let delta_normalized := delta_normalized delta_exposure current_value in
  if Qle_bool delta_normalized (5 # 100) then
    HealthComponent (round1 25) "excellent"
  else if Qle_bool delta_normalized (5 # 10) then
    let delta_score :=
      pymax 0 (25 - ((delta_normalized - (5 # 100)) / (45 # 100)) * 25) in
    HealthComponent (round1 delta_score) (linear_status delta_score)
  else HealthComponent (round1 0) "poor".

Definition volatility_component (risk_metrics : risk_metrics)
    : health_component :=
  let volatility := get_default (portfolio_volatility_annual risk_metrics) 0 in
  if Qle_bool volatility (3 # 10) then HealthComponent (round1 25) "excellent"
  else if Qle_bool volatility 1 then
    let vol_score := pymax 0 (25 - ((volatility - (3 # 10)) / (7 # 10)) * 25) in
    HealthComponent (round1 vol_score) (linear_status vol_score)
  else HealthComponent (round1 0) "poor".

Definition sharpe_component (risk_metrics : risk_metrics)
    (delta_exposure current_value : Q) : health_component :=
  let sharpe := get_default (sharpe_ratio risk_metrics) 0 in
  let delta_normalized := delta_normalized delta_exposure current_value in
  let is_market_neutral := Qlt_bool delta_normalized (5 # 100) in
  if is_market_neutral then HealthComponent (round1 (125 # 10)) "fair"
  else if Qle_bool 1 sharpe then HealthComponent (round1 25) "excellent"
  else if Qle_bool (5 # 10) sharpe then
    HealthComponent (round1 (18 + ((sharpe - (5 # 10)) / (5 # 10)) * 7)) "good"
  else if Qle_bool 0 sharpe then
    HealthComponent (round1 (10 + (sharpe / (5 # 10)) * 8)) "fair"
  else if Qle_bool (- (5 # 10)) sharpe then
    HealthComponent (round1 (5 + ((sharpe + (5 # 10)) / (5 # 10)) * 5)) "warning"
  else HealthComponent (round1 0) "poor".

(** [max((pos.get("leverage", 1.0) for pos in positions), default=1.0)]. *)
Definition max_leverage (positions : list position) : Q :=
  match positions with
  | [] => 1
  | pos :: rest =>
      fold_left (fun m p => pymax m (get_default (leverage p) 1)) rest
        (get_default (leverage pos) 1)
  end.

Definition leverage_component (positions : list position) : health_component :=
  let max_leverage := max_leverage positions in
  if Qle_bool max_leverage 2 then HealthComponent (round1 25) "excellent"
  else if Qle_bool max_leverage 20 then
    let lev_score := pymax 0 (25 - ((max_leverage - 2) / 18) * 25) in
    HealthComponent (round1 lev_score) (linear_status lev_score)
  else HealthComponent (round1 0) "poor".

(** The [health_components] dict, in insertion order. *)
Record health_components : Type := HealthComponents {
  hc_delta_neutral : health_component;
  hc_volatility : health_component;
  hc_sharpe_ratio : health_component;
  hc_leverage : health_component
}.

Definition calculate_health_components (risk_metrics : risk_metrics)
    (current_value : Q) (positions : list position) (delta_exposure : Q)
    : health_components :=
  HealthComponents
    (delta_neutral_component delta_exposure current_value)
    (volatility_component risk_metrics)
    (sharpe_component risk_metrics delta_exposure current_value)
    (leverage_component positions).

(** [sum(comp["score"] for comp in health_components.values())]. *)
Definition sum_scores (hc : health_components) : Q :=
  0 + score (hc_delta_neutral hc) + score (hc_volatility hc)
  + score (hc_sharpe_ratio hc) + score (hc_leverage hc).

Record liquidation_entry : Type := LiquidationEntry {
  liq_asset : string;
  liq_position_type : string;
  liquidation_price : Q;
  liq_current_price : Q;
  price_distance_pct : Q;
  risk_level : string
}.

(** The liquidation price of a futures position. *)
Definition liquidation_price_of (position_type : string)
    (entry_price leverage : Q) : Q :=
  if String.eqb position_type "futures_long" then
    entry_price * (1 - (9 # 10) / leverage)
  else entry_price * (1 + (9 # 10) / leverage).

(** The signed local [price_distance_pct] the risk level is read from; the
    entry reports its absolute value. *)
Definition signed_price_distance_pct (position_type : string)
    (liquidation_price current_price : Q) : Q :=
  if String.eqb position_type "futures_long" then
    ((current_price - liquidation_price) / current_price) * 100
  else ((liquidation_price - current_price) / current_price) * 100.

Definition risk_level_of (price_distance_pct : Q) : string :=
  if Qlt_bool 50 price_distance_pct then "safe"
  else if Qlt_bool 25 price_distance_pct then "moderate"
  else "high".

(** The guard of the liquidation loop, once the position type is read. *)
Definition is_leveraged_future (position_type : string) (pos : position)
    : bool :=
  string_in position_type ["futures_long"; "futures_short"]%string
  && Qlt_bool 1 (get_default (leverage pos) 1).

Fixpoint liquidation_loop (positions : list position)
    (current_prices : gmap price_key Q) : result (list liquidation_entry) :=
  match positions with
  | [] => Ok []
  | pos :: rest =>
      try position_type <- getitem "position_type" (position_type pos) ;
      if is_leveraged_future position_type pos then
        try asset <- getitem "asset" (asset pos) ;
        let leverage := get_default (leverage pos) 1 in
        let entry_price := get_default (entry_price pos) 0 in
        let current_price :=
          get_default (current_prices !! (inl (asset, position_type) : price_key))
            entry_price in
        if Qeq_bool current_price 0 then Raise ZeroDivisionError
        else
          let liquidation_price :=
            liquidation_price_of position_type entry_price leverage in
          let price_distance_pct :=
            signed_price_distance_pct position_type liquidation_price
              current_price in
          try risks <- liquidation_loop rest current_prices ;
          Ok (LiquidationEntry asset position_type liquidation_price
                current_price (Qabs price_distance_pct)
                (risk_level_of price_distance_pct) :: risks)
      else liquidation_loop rest current_prices
  end.

Definition has_level (level : string) (risks : list liquidation_entry) : bool :=
  existsb (fun r => String.eqb (risk_level r) level) risks.

Definition overall_liquidation_risk (liquidation_risks : list liquidation_entry)
    : string :=
  match liquidation_risks with
  | [] => "low"
  | _ =>
      if has_level "high" liquidation_risks then "high"
      else if has_level "moderate" liquidation_risks then "moderate"
      else "low"
  end.

Record rebalancing_signal : Type := RebalancingSignal {
  needed : bool;
  urgency : string;
  current_delta : Q;
  rs_delta_normalized : Q
}.

Record dashboard : Type := Dashboard {
  health_score : Q;
  db_health_components : health_components;
  overall_risk : string;
  liquidation_positions : list liquidation_entry;
  db_rebalancing_signal : rebalancing_signal
}.

Definition calculate_alert_dashboard (risk_metrics : risk_metrics)
    (current_value : Q) (positions : list position)
    (current_prices : gmap price_key Q) (delta_exposure : Q)
    : result dashboard :=
  let health_components :=
    calculate_health_components risk_metrics current_value positions
      delta_exposure in
  let health_score := sum_scores health_components in
  try liquidation_risks <- liquidation_loop positions current_prices ;
  let overall := overall_liquidation_risk liquidation_risks in
  let delta_normalized := delta_normalized delta_exposure current_value in
  let rebalancing_needed := Qlt_bool (5 # 100) delta_normalized in
  let rebalancing_urgency :=
    if Qlt_bool (15 # 100) delta_normalized then "high"
    else if Qlt_bool (5 # 100) delta_normalized then "medium"
    else "none" in
  Ok (Dashboard health_score health_components overall liquidation_risks
        (RebalancingSignal rebalancing_needed rebalancing_urgency
           delta_exposure delta_normalized)).

(** ** Data aligner ([data_service.py])

    A timestamp is a UTC instant in seconds; a data frame is the list of its
    rows; a [dict] from asset to frame is an association list in insertion
    order. *)

Definition seconds_per_day : Z := 86400.

Fixpoint dict_get {V : Type} (k : string) (d : list (string * V)) : option V :=
  match d with
  | [] => None
  | (k', v) :: rest => if String.eqb k k' then Some v else dict_get k rest
  end.

(** [d[k] = v]: an existing key keeps its place, a new one goes last. *)
Fixpoint dict_set {V : Type} (k : string) (v : V) (d : list (string * V))
    : list (string * V) :=
  match d with
  | [] => [(k, v)]
  | (k', v') :: rest =>
      if String.eqb k k' then (k, v) :: rest else (k', v') :: dict_set k v rest
  end.

(** What a database call leaves in the gathered results: the rows, or the
    exception it raised. *)
Inductive fetched (A : Type) : Type :=
| Rows (rows : list A)
| FetchError.
Arguments Rows {A} rows.
Arguments FetchError {A}.

(** The three queries of the [database] module over the lookback window;
    each row is a timestamp with a close, mark price or funding rate. *)
Record database : Type := Database {
  get_ohlcv_data : string -> fetched (Z * Q);
  get_mark_klines : string -> fetched (Z * Q);
  get_funding_rates : string -> fetched (Z * Q)
}.

(** The messages [fetch_portfolio_data] logs at warning level. *)
Inductive fetch_warning : Type :=
| SpotFetchFailed (asset : string)
| NoSpotDataAvailable (asset : string)
| FuturesFetchFailed (asset : string)
| NoMarkPriceData (asset : string).

Record futures_row : Type := FuturesRow {
  f_timestamp : Z;
  mark_price : Q;
  funding_rate : option Q
}.

(** [sort_values("timestamp")], as a stable insertion sort. *)
Fixpoint insert_by {A : Type} (key : A -> Z) (x : A) (l : list A) : list A :=
  match l with
  | [] => [x]
  | y :: rest =>
      if (key x <? key y)%Z then x :: l else y :: insert_by key x rest
  end.

Definition sort_values {A : Type} (key : A -> Z) (l : list A) : list A :=
  fold_left (fun acc x => insert_by key x acc) l [].

(** [pd.merge(mark_df, funding_df, on="timestamp", how="left")]: every mark
    row once per funding row of the same timestamp, or once with a missing
    funding rate. *)
Definition merge_funding (mark_df funding_df : list (Z * Q))
    : list futures_row :=
  flat_map
    (fun m =>
       match List.filter (fun f => (fst f =? fst m)%Z) funding_df with
       | [] => [FuturesRow (fst m) (snd m) None]
       | fs => map (fun f => FuturesRow (fst m) (snd m) (Some (snd f))) fs
       end)
    mark_df.

Definition process_spot (db : database) (assets : list string)
    : list (string * list (Z * Q)) * list fetch_warning :=
  fold_left
    (fun st asset =>
       let '(spot_data_dict, log) := st in
       match get_ohlcv_data db asset with
       | FetchError => (spot_data_dict, log ++ [SpotFetchFailed asset])
       | Rows [] => (spot_data_dict, log ++ [NoSpotDataAvailable asset])
       | Rows result =>
           (dict_set asset (sort_values fst result) spot_data_dict, log)
       end)
    assets ([], []).

Definition process_futures_asset (db : database) (asset : string)
    : list futures_row + fetch_warning :=
  match get_mark_klines db asset, get_funding_rates db asset with
  | FetchError, _ | _, FetchError => inr (FuturesFetchFailed asset)
  | Rows [], _ => inr (NoMarkPriceData asset)
  | Rows mark_result, Rows funding_result =>
      let futures_df :=
        match funding_result with
        | [] => map (fun m => FuturesRow (fst m) (snd m) (Some 0)) mark_result
        | _ => merge_funding mark_result funding_result
        end in
      inl (sort_values f_timestamp futures_df)
  end.

Definition process_futures (db : database) (assets : list string)
    : list (string * list futures_row) * list fetch_warning :=
  fold_left
    (fun st asset =>
       let '(futures_data_dict, log) := st in
       match process_futures_asset db asset with
       | inr w => (futures_data_dict, log ++ [w])
       | inl futures_df => (dict_set asset futures_df futures_data_dict, log)
       end)
    assets ([], []).

Definition ts_max (ts : list Z) : Z :=
  match ts with
  | [] => 0%Z
  | t :: rest => fold_left Z.max rest t
  end.

Definition ts_min (ts : list Z) : Z :=
  match ts with
  | [] => 0%Z
  | t :: rest => fold_left Z.min rest t
  end.

(** [(df["timestamp"].max() - df["timestamp"].min()).days]. *)
Definition days_available (df : list (Z * Q)) : Z :=
  ((ts_max (map fst df) - ts_min (map fst df)) / seconds_per_day)%Z.

Definition actual_days_available (lookback_days : Z)
    (spot_data_dict : list (string * list (Z * Q))) : Z :=
  fold_left (fun min_days item => Z.min min_days (days_available (snd item)))
    spot_data_dict lookback_days.

Record portfolio_data : Type := PortfolioData {
  pd_spot : list (string * list (Z * Q));
  pd_futures : list (string * list futures_row);
  pd_actual_days : Z;
  pd_log : list fetch_warning
}.

Definition fetch_portfolio_data (db : database) (assets : list string)
    (lookback_days : Z) : portfolio_data :=
  let '(spot_data_dict, spot_log) := process_spot db assets in
  let '(futures_data_dict, futures_log) := process_futures db assets in
  PortfolioData spot_data_dict futures_data_dict
    (actual_days_available lookback_days spot_data_dict)
    (spot_log ++ futures_log).

(** *** Daily resampling *)

(** Midnight of the calendar day of [t]. *)
Definition day_start (t : Z) : Z := ((t / seconds_per_day) * seconds_per_day)%Z.

Fixpoint insert_day (d : Z) (days : list Z) : list Z :=
  match days with
  | [] => [d]
  | x :: rest =>
      if (d <? x)%Z then d :: days
      else if (d =? x)%Z then days
      else x :: insert_day d rest
  end.

(** The days that hold an observation, in increasing order; the bins that
    [resample("D")] leaves after [dropna]. *)
Definition day_bins (ts : list Z) : list Z :=
  fold_left (fun days t => insert_day (day_start t) days) ts [].

Definition in_day {A : Type} (key : A -> Z) (d : Z) (rows : list A) : list A :=
  List.filter (fun r => (day_start (key r) =? d)%Z) rows.

Definition Qsum (l : list Q) : Q := fold_left Qplus l 0.

(** The mean of the values present; missing when there is none. *)
Definition mean (l : list Q) : option Q :=
  match l with
  | [] => None
  | _ => Some (Qsum l / inject_Z (Z.of_nat (length l)))
  end.

(** [resample("D")["close"].last()] and [dropna], for a frame in timestamp
    order, as [fetch_portfolio_data] stores it after [sort_values]: the last
    row of a day is then a row of that day with the latest timestamp, the
    one pandas takes. *)
Definition resample_spot (df : list (Z * Q)) : list (Z * Q) :=
  omap (fun d => option_map (fun r => (d, snd r)) (last (in_day fst d df)))
    (day_bins (map fst df)).

Record daily_futures_row : Type := DailyFuturesRow {
  d_timestamp : Z;
  d_mark_price : Q;
  d_funding_rate : Q
}.

(** Last mark price and mean funding rate of each day; [dropna] removes the
    days whose mean funding rate is missing.  As for the spot frame, the
    rows are read in timestamp order, the order of the stored frame. *)
Definition resample_futures (df : list futures_row) : list daily_futures_row :=
  omap
    (fun d =>
       let rows := in_day f_timestamp d df in
       match last rows, mean (omap funding_rate rows) with
       | Some r, Some f => Some (DailyFuturesRow d (mark_price r) f)
       | _, _ => None
       end)
    (day_bins (map f_timestamp df)).

Definition is_empty {A : Type} (l : list A) : bool :=
  match l with
  | [] => true
  | _ => false
  end.

Definition resample_to_daily (spot_data : list (string * list (Z * Q)))
    (futures_data : list (string * list futures_row))
    : list (string * list (Z * Q)) * list (string * list daily_futures_row) :=
  (map (fun item => (fst item, resample_spot (snd item)))
     (List.filter (fun item => negb (is_empty (snd item))) spot_data),
   map (fun item => (fst item, resample_futures (snd item)))
     (List.filter (fun item => negb (is_empty (snd item))) futures_data)).

(** *** Alignment *)

Record aligned_row : Type := AlignedRow {
  row_timestamp : Z;
  cells : list (string * option Q)
}.

Record data_frame : Type := DataFrame {
  columns : list string;
  rows : list aligned_row
}.

(** A cell of the frame; [None] is a missing value. *)
Definition get_cell (col : string) (r : aligned_row) : option Q :=
  match dict_get col (cells r) with
  | Some v => v
  | None => None
  end.

Definition set_cell (col : string) (v : option Q) (r : aligned_row)
    : aligned_row :=
  AlignedRow (row_timestamp r) (dict_set col v (cells r)).

Definition isna (col : string) (r : aligned_row) : bool :=
  match get_cell col r with
  | None => true
  | Some _ => false
  end.

Definition isna_any (col : string) (rs : list aligned_row) : bool :=
  existsb (isna col) rs.

Definition isna_sum (col : string) (rs : list aligned_row) : nat :=
  length (List.filter (isna col) rs).

(** [pd.merge(aligned, df, on="timestamp", how="left")] for a one-column
    [df]: each row once per matching row of [df], or once with a missing
    cell. *)
Definition merge_left (col : string) (df : list (Z * Q))
    (rs : list aligned_row) : list aligned_row :=
  flat_map
    (fun r =>
       match List.filter (fun x => (fst x =? row_timestamp r)%Z) df with
       | [] => [set_cell col None r]
       | ms => map (fun x => set_cell col (Some (snd x)) r) ms
       end)
    rs.

Fixpoint ffill_from (carry : option Q) (col : string) (rs : list aligned_row)
    : list aligned_row :=
  match rs with
  | [] => []
  | r :: rest =>
      match get_cell col r with
      | Some v => r :: ffill_from (Some v) col rest
      | None => set_cell col carry r :: ffill_from carry col rest
      end
  end.

Definition ffill (col : string) (rs : list aligned_row) : list aligned_row :=
  ffill_from None col rs.

Definition bfill (col : string) (rs : list aligned_row) : list aligned_row :=
  rev (ffill col (rev rs)).

Definition fillna (col : string) (v : Q) (rs : list aligned_row)
    : list aligned_row :=
  map (fun r => if isna col r then set_cell col (Some v) r else r) rs.

(** [pd.date_range(start=min_ts, end=max_ts, freq="D")]. *)
Definition date_range (min_ts max_ts : Z) : list Z :=
  map (fun k => (min_ts + Z.of_nat k * seconds_per_day)%Z)
    (seq 0 (S (Z.to_nat ((max_ts - min_ts) / seconds_per_day)))).

(** The entries of the warning list, and the text each one stands for. *)
Inductive alignment_warning : Type :=
| SpotGap (asset : string) (na_count : nat)
| MarkGap (asset : string) (na_count : nat)
| FundingGap (asset : string) (na_count : nat).

Definition warning_text (w : alignment_warning) : string :=
  match w with
  | SpotGap asset na_count =>
      asset ++ " spot: " ++ pretty na_count
        ++ " missing values at the beginning (no forward-fill source)"
  | MarkGap asset na_count =>
      asset ++ " futures: " ++ pretty na_count ++ " missing mark prices"
  | FundingGap asset na_count =>
      asset ++ " funding: " ++ pretty na_count ++ " missing funding rates"
  end%string.

Definition spot_column (asset : string) : string := (asset ++ "_spot")%string.
Definition futures_mark_column (asset : string) : string :=
  (asset ++ "_futures_mark")%string.
Definition funding_column (asset : string) : string :=
  (asset ++ "_funding")%string.

(** The body of the loop over [spot_data.items()]. *)
Definition add_spot (st : data_frame * list alignment_warning)
    (item : string * list (Z * Q)) : data_frame * list alignment_warning :=
  let '(aligned, warnings) := st in
  let asset := fst item in
  let col := spot_column asset in
  let rs := ffill col (merge_left col (snd item) (rows aligned)) in
  let cols := columns aligned ++ [col] in
  if isna_any col rs then
    (DataFrame cols (bfill col rs), warnings ++ [SpotGap asset (isna_sum col rs)])
  else (DataFrame cols rs, warnings).

(** The body of the loop over [futures_data.items()]. *)
Definition add_futures (st : data_frame * list alignment_warning)
    (item : string * list daily_futures_row)
    : data_frame * list alignment_warning :=
  let '(aligned, warnings) := st in
  let asset := fst item in
  let mark := futures_mark_column asset in
  let funding := funding_column asset in
  let mark_df := map (fun r => (d_timestamp r, d_mark_price r)) (snd item) in
  let funding_df := map (fun r => (d_timestamp r, d_funding_rate r)) (snd item) in
  let rs := ffill mark (merge_left mark mark_df (rows aligned)) in
  let rs := ffill funding (merge_left funding funding_df rs) in
  let cols := columns aligned ++ [mark; funding] in
  let '(rs, warnings) :=
    if isna_any mark rs then
      (bfill mark rs, warnings ++ [MarkGap asset (isna_sum mark rs)])
    else (rs, warnings) in
  let '(rs, warnings) :=
    if isna_any funding rs then
      (fillna funding 0 rs, warnings ++ [FundingGap asset (isna_sum funding rs)])
    else (rs, warnings) in
  (DataFrame cols rs, warnings).

Definition all_timestamps (spot_data : list (string * list (Z * Q)))
    (futures_data : list (string * list daily_futures_row)) : list Z :=
  flat_map (fun item => map fst (snd item)) spot_data
  ++ flat_map (fun item => map d_timestamp (snd item)) futures_data.

Definition align_time_series (spot_data : list (string * list (Z * Q)))
    (futures_data : list (string * list daily_futures_row))
    : result (data_frame * list alignment_warning) :=
  let all_timestamps := all_timestamps spot_data futures_data in
  if is_empty all_timestamps then Raise (ValueError NoDataAvailable)
  else
    let min_ts := ts_min all_timestamps in
    let max_ts := ts_max all_timestamps in
    let aligned :=
      DataFrame ["timestamp"%string]
        (map (fun t => AlignedRow t []) (date_range min_ts max_ts)) in
    let st := fold_left add_spot spot_data (aligned, []) in
    Ok (fold_left add_futures futures_data st).

(** ** Orchestrator ([riskprofile.py], [calculate_risk_profile]) *)

Definition days_warning (actual_days : Z) : string :=
  ("Warning: Only " ++ pretty actual_days
   ++ " days of data available (recommended: 30+). Risk metrics may be unreliable.")%string.

(** The truth value of [data_warning]: neither [None] nor the empty string. *)
Definition truthy (s : option string) : bool :=
  match s with
  | Some (String _ _) => true
  | _ => false
  end.

(** [sep.join(l)]. *)
Fixpoint join (sep : string) (l : list string) : string :=
  match l with
  | [] => ""
  | [s] => s
  | s :: rest => s ++ sep ++ join sep rest
  end%string.

(** Lines 44 to 63: the value of [data_warning] once alignment is done. *)
Definition data_warning_of (actual_days : Z) (alignment_warnings : list string)
    : option string :=
  let data_warning :=
    if (actual_days <? 30)%Z then Some (days_warning actual_days) else None in
  match alignment_warnings with
  | [] => data_warning
  | _ =>
      let warning_msg := join "; " alignment_warnings in
      if truthy data_warning then
        Some (get_default data_warning "" ++ " | " ++ warning_msg)%string
      else Some warning_msg
  end.

Definition has_column (col : string) (aligned_data : data_frame) : bool :=
  string_in col (columns aligned_data).

(** [float(latest_row[col_name])]. *)
Definition cell_value (col : string) (latest_row : aligned_row) : result Q :=
  match get_cell col latest_row with
  | Some v => Ok v
  | None => Raise NaNAmount
  end.

Fixpoint extract_prices_loop (aligned_data : data_frame)
    (latest_row : aligned_row) (positions : list position)
    (current_prices : gmap price_key Q) : result (gmap price_key Q) :=
  match positions with
  | [] => Ok current_prices
  | pos :: rest =>
      try asset <- getitem "asset" (asset pos) ;
      try position_type <- getitem "position_type" (position_type pos) ;
      let price_key : price_key := inl (asset, position_type) in
      if String.eqb position_type "spot" then
        let col_name := spot_column asset in
        if has_column col_name aligned_data then
          try v <- cell_value col_name latest_row ;
          extract_prices_loop aligned_data latest_row rest
            (<[price_key := v]> current_prices)
        else Raise (ValueError (NoSpotData asset))
      else
        let col_name := futures_mark_column asset in
        if has_column col_name aligned_data then
          try v <- cell_value col_name latest_row ;
          extract_prices_loop aligned_data latest_row rest
            (<[price_key := v]> current_prices)
        else Raise (ValueError (NoFuturesData asset))
  end.

Definition _extract_current_prices (aligned_data : data_frame)
    (positions : list position) : result (gmap price_key Q) :=
  match last (rows aligned_data) with
  | None => Raise IndexError
  | Some latest_row =>
      extract_prices_loop aligned_data latest_row positions ∅
  end.

(** [pos["asset"] for pos in positions]. *)
Fixpoint asset_names (positions : list position) : result (list string) :=
  match positions with
  | [] => Ok []
  | pos :: rest =>
      try a <- getitem "asset" (asset pos) ;
      try names <- asset_names rest ;
      Ok (a :: names)
  end.

(** [list(set(...))]: the distinct names; Python fixes no order, the model
    lists them by first occurrence. *)
Fixpoint unique (names : list string) : list string :=
  match names with
  | [] => []
  | a :: rest => a :: List.filter (fun b => negb (String.eqb a b)) (unique rest)
  end.

Record risk_profile (metrics_data scenario_results : Type) : Type :=
  RiskProfile {
    current_portfolio_value : Q;
    data_availability_warning : option string;
    sensitivity_analysis : list sensitivity_row;
    risk_metrics_data : metrics_data;
    rp_delta_exposure : Q;
    scenarios : scenario_results
  }.
Arguments RiskProfile {_ _}.
Arguments current_portfolio_value {_ _}.
Arguments data_availability_warning {_ _}.
Arguments sensitivity_analysis {_ _}.
Arguments risk_metrics_data {_ _}.
Arguments rp_delta_exposure {_ _}.
Arguments scenarios {_ _}.

(** What the run has once the history is fetched, resampled and aligned. *)
Record aligned_history : Type := AlignedHistory {
  ah_aligned : data_frame;
  ah_alignment_warnings : list alignment_warning;
  ah_actual_days : Z
}.

(** Steps 1 to 3 of [calculate_risk_profile], after validation. *)
Definition fetch_and_align (db : database) (positions : list position)
    (lookback_days : Z) : result aligned_history :=
  try names <- asset_names positions ;
  let assets := unique names in
  let data := fetch_portfolio_data db assets lookback_days in
  let '(daily_spot, daily_futures) :=
    resample_to_daily (pd_spot data) (pd_futures data) in
  try al <- align_time_series daily_spot daily_futures ;
  Ok (AlignedHistory (fst al) (snd al) (pd_actual_days data)).

Section Orchestrator.
(** The parts of the run that live in modules outside this development:
    the settings, the statistical estimators behind steps 6 and 8, and the
    scenario engine. *)
Variable SENSITIVITY_RANGE : list Z.
Variables portfolio_series metrics_data scenario_results : Type.
Variable _calculate_historical_portfolio_series :
  list position -> data_frame -> result portfolio_series.
Variable _calculate_risk_metrics :
  portfolio_series -> Q -> Z -> list position -> data_frame ->
  result metrics_data.
Variable run_all_scenarios :
  list position -> gmap price_key Q -> result scenario_results.

(** Steps 4 to 11: everything after alignment, given the warning to attach. *)
Definition value_and_assemble (positions : list position)
    (aligned_data : data_frame) (actual_days : Z)
    (data_warning : option string)
    : result (risk_profile metrics_data scenario_results) :=
  try current_prices <- _extract_current_prices aligned_data positions ;
  try current_value <- calculate_portfolio_value positions current_prices ;
  try series <- _calculate_historical_portfolio_series positions aligned_data ;
  let sensitivity_range :=
    map (fun x => inject_Z x / 100) SENSITIVITY_RANGE in
  try sensitivity_table <-
    calculate_sensitivity_table positions current_prices sensitivity_range ;
  try risk_metrics_data <-
    _calculate_risk_metrics series current_value actual_days positions
      aligned_data ;
  try delta_exposure <- calculate_delta_exposure positions ;
  try scenario_results <- run_all_scenarios positions current_prices ;
  Ok (RiskProfile current_value data_warning sensitivity_table
        risk_metrics_data delta_exposure scenario_results).

Definition calculate_risk_profile (db : database)
    (positions : list position) (lookback_days : option Z)
    : result (risk_profile metrics_data scenario_results) :=
  let lookback_days := get_default lookback_days 30%Z in
  try _u <- _validate_positions positions ;
  try h <- fetch_and_align db positions lookback_days ;
  let data_warning :=
    data_warning_of (ah_actual_days h)
      (map warning_text (ah_alignment_warnings h)) in
  value_and_assemble positions (ah_aligned h) (ah_actual_days h)
    data_warning.
End Orchestrator.

(** *** Historical portfolio values ([_calculate_historical_portfolio_series])

    The price dict built for one row: a position whose column the table
    lacks is left out of it. *)
Fixpoint row_prices_loop (aligned_data : data_frame) (row : aligned_row)
    (positions : list position) (prices : gmap price_key Q)
    : result (gmap price_key Q) :=
  match positions with
  | [] => Ok prices
  | pos :: rest =>
      try asset <- getitem "asset" (asset pos) ;
      try position_type <- getitem "position_type" (position_type pos) ;
      let price_key : price_key := inl (asset, position_type) in
      let col_name :=
        if String.eqb position_type "spot" then spot_column asset
        else futures_mark_column asset in
      if has_column col_name aligned_data then
        try v <- cell_value col_name row ;
        row_prices_loop aligned_data row rest (<[price_key := v]> prices)
      else row_prices_loop aligned_data row rest prices
  end.

(** The loop over [aligned_data.iterrows()]; a row with an empty price dict
    adds no value. *)
Fixpoint portfolio_values_loop (aligned_data : data_frame)
    (rows : list aligned_row) (positions : list position) : result (list Q) :=
  match rows with
  | [] => Ok []
  | row :: rest =>
      try prices <- row_prices_loop aligned_data row positions ∅ ;
      if negb (bool_decide (prices = ∅)) then
        try value <- calculate_portfolio_value positions prices ;
        try values <- portfolio_values_loop aligned_data rest positions ;
        Ok (value :: values)
      else portfolio_values_loop aligned_data rest positions
  end.

(** [metrics.calculate_returns] lives outside this development: it is a
    parameter here, and it may raise. *)
Definition _calculate_historical_portfolio_series {returns : Type}
    (calculate_returns : list Q -> result returns)
    (positions : list position) (aligned_data : data_frame)
    : result (list Q * returns) :=
  try portfolio_values <-
    portfolio_values_loop aligned_data (rows aligned_data) positions ;
  try portfolio_returns <- calculate_returns portfolio_values ;
  Ok (portfolio_values, portfolio_returns).

(** ** Chart data ([graph.py], [calculate_sensitivity_graph] and
    [calculate_delta_gauge]) *)

Record data_point : Type := DataPoint {
  dp_x : Q;
  dp_y : Q;
  dp_return_pct : Q;
  dp_pnl : Q
}.

Record value_range : Type := ValueRange {
  vr_min : Q;
  vr_max : Q;
  vr_current : Q
}.

Record sensitivity_graph : Type := SensitivityGraph {
  data_points : list data_point;
  current_position : nat;
  sg_value_range : value_range
}.

(** Python's [min(a, b)]: the second argument only when strictly smaller. *)
Definition pymin (a b : Q) : Q := if Qlt_bool b a then b else a.

(** [min(values) if values else 0] and [max(values) if values else 0]. *)
Definition min_or_zero (values : list Q) : Q :=
  match values with
  | [] => 0
  | v :: rest => fold_left pymin rest v
  end.

Definition max_or_zero (values : list Q) : Q :=
  match values with
  | [] => 0
  | v :: rest => fold_left pymax rest v
  end.

(** [for idx, row in enumerate(sensitivity_table)]. *)
Fixpoint sensitivity_graph_loop (idx : nat) (sensitivity_table : list sensitivity_row)
    (data_points : list data_point) (current_idx : nat) (current_value : Q)
    : list data_point * nat * Q :=
  match sensitivity_table with
  | [] => (data_points, current_idx, current_value)
  | row :: rest =>
      let data_point :=
        DataPoint (price_change_pct row) (portfolio_value row)
          (return_pct row) (pnl row) in
      let data_points := data_points ++ [data_point] in
      if Qeq_bool (price_change_pct row) 0 then
        sensitivity_graph_loop (S idx) rest data_points idx
          (portfolio_value row)
      else
        sensitivity_graph_loop (S idx) rest data_points current_idx
          current_value
  end.

Definition calculate_sensitivity_graph (sensitivity_table : list sensitivity_row)
    : sensitivity_graph :=
  match sensitivity_table with
  | [] => SensitivityGraph [] 0 (ValueRange 0 0 0)
  | _ =>
      let '(data_points, current_idx, current_value) :=
        sensitivity_graph_loop 0 sensitivity_table [] 0 0 in
      let values := map dp_y data_points in
      SensitivityGraph data_points current_idx
        (ValueRange (min_or_zero values) (max_or_zero values) current_value)
  end.

Record delta_gauge : Type := DeltaGauge {
  delta_raw : Q;
  dg_delta_normalized : Q;
  dg_status : string;
  dg_portfolio_value : Q;
  directional_exposure_pct : Q
}.

(** The argument [positions] of the source is not read.  The mean of the
    positive prices does not depend on the order in which the dict yields
    them. *)
Definition calculate_delta_gauge (delta_exposure portfolio_value : Q)
    (positions : list position) (current_prices : gmap price_key Q)
    : delta_gauge :=
  let prices :=
    List.filter (fun p => Qlt_bool 0 p) (map snd (map_to_list current_prices)) in
  let avg_price := get_default (mean prices) 1 in
  let delta_normalized :=
    if Qlt_bool 0 portfolio_value && Qlt_bool 0 avg_price then
      let position_equivalent := portfolio_value / avg_price in
      if negb (Qeq_bool position_equivalent 0) then
        delta_exposure / position_equivalent
      else 0
    else 0 in
  let delta_normalized := pymax (- (1)) (pymin 1 delta_normalized) in
  let abs_delta := Qabs delta_normalized in
  let status :=
    if Qle_bool abs_delta (5 # 100) then "neutral"
    else if Qle_bool abs_delta (2 # 10) then
      if Qlt_bool 0 delta_normalized then "slight_long" else "slight_short"
    else if Qlt_bool 0 delta_normalized then "high_long" else "high_short" in
  let directional_exposure_pct :=
    if Qlt_bool 0 portfolio_value then
      Qabs delta_exposure / portfolio_value * 100
    else 0 in
  DeltaGauge delta_exposure delta_normalized status portfolio_value
    directional_exposure_pct.

(** ** Sanitizing values for JSON ([backend/src/utils.py])

    Here a float is a rational or one of the three values JSON cannot carry;
    a value is what a response holds: [None], a bool, an int, a float, a
    string, a list or a dict (an association list in insertion order). *)

Inductive pyfloat : Type :=
| Finite (q : Q)
| PosInf
| NegInf
| NaN.

Unset Elimination Schemes.
Inductive json : Type :=
| JNone
| JBool (b : bool)
| JInt (n : Z)
| JFloat (f : pyfloat)
| JStr (s : string)
| JList (items : list json)
| JDict (items : list (string * json)).
Set Elimination Schemes.

(** [math.isinf(value) or math.isnan(value)]. *)
Definition isinf_or_isnan (f : pyfloat) : bool :=
  match f with
  | Finite _ => false
  | _ => true
  end.

(** [sanitize_float(value, default)]; a bool is an int to [isinstance], and
    [float(value)] of an int is taken without rounding. *)
Definition sanitize_float (value default : json) : json :=
  match value with
  | JNone => default
  | JBool b => JFloat (Finite (if b then 1 else 0))
  | JInt n => JFloat (Finite (inject_Z n))
  | JFloat f => if isinf_or_isnan f then default else JFloat f
  | _ => default
  end.

(** The [isinstance] chain both loops apply to an entry. *)
Fixpoint sanitize_item (value : json) : json :=
  match value with
  | JDict items =>
      JDict (map (fun kv => (fst kv, sanitize_item (snd kv))) items)
  | JList items => JList (map sanitize_item items)
  | JFloat f => sanitize_float (JFloat f) JNone
  | _ => value
  end.

Definition sanitize_dict (data : json) : json :=
  match data with
  | JDict items =>
      JDict (map (fun kv => (fst kv, sanitize_item (snd kv))) items)
  | _ => data
  end.

Definition sanitize_list (data : json) : json :=
  match data with
  | JList items => JList (map sanitize_item items)
  | _ => data
  end.

(** ** Request models ([models.py], [PositionInput] and [RiskProfileRequest])

    An instance of a model holds values that passed its field constraints;
    [model_dump] turns it into the dict the orchestrator reads, every field
    present, the leverage with its default filled in. *)

Record PositionInput : Type := MkPositionInput {
  pi_asset : string;
  pi_quantity : Q;
  pi_position_type : string;
  pi_entry_price : Q;
  pi_leverage : Q
}.

(** [quantity: gt=0], [entry_price: gt=0], [leverage: gt=0, le=125] and the
    validator of [position_type]. *)
Definition position_input_constraints (p : PositionInput) : bool :=
  Qlt_bool 0 (pi_quantity p)
  && string_in (pi_position_type p)
       ["spot"; "futures_long"; "futures_short"]%string
  && Qlt_bool 0 (pi_entry_price p)
  && (Qlt_bool 0 (pi_leverage p) && Qle_bool (pi_leverage p) 125).

(** [positions: min_length=1, max_length=20] and
    [lookback_days: ge=7, le=180]. *)
Definition risk_profile_request_constraints (positions : list PositionInput)
    (lookback_days : Z) : bool :=
  (1 <=? length positions)%nat && (length positions <=? 20)%nat
  && forallb position_input_constraints positions
  && ((7 <=? lookback_days)%Z && (lookback_days <=? 180)%Z).

Definition model_dump (p : PositionInput) : position :=
  Position (Some (pi_asset p)) (Some (pi_quantity p))
    (Some (pi_position_type p)) (Some (pi_entry_price p))
    (Some (pi_leverage p)).

(** * Properties *)

(** ** Specification-side definitions *)

(** The signed quantity the specification gives a position: [+quantity] for
    spot and futures_long, [-quantity] for futures_short. *)
Definition spec_signed_quantity (pos : position) : Q :=
  match position_type pos, quantity pos with
  | Some t, Some q =>
      if String.eqb t "spot" then q
      else if String.eqb t "futures_long" then q
      else if String.eqb t "futures_short" then - q
      else 0
  | _, _ => 0
  end.

Definition spec_delta_exposure (positions : list position) : Q :=
  foldr (fun pos acc => spec_signed_quantity pos + acc) 0 positions.

(** A position of the data model, as far as delta exposure reads it. *)
Definition has_quantity_and_kind (pos : position) : Prop :=
  is_Some (quantity pos) /\
  exists t, position_type pos = Some t /\ string_in t valid_position_types = true.

(** A position with its leverage entry removed. *)
Definition without_leverage (pos : position) : position :=
  Position (asset pos) (quantity pos) (position_type pos) (entry_price pos) None.

(** What the specification rejects in one position. *)
Definition invalid_position (pos : position) : Prop :=
  asset pos = None \/ quantity pos = None \/ position_type pos = None
  \/ entry_price pos = None
  \/ (exists t, position_type pos = Some t
                /\ t <> "spot"%string /\ t <> "futures_long"%string
                /\ t <> "futures_short"%string)
  \/ (exists q, quantity pos = Some q /\ q <= 0)
  \/ (exists e, entry_price pos = Some e /\ e <= 0)
  \/ (exists l, leverage pos = Some l /\ (l <= 0 \/ 125 < l)).

(** What the specification rejects in a position list. *)
Definition invalid_portfolio (positions : list position) : Prop :=
  positions = [] \/ (20 < length positions)%nat
  \/ Exists invalid_position positions.

(** The positions the liquidation loop assesses: futures with leverage
    above 1. *)
Definition leveraged_future (pos : position) : bool :=
  match position_type pos with
  | Some t => is_leveraged_future t pos
  | None => false
  end.

(** The current price the assessment uses: the snapshot's price under the
    composite key, the entry price when there is none. *)
Definition assessment_price (prices : gmap price_key Q) (a t : string)
    (pos : position) : Q :=
  get_default (prices !! (inl (a, t) : price_key))
    (get_default (entry_price pos) 0).

(** A position the loop can go through: its type is present and, when it is
    assessed, so is its asset, and its current price is not zero. *)
Definition assessable (prices : gmap price_key Q) (pos : position) : Prop :=
  exists t, position_type pos = Some t
    /\ (is_leveraged_future t pos = true ->
        exists a, asset pos = Some a /\ ~ assessment_price prices a t pos == 0).

(** What the specification says of the entry [r] of an assessed position. *)
Definition assessed_as (prices : gmap price_key Q) (pos : position)
    (r : liquidation_entry) : Prop :=
  exists a t,
    asset pos = Some a /\ position_type pos = Some t
    /\ liq_asset r = a /\ liq_position_type r = t
    /\ let l := get_default (leverage pos) 1 in
       let e := get_default (entry_price pos) 0 in
       let c := assessment_price prices a t pos in
       let liq := liquidation_price r in
       let pct :=
         if String.eqb t "futures_long" then ((c - liq) / c) * 100
         else ((liq - c) / c) * 100 in
       1 < l /\ liq_current_price r = c
       /\ (t = "futures_long"%string \/ t = "futures_short"%string)
       /\ (t = "futures_long"%string -> liq = e * (1 - (9 # 10) / l))
       /\ (t = "futures_short"%string -> liq = e * (1 + (9 # 10) / l))
       /\ price_distance_pct r = Qabs pct
       /\ (50 < pct -> risk_level r = "safe"%string)
       /\ (25 < pct /\ pct <= 50 -> risk_level r = "moderate"%string)
       /\ (pct <= 25 -> risk_level r = "high"%string).

(** The order of the risk levels: high above moderate above the rest. *)
Definition level_rank (level : string) : nat :=
  if String.eqb level "high" then 2
  else if String.eqb level "moderate" then 1
  else 0.

Definition worse_level (l1 l2 : string) : string :=
  if (level_rank l1 <? level_rank l2)%nat then l2 else l1.

(** The specification's overall risk: the worst level over the assessed
    positions, low when there is none. *)
Definition spec_overall_risk (levels : list string) : string :=
  match levels with
  | [] => "low"
  | l :: rest => fold_left worse_level rest l
  end.

(** *** Columns of the aligned table

    The fill operations, read on one column at a time. *)

Definition column (col : string) (rs : list aligned_row) : list (option Q) :=
  map (get_cell col) rs.

Fixpoint ffill_list (carry : option Q) (l : list (option Q))
    : list (option Q) :=
  match l with
  | [] => []
  | Some v :: rest => Some v :: ffill_list (Some v) rest
  | None :: rest => carry :: ffill_list carry rest
  end.

Definition bfill_list (l : list (option Q)) : list (option Q) :=
  rev (ffill_list None (rev l)).

Definition fillna_list (v : Q) (l : list (option Q)) : list (option Q) :=
  map (fun c => match c with None => Some v | Some _ => c end) l.

Definition count_na (l : list (option Q)) : nat :=
  length (List.filter (fun c => negb (has_key c)) l).

(** The missing cells a column starts with. *)
Fixpoint leading_na (l : list (option Q)) : nat :=
  match l with
  | None :: rest => S (leading_na rest)
  | _ => 0
  end.

(** The value a series holds at a timestamp. *)
Definition lookup_ts (t : Z) (df : list (Z * Q)) : option Q :=
  option_map snd (find (fun x => (fst x =? t)%Z) df).

(** *** What the specification asks of alignment *)

(** A timestamp at midnight. *)
Definition day_aligned (t : Z) : Prop := (t mod seconds_per_day = 0)%Z.

(** A daily series: at least one observation, one per day, at midnight. *)
Definition daily_series (ts : list Z) : Prop :=
  ts <> [] /\ List.NoDup ts /\ Forall day_aligned ts.

Definition observed (ts : list Z) (t : Z) : bool := existsb (Z.eqb t) ts.

(** The days of the timeline before the first observation of a series:
    the leading gap, which back-fill (or the zero default) closes. *)
Fixpoint leading_missing (ts : list Z) (timeline : list Z) : nat :=
  match timeline with
  | [] => 0
  | t :: rest => if observed ts t then 0 else S (leading_missing ts rest)
  end.

(** One warning entry for a column with a leading gap, none without. *)
Definition gap_entry (mk : string -> nat -> alignment_warning)
    (asset : string) (n : nat) : list alignment_warning :=
  if (n =? 0)%nat then [] else [mk asset n].

(** The warning list the specification expects: per asset and field with
    filled values one entry, which counts them. *)
Definition spec_warnings (timeline : list Z)
    (spot_data : list (string * list (Z * Q)))
    (futures_data : list (string * list daily_futures_row))
    : list alignment_warning :=
  flat_map
    (fun item =>
       gap_entry SpotGap (fst item)
         (leading_missing (map fst (snd item)) timeline))
    spot_data
  ++ flat_map
       (fun item =>
          let n := leading_missing (map d_timestamp (snd item)) timeline in
          gap_entry MarkGap (fst item) n ++ gap_entry FundingGap (fst item) n)
       futures_data.

Definition spot_columns (spot_data : list (string * list (Z * Q)))
    : list string :=
  map (fun item => spot_column (fst item)) spot_data.

Definition futures_columns
    (futures_data : list (string * list daily_futures_row)) : list string :=
  flat_map
    (fun item => [futures_mark_column (fst item); funding_column (fst item)])
    futures_data.

(** A table over [timeline] whose data columns are [cols], none of them with
    a missing value. *)
Definition complete (cols : list string) (timeline : list Z)
    (aligned : data_frame) : Prop :=
  map row_timestamp (rows aligned) = timeline
  /\ columns aligned = "timestamp"%string :: cols
  /\ forall c, In c cols -> Forall is_Some (column c (rows aligned)).

(** A series the timeline can take: one row per timestamp, and an
    observation on some day of the timeline. *)
Definition alignable (timeline : list Z) (ts : list Z) : Prop :=
  List.NoDup ts /\ exists t, In t ts /\ In t timeline.

(** ** Worked inputs *)

Definition btc_spot : position :=
  Position (Some "BTC"%string) (Some 1) (Some "spot"%string) (Some 45000) None.

Definition eth_long : position :=
  Position (Some "ETH"%string) (Some 10) (Some "futures_long"%string)
    (Some 2500) (Some 2).

Definition btc_short : position :=
  Position (Some "BTC"%string) (Some 1) (Some "futures_short"%string)
    (Some 45000) (Some 3).

Definition snapshot_ex : gmap price_key Q :=
  {[ (inl ("BTC", "spot") : price_key)%string := 50000;
     (inl ("ETH", "futures_long") : price_key)%string := 2700 ]}.

Definition eth_long_safe : position :=
  Position (Some "ETH"%string) (Some 10) (Some "futures_long"%string)
    (Some 2500) (Some (3 # 2)).

Definition metrics_ex : risk_metrics :=
  RiskMetrics (Some (45 # 100)) (Some (18 # 10)).

Definition eth_spot : position :=
  Position (Some "ETH"%string) (Some 10) (Some "spot"%string) (Some 2500) None.

(** A database with mark prices and no funding rates for ETH. *)
Definition db_no_funding : database :=
  Database
    (fun _ => Rows [(0%Z, 50000); (43200%Z, 50500)])
    (fun a =>
       if String.eqb a "ETH" then
         Rows [(0%Z, 2700); (28800%Z, 2710); (86400%Z, 2720)]
       else Rows [])
    (fun _ => Rows []).

(** A database whose ETH funding timestamps never coincide with a mark
    timestamp: two days of BTC closes, three ETH mark prices, two ETH
    funding rates one second after a mark price. *)
Definition db_gap : database :=
  Database
    (fun a =>
       if String.eqb a "BTC" then Rows [(0%Z, 50000); (86400%Z, 51000)]
       else Rows [])
    (fun a =>
       if String.eqb a "ETH" then
         Rows [(0%Z, 2700); (28800%Z, 2710); (86400%Z, 2720)]
       else Rows [])
    (fun a =>
       if String.eqb a "ETH" then
         Rows [(1%Z, 1 # 10000); (28801%Z, 1 # 10000)]
       else Rows []).

(** The daily frames [resample_to_daily] makes of [db_gap]. *)
Definition spot_gap_input : list (string * list (Z * Q)) :=
  [("BTC"%string, [(0%Z, 50000); (86400%Z, 51000)])].

Definition futures_gap_input : list (string * list daily_futures_row) :=
  [("ETH"%string, [])].

(** [n] daily closes at one price, from day 0 on. *)
Definition daily_candles (n : nat) (price : Q) : list (Z * Q) :=
  map (fun k => ((Z.of_nat k * seconds_per_day)%Z, price)) (seq 0 n).

(** 41 daily closes of BTC and the first 11 days of ETH. *)
Definition db_uneven : database :=
  Database
    (fun a =>
       if String.eqb a "BTC" then Rows (daily_candles 41 50000)
       else if String.eqb a "ETH" then Rows (daily_candles 11 2700)
       else Rows [])
    (fun _ => Rows [])
    (fun _ => Rows []).

(** The days between the first and the last row of the aligned history. *)
Definition history_span_days (aligned : data_frame) : Z :=
  ((ts_max (map row_timestamp (rows aligned))
    - ts_min (map row_timestamp (rows aligned))) / seconds_per_day)%Z.

(** The change of a position's value per unit of relative price move: the
    signed notional, [quantity * price] for spot and futures_long and its
    opposite for futures_short. *)
Definition position_dollar_delta (pos : position)
    (prices : gmap price_key Q) : Q :=
  match asset pos, quantity pos, position_type pos with
  | Some a, Some q, Some t =>
      match lookup_price prices a t with
      | Some p =>
          if String.eqb t "spot" then q * p
          else if String.eqb t "futures_long" then q * p
          else if String.eqb t "futures_short" then - (q * p)
          else 0
      | None => 0
      end
  | _, _, _ => 0
  end.

Definition dollar_delta (positions : list position)
    (prices : gmap price_key Q) : Q :=
  foldr (fun pos acc => position_dollar_delta pos prices + acc) 0 positions.

(** The position index a validation error names. *)
Definition error_index (e : value_error) : option nat :=
  match e with
  | MissingField i _ | InvalidPositionType i | InvalidQuantity i
  | InvalidEntryPrice i | InvalidLeverage i => Some i
  | _ => None
  end.

(** The field of a position, by its key. *)
Definition field_present (field : string) (pos : position) : bool :=
  if String.eqb field "asset" then has_key (asset pos)
  else if String.eqb field "quantity" then has_key (quantity pos)
  else if String.eqb field "position_type" then has_key (position_type pos)
  else if String.eqb field "entry_price" then has_key (entry_price pos)
  else if String.eqb field "leverage" then has_key (leverage pos)
  else false.

(** The column a position's price is read from: the spot column for a spot
    position, the futures mark column for every other kind. *)
Definition price_column (a t : string) : string :=
  if String.eqb t "spot" then spot_column a else futures_mark_column a.

(** A table with two days of BTC closes and ETH mark prices. *)
Definition aligned_ex : data_frame :=
  DataFrame ["timestamp"; "BTC_spot"; "ETH_futures_mark"; "ETH_funding"]%string
    [AlignedRow 0 [("BTC_spot"%string, Some 49000);
                   ("ETH_futures_mark"%string, Some 2600);
                   ("ETH_funding"%string, Some 0)];
     AlignedRow 86400 [("BTC_spot"%string, Some 50000);
                       ("ETH_futures_mark"%string, Some 2700);
                       ("ETH_funding"%string, Some 0)]].

(** What the spot query of one asset leaves behind: a frame, or a logged
    warning. *)
Definition spot_outcome (db : database) (asset : string)
    : list (Z * Q) + fetch_warning :=
  match get_ohlcv_data db asset with
  | FetchError => inr (SpotFetchFailed asset)
  | Rows [] => inr (NoSpotDataAvailable asset)
  | Rows result => inl (sort_values fst result)
  end.

(** The cells a series gives the rows of a timeline before any fill. *)
Definition series_column (df : list (Z * Q)) (timeline : list Z)
    : list (option Q) :=
  map (fun t => lookup_ts t df) timeline.

(** The mark-price and funding series of a daily futures frame. *)
Definition mark_series (df : list daily_futures_row) : list (Z * Q) :=
  map (fun r => (d_timestamp r, d_mark_price r)) df.

Definition funding_series (df : list daily_futures_row) : list (Z * Q) :=
  map (fun r => (d_timestamp r, d_funding_rate r)) df.

(** A value JSON can carry: no float in it is infinite or NaN. *)
Fixpoint json_compliant (v : json) : bool :=
  match v with
  | JFloat f => negb (isinf_or_isnan f)
  | JList items => forallb json_compliant items
  | JDict items => forallb (fun kv => json_compliant (snd kv)) items
  | _ => true
  end.

(** Two values of the same shape: equal but for floats replaced by [None]. *)
Fixpoint same_shape (v w : json) : bool :=
  match v, w with
  | JList xs, JList ys =>
      (fix go (xs ys : list json) : bool :=
         match xs, ys with
         | [], [] => true
         | x :: xs, y :: ys => same_shape x y && go xs ys
         | _, _ => false
         end) xs ys
  | JDict xs, JDict ys =>
      (fix go (xs ys : list (string * json)) : bool :=
         match xs, ys with
         | [], [] => true
         | x :: xs, y :: ys =>
             String.eqb (fst x) (fst y) && same_shape (snd x) (snd y)
             && go xs ys
         | _, _ => false
         end) xs ys
  | JFloat f, JFloat g =>
      match f, g with
      | Finite p, Finite q => Qeq_bool p q
      | _, _ => false
      end
  | JFloat f, JNone => isinf_or_isnan f
  | JNone, JNone => true
  | JBool a, JBool b => Bool.eqb a b
  | JInt a, JInt b => Z.eqb a b
  | JStr a, JStr b => String.eqb a b
  | _, _ => false
  end.

(** The value the specification gives a position of kind [t], with quantity
    [q], entry price [e] and leverage [l], at the price [p]. *)
Definition spec_value_at_price (t : string) (q e l p : Q) : result Q :=
  if String.eqb t "spot" then Ok (q * p)
  else if String.eqb t "futures_long" then
    if Qeq_bool l 0 then Raise ZeroDivisionError
    else Ok (q * e / l + (p - e) * q)
  else if String.eqb t "futures_short" then
    if Qeq_bool l 0 then Raise ZeroDivisionError
    else Ok (q * e / l + (e - p) * q)
  else Raise (ValueError (UnknownPositionType t)).

(** A snapshot that holds ETH under the composite key and, at another price,
    under the bare asset key. *)
Definition snapshot_both_keys : gmap price_key Q :=
  {[ (inl ("ETH", "futures_long") : price_key)%string := 2700;
     (inr "ETH" : price_key)%string := 9999 ]}.

(** A database whose ETH futures start two days after its ETH spot closes
    and whose funding-rate query returns no row. *)
Definition db_late_futures : database :=
  Database
    (fun a =>
       if String.eqb a "ETH" then
         Rows [(0%Z, 2600); (86400%Z, 2650); (172800%Z, 2700);
               (259200%Z, 2710)]
       else Rows [])
    (fun a =>
       if String.eqb a "ETH" then Rows [(172800%Z, 2700); (259200%Z, 2710)]
       else Rows [])
    (fun _ => Rows []).

(** ** Tactics *)

Ltac qconst_inv :=
  unfold Qdiv in *;
  repeat match goal with
  | |- context [Qinv (?n # ?d)] =>
      let v := eval vm_compute in (Qinv (n # d)) in
      change (Qinv (n # d)) with v
  | H : context [Qinv (?n # ?d)] |- _ =>
      let v := eval vm_compute in (Qinv (n # d)) in
      change (Qinv (n # d)) with v in H
  end.

Lemma Qeq_bool_false (x y : Q) : ~ x == y -> Qeq_bool x y = false.
Proof.
  intros H. destruct (Qeq_bool x y) eqn:E; [|reflexivity].
  apply Qeq_bool_iff in E. contradiction.
Qed.

Lemma Qlt_bool_iff (x y : Q) : Qlt_bool x y = true <-> x < y.
Proof.
  unfold Qlt_bool. rewrite negb_true_iff.
  destruct (Qle_bool y x) eqn:E.
  - apply Qle_bool_iff in E. split; [discriminate | intros H; lra].
  - split; [intros _ | reflexivity].
    apply Qnot_le_lt. intros H. apply Qle_bool_iff in H. congruence.
Qed.

Lemma Qlt_bool_false_iff (x y : Q) : Qlt_bool x y = false <-> y <= x.
Proof.
  unfold Qlt_bool. rewrite negb_false_iff. apply Qle_bool_iff.
Qed.

Lemma Qle_bool_false_iff (x y : Q) : Qle_bool x y = false <-> y < x.
Proof.
  rewrite <- Qlt_bool_iff. unfold Qlt_bool.
  destruct (Qle_bool x y); simpl; split; congruence.
Qed.

(** ** Valuation *)

Lemma delta_exposure_loop_set_leverage (l : Q) (pos : position)
    (before after : list position) (delta : Q) :
  delta_exposure_loop delta (before ++ set_leverage l pos :: after)
  = delta_exposure_loop delta (before ++ pos :: after).
Proof.
  revert delta. induction before as [|b before IH]; intros delta; simpl.
  - reflexivity.
  - destruct (quantity b); simpl; [|reflexivity].
    destruct (position_type b); simpl; [|reflexivity].
    repeat (destruct (String.eqb _ _); [apply IH|]). apply IH.
Qed.

Lemma position_value_resolved
    (pos : position) (prices : gmap price_key Q) (a t : string) (q e p : Q) :
  asset pos = Some a -> quantity pos = Some q ->
  position_type pos = Some t -> entry_price pos = Some e ->
  lookup_price prices a t = Some p ->
  calculate_position_value pos prices =
    if String.eqb t "spot" then Ok (calculate_spot_value q p)
    else if String.eqb t "futures_long" then
      calculate_futures_long_value q e p (get_default (leverage pos) 1)
    else if String.eqb t "futures_short" then
      calculate_futures_short_value q e p (get_default (leverage pos) 1)
    else Raise (ValueError (UnknownPositionType t)).
Proof.
  intros Ha Hq Ht He Hp. unfold calculate_position_value.
  rewrite Ha, Hq, Ht, He; simpl. rewrite Hp. reflexivity.
Qed.

(** C1. A futures position with a resolved price is worth margin plus pnl,
    with margin = quantity * entry_price / leverage and pnl =
    (price - entry) * quantity for a long, (entry - price) * quantity for a
    short; doubling the leverage halves the margin summand and leaves the pnl
    summand and the delta exposure as they were; a spot position is worth
    quantity * price. *)
Theorem position_value_margin_plus_pnl
    (pos : position) (prices : gmap price_key Q) (a t : string) (q e p : Q) :
  asset pos = Some a -> quantity pos = Some q ->
  position_type pos = Some t -> entry_price pos = Some e ->
  let l := get_default (leverage pos) 1 in
  ~ l == 0 ->
  lookup_price prices a t = Some p ->
  (t = "futures_long"%string ->
     calculate_position_value pos prices
       = Ok (margin q e l + pnl_long q e p)
     /\ margin q e l = q * e / l /\ pnl_long q e p = (p - e) * q
     /\ (exists v, calculate_position_value (set_leverage (2 * l) pos) prices
                   = Ok v
                   /\ v == margin q e l / 2 + pnl_long q e p))
  /\ (t = "futures_short"%string ->
     calculate_position_value pos prices
       = Ok (margin q e l + pnl_short q e p)
     /\ pnl_short q e p = (e - p) * q
     /\ (exists v, calculate_position_value (set_leverage (2 * l) pos) prices
                   = Ok v
                   /\ v == margin q e l / 2 + pnl_short q e p))
  /\ (t = "spot"%string ->
     calculate_position_value pos prices = Ok (q * p))
  /\ margin q e (2 * l) == margin q e l / 2
  /\ (forall before after,
        calculate_delta_exposure (before ++ set_leverage (2 * l) pos :: after)
        = calculate_delta_exposure (before ++ pos :: after)).
Proof.
  intros Ha Hq Ht He l Hl Hp.
  assert (Hl2 : ~ 2 * l == 0) by (intros H; apply Hl; lra).
  assert (Hm : margin q e (2 * l) == margin q e l / 2)
    by (unfold margin; field; exact Hl).
  pose proof (position_value_resolved pos prices a t q e p Ha Hq Ht He Hp)
    as H1.
  pose proof (position_value_resolved (set_leverage (2 * l) pos) prices
                a t q e p Ha Hq Ht He Hp) as H2.
  simpl in H2. fold l in H1.
  split; [|split; [|split; [|split]]].
  - intros ->. simpl in H1, H2. unfold calculate_futures_long_value in H1, H2.
    rewrite (Qeq_bool_false _ _ Hl) in H1.
    rewrite (Qeq_bool_false _ _ Hl2) in H2.
    repeat split; [exact H1|]. eexists; split; [exact H2|].
    rewrite Hm. reflexivity.
  - intros ->. simpl in H1, H2. unfold calculate_futures_short_value in H1, H2.
    rewrite (Qeq_bool_false _ _ Hl) in H1.
    rewrite (Qeq_bool_false _ _ Hl2) in H2.
    repeat split; [exact H1|]. eexists; split; [exact H2|].
    rewrite Hm. reflexivity.
  - intros ->. exact H1.
  - exact Hm.
  - intros before after. apply delta_exposure_loop_set_leverage.
Qed.

Lemma position_value_margin_plus_pnl_witness :
  calculate_position_value eth_long snapshot_ex
  = Ok (margin 10 2500 2 + pnl_long 10 2500 2700).
Proof.
  refine (proj1 (proj1 (position_value_margin_plus_pnl eth_long snapshot_ex
            "ETH" "futures_long" 10 2500 2700
            eq_refl eq_refl eq_refl eq_refl _ _) eq_refl)).
  - vm_compute. discriminate.
  - reflexivity.
Defined.

Lemma delta_exposure_loop_spec (positions : list position) :
  Forall has_quantity_and_kind positions ->
  forall delta, exists d,
    delta_exposure_loop delta positions = Ok d
    /\ d == delta + spec_delta_exposure positions.
Proof.
  induction 1 as [|pos rest [[q Hq] [t [Ht Hk]]] _ IH]; intros delta; simpl.
  - exists delta. split; [reflexivity | lra].
  - unfold spec_signed_quantity. rewrite Hq, Ht; simpl.
    unfold string_in, valid_position_types in Hk; simpl in Hk.
    destruct (String.eqb t "spot") eqn:E1.
    { apply String.eqb_eq in E1; subst t; simpl.
      destruct (IH (delta + q)) as [d [Hd Hv]]. exists d. split; [exact Hd|lra]. }
    destruct (String.eqb t "futures_long") eqn:E2.
    { apply String.eqb_eq in E2; subst t; simpl.
      destruct (IH (delta + q)) as [d [Hd Hv]]. exists d. split; [exact Hd|lra]. }
    destruct (String.eqb t "futures_short") eqn:E3; [|discriminate].
    destruct (IH (delta - q)) as [d [Hd Hv]]. exists d. split; [exact Hd|lra].
Qed.

Lemma delta_exposure_loop_without_leverage (ps ps' : list position) :
  map without_leverage ps = map without_leverage ps' ->
  forall delta, delta_exposure_loop delta ps = delta_exposure_loop delta ps'.
Proof.
  revert ps'. induction ps as [|p ps IH]; intros [|p' ps'] H delta;
    try discriminate; [reflexivity|].
  simpl in H.
  assert (Hp : without_leverage p = without_leverage p') by congruence.
  assert (Hps : map without_leverage ps = map without_leverage ps')
    by congruence.
  pose proof (f_equal quantity Hp) as Hq.
  pose proof (f_equal position_type Hp) as Ht.
  simpl in Hq, Ht. simpl. rewrite Hq, Ht.
  destruct (quantity p'); simpl; [|reflexivity].
  destruct (position_type p'); simpl; [|reflexivity].
  repeat (destruct (String.eqb _ _); [apply IH; exact Hps|]).
  apply IH; exact Hps.
Qed.

(** C2. The delta exposure of a list of positions is the signed sum of the
    quantities, plus for spot and futures_long, minus for futures_short;
    leverage never enters: lists that differ in leverage entries only have
    the same delta exposure, and a spot long of 1 with a futures short of 1
    of the same asset has delta exposure 0 at any leverage. *)
Theorem delta_exposure_signed_sum (positions : list position) :
  Forall has_quantity_and_kind positions ->
  (exists d, calculate_delta_exposure positions = Ok d
             /\ d == spec_delta_exposure positions)
  /\ (forall positions',
        map without_leverage positions' = map without_leverage positions ->
        calculate_delta_exposure positions'
        = calculate_delta_exposure positions)
  /\ (forall (a : string) (e1 e2 : option Q) (lev1 lev2 : option Q),
        exists d,
          calculate_delta_exposure
            [Position (Some a) (Some 1) (Some "spot"%string) e1 lev1;
             Position (Some a) (Some 1) (Some "futures_short"%string) e2 lev2]
          = Ok d /\ d == 0).
Proof.
  intros Hwf. split; [|split].
  - destruct (delta_exposure_loop_spec positions Hwf 0) as [d [Hd Hv]].
    exists d. split; [exact Hd | lra].
  - intros positions' H.
    apply delta_exposure_loop_without_leverage. exact H.
  - intros a e1 e2 lev1 lev2. eexists. split; [reflexivity | lra].
Qed.

Lemma delta_exposure_signed_sum_witness :
  exists d, calculate_delta_exposure [btc_spot; eth_long; btc_short] = Ok d
            /\ d == spec_delta_exposure [btc_spot; eth_long; btc_short].
Proof.
  refine (proj1 (delta_exposure_signed_sum [btc_spot; eth_long; btc_short] _)).
  repeat (apply List.Forall_cons;
          [split; [eexists; reflexivity | eexists; split; reflexivity]|]).
  apply List.Forall_nil.
Defined.

(** C5. The price of a position is read under the composite key
    (asset, position_type) first and under the bare asset key only when the
    composite key is absent: the value returned is the value of the position
    at the price stored under the composite key when that key is present,
    whatever the bare key holds, and at the price stored under the bare key
    when only that one is present; valuation fails with MissingPrice exactly
    when neither key resolves, and then it returns no value. *)
Theorem position_value_price_lookup
    (pos : position) (prices : gmap price_key Q) (a t : string) (q e : Q) :
  asset pos = Some a -> quantity pos = Some q ->
  position_type pos = Some t -> entry_price pos = Some e ->
  let l := get_default (leverage pos) 1 in
  (forall p, prices !! (inl (a, t) : price_key) = Some p ->
     calculate_position_value pos prices = spec_value_at_price t q e l p)
  /\ (forall p, prices !! (inl (a, t) : price_key) = None ->
        prices !! (inr a : price_key) = Some p ->
        calculate_position_value pos prices = spec_value_at_price t q e l p)
  /\ ((exists err, calculate_position_value pos prices = Raise err
                   /\ MissingPrice err)
      <-> prices !! (inl (a, t) : price_key) = None
          /\ prices !! (inr a : price_key) = None)
  /\ (prices !! (inl (a, t) : price_key) = None ->
      prices !! (inr a : price_key) = None ->
      calculate_position_value pos prices
      = Raise (ValueError (NoCurrentPrice a t))
      /\ forall v, calculate_position_value pos prices <> Ok v).
Proof.
  intros Ha Hq Ht He l.
  assert (Hres : forall p, lookup_price prices a t = Some p ->
            calculate_position_value pos prices
            = spec_value_at_price t q e l p).
  { intros p Hp.
    rewrite (position_value_resolved pos prices a t q e p Ha Hq Ht He Hp).
    reflexivity. }
  assert (Hnone : prices !! (inl (a, t) : price_key) = None ->
                  prices !! (inr a : price_key) = None ->
                  calculate_position_value pos prices
                  = Raise (ValueError (NoCurrentPrice a t))).
  { intros H1 H2. unfold calculate_position_value.
    rewrite Ha, Hq, Ht, He; simpl. unfold lookup_price. rewrite H1, H2.
    reflexivity. }
  split; [|split; [|split]].
  - intros p Hp. apply Hres. unfold lookup_price. rewrite Hp. reflexivity.
  - intros p Hn Hp. apply Hres. unfold lookup_price. rewrite Hn. exact Hp.
  - split.
    + intros [err [Herr Hmp]].
      destruct (lookup_price prices a t) as [p|] eqn:Hl.
      * rewrite (Hres p eq_refl) in Herr. unfold spec_value_at_price in Herr.
        repeat (destruct (String.eqb _ _) in Herr; try discriminate);
          repeat (destruct (Qeq_bool _ _) in Herr; try discriminate);
          injection Herr as <-; contradiction.
      * unfold lookup_price in Hl.
        destruct (prices !! (inl (a, t) : price_key)); [discriminate|].
        split; [reflexivity | exact Hl].
    + intros [H1 H2]. eexists. split; [apply Hnone; assumption | exact I].
  - intros H1 H2. split; [apply Hnone; assumption|].
    intros v. rewrite (Hnone H1 H2). discriminate.
Qed.

Lemma position_value_price_lookup_witness :
  calculate_position_value eth_long snapshot_both_keys
  = spec_value_at_price "futures_long" 10 2500 2 2700
  /\ exists v, calculate_position_value eth_long snapshot_both_keys = Ok v
               /\ v == 14500.
Proof.
  pose proof (proj1 (position_value_price_lookup eth_long snapshot_both_keys
                       "ETH" "futures_long" 10 2500
                       eq_refl eq_refl eq_refl eq_refl) 2700 eq_refl) as H.
  split; [exact H|]. rewrite H. eexists. split; [reflexivity|].
  vm_compute. reflexivity.
Defined.

(** ** Sensitivity table *)

Lemma lookup_price_shock (prices : gmap price_key Q) (s : Q) (a t : string) :
  lookup_price (apply_price_shock prices s) a t
  = option_map (fun price => price * (1 + s)) (lookup_price prices a t).
Proof.
  unfold lookup_price, apply_price_shock. rewrite !lookup_fmap.
  destruct (prices !! (inl (a, t) : price_key)); simpl; [reflexivity|].
  destruct (prices !! (inr a : price_key)); reflexivity.
Qed.

Lemma position_value_shock (pos : position) (prices : gmap price_key Q)
    (s v : Q) :
  calculate_position_value pos prices = Ok v ->
  exists v', calculate_position_value pos (apply_price_shock prices s) = Ok v'
             /\ (s == 0 -> v' == v).
Proof.
  unfold calculate_position_value.
  destruct (asset pos) as [a|]; simpl; [|discriminate].
  destruct (quantity pos) as [q|]; simpl; [|discriminate].
  destruct (position_type pos) as [t|]; simpl; [|discriminate].
  destruct (entry_price pos) as [e|]; simpl; [|discriminate].
  rewrite lookup_price_shock.
  destruct (lookup_price prices a t) as [p|]; simpl; [|discriminate].
  unfold calculate_futures_long_value, calculate_futures_short_value,
    calculate_spot_value, pnl_long, pnl_short.
  destruct (String.eqb t "spot").
  { intros [= <-]. eexists; split; [reflexivity|]. intros Hs. rewrite Hs. ring. }
  destruct (String.eqb t "futures_long").
  { destruct (Qeq_bool _ 0); [discriminate|].
    intros [= <-]. eexists; split; [reflexivity|]. intros Hs. rewrite Hs. ring. }
  destruct (String.eqb t "futures_short"); [|discriminate].
  destruct (Qeq_bool _ 0); [discriminate|].
  intros [= <-]. eexists; split; [reflexivity|]. intros Hs. rewrite Hs. ring.
Qed.

Lemma portfolio_value_loop_shock (positions : list position)
    (prices : gmap price_key Q) (s : Q) :
  forall total v, portfolio_value_loop total positions prices = Ok v ->
  forall total', exists v',
    portfolio_value_loop total' positions (apply_price_shock prices s) = Ok v'
    /\ (s == 0 -> total' == total -> v' == v).
Proof.
  induction positions as [|pos rest IH]; intros total v H total'; simpl in *.
  - injection H as <-. exists total'. split; [reflexivity | auto].
  - destruct (calculate_position_value pos prices) as [x|] eqn:E;
      simpl in H; [|discriminate].
    destruct (position_value_shock pos prices s x E) as [x' [E' Hx]].
    rewrite E'; simpl.
    destruct (IH _ _ H (total' + x')) as [v' [Hv' Heq]].
    exists v'. split; [exact Hv'|].
    intros Hs Ht. apply Heq; [exact Hs|]. rewrite (Hx Hs), Ht. reflexivity.
Qed.

Lemma sensitivity_rows_spec (positions : list position)
    (base_prices : gmap price_key Q) (base_value : Q) (shock_range : list Q) :
  calculate_portfolio_value positions base_prices = Ok base_value ->
  exists table,
    sensitivity_rows positions base_prices base_value shock_range = Ok table
    /\ map price_change_pct table = map (fun s => s * 100) shock_range
    /\ Forall (fun row => price_change_pct row == 0 ->
                          portfolio_value row == base_value /\ pnl row == 0)
         table.
Proof.
  intros Hbase. induction shock_range as [|s rest IH]; simpl.
  - exists []. repeat split. constructor.
  - destruct (portfolio_value_loop_shock positions base_prices s 0 base_value
                Hbase 0) as [v' [Hv' Heq]].
    unfold calculate_portfolio_value at 1. rewrite Hv'; simpl.
    destruct IH as [table [Ht [Hm Hf]]]. rewrite Ht; simpl.
    eexists; split; [reflexivity|]. simpl. split; [rewrite Hm; reflexivity|].
    constructor; [|exact Hf]. simpl. intros Hz.
    assert (Hs : s == 0) by lra.
    assert (Hv : v' == base_value) by (apply Heq; [exact Hs | reflexivity]).
    split; [exact Hv | rewrite Hv; ring].
Qed.

(** C3. When the base portfolio value is defined, the sensitivity table is
    produced, its rows follow the order of the shock range, and every row
    whose price_change_pct is 0 carries the base portfolio value and a pnl
    of 0; a shock range containing 0 yields such a row. *)
Theorem sensitivity_zero_row (positions : list position)
    (base_prices : gmap price_key Q) (shock_range : list Q) (base_value : Q) :
  calculate_portfolio_value positions base_prices = Ok base_value ->
  exists table,
    calculate_sensitivity_table positions base_prices shock_range = Ok table
    /\ map price_change_pct table = map (fun s => s * 100) shock_range
    /\ (forall row, In row table -> price_change_pct row == 0 ->
          portfolio_value row == base_value /\ pnl row == 0)
    /\ (forall s, In s shock_range -> s == 0 ->
          exists row, In row table /\ price_change_pct row == 0
                      /\ portfolio_value row == base_value /\ pnl row == 0).
Proof.
  intros Hbase.
  destruct (sensitivity_rows_spec positions base_prices base_value shock_range
              Hbase) as [table [Ht [Hm Hf]]].
  exists table. unfold calculate_sensitivity_table. rewrite Hbase; simpl.
  split; [exact Ht|]. split; [exact Hm|].
  assert (Hrows : forall row, In row table -> price_change_pct row == 0 ->
                    portfolio_value row == base_value /\ pnl row == 0).
  { intros row Hin. rewrite List.Forall_forall in Hf. apply Hf. exact Hin. }
  split; [exact Hrows|].
  intros s Hin Hs.
  assert (Hin' : In (s * 100) (map price_change_pct table))
    by (rewrite Hm; apply (in_map (fun s => s * 100)); exact Hin).
  apply in_map_iff in Hin'. destruct Hin' as [row [Hrow Hin']].
  assert (Hz : price_change_pct row == 0) by (rewrite Hrow, Hs; ring).
  exists row. split; [exact Hin'|]. split; [exact Hz|].
  apply Hrows; assumption.
Qed.

Lemma sensitivity_zero_row_witness :
  exists table,
    calculate_sensitivity_table [btc_spot; eth_long] snapshot_ex
      [- (5 # 100); 0; 5 # 100] = Ok table
    /\ map price_change_pct table
       = map (fun s => s * 100) [- (5 # 100); 0; 5 # 100].
Proof.
  destruct (sensitivity_zero_row [btc_spot; eth_long] snapshot_ex
              [- (5 # 100); 0; 5 # 100] (0 + 1 * 50000 + (margin 10 2500 2
                 + pnl_long 10 2500 2700)) eq_refl) as [table [Ht [Hm _]]].
  exists table. split; [exact Ht | exact Hm].
Defined.

(** ** Validation *)

Lemma string_in_valid_types (t : string) :
  string_in t valid_position_types = false
  <-> t <> "spot"%string /\ t <> "futures_long"%string
      /\ t <> "futures_short"%string.
Proof.
  unfold string_in, valid_position_types; simpl.
  rewrite !orb_false_iff, !String.eqb_neq. tauto.
Qed.

Lemma validate_position_spec (i : nat) (pos : position) :
  (validate_position i pos = Ok tt /\ ~ invalid_position pos)
  \/ (exists err, validate_position i pos = Raise err
                  /\ InvalidPortfolio err /\ invalid_position pos).
Proof.
  unfold validate_position, invalid_position.
  destruct (asset pos) as [a|]; cbn [has_key negb getitem bind get_default];
    [|right; eexists; split; [reflexivity|split; [exact I|tauto]]].
  destruct (quantity pos) as [q|]; cbn [has_key negb getitem bind get_default];
    [|right; eexists; split; [reflexivity|split; [exact I|tauto]]].
  destruct (position_type pos) as [t|]; cbn [has_key negb getitem bind get_default];
    [|right; eexists; split; [reflexivity|split; [exact I|tauto]]].
  destruct (entry_price pos) as [e|]; cbn [has_key negb getitem bind get_default];
    [|right; eexists; split; [reflexivity|split; [exact I|tauto]]].
  destruct (string_in t valid_position_types) eqn:Et;
    cbn [has_key negb getitem bind get_default].
  2:{ right; eexists; split; [reflexivity|split; [exact I|]].
      apply string_in_valid_types in Et.
      do 4 right; left. exists t. tauto. }
  assert (Et' : ~ (t <> "spot"%string /\ t <> "futures_long"%string
                   /\ t <> "futures_short"%string))
    by (rewrite <- string_in_valid_types; congruence).
  destruct (Qle_bool q 0) eqn:Eq.
  { right; eexists; split; [reflexivity|split; [exact I|]].
    apply Qle_bool_iff in Eq. do 5 right; left. exists q. tauto. }
  apply Qle_bool_false_iff in Eq.
  destruct (Qle_bool e 0) eqn:Ee.
  { right; eexists; split; [reflexivity|split; [exact I|]].
    apply Qle_bool_iff in Ee. do 6 right; left. exists e. tauto. }
  apply Qle_bool_false_iff in Ee.
  destruct (leverage pos) as [l|]; cbn [get_default].
  - destruct (Qle_bool l 0) eqn:El1; cbn [orb].
    { right; eexists; split; [reflexivity|split; [exact I|]].
      apply Qle_bool_iff in El1. do 7 right. exists l. tauto. }
    apply Qle_bool_false_iff in El1.
    destruct (Qlt_bool 125 l) eqn:El2.
    { right; eexists; split; [reflexivity|split; [exact I|]].
      apply Qlt_bool_iff in El2. do 7 right. exists l. tauto. }
    apply Qlt_bool_false_iff in El2.
    left. split; [reflexivity|].
    intros [H|[H|[H|[H|[[t' [H H']]|[[q' [H H']]|[[e' [H H']]|[l' [H H']]]]]]]]];
      try discriminate; injection H as <-; try tauto; lra.
  - left. split; [reflexivity|].
    intros [H|[H|[H|[H|[[t' [H H']]|[[q' [H H']]|[[e' [H H']]|[l' [H H']]]]]]]]];
      try discriminate; injection H as <-; try tauto; lra.
Qed.

Lemma validate_loop_spec (positions : list position) :
  forall i,
    (validate_loop i positions = Ok tt /\ ~ Exists invalid_position positions)
    \/ (exists err, validate_loop i positions = Raise err
                    /\ InvalidPortfolio err
                    /\ Exists invalid_position positions).
Proof.
  induction positions as [|pos rest IH]; intros i; simpl.
  - left. split; [reflexivity|]. intros H. inversion H.
  - destruct (validate_position_spec i pos) as [[Hok Hv]|[err [Herr [Hk Hv]]]].
    + rewrite Hok; simpl.
      destruct (IH (S i)) as [[Hok' Hv']|[err [Herr [Hk Hv']]]].
      * left. split; [exact Hok'|]. intros H. inversion H; contradiction.
      * right. exists err. repeat split; try assumption.
        apply List.Exists_cons_tl. exact Hv'.
    + rewrite Herr; simpl. right. exists err. repeat split; try assumption.
      apply List.Exists_cons_hd. exact Hv.
Qed.

Lemma validate_positions_spec (positions : list position) :
  (_validate_positions positions = Ok tt /\ ~ invalid_portfolio positions)
  \/ (exists err, _validate_positions positions = Raise err
                  /\ InvalidPortfolio err /\ invalid_portfolio positions).
Proof.
  unfold _validate_positions, invalid_portfolio.
  destruct positions as [|pos rest].
  { right. eexists. split; [reflexivity|]. split; [exact I|]. left; reflexivity. }
  destruct (20 <? length (pos :: rest))%nat eqn:El.
  { right. eexists. split; [reflexivity|]. split; [exact I|].
    right; left. apply Nat.ltb_lt. exact El. }
  apply Nat.ltb_ge in El.
  destruct (validate_loop_spec (pos :: rest) 0)
    as [[Hok Hv]|[err [Herr [Hk Hv]]]].
  - left. split; [exact Hok|]. intros [H|[H|H]];
      [discriminate | lia | contradiction].
  - right. exists err. repeat split; try assumption. right; right. exact Hv.
Qed.

(** C4. Validation fails with InvalidPortfolio exactly when the list is
    empty or longer than 20, or some position lacks asset, quantity,
    position_type or entry_price, has a position_type outside spot,
    futures_long and futures_short, a quantity <= 0, an entry_price <= 0, or a
    leverage outside (0, 125]; every other list passes. *)
Theorem validation_fails_exactly_when (positions : list position) :
  ((exists err, _validate_positions positions = Raise err
                /\ InvalidPortfolio err)
   <-> invalid_portfolio positions)
  /\ (_validate_positions positions = Ok tt <-> ~ invalid_portfolio positions)
  /\ (forall err, _validate_positions positions = Raise err ->
                  InvalidPortfolio err).
Proof.
  destruct (validate_positions_spec positions)
    as [[Hok Hv]|[err [Herr [Hk Hv]]]].
  - repeat split.
    + intros [err [Herr _]]. congruence.
    + intros H. contradiction.
    + intros _. exact Hv.
    + intros _. exact Hok.
    + intros err Herr. congruence.
  - repeat split.
    + intros _. exact Hv.
    + intros _. exists err. split; assumption.
    + intros H. congruence.
    + intros H. contradiction.
    + intros err' Herr'. congruence.
Qed.

Lemma validation_fails_exactly_when_witness :
  exists err, _validate_positions [] = Raise err /\ InvalidPortfolio err.
Proof.
  apply (proj2 (proj1 (validation_fails_exactly_when []))).
  left. reflexivity.
Defined.

(** ** Health score *)

Lemma round_half_even_bounds (y : Q) (m : Z) :
  0 <= y -> y <= inject_Z m ->
  (0 <= round_half_even y <= m)%Z.
Proof.
  intros H0 Hm. unfold round_half_even.
  pose proof (Qfloor_le y) as Hfl.
  pose proof (Qlt_floor y) as Hlt.
  assert (Hn0 : (0 <= Qfloor y)%Z)
    by (change 0%Z with (Qfloor 0); apply Qfloor_resp_le; exact H0).
  assert (Hnm : (Qfloor y <= m)%Z).
  { rewrite <- (Qfloor_Z m). apply Qfloor_resp_le. exact Hm. }
  assert (Hstep : (Qfloor y = m)%Z \/ (Qfloor y + 1 <= m)%Z) by lia.
  destruct (Qcompare (y - inject_Z (Qfloor y)) (1 # 2)) eqn:Ec.
  - apply Qeq_alt in Ec.
    destruct (Z.even (Qfloor y)); [lia|].
    destruct Hstep as [He|Hs]; [|lia].
    rewrite He in Ec. lra.
  - lia.
  - apply Qgt_alt in Ec.
    destruct Hstep as [He|Hs]; [|lia].
    rewrite He in Ec. lra.
Qed.

Lemma round1_bounds (x : Q) : 0 <= x -> x <= 25 -> 0 <= round1 x <= 25.
Proof.
  intros H0 H25. unfold round1.
  destruct (round_half_even_bounds (x * 10) 250) as [Hl Hu];
    [lra | change (inject_Z 250) with 250; lra |].
  rewrite Zle_Qle in Hl. rewrite Zle_Qle in Hu.
  change (inject_Z 0) with 0 in Hl. change (inject_Z 250) with 250 in Hu.
  qconst_inv. split; lra.
Qed.

Lemma pymax_zero_bounds (y : Q) : y <= 25 -> 0 <= pymax 0 y <= 25.
Proof.
  intros H. unfold pymax. destruct (Qlt_bool 0 y) eqn:E.
  - apply Qlt_bool_iff in E. split; lra.
  - split; lra.
Qed.

Ltac bool_to_prop :=
  repeat match goal with
  | H : Qle_bool _ _ = true |- _ => apply Qle_bool_iff in H
  | H : Qle_bool _ _ = false |- _ => apply Qle_bool_false_iff in H
  | H : Qlt_bool _ _ = true |- _ => apply Qlt_bool_iff in H
  | H : Qlt_bool _ _ = false |- _ => apply Qlt_bool_false_iff in H
  end.

Lemma delta_neutral_component_bounds (delta_exposure current_value : Q) :
  0 <= score (delta_neutral_component delta_exposure current_value) <= 25.
Proof.
  unfold delta_neutral_component.
  set (dn := delta_normalized delta_exposure current_value).
  destruct (Qle_bool dn (5 # 100)) eqn:E1; simpl;
    [apply round1_bounds; lra|].
  destruct (Qle_bool dn (5 # 10)) eqn:E2; simpl;
    [|apply round1_bounds; lra].
  bool_to_prop. apply round1_bounds; apply pymax_zero_bounds;
    qconst_inv; lra.
Qed.

Lemma volatility_component_bounds (risk_metrics : risk_metrics) :
  0 <= score (volatility_component risk_metrics) <= 25.
Proof.
  unfold volatility_component.
  set (v := get_default (portfolio_volatility_annual risk_metrics) 0).
  destruct (Qle_bool v (3 # 10)) eqn:E1; simpl;
    [apply round1_bounds; lra|].
  destruct (Qle_bool v 1) eqn:E2; simpl;
    [|apply round1_bounds; lra].
  bool_to_prop. apply round1_bounds; apply pymax_zero_bounds;
    qconst_inv; lra.
Qed.

Lemma leverage_component_bounds (positions : list position) :
  0 <= score (leverage_component positions) <= 25.
Proof.
  unfold leverage_component.
  set (m := max_leverage positions).
  destruct (Qle_bool m 2) eqn:E1; simpl; [apply round1_bounds; lra|].
  destruct (Qle_bool m 20) eqn:E2; simpl; [|apply round1_bounds; lra].
  bool_to_prop. apply round1_bounds; apply pymax_zero_bounds;
    qconst_inv; lra.
Qed.

Lemma sharpe_component_bounds (risk_metrics : risk_metrics)
    (delta_exposure current_value : Q) :
  0 <= score (sharpe_component risk_metrics delta_exposure current_value) <= 25.
Proof.
  unfold sharpe_component.
  set (s := get_default (sharpe_ratio risk_metrics) 0).
  destruct (Qlt_bool _ (5 # 100)); simpl; [apply round1_bounds; lra|].
  destruct (Qle_bool 1 s) eqn:E1; simpl; [apply round1_bounds; lra|].
  destruct (Qle_bool (5 # 10) s) eqn:E2; simpl;
    [bool_to_prop; apply round1_bounds; qconst_inv; lra|].
  destruct (Qle_bool 0 s) eqn:E3; simpl;
    [bool_to_prop; apply round1_bounds; qconst_inv; lra|].
  destruct (Qle_bool (- (5 # 10)) s) eqn:E4; simpl;
    [bool_to_prop; apply round1_bounds; qconst_inv; lra|].
  apply round1_bounds; lra.
Qed.

(** C8. For every input of the dashboard each of the four health
    components scores between 0 and 25, the health score is their sum and
    lies between 0 and 100, and whenever the normalized delta is below 5%
    the Sharpe component is 12.5 whatever the Sharpe ratio; the dashboard,
    when it is returned, carries these components and this score. *)
Theorem health_score_bounds (risk_metrics : risk_metrics) (current_value : Q)
    (positions : list position) (current_prices : gmap price_key Q)
    (delta_exposure : Q) :
  let hc := calculate_health_components risk_metrics current_value positions
              delta_exposure in
  (0 <= score (hc_delta_neutral hc) <= 25
   /\ 0 <= score (hc_volatility hc) <= 25
   /\ 0 <= score (hc_sharpe_ratio hc) <= 25
   /\ 0 <= score (hc_leverage hc) <= 25)
  /\ sum_scores hc == score (hc_delta_neutral hc) + score (hc_volatility hc)
                      + score (hc_sharpe_ratio hc) + score (hc_leverage hc)
  /\ 0 <= sum_scores hc <= 100
  /\ (delta_normalized delta_exposure current_value < 5 # 100 ->
      score (hc_sharpe_ratio hc) == 125 # 10)
  /\ (forall d,
        calculate_alert_dashboard risk_metrics current_value positions
          current_prices delta_exposure = Ok d ->
        db_health_components d = hc /\ health_score d = sum_scores hc).
Proof.
  intros hc.
  pose proof (delta_neutral_component_bounds delta_exposure current_value) as H1.
  pose proof (volatility_component_bounds risk_metrics) as H2.
  pose proof (sharpe_component_bounds risk_metrics delta_exposure current_value)
    as H3.
  pose proof (leverage_component_bounds positions) as H4.
  subst hc. unfold calculate_health_components, sum_scores.
  cbn [hc_delta_neutral hc_volatility hc_sharpe_ratio hc_leverage].
  split; [tauto|]. split; [ring|]. split; [lra|]. split.
  - intros Hn. unfold sharpe_component.
    apply Qlt_bool_iff in Hn. rewrite Hn. reflexivity.
  - intros d Hd. unfold calculate_alert_dashboard in Hd.
    destruct (liquidation_loop positions current_prices); simpl in Hd;
      [|discriminate].
    injection Hd as <-. split; reflexivity.
Qed.

Lemma health_score_bounds_witness :
  score (hc_sharpe_ratio
           (calculate_health_components metrics_ex 100000
              [btc_spot; btc_short] 200)) == 125 # 10.
Proof.
  apply (proj1 (proj2 (proj2 (proj2
           (health_score_bounds metrics_ex 100000 [btc_spot; btc_short]
              snapshot_ex 200))))).
  vm_compute. reflexivity.
Defined.

(** ** Liquidation assessment *)

Lemma risk_level_of_spec (pct : Q) :
  (50 < pct -> risk_level_of pct = "safe"%string)
  /\ (25 < pct /\ pct <= 50 -> risk_level_of pct = "moderate"%string)
  /\ (pct <= 25 -> risk_level_of pct = "high"%string).
Proof.
  unfold risk_level_of.
  destruct (Qlt_bool 50 pct) eqn:E1; destruct (Qlt_bool 25 pct) eqn:E2;
    bool_to_prop; repeat split; intros; try reflexivity; lra.
Qed.

Lemma liquidation_loop_spec (prices : gmap price_key Q)
    (positions : list position) :
  Forall (assessable prices) positions ->
  exists risks,
    liquidation_loop positions prices = Ok risks
    /\ Forall2 (assessed_as prices) (List.filter leveraged_future positions) risks.
Proof.
  induction 1 as [|pos rest [t [Ht Hlev]] _ [risks [Hr Hf]]]; simpl.
  - exists []. split; [reflexivity | constructor].
  - rewrite Ht; cbn [getitem bind]. unfold leveraged_future at 1.
    rewrite Ht. destruct (is_leveraged_future t pos) eqn:El.
    + destruct (Hlev eq_refl) as [a [Ha Hc]]. rewrite Ha; simpl.
      fold (assessment_price prices a t pos).
      rewrite (Qeq_bool_false _ _ Hc). rewrite Hr; simpl.
      eexists. split; [reflexivity|].
      constructor; [|exact Hf].
      exists a, t. cbn [liq_asset liq_position_type liquidation_price
                       liq_current_price price_distance_pct risk_level].
      unfold is_leveraged_future in El. apply andb_true_iff in El.
      destruct El as [Ek Hl]. apply Qlt_bool_iff in Hl.
      unfold string_in in Ek; simpl in Ek.
      unfold liquidation_price_of, signed_price_distance_pct.
      destruct (String.eqb t "futures_long") eqn:E1.
      * pose proof E1 as E1'. apply String.eqb_eq in E1'. subst t.
        cbv zeta.
        repeat match goal with |- _ /\ _ => split end;
          try reflexivity; try assumption; try (left; reflexivity);
          try (intros; discriminate); apply risk_level_of_spec.
      * destruct (String.eqb t "futures_short") eqn:E2; [|discriminate].
        apply String.eqb_eq in E2. subst t.
        cbv zeta.
        repeat match goal with |- _ /\ _ => split end;
          try reflexivity; try assumption; try (right; reflexivity);
          try (intros; discriminate); apply risk_level_of_spec.
    + exists risks. split; assumption.
Qed.

Lemma has_level_spec (level : string) (risks : list liquidation_entry) :
  has_level level risks = true
  <-> exists r, In r risks /\ risk_level r = level.
Proof.
  unfold has_level. rewrite existsb_exists.
  split; intros [r [Hin Hr]]; exists r; split; try assumption;
    apply String.eqb_eq; exact Hr.
Qed.

Lemma overall_liquidation_risk_spec (risks : list liquidation_entry) :
  (overall_liquidation_risk risks = "high"%string
   <-> exists r, In r risks /\ risk_level r = "high"%string)
  /\ (overall_liquidation_risk risks = "moderate"%string
      <-> (~ exists r, In r risks /\ risk_level r = "high"%string)
          /\ exists r, In r risks /\ risk_level r = "moderate"%string)
  /\ (overall_liquidation_risk risks = "low"%string
      <-> (~ exists r, In r risks /\ risk_level r = "high"%string)
          /\ ~ exists r, In r risks /\ risk_level r = "moderate"%string).
Proof.
  assert (Hov : overall_liquidation_risk risks
                = if has_level "high" risks then "high"%string
                  else if has_level "moderate" risks then "moderate"%string
                  else "low"%string)
    by (destruct risks; reflexivity).
  rewrite Hov. rewrite <- !has_level_spec.
  destruct (has_level "high" risks); destruct (has_level "moderate" risks);
    repeat split; intros; try discriminate; try tauto;
    try (intros ?; discriminate);
    match goal with
    | H : _ /\ _ |- _ => destruct H; congruence
    end.
Qed.

(** C9, as amended. For every position list the loop can go through, the
    dashboard is returned; each leveraged futures position has an entry whose
    liquidation price is entry_price * (1 - 0.9 / leverage) for a long and
    entry_price * (1 + 0.9 / leverage) for a short, whose level is safe when
    the signed price distance exceeds 50, moderate in (25, 50] and high at 25
    or below; the overall risk is high when some entry is high, otherwise
    moderate when some entry is moderate, otherwise low, also when every
    entry is safe. *)
Theorem liquidation_assessment (risk_metrics : risk_metrics)
    (current_value : Q) (positions : list position)
    (current_prices : gmap price_key Q) (delta_exposure : Q) :
  Forall (assessable current_prices) positions ->
  exists d,
    calculate_alert_dashboard risk_metrics current_value positions
      current_prices delta_exposure = Ok d
    /\ Forall2 (assessed_as current_prices)
         (List.filter leveraged_future positions) (liquidation_positions d)
    /\ (overall_risk d = "high"%string
        <-> exists r, In r (liquidation_positions d)
                      /\ risk_level r = "high"%string)
    /\ (overall_risk d = "moderate"%string
        <-> (~ exists r, In r (liquidation_positions d)
                         /\ risk_level r = "high"%string)
            /\ exists r, In r (liquidation_positions d)
                         /\ risk_level r = "moderate"%string)
    /\ (overall_risk d = "low"%string
        <-> (~ exists r, In r (liquidation_positions d)
                         /\ risk_level r = "high"%string)
            /\ ~ exists r, In r (liquidation_positions d)
                           /\ risk_level r = "moderate"%string).
Proof.
  intros Hwf.
  destruct (liquidation_loop_spec current_prices positions Hwf)
    as [risks [Hr Hf]].
  unfold calculate_alert_dashboard. rewrite Hr; cbn [bind].
  eexists. split; [reflexivity|].
  cbn [liquidation_positions overall_risk].
  split; [exact Hf|]. apply overall_liquidation_risk_spec.
Qed.

Lemma liquidation_assessment_witness :
  exists d,
    calculate_alert_dashboard metrics_ex 100000 [btc_spot; eth_long_safe]
      snapshot_ex 11 = Ok d
    /\ Forall2 (assessed_as snapshot_ex)
         (List.filter leveraged_future [btc_spot; eth_long_safe])
         (liquidation_positions d).
Proof.
  destruct (liquidation_assessment metrics_ex 100000 [btc_spot; eth_long_safe]
              snapshot_ex 11) as [d [Hd [Hf _]]].
  - apply List.Forall_cons; [|apply List.Forall_cons; [|apply List.Forall_nil]].
    + exists "spot"%string. split; [reflexivity|]. intros H. discriminate H.
    + exists "futures_long"%string. split; [reflexivity|]. intros _.
      exists "ETH"%string. split; [reflexivity|].
      intros H. vm_compute in H. discriminate H.
  - exists d. split; [exact Hd | exact Hf].
Defined.

(** C9 as stated fails: with one assessed position, at level safe, the
    overall risk reported is low, which is not the worst level over the
    assessed positions. *)
Lemma overall_risk_is_not_worst_level :
  exists d,
    calculate_alert_dashboard metrics_ex 100000 [btc_spot; eth_long_safe]
      snapshot_ex 11 = Ok d
    /\ map risk_level (liquidation_positions d) = ["safe"%string]
    /\ overall_risk d = "low"%string
    /\ spec_overall_risk (map risk_level (liquidation_positions d))
       = "safe"%string
    /\ overall_risk d
       <> spec_overall_risk (map risk_level (liquidation_positions d)).
Proof.
  eexists. split; [vm_compute; reflexivity|].
  vm_compute. repeat split. discriminate.
Qed.

(** ** Fetching *)

Lemma dict_get_set_eq {V : Type} (k : string) (v : V) (d : list (string * V)) :
  dict_get k (dict_set k v d) = Some v.
Proof.
  induction d as [|[k' v'] d IH]; simpl.
  - rewrite String.eqb_refl. reflexivity.
  - destruct (String.eqb k k') eqn:E; simpl.
    + rewrite String.eqb_refl. reflexivity.
    + rewrite E. exact IH.
Qed.

Lemma dict_get_set_ne {V : Type} (k k' : string) (v : V)
    (d : list (string * V)) :
  k <> k' -> dict_get k (dict_set k' v d) = dict_get k d.
Proof.
  intros Hne. apply String.eqb_neq in Hne.
  induction d as [|[k2 v2] d IH]; simpl.
  - rewrite Hne. reflexivity.
  - destruct (String.eqb k' k2) eqn:E; simpl.
    + apply String.eqb_eq in E. subst k2. rewrite Hne. reflexivity.
    + rewrite IH. reflexivity.
Qed.

Lemma process_futures_asset_warning (db : database) (x : string)
    (w : fetch_warning) :
  process_futures_asset db x = inr w ->
  w = FuturesFetchFailed x \/ w = NoMarkPriceData x.
Proof.
  unfold process_futures_asset.
  destruct (get_mark_klines db x) as [[|m ms]|];
    destruct (get_funding_rates db x) as [fs|];
    intros H; try discriminate; injection H as <-; auto.
Qed.

Lemma process_futures_fold (db : database) (a : string)
    (df : list futures_row) (assets : list string) :
  process_futures_asset db a = inl df ->
  forall d0 log0,
    let st :=
      fold_left
        (fun st asset =>
           let '(futures_data_dict, log) := st in
           match process_futures_asset db asset with
           | inr w => (futures_data_dict, log ++ [w])
           | inl futures_df =>
               (dict_set asset futures_df futures_data_dict, log)
           end)
        assets (d0, log0) in
    (In a assets \/ dict_get a d0 = Some df -> dict_get a (fst st) = Some df)
    /\ (forall w, (w = FuturesFetchFailed a \/ w = NoMarkPriceData a) ->
                  ~ In w log0 -> ~ In w (snd st)).
Proof.
  intros Ha. induction assets as [|x assets IH]; intros d0 log0; simpl.
  - split; [intros [[]|H]; exact H | auto].
  - destruct (process_futures_asset db x) as [dfx|wx] eqn:Ex.
    + destruct (IH (dict_set x dfx d0) log0) as [IH1 IH2].
      split; [|exact IH2].
      intros [[->|Hin]|Hd]; apply IH1.
      * right. rewrite Ha in Ex. injection Ex as <-. apply dict_get_set_eq.
      * left; exact Hin.
      * destruct (String.eqb_spec a x) as [->|Hne].
        -- right. rewrite Ha in Ex. injection Ex as <-. apply dict_get_set_eq.
        -- right. rewrite dict_get_set_ne by exact Hne. exact Hd.
    + destruct (IH d0 (log0 ++ [wx])) as [IH1 IH2].
      split.
      * intros [[->|Hin]|Hd]; [congruence | apply IH1; left; exact Hin
                               | apply IH1; right; exact Hd].
      * intros w Hw Hn. apply IH2; [exact Hw|].
        intros Hin. apply in_app_or in Hin.
        destruct Hin as [Hin|Hin]; [contradiction|].
        destruct Hin as [Heq|Hin]; [subst w | destruct Hin].
        destruct (process_futures_asset_warning db x wx Ex) as [Hx|Hx];
          rewrite Hx in Hw; destruct Hw as [Hw|Hw]; try discriminate;
          injection Hw as Hw; subst x; congruence.
Qed.

Lemma In_insert_by {A : Type} (key : A -> Z) (x y : A) (l : list A) :
  In x (insert_by key y l) <-> x = y \/ In x l.
Proof.
  induction l as [|z l IH]; simpl.
  - split; intros [H|H]; auto.
  - destruct (key y <? key z)%Z; simpl; [split; intros [H|H]; auto|].
    rewrite IH. split; intros [H|[H|H]]; auto.
Qed.

Lemma In_sort_values {A : Type} (key : A -> Z) (x : A) (l : list A) :
  In x (sort_values key l) <-> In x l.
Proof.
  unfold sort_values.
  assert (H : forall acc, In x (fold_left (fun acc y => insert_by key y acc)
                                  l acc) <-> In x l \/ In x acc).
  { induction l as [|y l IH]; intros acc; simpl.
    - split; [auto | intros [[]|H]; exact H].
    - rewrite IH, In_insert_by. intuition (subst; auto). }
  rewrite H. split; [intros [Hx|[]]; exact Hx | auto].
Qed.

Lemma In_insert_day (d d' : Z) (days : list Z) :
  In d (insert_day d' days) <-> d = d' \/ In d days.
Proof.
  induction days as [|x days IH]; simpl.
  - split; intros [H|H]; auto.
  - destruct (d' <? x)%Z; simpl; [split; intros [H|H]; auto|].
    destruct (d' =? x)%Z eqn:E; simpl.
    + apply Z.eqb_eq in E. subst x.
      split; [auto | intros [->|H]; [left; reflexivity | exact H]].
    + rewrite IH. split; intros [H|[H|H]]; auto.
Qed.

Lemma In_day_bins (d : Z) (ts : list Z) :
  In d (day_bins ts) <-> exists t, In t ts /\ day_start t = d.
Proof.
  unfold day_bins.
  assert (H : forall acc,
             In d (fold_left (fun days t => insert_day (day_start t) days)
                     ts acc)
             <-> (exists t, In t ts /\ day_start t = d) \/ In d acc).
  { induction ts as [|t ts IH]; intros acc; simpl.
    - split; [auto | intros [[t [[] _]]|H]; exact H].
    - rewrite IH, In_insert_day. split.
      + intros [[t' [Hin Ht']]|[->|H]]; [left; exists t'; auto
                                         | left; exists t; auto | auto].
      + intros [[t' [[->|Hin] Ht']]|H]; [right; left; auto
                                         | left; exists t'; auto | auto]. }
  rewrite H. split; [intros [Hx|[]]; exact Hx | auto].
Qed.

Lemma Qsum_zeros (n : nat) (acc : Q) :
  fold_left Qplus (repeat 0 n) acc == acc.
Proof.
  revert acc. induction n as [|n IH]; intros acc; simpl; [reflexivity|].
  rewrite IH. ring.
Qed.

Lemma mean_zero_funding (rs : list futures_row) :
  rs <> [] -> Forall (fun r => funding_rate r = Some 0) rs ->
  exists f, mean (omap funding_rate rs) = Some f /\ f == 0.
Proof.
  intros Hne Hall.
  assert (Hz : omap funding_rate rs = repeat 0 (length rs)).
  { induction Hall as [|r rs Hr _ IH]; simpl; [reflexivity|].
    rewrite Hr. simpl. f_equal.
    destruct rs; [reflexivity | apply IH; discriminate]. }
  rewrite Hz. destruct rs as [|r rs]; [contradiction|]. simpl.
  eexists. split; [reflexivity|].
  unfold Qsum. simpl. rewrite Qsum_zeros. unfold Qdiv. ring.
Qed.

Lemma resample_futures_zero_funding (df : list futures_row) :
  Forall (fun r => funding_rate r = Some 0) df ->
  map d_timestamp (resample_futures df) = day_bins (map f_timestamp df)
  /\ Forall (fun r => d_funding_rate r == 0) (resample_futures df).
Proof.
  intros Hall. unfold resample_futures.
  assert (Hbins : forall d, In d (day_bins (map f_timestamp df)) ->
            exists r f, last (in_day f_timestamp d df) = Some r
                        /\ mean (omap funding_rate (in_day f_timestamp d df))
                           = Some f /\ f == 0).
  { intros d Hd. apply In_day_bins in Hd. destruct Hd as [t [Ht Hday]].
    apply in_map_iff in Ht. destruct Ht as [r0 [<- Hr0]].
    assert (Hne : in_day f_timestamp d df <> []).
    { intros He.
      assert (Hin : In r0 (in_day f_timestamp d df))
        by (apply filter_In; split; [exact Hr0 | apply Z.eqb_eq; exact Hday]).
      rewrite He in Hin. exact Hin. }
    destruct (last (in_day f_timestamp d df)) as [r|] eqn:El.
    2:{ apply last_None in El. contradiction. }
    destruct (mean_zero_funding (in_day f_timestamp d df) Hne)
      as [f [Hf Hz]].
    { apply List.Forall_forall. intros r' Hr'. apply filter_In in Hr'.
      rewrite List.Forall_forall in Hall. apply Hall. tauto. }
    exists r, f. auto. }
  induction (day_bins (map f_timestamp df)) as [|d bins IH]; simpl.
  - split; [reflexivity | constructor].
  - destruct (Hbins d (or_introl eq_refl)) as [r [f [Hl [Hm Hz]]]].
    rewrite Hl, Hm. simpl.
    destruct IH as [IH1 IH2]; [intros d' Hd'; apply Hbins; right; exact Hd'|].
    split; [f_equal; exact IH1 | constructor; [exact Hz | exact IH2]].
Qed.

Lemma process_spot_log (db : database) (assets : list string)
    (w : fetch_warning) :
  In w (snd (process_spot db assets)) ->
  exists x, w = SpotFetchFailed x \/ w = NoSpotDataAvailable x.
Proof.
  unfold process_spot.
  assert (H : forall d0 log0,
             In w (snd (fold_left
                          (fun st asset =>
                             let '(spot_data_dict, log) := st in
                             match get_ohlcv_data db asset with
                             | FetchError =>
                                 (spot_data_dict, log ++ [SpotFetchFailed asset])
                             | Rows [] =>
                                 (spot_data_dict,
                                  log ++ [NoSpotDataAvailable asset])
                             | Rows result =>
                                 (dict_set asset (sort_values fst result)
                                    spot_data_dict, log)
                             end) assets (d0, log0))) ->
             In w log0
             \/ exists x, w = SpotFetchFailed x \/ w = NoSpotDataAvailable x).
  { induction assets as [|x assets IH]; intros d0 log0; simpl; [auto|].
    destruct (get_ohlcv_data db x) as [[|c cs]|]; intros Hin;
      apply IH in Hin; destruct Hin as [Hin|Hin]; auto;
      apply in_app_or in Hin; destruct Hin as [Hin|[<-|[]]]; eauto. }
  intros Hin. apply H in Hin. destruct Hin as [[]|Hin]. exact Hin.
Qed.

(** ** Alignment *)

Lemma get_cell_set_eq col v r : get_cell col (set_cell col v r) = v.
Proof. unfold get_cell, set_cell; simpl. rewrite dict_get_set_eq. reflexivity. Qed.

Lemma get_cell_set_ne col col' v r :
  col' <> col -> get_cell col' (set_cell col v r) = get_cell col' r.
Proof.
  intros H. unfold get_cell, set_cell; simpl.
  rewrite dict_get_set_ne by exact H. reflexivity.
Qed.

Lemma ffill_from_timestamps c col rs :
  map row_timestamp (ffill_from c col rs) = map row_timestamp rs.
Proof.
  revert c. induction rs as [|r rs IH]; intros c; simpl; [reflexivity|].
  destruct (get_cell col r); simpl; rewrite IH; reflexivity.
Qed.

Lemma ffill_from_column c col rs :
  column col (ffill_from c col rs) = ffill_list c (column col rs).
Proof.
  revert c. induction rs as [|r rs IH]; intros c; simpl; [reflexivity|].
  destruct (get_cell col r) as [v|] eqn:E; simpl.
  - rewrite E, IH. reflexivity.
  - rewrite get_cell_set_eq, IH. reflexivity.
Qed.

Lemma ffill_from_other c col col' rs :
  col' <> col -> column col' (ffill_from c col rs) = column col' rs.
Proof.
  intros H. revert c. induction rs as [|r rs IH]; intros c; simpl; [reflexivity|].
  destruct (get_cell col r); simpl; rewrite IH; [reflexivity|].
  rewrite get_cell_set_ne by exact H. reflexivity.
Qed.

Lemma column_rev col rs : column col (rev rs) = rev (column col rs).
Proof. unfold column. apply map_rev. Qed.

Lemma bfill_timestamps col rs :
  map row_timestamp (bfill col rs) = map row_timestamp rs.
Proof.
  unfold bfill, ffill. rewrite map_rev, ffill_from_timestamps, <- map_rev, rev_involutive.
  reflexivity.
Qed.

Lemma bfill_column col rs : column col (bfill col rs) = bfill_list (column col rs).
Proof.
  unfold bfill, ffill, bfill_list.
  rewrite column_rev, ffill_from_column, column_rev. reflexivity.
Qed.

Lemma bfill_other col col' rs :
  col' <> col -> column col' (bfill col rs) = column col' rs.
Proof.
  intros H. unfold bfill, ffill.
  rewrite column_rev, ffill_from_other by exact H.
  rewrite column_rev, rev_involutive. reflexivity.
Qed.

Lemma fillna_timestamps col v rs :
  map row_timestamp (fillna col v rs) = map row_timestamp rs.
Proof.
  unfold fillna. rewrite map_map. apply map_ext. intros r.
  destruct (isna col r); reflexivity.
Qed.

Lemma fillna_column col v rs :
  column col (fillna col v rs) = fillna_list v (column col rs).
Proof.
  unfold fillna, column, fillna_list. rewrite !map_map. apply map_ext.
  intros r. unfold isna. destruct (get_cell col r) eqn:E.
  - rewrite E. reflexivity.
  - apply get_cell_set_eq.
Qed.

Lemma fillna_other col col' v rs :
  col' <> col -> column col' (fillna col v rs) = column col' rs.
Proof.
  intros H. unfold fillna, column. rewrite map_map. apply map_ext.
  intros r. destruct (isna col r); [|reflexivity].
  apply get_cell_set_ne. exact H.
Qed.

Lemma isna_any_column col rs :
  isna_any col rs = existsb (fun c => negb (has_key c)) (column col rs).
Proof.
  unfold isna_any, column. induction rs as [|r rs IH]; simpl; [reflexivity|].
  rewrite IH. unfold isna. destruct (get_cell col r); reflexivity.
Qed.

Lemma isna_sum_column col rs : isna_sum col rs = count_na (column col rs).
Proof.
  unfold isna_sum, count_na, column. induction rs as [|r rs IH]; simpl; [reflexivity|].
  unfold isna at 1. destruct (get_cell col r); simpl; rewrite IH; reflexivity.
Qed.

Lemma ffill_list_some v l : Forall is_Some (ffill_list (Some v) l).
Proof.
  revert v. induction l as [|[w|] l IH]; intros v; simpl.
  - constructor.
  - constructor; [eexists; reflexivity | apply IH].
  - constructor; [eexists; reflexivity | apply IH].
Qed.

Lemma ffill_list_none l :
  exists a, ffill_list None l = repeat None (leading_na l) ++ a
            /\ Forall is_Some a
            /\ (a = [] <-> leading_na l = length l).
Proof.
  induction l as [|[w|] l IH]; simpl.
  - exists []. repeat split; auto; constructor.
  - exists (Some w :: ffill_list (Some w) l). split; [reflexivity|].
    split; [constructor; [eexists; reflexivity | apply ffill_list_some]|].
    split; [discriminate | intros H; discriminate].
  - destruct IH as [a [H1 [H2 H3]]]. exists a. rewrite H1.
    split; [reflexivity|]. split; [exact H2|].
    rewrite H3. split; intros H; lia.
Qed.

Lemma ffill_list_length c l : length (ffill_list c l) = length l.
Proof.
  revert c. induction l as [|[w|] l IH]; intros c; simpl; auto.
Qed.

Lemma count_na_app l1 l2 : count_na (l1 ++ l2) = (count_na l1 + count_na l2)%nat.
Proof. unfold count_na. rewrite List.filter_app, length_app. reflexivity. Qed.

Lemma count_na_repeat k : count_na (repeat None k) = k.
Proof. induction k as [|k IH]; simpl; [reflexivity|]. unfold count_na in *. simpl. rewrite IH. reflexivity. Qed.

Lemma count_na_some a : Forall is_Some a -> count_na a = 0%nat.
Proof.
  induction 1 as [|x a [v ->] _ IH]; [reflexivity|]. unfold count_na in *. simpl. exact IH.
Qed.

Lemma existsb_na_count l :
  existsb (fun c => negb (has_key c)) l = negb (count_na l =? 0)%nat.
Proof.
  induction l as [|[v|] l IH]; simpl; [reflexivity| |reflexivity].
  rewrite IH. reflexivity.
Qed.

Lemma ffill_list_all_some c a :
  Forall is_Some a -> ffill_list c a = a.
Proof.
  intros H. revert c. induction H as [|x a [v ->] _ IH]; intros c; simpl; [reflexivity|].
  rewrite IH. reflexivity.
Qed.

Lemma last_default_irrelevant (a : list (option Q)) (x d d' : option Q) :
  List.last (x :: a) d = List.last (x :: a) d'.
Proof.
  revert x. induction a as [|y a IH]; intros x; [reflexivity|].
  change (List.last (y :: a) d = List.last (y :: a) d'). apply IH.
Qed.

Lemma ffill_list_app_some c a b :
  Forall is_Some a ->
  ffill_list c (a ++ b) = a ++ ffill_list (List.last a c) b.
Proof.
  intros H. revert c. induction H as [|x a [v ->] _ IH]; intros c; [reflexivity|].
  simpl ffill_list. rewrite IH. simpl app. f_equal. f_equal.
  destruct a as [|y a]; [reflexivity|].
  f_equal. apply last_default_irrelevant.
Qed.

Lemma ffill_list_repeat_none v k :
  ffill_list (Some v) (repeat None k) = repeat (Some v) k.
Proof. induction k as [|k IH]; simpl; [reflexivity|]. rewrite IH. reflexivity. Qed.

Lemma rev_repeat_opt (x : option Q) k : rev (repeat x k) = repeat x k.
Proof.
  induction k as [|k IH]; simpl; [reflexivity|].
  rewrite IH. clear IH. induction k as [|k IH]; simpl; [reflexivity|].
  rewrite <- IH. reflexivity.
Qed.

Lemma bfill_list_leading k v a :
  Forall is_Some a ->
  bfill_list (repeat None k ++ Some v :: a) = repeat (Some v) k ++ Some v :: a.
Proof.
  intros H. unfold bfill_list.
  rewrite rev_app_distr, rev_repeat_opt. simpl rev.
  rewrite <- app_assoc. simpl app.
  rewrite ffill_list_app_some by (apply Forall_rev; exact H).
  simpl ffill_list. rewrite ffill_list_repeat_none.
  rewrite rev_app_distr, rev_involutive. simpl rev.
  rewrite rev_repeat_opt, <- app_assoc. reflexivity.
Qed.

Lemma fillna_list_some v l : Forall is_Some (fillna_list v l).
Proof.
  induction l as [|[w|] l IH]; simpl; constructor; auto; eexists; reflexivity.
Qed.

Lemma fillna_list_leading v k a :
  Forall is_Some a ->
  fillna_list v (repeat None k ++ a) = repeat (Some v) k ++ a.
Proof.
  intros H. unfold fillna_list. rewrite map_app. f_equal.
  - induction k; simpl; congruence.
  - induction H as [|x a [w ->] _ IH]; simpl; congruence.
Qed.

Lemma filter_ts_find (t : Z) (df : list (Z * Q)) :
  List.NoDup (map fst df) ->
  List.filter (fun x => (fst x =? t)%Z) df
  = match find (fun x => (fst x =? t)%Z) df with
    | Some x => [x]
    | None => []
    end.
Proof.
  induction df as [|x df IH]; intros Hnd; simpl; [reflexivity|].
  apply List.NoDup_cons_iff in Hnd. destruct Hnd as [Hx Hnd].
  destruct (fst x =? t)%Z eqn:E.
  - f_equal. apply Z.eqb_eq in E.
    assert (Hnone : forall y, In y df -> (fst y =? t)%Z = false).
    { intros y Hy. apply Z.eqb_neq. intros Hyt. apply Hx.
      rewrite E, <- Hyt. apply in_map. exact Hy. }
    clear -Hnone. induction df as [|y df IH]; simpl; [reflexivity|].
    rewrite (Hnone y (or_introl eq_refl)). apply IH.
    intros z Hz. apply Hnone. right. exact Hz.
  - apply IH. exact Hnd.
Qed.

Lemma merge_left_unique col df rs :
  List.NoDup (map fst df) ->
  merge_left col df rs
  = map (fun r => set_cell col (lookup_ts (row_timestamp r) df) r) rs.
Proof.
  intros Hnd. unfold merge_left.
  set (f := fun r : aligned_row => match List.filter _ df with
                                   | [] => _
                                   | _ => _
                                   end).
  set (g := fun r => set_cell col (lookup_ts (row_timestamp r) df) r).
  induction rs as [|r rs IH]; [reflexivity|].
  change (f r ++ flat_map f rs = g r :: map g rs). rewrite IH.
  subst f g. cbv beta. unfold lookup_ts. rewrite (filter_ts_find _ _ Hnd).
  destruct (find _ df); reflexivity.
Qed.

Lemma merge_left_timestamps col df rs :
  List.NoDup (map fst df) ->
  map row_timestamp (merge_left col df rs) = map row_timestamp rs.
Proof.
  intros Hnd. rewrite merge_left_unique by exact Hnd.
  rewrite map_map. reflexivity.
Qed.

Lemma merge_left_column col df rs :
  List.NoDup (map fst df) ->
  column col (merge_left col df rs)
  = map (fun t => lookup_ts t df) (map row_timestamp rs).
Proof.
  intros Hnd. rewrite merge_left_unique by exact Hnd.
  unfold column. rewrite !map_map. apply map_ext. intros r.
  apply get_cell_set_eq.
Qed.

Lemma merge_left_other col col' df rs :
  List.NoDup (map fst df) -> col' <> col ->
  column col' (merge_left col df rs) = column col' rs.
Proof.
  intros Hnd Hne. rewrite merge_left_unique by exact Hnd.
  unfold column. rewrite map_map. apply map_ext. intros r.
  apply get_cell_set_ne. exact Hne.
Qed.

Lemma lookup_ts_is_Some t df :
  In t (map fst df) -> is_Some (lookup_ts t df).
Proof.
  intros Hin. unfold lookup_ts.
  destruct (find (fun x => (fst x =? t)%Z) df) as [x|] eqn:E;
    [eexists; reflexivity|].
  apply in_map_iff in Hin. destruct Hin as [x [Hx Hin]].
  pose proof (find_none _ _ E x Hin) as Hf. simpl in Hf.
  apply Z.eqb_neq in Hf. contradiction.
Qed.

Lemma fold_min_spec (l : list Z) (x : Z) :
  (fold_left Z.min l x <= x)%Z
  /\ (forall t, In t l -> (fold_left Z.min l x <= t)%Z)
  /\ (fold_left Z.min l x = x \/ In (fold_left Z.min l x) l).
Proof.
  revert x. induction l as [|y l IH]; intros x; simpl.
  - split; [lia|]. split; [intros t []|left; reflexivity].
  - destruct (IH (Z.min x y)) as [H1 [H2 H3]].
    split; [lia|]. split.
    + intros t [<-|Ht]; [lia | apply H2; exact Ht].
    + destruct H3 as [H3|H3]; [|right; right; exact H3].
      rewrite H3. destruct (Z.min_spec x y) as [[_ ->]|[_ ->]]; auto.
Qed.

Lemma fold_max_spec (l : list Z) (x : Z) :
  (x <= fold_left Z.max l x)%Z
  /\ (forall t, In t l -> (t <= fold_left Z.max l x)%Z)
  /\ (fold_left Z.max l x = x \/ In (fold_left Z.max l x) l).
Proof.
  revert x. induction l as [|y l IH]; intros x; simpl.
  - split; [lia|]. split; [intros t []|left; reflexivity].
  - destruct (IH (Z.max x y)) as [H1 [H2 H3]].
    split; [lia|]. split.
    + intros t [<-|Ht]; [lia | apply H2; exact Ht].
    + destruct H3 as [H3|H3]; [|right; right; exact H3].
      rewrite H3. destruct (Z.max_spec x y) as [[_ ->]|[_ ->]]; auto.
Qed.

Lemma ts_min_spec (l : list Z) :
  l <> [] -> In (ts_min l) l /\ forall t, In t l -> (ts_min l <= t)%Z.
Proof.
  destruct l as [|x l]; [contradiction|]. intros _. unfold ts_min.
  destruct (fold_min_spec l x) as [H1 [H2 H3]]. split.
  - destruct H3 as [->|H3]; [left; reflexivity | right; exact H3].
  - intros t [<-|Ht]; [exact H1 | apply H2; exact Ht].
Qed.

Lemma ts_max_spec (l : list Z) :
  l <> [] -> In (ts_max l) l /\ forall t, In t l -> (t <= ts_max l)%Z.
Proof.
  destruct l as [|x l]; [contradiction|]. intros _. unfold ts_max.
  destruct (fold_max_spec l x) as [H1 [H2 H3]]. split.
  - destruct H3 as [->|H3]; [left; reflexivity | right; exact H3].
  - intros t [<-|Ht]; [exact H1 | apply H2; exact Ht].
Qed.

Lemma In_date_range (min_ts max_ts t : Z) :
  day_aligned min_ts -> day_aligned t ->
  (min_ts <= t <= max_ts)%Z -> In t (date_range min_ts max_ts).
Proof.
  unfold day_aligned, seconds_per_day. intros Hm Ht [H1 H2].
  unfold date_range. apply in_map_iff.
  exists (Z.to_nat ((t - min_ts) / 86400)). split.
  - unfold seconds_per_day. rewrite Z2Nat.id by (apply Z.div_pos; lia).
    apply Z.mod_divide in Hm; [|lia]. apply Z.mod_divide in Ht; [|lia].
    destruct Hm as [a ->]. destruct Ht as [b ->].
    replace (b * 86400 - a * 86400)%Z with ((b - a) * 86400)%Z by lia.
    rewrite Z.div_mul by lia. lia.
  - apply in_seq. split; [lia|]. simpl.
    assert ((t - min_ts) / 86400 <= (max_ts - min_ts) / 86400)%Z
      by (apply Z.div_le_mono; lia).
    assert (0 <= (t - min_ts) / 86400)%Z by (apply Z.div_pos; lia).
    unfold seconds_per_day. lia.
Qed.

Lemma lookup_ts_observed t df :
  has_key (lookup_ts t df) = observed (map fst df) t.
Proof.
  unfold lookup_ts, observed. induction df as [|x df IH]; simpl; [reflexivity|].
  rewrite (Z.eqb_sym t). destruct (fst x =? t)%Z; simpl; [reflexivity | exact IH].
Qed.

Lemma leading_na_lookup df timeline :
  leading_na (map (fun t => lookup_ts t df) timeline)
  = leading_missing (map fst df) timeline.
Proof.
  induction timeline as [|t timeline IH]; simpl; [reflexivity|].
  rewrite <- lookup_ts_observed.
  destruct (lookup_ts t df); simpl; [reflexivity | rewrite IH; reflexivity].
Qed.

Lemma leading_na_lt (l : list (option Q)) :
  Exists is_Some l -> leading_na l <> length l.
Proof.
  induction 1 as [x l [v ->]|x l _ IH]; simpl; [lia|].
  destruct x; simpl; lia.
Qed.

Lemma lookup_column_has_value df timeline :
  (exists t, In t (map fst df) /\ In t timeline) ->
  Exists is_Some (map (fun t => lookup_ts t df) timeline).
Proof.
  intros [t [H1 H2]]. apply List.Exists_exists.
  exists (lookup_ts t df). split.
  - apply (in_map (fun t => lookup_ts t df)). exact H2.
  - apply lookup_ts_is_Some. exact H1.
Qed.

(** What forward fill, the gap check and the fill of the leading gaps leave
    of a merged column that holds a value. *)
Lemma filled_column (l : list (option Q)) :
  Exists is_Some l ->
  let k := leading_na l in
  existsb (fun c => negb (has_key c)) (ffill_list None l) = negb (k =? 0)%nat
  /\ count_na (ffill_list None l) = k
  /\ (k = 0%nat -> Forall is_Some (ffill_list None l))
  /\ Forall is_Some (bfill_list (ffill_list None l))
  /\ forall v, Forall is_Some (fillna_list v (ffill_list None l)).
Proof.
  intros Hex k. destruct (ffill_list_none l) as [a [Ha [Hs He]]].
  fold k in Ha, He.
  assert (Hcount : count_na (ffill_list None l) = k).
  { rewrite Ha, count_na_app, count_na_repeat, (count_na_some a Hs). lia. }
  split; [rewrite existsb_na_count, Hcount; reflexivity|].
  split; [exact Hcount|].
  split; [intros Hk; rewrite Ha, Hk; exact Hs|].
  split; [|intros v; apply fillna_list_some].
  rewrite Ha. destruct a as [|x a].
  { exfalso. apply (leading_na_lt l Hex). apply He. reflexivity. }
  apply List.Forall_cons_iff in Hs. destruct Hs as [[v ->] Hs].
  rewrite bfill_list_leading by exact Hs.
  apply Forall_app. split.
  - clear. induction k; simpl; constructor; auto.
  - constructor; [eexists; reflexivity | exact Hs].
Qed.

Lemma merged_column col df rs :
  List.NoDup (map fst df) ->
  let rs' := ffill col (merge_left col df rs) in
  map row_timestamp rs' = map row_timestamp rs
  /\ column col rs'
     = ffill_list None (map (fun t => lookup_ts t df) (map row_timestamp rs))
  /\ forall c, c <> col -> column c rs' = column c rs.
Proof.
  intros Hnd rs'. subst rs'. unfold ffill. split; [|split].
  - rewrite ffill_from_timestamps. apply merge_left_timestamps. exact Hnd.
  - rewrite ffill_from_column, merge_left_column by exact Hnd. reflexivity.
  - intros c Hc. rewrite ffill_from_other by exact Hc.
    apply merge_left_other; assumption.
Qed.

Lemma add_spot_step timeline cols aligned ws a df :
  complete cols timeline aligned ->
  List.NoDup (map fst df) ->
  (exists t, In t (map fst df) /\ In t timeline) ->
  ~ In (spot_column a) cols ->
  exists aligned',
    add_spot (aligned, ws) (a, df)
    = (aligned',
       ws ++ gap_entry SpotGap a (leading_missing (map fst df) timeline))
    /\ complete (cols ++ [spot_column a]) timeline aligned'.
Proof.
  intros [Hts [Hcols Hall]] Hnd Hobs Hnew.
  unfold add_spot. cbn [fst snd].
  set (col := spot_column a) in *.
  destruct (merged_column col df (rows aligned) Hnd) as [F2 [F1 F3]].
  set (rs := ffill col (merge_left col df (rows aligned))) in *.
  rewrite Hts in F1, F2.
  pose proof (filled_column _ (lookup_column_has_value df timeline Hobs))
    as [G1 [G2 [G3 [G4 _]]]].
  rewrite leading_na_lookup in G1, G2, G3.
  set (k := leading_missing (map fst df) timeline) in *.
  rewrite isna_any_column, isna_sum_column, F1, G1, G2.
  assert (Hold : forall c, In c cols -> c <> col)
    by (intros c Hc ->; contradiction).
  unfold gap_entry. destruct (k =? 0)%nat eqn:Ek; cbn [negb].
  - apply Nat.eqb_eq in Ek. eexists. split; [rewrite app_nil_r; reflexivity|].
    split; [exact F2|]. split; [cbn [columns]; rewrite Hcols; reflexivity|].
    cbn [rows]. intros c Hc. apply in_app_or in Hc.
    destruct Hc as [Hc|[<-|[]]].
    + rewrite F3 by (apply Hold; exact Hc). apply Hall. exact Hc.
    + rewrite F1. apply G3. exact Ek.
  - eexists. split; [reflexivity|].
    split; [cbn [rows]; rewrite bfill_timestamps; exact F2|].
    split; [cbn [columns]; rewrite Hcols; reflexivity|].
    cbn [rows]. intros c Hc. apply in_app_or in Hc.
    destruct Hc as [Hc|[<-|[]]].
    + rewrite bfill_other, F3 by (apply Hold; exact Hc). apply Hall. exact Hc.
    + rewrite bfill_column, F1. exact G4.
Qed.

Lemma append_inv_head (a s1 s2 : string) :
  (a ++ s1 = a ++ s2)%string -> s1 = s2.
Proof.
  induction a as [|c a IH]; simpl; intros H; [exact H|].
  injection H as H. apply IH. exact H.
Qed.

Lemma mark_column_not_funding (a : string) :
  futures_mark_column a <> funding_column a.
Proof.
  unfold futures_mark_column, funding_column. intros H.
  apply append_inv_head in H. discriminate H.
Qed.

Lemma add_futures_step timeline cols aligned ws a df :
  complete cols timeline aligned ->
  List.NoDup (map d_timestamp df) ->
  (exists t, In t (map d_timestamp df) /\ In t timeline) ->
  ~ In (futures_mark_column a) cols ->
  ~ In (funding_column a) cols ->
  let n := leading_missing (map d_timestamp df) timeline in
  exists aligned',
    add_futures (aligned, ws) (a, df)
    = (aligned', ws ++ gap_entry MarkGap a n ++ gap_entry FundingGap a n)
    /\ complete (cols ++ [futures_mark_column a; funding_column a])
         timeline aligned'.
Proof.
  intros [Hts [Hcols Hall]] Hnd Hobs Hnew1 Hnew2 n.
  unfold add_futures. cbn [fst snd].
  set (mark := futures_mark_column a) in *.
  set (funding := funding_column a) in *.
  set (mark_df := map (fun r => (d_timestamp r, d_mark_price r)) df).
  set (funding_df := map (fun r => (d_timestamp r, d_funding_rate r)) df).
  assert (Hm : map fst mark_df = map d_timestamp df)
    by (subst mark_df; rewrite map_map; reflexivity).
  assert (Hf : map fst funding_df = map d_timestamp df)
    by (subst funding_df; rewrite map_map; reflexivity).
  assert (Hmf : mark <> funding) by apply mark_column_not_funding.
  assert (Hfm : funding <> mark) by (intros H; apply Hmf; symmetry; exact H).
  destruct (merged_column mark mark_df (rows aligned)) as [A2 [A1 A3]];
    [rewrite Hm; exact Hnd|].
  set (rs1 := ffill mark (merge_left mark mark_df (rows aligned))) in *.
  destruct (merged_column funding funding_df rs1) as [B2 [B1 B3]];
    [rewrite Hf; exact Hnd|].
  set (rs2 := ffill funding (merge_left funding funding_df rs1)) in *.
  rewrite A2, Hts in B1, B2. rewrite Hts in A1.
  assert (Hmark2 : column mark rs2
                   = ffill_list None
                       (map (fun t => lookup_ts t mark_df) timeline))
    by (rewrite B3 by exact Hmf; exact A1).
  pose proof (filled_column (map (fun t => lookup_ts t mark_df) timeline))
    as [M1 [M2 [M3 [M4 _]]]].
  { apply lookup_column_has_value. rewrite Hm. exact Hobs. }
  pose proof (filled_column (map (fun t => lookup_ts t funding_df) timeline))
    as [N1 [N2 [N3 [_ N5]]]].
  { apply lookup_column_has_value. rewrite Hf. exact Hobs. }
  rewrite leading_na_lookup, Hm in M1, M2, M3.
  rewrite leading_na_lookup, Hf in N1, N2, N3.
  fold n in M1, M2, M3, N1, N2, N3.
  assert (Hold : forall c, In c cols -> c <> mark /\ c <> funding)
    by (intros c Hc; split; intros ->; contradiction).
  assert (Hkeep : forall c, In c cols -> column c rs2 = column c (rows aligned)).
  { intros c Hc. destruct (Hold c Hc) as [H1 H2].
    rewrite B3, A3 by assumption. reflexivity. }
  rewrite isna_any_column, isna_sum_column, Hmark2, M1, M2.
  unfold gap_entry. destruct (n =? 0)%nat eqn:En; cbn [negb].
  - apply Nat.eqb_eq in En.
    rewrite isna_any_column, B1, N1. cbn [negb].
    eexists. split; [rewrite app_nil_r; reflexivity|].
    split; [exact B2|]. split; [cbn [columns]; rewrite Hcols; reflexivity|].
    cbn [rows]. intros c Hc. apply in_app_or in Hc.
    destruct Hc as [Hc|[<-|[<-|[]]]].
    + rewrite Hkeep by exact Hc. apply Hall. exact Hc.
    + rewrite Hmark2. apply M3. exact En.
    + rewrite B1. apply N3. exact En.
  - rewrite isna_any_column, isna_sum_column.
    rewrite bfill_other by exact Hfm. rewrite B1, N1, N2. cbn [negb].
    eexists. split; [rewrite <- app_assoc; reflexivity|].
    split; [cbn [rows]; rewrite fillna_timestamps, bfill_timestamps; exact B2|].
    split; [cbn [columns]; rewrite Hcols; reflexivity|].
    cbn [rows]. intros c Hc. apply in_app_or in Hc.
    destruct Hc as [Hc|[<-|[<-|[]]]].
    + destruct (Hold c Hc) as [H1 H2].
      rewrite fillna_other, bfill_other, Hkeep by assumption.
      apply Hall. exact Hc.
    + rewrite fillna_other, bfill_column, Hmark2 by exact Hmf. exact M4.
    + rewrite fillna_column, bfill_other, B1 by exact Hfm. apply N5.
Qed.

Lemma fold_add_spot timeline spot_data :
  forall cols aligned ws,
    complete cols timeline aligned ->
    Forall (fun item => alignable timeline (map fst (snd item))) spot_data ->
    List.NoDup (cols ++ spot_columns spot_data) ->
    exists aligned',
      fold_left add_spot spot_data (aligned, ws)
      = (aligned',
         ws ++ flat_map
                 (fun item =>
                    gap_entry SpotGap (fst item)
                      (leading_missing (map fst (snd item)) timeline))
                 spot_data)
      /\ complete (cols ++ spot_columns spot_data) timeline aligned'.
Proof.
  induction spot_data as [|[a df] rest IH]; intros cols aligned ws Hc Hall Hnd.
  - exists aligned. cbn. rewrite !app_nil_r. split; [reflexivity | exact Hc].
  - apply List.Forall_cons_iff in Hall. destruct Hall as [[Hd Hobs] Hall].
    cbn [spot_columns map fst] in Hnd.
    pose proof (List.NoDup_remove_2 _ _ _ Hnd) as Hnew.
    destruct (add_spot_step timeline cols aligned ws a df Hc Hd Hobs)
      as [aligned1 [Hstep Hc1]].
    { intros Hin. apply Hnew. apply in_or_app. left. exact Hin. }
    cbn [fold_left]. rewrite Hstep.
    destruct (IH (cols ++ [spot_column a]) aligned1
                (ws ++ gap_entry SpotGap a (leading_missing (map fst df) timeline))
                Hc1 Hall) as [aligned2 [Hfold Hc2]].
    { rewrite <- app_assoc. exact Hnd. }
    exists aligned2. split.
    + rewrite Hfold. cbn [flat_map fst snd]. rewrite <- app_assoc. reflexivity.
    + cbn [spot_columns map fst]. rewrite <- app_assoc in Hc2. exact Hc2.
Qed.

Lemma fold_add_futures timeline futures_data :
  forall cols aligned ws,
    complete cols timeline aligned ->
    Forall (fun item => alignable timeline (map d_timestamp (snd item)))
      futures_data ->
    List.NoDup (cols ++ futures_columns futures_data) ->
    exists aligned',
      fold_left add_futures futures_data (aligned, ws)
      = (aligned',
         ws ++ flat_map
                 (fun item =>
                    let n :=
                      leading_missing (map d_timestamp (snd item)) timeline in
                    gap_entry MarkGap (fst item) n
                    ++ gap_entry FundingGap (fst item) n)
                 futures_data)
      /\ complete (cols ++ futures_columns futures_data) timeline aligned'.
Proof.
  induction futures_data as [|[a df] rest IH];
    intros cols aligned ws Hc Hall Hnd.
  - exists aligned. cbn. rewrite !app_nil_r. split; [reflexivity | exact Hc].
  - apply List.Forall_cons_iff in Hall. destruct Hall as [[Hd Hobs] Hall].
    cbn [futures_columns flat_map fst app] in Hnd.
    fold (futures_columns rest) in Hnd.
    pose proof (List.NoDup_remove_2 _ _ _ Hnd) as Hnew1.
    pose proof (List.NoDup_remove_1 _ _ _ Hnd) as Hnd1.
    pose proof (List.NoDup_remove_2 _ _ _ Hnd1) as Hnew2.
    destruct (add_futures_step timeline cols aligned ws a df Hc Hd Hobs)
      as [aligned1 [Hstep Hc1]].
    { intros Hin. apply Hnew1. apply in_or_app. left. exact Hin. }
    { intros Hin. apply Hnew2. apply in_or_app. left. exact Hin. }
    cbn [fold_left]. rewrite Hstep.
    destruct (IH (cols ++ [futures_mark_column a; funding_column a]) aligned1
                (ws ++ gap_entry MarkGap a
                         (leading_missing (map d_timestamp df) timeline)
                    ++ gap_entry FundingGap a
                         (leading_missing (map d_timestamp df) timeline))
                Hc1 Hall) as [aligned2 [Hfold Hc2]].
    { rewrite <- app_assoc. exact Hnd. }
    exists aligned2. split.
    + rewrite Hfold. cbn [flat_map fst snd]. rewrite <- !app_assoc. reflexivity.
    + cbn [futures_columns flat_map fst]. fold (futures_columns rest).
      rewrite <- app_assoc in Hc2. exact Hc2.
Qed.

Lemma In_all_timestamps t spot_data futures_data :
  In t (all_timestamps spot_data futures_data)
  <-> (exists item, In item spot_data /\ In t (map fst (snd item)))
      \/ (exists item, In item futures_data
                       /\ In t (map d_timestamp (snd item))).
Proof.
  unfold all_timestamps. rewrite in_app_iff, !in_flat_map. reflexivity.
Qed.

(** Alignment fails exactly when no series holds a timestamp, and then
    with NoDataAvailable. *)
Lemma alignment_fails_exactly_when_no_timestamps spot_data futures_data :
  (align_time_series spot_data futures_data = Raise (ValueError NoDataAvailable)
   <-> all_timestamps spot_data futures_data = [])
  /\ (forall e, align_time_series spot_data futures_data = Raise e ->
                e = ValueError NoDataAvailable).
Proof.
  unfold align_time_series.
  destruct (all_timestamps spot_data futures_data) as [|t ts]; cbn [is_empty].
  - split; [split; reflexivity | intros e [= <-]; reflexivity].
  - split; [split; discriminate | intros e H; discriminate H].
Qed.

(** Alignment of daily series, each with an observation: the table is
    returned over the daily timeline from the first to the last timestamp,
    no data column keeps a missing value, and the warning list holds, per
    asset and field with a leading gap, one entry that counts the filled
    values. *)
Theorem alignment_complete_for_daily_series
    (spot_data : list (string * list (Z * Q)))
    (futures_data : list (string * list daily_futures_row)) :
  Forall (fun item => daily_series (map fst (snd item))) spot_data ->
  Forall (fun item => daily_series (map d_timestamp (snd item))) futures_data ->
  List.NoDup (spot_columns spot_data ++ futures_columns futures_data) ->
  all_timestamps spot_data futures_data <> [] ->
  let timeline :=
    date_range (ts_min (all_timestamps spot_data futures_data))
      (ts_max (all_timestamps spot_data futures_data)) in
  exists aligned,
    align_time_series spot_data futures_data
    = Ok (aligned, spec_warnings timeline spot_data futures_data)
    /\ complete (spot_columns spot_data ++ futures_columns futures_data)
         timeline aligned.
Proof.
  intros Hs Hf Hnd Hne timeline.
  assert (Hemp : is_empty (all_timestamps spot_data futures_data) = false)
    by (destruct (all_timestamps spot_data futures_data);
        [contradiction | reflexivity]).
  set (all := all_timestamps spot_data futures_data) in *.
  assert (Hday : forall t, In t all -> day_aligned t).
  { intros t Ht. apply In_all_timestamps in Ht.
    destruct Ht as [[item [Hi Ht]]|[item [Hi Ht]]].
    - rewrite List.Forall_forall in Hs. destruct (Hs item Hi) as [_ [_ Hd]].
      rewrite List.Forall_forall in Hd. apply Hd. exact Ht.
    - rewrite List.Forall_forall in Hf. destruct (Hf item Hi) as [_ [_ Hd]].
      rewrite List.Forall_forall in Hd. apply Hd. exact Ht. }
  destruct (ts_min_spec all Hne) as [Hmin_in Hmin].
  destruct (ts_max_spec all Hne) as [_ Hmax].
  assert (Hin : forall t, In t all -> In t timeline).
  { intros t Ht. apply In_date_range;
      [apply Hday; exact Hmin_in | apply Hday; exact Ht|].
    split; [apply Hmin | apply Hmax]; exact Ht. }
  assert (Hsa : Forall (fun item => alignable timeline (map fst (snd item)))
                  spot_data).
  { apply List.Forall_forall. intros item Hi.
    rewrite List.Forall_forall in Hs. destruct (Hs item Hi) as [Hn [Hd _]].
    split; [exact Hd|].
    destruct (map fst (snd item)) as [|t ts] eqn:E; [contradiction|].
    exists t. split; [left; reflexivity|]. apply Hin, In_all_timestamps.
    left. exists item. split; [exact Hi|]. rewrite E. left. reflexivity. }
  assert (Hfa : Forall (fun item => alignable timeline
                                      (map d_timestamp (snd item)))
                  futures_data).
  { apply List.Forall_forall. intros item Hi.
    rewrite List.Forall_forall in Hf. destruct (Hf item Hi) as [Hn [Hd _]].
    split; [exact Hd|].
    destruct (map d_timestamp (snd item)) as [|t ts] eqn:E; [contradiction|].
    exists t. split; [left; reflexivity|]. apply Hin, In_all_timestamps.
    right. exists item. split; [exact Hi|]. rewrite E. left. reflexivity. }
  unfold align_time_series. fold all. rewrite Hemp. fold timeline.
  set (init := DataFrame ["timestamp"%string]
                 (map (fun t => AlignedRow t []) timeline)).
  assert (Hinit : complete [] timeline init).
  { split; [|split].
    - subst init. cbn [rows]. rewrite map_map. cbn [row_timestamp].
      apply map_id.
    - reflexivity.
    - intros c []. }
  destruct (fold_add_spot timeline spot_data [] init [] Hinit Hsa)
    as [aligned1 [H1 C1]].
  { cbn [app]. apply (List.NoDup_app_remove_r _ _ Hnd). }
  cbn [app] in H1, C1.
  rewrite H1.
  edestruct (fold_add_futures timeline futures_data (spot_columns spot_data)
               aligned1) as [aligned2 [H2 C2]]; [exact C1 | exact Hfa | exact Hnd|].
  exists aligned2. rewrite H2. split; [reflexivity | exact C2].
Qed.

Lemma day_start_aligned (t : Z) : day_aligned (day_start t).
Proof.
  unfold day_aligned, day_start, seconds_per_day. apply Z.mod_mul. lia.
Qed.

Lemma insert_day_sorted (d : Z) (days : list Z) :
  StronglySorted Z.lt days -> StronglySorted Z.lt (insert_day d days).
Proof.
  induction 1 as [|x days Hs IH Hall]; simpl.
  - constructor; constructor.
  - destruct (d <? x)%Z eqn:E1.
    + apply Z.ltb_lt in E1. constructor; [constructor; assumption|].
      constructor; [exact E1|].
      rewrite List.Forall_forall in Hall |- *. intros y Hy.
      specialize (Hall y Hy). lia.
    + destruct (d =? x)%Z eqn:E2; [constructor; assumption|].
      apply Z.ltb_ge in E1. apply Z.eqb_neq in E2.
      constructor; [exact IH|].
      apply List.Forall_forall. intros y Hy. apply In_insert_day in Hy.
      destruct Hy as [->|Hy]; [lia|].
      rewrite List.Forall_forall in Hall. apply Hall. exact Hy.
Qed.

Lemma day_bins_sorted (ts : list Z) : StronglySorted Z.lt (day_bins ts).
Proof.
  unfold day_bins.
  assert (H : forall acc, StronglySorted Z.lt acc ->
             StronglySorted Z.lt
               (fold_left (fun days t => insert_day (day_start t) days) ts acc)).
  { induction ts as [|t ts IH]; intros acc Hacc; simpl; [exact Hacc|].
    apply IH. apply insert_day_sorted. exact Hacc. }
  apply H. constructor.
Qed.

Lemma sorted_NoDup (l : list Z) : StronglySorted Z.lt l -> List.NoDup l.
Proof.
  induction 1 as [|x l Hs IH Hall]; constructor; [|exact IH].
  intros Hin. rewrite List.Forall_forall in Hall. specialize (Hall x Hin). lia.
Qed.

Lemma day_bins_daily_series (ts : list Z) :
  ts <> [] -> daily_series (day_bins ts).
Proof.
  intros Hne. split; [|split].
  - destruct ts as [|t ts]; [contradiction|]. intros He.
    assert (Hin : In (day_start t) (day_bins (t :: ts)))
      by (apply In_day_bins; exists t; split; [left|]; reflexivity).
    rewrite He in Hin. exact Hin.
  - apply sorted_NoDup, day_bins_sorted.
  - apply List.Forall_forall. intros d Hd. apply In_day_bins in Hd.
    destruct Hd as [t [_ <-]]. apply day_start_aligned.
Qed.

Lemma observed_In (ts : list Z) (t : Z) : In t ts -> observed ts t = true.
Proof.
  intros H. unfold observed. apply existsb_exists. exists t.
  split; [exact H | apply Z.eqb_refl].
Qed.

Lemma leading_missing_own_timeline (ts : list Z) (max_ts : Z) :
  ts <> [] -> leading_missing ts (date_range (ts_min ts) max_ts) = 0%nat.
Proof.
  intros Hne. unfold date_range. cbn [seq map leading_missing].
  replace (ts_min ts + Z.of_nat 0 * seconds_per_day)%Z with (ts_min ts) by lia.
  rewrite observed_In by (apply ts_min_spec; exact Hne). reflexivity.
Qed.

Lemma alignment_complete_example :
  exists aligned,
    align_time_series spot_gap_input [] = Ok (aligned, [])
    /\ Forall is_Some (column "BTC_spot" (rows aligned)).
Proof.
  destruct (alignment_complete_for_daily_series spot_gap_input [])
    as [aligned [Ha [_ [_ Hc]]]].
  - constructor; [|constructor]. split; [discriminate|]. split.
    + constructor; [intros [H|[]]; discriminate H|].
      constructor; [intros [] | constructor].
    + constructor; [reflexivity|]. constructor; [reflexivity | constructor].
  - constructor.
  - constructor; [intros [] | constructor].
  - discriminate.
  - exists aligned. split; [exact Ha|]. apply Hc. left. reflexivity.
Qed.

(** A futures series aligned on its own timeline raises no warning. *)
Lemma align_single_futures (a : string) (df : list daily_futures_row) :
  daily_series (map d_timestamp df) ->
  exists aligned,
    align_time_series [] [(a, df)] = Ok (aligned, [])
    /\ complete [futures_mark_column a; funding_column a]
         (date_range (ts_min (map d_timestamp df)) (ts_max (map d_timestamp df)))
         aligned.
Proof.
  intros Hd.
  assert (Hall : all_timestamps [] [(a, df)] = map d_timestamp df)
    by (unfold all_timestamps; cbn; apply app_nil_r).
  destruct (alignment_complete_for_daily_series [] [(a, df)])
    as [aligned [Ha Hc]].
  - constructor.
  - constructor; [exact Hd | constructor].
  - cbn. constructor.
    + intros [H|[]]. symmetry in H. revert H. apply mark_column_not_funding.
    + constructor; [intros [] | constructor].
  - rewrite Hall. apply Hd.
  - rewrite Hall in Ha, Hc. exists aligned. split; [|exact Hc].
    rewrite Ha. f_equal. f_equal. unfold spec_warnings.
    cbn [flat_map fst snd app].
    rewrite leading_missing_own_timeline by apply Hd. reflexivity.
Qed.

(** C6, the failing input. A futures series that resampling left empty
    (no funding timestamp coincides with a mark timestamp) gets a mark-price
    column in the aligned table, and every cell of that column is missing
    after alignment. *)
Theorem alignment_leaves_missing_mark_prices :
  (let data := fetch_portfolio_data db_gap ["BTC"; "ETH"]%string 30 in
   resample_to_daily (pd_spot data) (pd_futures data)
   = (spot_gap_input, futures_gap_input))
  /\ exists aligned warnings,
       align_time_series spot_gap_input futures_gap_input
       = Ok (aligned, warnings)
       /\ has_column "ETH_futures_mark" aligned = true
       /\ length (rows aligned) = 2%nat
       /\ Forall (fun r => get_cell "ETH_futures_mark" r = None)
            (rows aligned)
       /\ warnings = [MarkGap "ETH" 2; FundingGap "ETH" 2].
Proof.
  split; [vm_compute; reflexivity|].
  eexists. eexists. split; [vm_compute; reflexivity|].
  split; [reflexivity|]. split; [reflexivity|].
  split; [|reflexivity].
  repeat (apply List.Forall_cons; [reflexivity|]). apply List.Forall_nil.
Qed.

(** ** Data-availability warning *)

Lemma data_warning_of_spec (actual_days : Z) (ws : list string) :
  (data_warning_of actual_days ws = None
   <-> (30 <= actual_days)%Z /\ ws = [])
  /\ ((actual_days < 30)%Z -> ws = [] ->
      data_warning_of actual_days ws = Some (days_warning actual_days))
  /\ ((30 <= actual_days)%Z -> ws <> [] ->
      data_warning_of actual_days ws = Some (join "; " ws))
  /\ ((actual_days < 30)%Z -> ws <> [] ->
      data_warning_of actual_days ws
      = Some (days_warning actual_days ++ " | " ++ join "; " ws)%string).
Proof.
  unfold data_warning_of.
  destruct (actual_days <? 30)%Z eqn:E;
    [apply Z.ltb_lt in E | apply Z.ltb_ge in E];
    destruct ws as [|w ws]; cbn [truthy days_warning String.append get_default];
    repeat split; intros; try reflexivity; try discriminate; try lia;
    try contradiction;
    match goal with
    | H : _ /\ _ |- _ => destruct H; try lia; try discriminate
    end.
Qed.

Section OrchestratorProperties.
Variable SENSITIVITY_RANGE : list Z.
Variables portfolio_series metrics_data scenario_results : Type.
Variable historical_series :
  list position -> data_frame -> result portfolio_series.
Variable risk_metrics_of :
  portfolio_series -> Q -> Z -> list position -> data_frame ->
  result metrics_data.
Variable run_all_scenarios :
  list position -> gmap price_key Q -> result scenario_results.

Local Abbreviation assemble :=
  (value_and_assemble SENSITIVITY_RANGE portfolio_series metrics_data
     scenario_results historical_series risk_metrics_of run_all_scenarios).

Local Abbreviation run :=
  (calculate_risk_profile SENSITIVITY_RANGE portfolio_series metrics_data
     scenario_results historical_series risk_metrics_of run_all_scenarios).

Lemma value_and_assemble_warning (positions : list position)
    (aligned_data : data_frame) (actual_days : Z) (w w' : option string) :
  match assemble positions aligned_data actual_days w with
  | Ok r =>
      data_availability_warning r = w
      /\ exists r', assemble positions aligned_data actual_days w' = Ok r'
  | Raise e => assemble positions aligned_data actual_days w' = Raise e
  end.
Proof.
  unfold value_and_assemble.
  destruct (_extract_current_prices aligned_data positions) as [cp|];
    cbn [bind]; [|reflexivity].
  destruct (calculate_portfolio_value positions cp) as [cv|];
    cbn [bind]; [|reflexivity].
  destruct (historical_series positions aligned_data) as [ps|];
    cbn [bind]; [|reflexivity].
  destruct (calculate_sensitivity_table positions cp _) as [st|];
    cbn [bind]; [|reflexivity].
  destruct (risk_metrics_of ps cv actual_days positions aligned_data) as [m|];
    cbn [bind]; [|reflexivity].
  destruct (calculate_delta_exposure positions) as [de|];
    cbn [bind]; [|reflexivity].
  destruct (run_all_scenarios positions cp) as [sr|];
    cbn [bind]; [|reflexivity].
  split; [reflexivity | eexists; reflexivity].
Qed.

(** C7, as amended. The response carries a data-availability warning exactly
    when actual_days, the lookback capped by the shortest span observed among
    the assets with spot data, is below 30 or alignment raised a warning; the
    warning is the day-count message, the alignment warnings joined, or both
    joined; it is null otherwise; and whether the run succeeds does not
    depend on the warning: the steps after alignment succeed or fail the
    same with any warning attached. *)
Theorem data_warning_policy (db : database) (positions : list position)
    (lookback_days : option Z) (h : aligned_history) :
  _validate_positions positions = Ok tt ->
  fetch_and_align db positions (get_default lookback_days 30%Z) = Ok h ->
  let days := ah_actual_days h in
  let ws := map warning_text (ah_alignment_warnings h) in
  (forall r, run db positions lookback_days = Ok r ->
     (data_availability_warning r = None
      <-> (30 <= days)%Z /\ ah_alignment_warnings h = [])
     /\ ((days < 30)%Z -> ah_alignment_warnings h = [] ->
         data_availability_warning r = Some (days_warning days))
     /\ ((30 <= days)%Z -> ah_alignment_warnings h <> [] ->
         data_availability_warning r = Some (join "; " ws))
     /\ ((days < 30)%Z -> ah_alignment_warnings h <> [] ->
         data_availability_warning r
         = Some (days_warning days ++ " | " ++ join "; " ws)%string))
  /\ ((exists r, run db positions lookback_days = Ok r)
      <-> exists r, assemble positions (ah_aligned h) days None = Ok r)
  /\ days
     = actual_days_available (get_default lookback_days 30%Z)
         (fst (process_spot db
                 (unique (omap asset positions)))).
Proof.
  intros Hval Hfetch days ws.
  assert (Hrun : run db positions lookback_days
                 = assemble positions (ah_aligned h) days
                     (data_warning_of days ws)).
  { unfold calculate_risk_profile.
    rewrite Hval; cbn [bind]. rewrite Hfetch; cbn [bind]. reflexivity. }
  assert (Hws : ws = [] <-> ah_alignment_warnings h = []).
  { subst ws. destruct (ah_alignment_warnings h); simpl;
      split; intros; try reflexivity; discriminate. }
  pose proof (data_warning_of_spec days ws) as [S1 [S2 [S3 S4]]].
  split; [|split].
  - intros r Hr. rewrite Hrun in Hr.
    pose proof (value_and_assemble_warning positions (ah_aligned h) days
                  (data_warning_of days ws) None) as Hw.
    rewrite Hr in Hw. destruct Hw as [Hw _]. rewrite Hw.
    split; [rewrite S1, Hws; reflexivity|].
    split; [intros; apply S2; [|apply Hws]; assumption|].
    split; intros Hd Hne; [apply S3 | apply S4]; try assumption;
      intros He; apply Hne, Hws, He.
  - rewrite Hrun. split; intros [r Hr].
    + pose proof (value_and_assemble_warning positions (ah_aligned h) days
                    (data_warning_of days ws) None) as Hw.
      rewrite Hr in Hw. tauto.
    + pose proof (value_and_assemble_warning positions (ah_aligned h) days
                    None (data_warning_of days ws)) as Hw.
      rewrite Hr in Hw. tauto.
  - subst days. unfold fetch_and_align in Hfetch.
    destruct (asset_names positions) as [names|] eqn:En;
      cbn [bind] in Hfetch; [|discriminate].
    assert (Hn : names = omap asset positions).
    { clear -En. revert names En.
      induction positions as [|p ps IH]; intros names En; simpl in En.
      - injection En as <-. reflexivity.
      - destruct (asset p) as [a|] eqn:Ea; cbn [getitem bind] in En;
          [|discriminate].
        destruct (asset_names ps) as [ns|]; cbn [bind] in En; [|discriminate].
        injection En as <-. simpl. rewrite Ea. simpl. f_equal.
        apply IH. reflexivity. }
    subst names.
    destruct (resample_to_daily _ _) as [ds df].
    destruct (align_time_series ds df) as [al|]; cbn [bind] in Hfetch;
      [|discriminate].
    injection Hfetch as <-. cbn [ah_actual_days].
    unfold fetch_portfolio_data.
    destruct (process_spot db _), (process_futures db _). reflexivity.
Qed.
End OrchestratorProperties.

Lemma data_warning_policy_witness :
  exists h,
    fetch_and_align db_no_funding [btc_spot] 30 = Ok h
    /\ ah_actual_days h
       = actual_days_available 30
           (fst (process_spot db_no_funding (unique (omap asset [btc_spot])))).
Proof.
  eexists. split; [vm_compute; reflexivity|].
  refine (proj2 (proj2 (data_warning_policy [] unit unit unit
            (fun _ _ => Ok tt) (fun _ _ _ _ _ => Ok tt) (fun _ _ => Ok tt)
            db_no_funding [btc_spot] None _ eq_refl _))).
  vm_compute. reflexivity.
Defined.

(** C7 as stated fails: with 41 days of BTC closes and the first 11 days of
    ETH closes the aligned history spans 40 days and alignment raises no
    warning, and the response still carries the day-count warning, for 10
    days. *)
Lemma warning_with_long_aligned_history :
  exists h r,
    fetch_and_align db_uneven [btc_spot; eth_spot] 60 = Ok h
    /\ calculate_risk_profile [0%Z] unit unit unit
         (fun _ _ => Ok tt) (fun _ _ _ _ _ => Ok tt) (fun _ _ => Ok tt)
         db_uneven [btc_spot; eth_spot] (Some 60%Z) = Ok r
    /\ history_span_days (ah_aligned h) = 40%Z
    /\ length (rows (ah_aligned h)) = 41%nat
    /\ ah_alignment_warnings h = []
    /\ data_availability_warning r = Some (days_warning 10)
    /\ ~ ((history_span_days (ah_aligned h) < 30)%Z
          \/ ah_alignment_warnings h <> []).
Proof.
  eexists. eexists.
  split; [vm_compute; reflexivity|].
  split; [vm_compute; reflexivity|].
  split; [vm_compute; reflexivity|].
  split; [vm_compute; reflexivity|].
  split; [vm_compute; reflexivity|].
  split; [vm_compute; reflexivity|].
  vm_compute. intros [H|H]; [discriminate H | apply H; reflexivity].
Qed.

(** ** More on valuation *)

(** X1. Valuation of a position returns a value exactly when its four
    required keys are present, a price resolves, and the position is spot
    or a futures position with non-zero leverage; a missing key raises
    KeyError in the order asset, quantity, position_type, entry_price, also
    for a spot position without entry_price; a missing price is reported
    before an unknown position type. *)
Theorem position_value_outcomes (pos : position) (prices : gmap price_key Q) :
  ((exists v, calculate_position_value pos prices = Ok v)
   <-> exists a q t e p,
         asset pos = Some a /\ quantity pos = Some q
         /\ position_type pos = Some t /\ entry_price pos = Some e
         /\ lookup_price prices a t = Some p
         /\ (t = "spot"%string
             \/ ((t = "futures_long"%string \/ t = "futures_short"%string)
                 /\ ~ get_default (leverage pos) 1 == 0)))
  /\ (asset pos = None ->
      calculate_position_value pos prices = Raise (KeyError "asset"))
  /\ (is_Some (asset pos) -> quantity pos = None ->
      calculate_position_value pos prices = Raise (KeyError "quantity"))
  /\ (is_Some (asset pos) -> is_Some (quantity pos) ->
      position_type pos = None ->
      calculate_position_value pos prices = Raise (KeyError "position_type"))
  /\ (is_Some (asset pos) -> is_Some (quantity pos) ->
      is_Some (position_type pos) -> entry_price pos = None ->
      calculate_position_value pos prices = Raise (KeyError "entry_price"))
  /\ (forall a q t e,
        asset pos = Some a -> quantity pos = Some q ->
        position_type pos = Some t -> entry_price pos = Some e ->
        (lookup_price prices a t = None ->
         calculate_position_value pos prices
         = Raise (ValueError (NoCurrentPrice a t)))
        /\ (is_Some (lookup_price prices a t) ->
            string_in t valid_position_types = false ->
            calculate_position_value pos prices
            = Raise (ValueError (UnknownPositionType t)))
        /\ (is_Some (lookup_price prices a t) ->
            t = "futures_long"%string \/ t = "futures_short"%string ->
            get_default (leverage pos) 1 == 0 ->
            calculate_position_value pos prices = Raise ZeroDivisionError)).
Proof.
  split; [|split; [|split; [|split; [|split]]]].
  - split.
    + intros [v Hv]. unfold calculate_position_value in Hv.
      destruct (asset pos) as [a|]; [|discriminate].
      destruct (quantity pos) as [q|]; [|discriminate].
      destruct (position_type pos) as [t|]; [|discriminate].
      destruct (entry_price pos) as [e|]; [|discriminate].
      cbn [getitem bind] in Hv.
      destruct (lookup_price prices a t) as [p|] eqn:Hp; [|discriminate].
      exists a, q, t, e, p. repeat (split; [reflexivity || exact Hp|]).
      unfold calculate_futures_long_value, calculate_futures_short_value in Hv.
      destruct (String.eqb t "spot") eqn:E1;
        [left; apply String.eqb_eq; exact E1|].
      right.
      destruct (String.eqb t "futures_long") eqn:E2.
      { split; [left; apply String.eqb_eq; exact E2|].
        destruct (Qeq_bool _ 0) eqn:E; [discriminate|].
        intros H. apply Qeq_bool_iff in H. congruence. }
      destruct (String.eqb t "futures_short") eqn:E3; [|discriminate].
      split; [right; apply String.eqb_eq; exact E3|].
      destruct (Qeq_bool _ 0) eqn:E; [discriminate|].
      intros H. apply Qeq_bool_iff in H. congruence.
    + intros [a [q [t [e [p [Ha [Hq [Ht [He [Hp Hk]]]]]]]]]].
      rewrite (position_value_resolved pos prices a t q e p Ha Hq Ht He Hp).
      unfold calculate_futures_long_value, calculate_futures_short_value.
      destruct Hk as [->|[[->| ->] Hl]]; cbn [String.eqb Ascii.eqb Bool.eqb];
        simpl; try rewrite (Qeq_bool_false _ _ Hl); eexists; reflexivity.
  - intros H. unfold calculate_position_value. rewrite H. reflexivity.
  - intros [a Ha] H. unfold calculate_position_value. rewrite Ha, H. reflexivity.
  - intros [a Ha] [q Hq] H. unfold calculate_position_value.
    rewrite Ha, Hq, H. reflexivity.
  - intros [a Ha] [q Hq] [t Ht] H. unfold calculate_position_value.
    rewrite Ha, Hq, Ht, H. reflexivity.
  - intros a q t e Ha Hq Ht He. split; [|split].
    + intros Hp. unfold calculate_position_value.
      rewrite Ha, Hq, Ht, He; cbn [getitem bind]. rewrite Hp. reflexivity.
    + intros [p Hp] Hk.
      rewrite (position_value_resolved pos prices a t q e p Ha Hq Ht He Hp).
      unfold string_in, valid_position_types in Hk. simpl in Hk.
      destruct (String.eqb t "spot"); [discriminate|].
      destruct (String.eqb t "futures_long"); [discriminate|].
      destruct (String.eqb t "futures_short"); [discriminate|]. reflexivity.
    + intros [p Hp] Hk Hl.
      rewrite (position_value_resolved pos prices a t q e p Ha Hq Ht He Hp).
      apply Qeq_bool_iff in Hl.
      unfold calculate_futures_long_value, calculate_futures_short_value.
      destruct Hk as [->| ->]; simpl; rewrite Hl; reflexivity.
Qed.

Lemma portfolio_value_loop_acc (positions : list position)
    (prices : gmap price_key Q) :
  forall total v, portfolio_value_loop total positions prices = Ok v ->
  forall total', exists v',
    portfolio_value_loop total' positions prices = Ok v'
    /\ v' - total' == v - total.
Proof.
  induction positions as [|pos rest IH]; intros total v H total'; simpl in *.
  - injection H as <-. exists total'. split; [reflexivity | ring].
  - destruct (calculate_position_value pos prices) as [x|]; simpl in *;
      [|discriminate].
    destruct (IH _ _ H (total' + x)) as [v' [Hv' Heq]].
    exists v'. split; [exact Hv' | lra].
Qed.

Lemma portfolio_value_loop_app (ps1 ps2 : list position)
    (prices : gmap price_key Q) (total : Q) :
  portfolio_value_loop total (ps1 ++ ps2) prices
  = try v <- portfolio_value_loop total ps1 prices ;
    portfolio_value_loop v ps2 prices.
Proof.
  revert total. induction ps1 as [|pos rest IH]; intros total; simpl.
  - reflexivity.
  - destruct (calculate_position_value pos prices) as [x|]; simpl;
      [apply IH | reflexivity].
Qed.

(** X2. The value of a portfolio is additive over concatenation, and the
    first position whose valuation fails decides the error: positions after
    it are never looked at. *)
Theorem portfolio_value_additive_first_error (ps1 ps2 : list position)
    (prices : gmap price_key Q) :
  (forall v1 v2,
     calculate_portfolio_value ps1 prices = Ok v1 ->
     calculate_portfolio_value ps2 prices = Ok v2 ->
     exists v, calculate_portfolio_value (ps1 ++ ps2) prices = Ok v
               /\ v == v1 + v2)
  /\ (forall v1 pos e,
        calculate_portfolio_value ps1 prices = Ok v1 ->
        calculate_position_value pos prices = Raise e ->
        calculate_portfolio_value (ps1 ++ pos :: ps2) prices = Raise e)
  /\ (forall v, calculate_portfolio_value (ps1 ++ ps2) prices = Ok v ->
        exists v1 v2, calculate_portfolio_value ps1 prices = Ok v1
                      /\ calculate_portfolio_value ps2 prices = Ok v2).
Proof.
  unfold calculate_portfolio_value. split; [|split].
  - intros v1 v2 H1 H2. rewrite portfolio_value_loop_app, H1; simpl.
    destruct (portfolio_value_loop_acc ps2 prices 0 v2 H2 v1) as [v [Hv Heq]].
    exists v. split; [exact Hv | lra].
  - intros v1 pos e H1 He. rewrite portfolio_value_loop_app, H1; simpl.
    rewrite He. reflexivity.
  - intros v H. rewrite portfolio_value_loop_app in H.
    destruct (portfolio_value_loop 0 ps1 prices) as [v1|]; simpl in H;
      [|discriminate].
    destruct (portfolio_value_loop_acc ps2 prices v1 v H 0) as [v2 [Hv2 _]].
    exists v1, v2. split; [reflexivity | exact Hv2].
Qed.

Lemma position_value_shock_linear (pos : position) (prices : gmap price_key Q)
    (s v : Q) :
  calculate_position_value pos prices = Ok v ->
  exists v', calculate_position_value pos (apply_price_shock prices s) = Ok v'
             /\ v' - v == s * position_dollar_delta pos prices.
Proof.
  unfold calculate_position_value, position_dollar_delta.
  destruct (asset pos) as [a|]; simpl; [|discriminate].
  destruct (quantity pos) as [q|]; simpl; [|discriminate].
  destruct (position_type pos) as [t|]; simpl; [|discriminate].
  destruct (entry_price pos) as [e|]; simpl; [|discriminate].
  rewrite lookup_price_shock.
  destruct (lookup_price prices a t) as [p|]; simpl; [|discriminate].
  unfold calculate_futures_long_value, calculate_futures_short_value,
    calculate_spot_value, pnl_long, pnl_short.
  destruct (String.eqb t "spot").
  { intros [= <-]. eexists; split; [reflexivity|]. ring. }
  destruct (String.eqb t "futures_long").
  { destruct (Qeq_bool _ 0); [discriminate|].
    intros [= <-]. eexists; split; [reflexivity|]. ring. }
  destruct (String.eqb t "futures_short"); [|discriminate].
  destruct (Qeq_bool _ 0); [discriminate|].
  intros [= <-]. eexists; split; [reflexivity|]. ring.
Qed.

Lemma portfolio_value_loop_shock_linear (positions : list position)
    (prices : gmap price_key Q) (s : Q) :
  forall total v, portfolio_value_loop total positions prices = Ok v ->
  forall total', exists v',
    portfolio_value_loop total' positions (apply_price_shock prices s) = Ok v'
    /\ v' - total' == (v - total) + s * dollar_delta positions prices.
Proof.
  induction positions as [|pos rest IH]; intros total v H total'; simpl in *.
  - injection H as <-. exists total'. split; [reflexivity | ring].
  - destruct (calculate_position_value pos prices) as [x|] eqn:E;
      simpl in H; [|discriminate].
    destruct (position_value_shock_linear pos prices s x E) as [x' [E' Hx]].
    rewrite E'; simpl.
    destruct (IH _ _ H (total' + x')) as [v' [Hv' Heq]].
    exists v'. split; [exact Hv'|]. lra.
Qed.

(** X3. The sensitivity table is linear in the shock: with the dollar delta
    of the portfolio being the sum of quantity times price, counted
    negatively for short futures, every row has
    pnl = shock * dollar delta and portfolio_value = base + pnl, whatever
    the entry prices and leverages are; return_pct is pnl over the base
    value in percent, and 0 when the base value is 0. *)
Theorem sensitivity_pnl_linear_in_shock (positions : list position)
    (base_prices : gmap price_key Q) (shock_range : list Q)
    (base_value : Q) (table : list sensitivity_row) :
  calculate_portfolio_value positions base_prices = Ok base_value ->
  calculate_sensitivity_table positions base_prices shock_range = Ok table ->
  Forall2 (fun s row =>
             price_change_pct row == s * 100
             /\ pnl row == s * dollar_delta positions base_prices
             /\ portfolio_value row == base_value + pnl row
             /\ (~ base_value == 0 ->
                 return_pct row == pnl row / base_value * 100)
             /\ (base_value == 0 -> return_pct row == 0))
          shock_range table.
Proof.
  intros Hbase. unfold calculate_sensitivity_table. rewrite Hbase; simpl.
  revert table. induction shock_range as [|s rest IH]; intros table; simpl.
  - intros [= <-]. constructor.
  - destruct (portfolio_value_loop_shock_linear positions base_prices s 0
                base_value Hbase 0) as [v' [Hv' Heq]].
    unfold calculate_portfolio_value at 1. rewrite Hv'; simpl.
    destruct (sensitivity_rows positions base_prices base_value rest)
      as [rows|]; simpl; [|discriminate].
    intros [= <-]. constructor; [|apply IH; reflexivity]. simpl.
    split; [reflexivity|]. split; [lra|]. split; [ring|]. split.
    + intros Hnz. rewrite (Qeq_bool_false _ _ Hnz). reflexivity.
    + intros Hz. apply Qeq_bool_iff in Hz. rewrite Hz. ring.
Qed.

Lemma sensitivity_pnl_linear_in_shock_witness :
  exists table,
    calculate_sensitivity_table [btc_spot; eth_long] snapshot_ex
      [- (5 # 100); 5 # 100] = Ok table
    /\ Forall2 (fun s row =>
                  pnl row == s * dollar_delta [btc_spot; eth_long] snapshot_ex)
         [- (5 # 100); 5 # 100] table.
Proof.
  eexists. split; [reflexivity|].
  eapply Forall2_impl;
    [apply (sensitivity_pnl_linear_in_shock [btc_spot; eth_long] snapshot_ex
              [- (5 # 100); 5 # 100] _ _ eq_refl eq_refl)|].
  intros s row H. apply H.
Defined.

Lemma delta_exposure_loop_app (ps1 ps2 : list position) (delta : Q) :
  delta_exposure_loop delta (ps1 ++ ps2)
  = try d <- delta_exposure_loop delta ps1 ; delta_exposure_loop d ps2.
Proof.
  revert delta. induction ps1 as [|pos rest IH]; intros delta; simpl.
  - reflexivity.
  - destruct (quantity pos) as [q|]; simpl; [|reflexivity].
    destruct (position_type pos) as [t|]; simpl; [|reflexivity].
    repeat (destruct (String.eqb _ _); [apply IH|]). apply IH.
Qed.

Lemma delta_exposure_loop_total (positions : list position) :
  Forall (fun pos => is_Some (quantity pos) /\ is_Some (position_type pos))
    positions ->
  forall delta, exists d,
    delta_exposure_loop delta positions = Ok d
    /\ d == delta + spec_delta_exposure positions.
Proof.
  induction 1 as [|pos rest [[q Hq] [t Ht]] _ IH]; intros delta; simpl.
  - exists delta. split; [reflexivity | lra].
  - unfold spec_signed_quantity. rewrite Hq, Ht; simpl.
    destruct (String.eqb t "spot").
    { destruct (IH (delta + q)) as [d [Hd Hv]]. exists d. split; [exact Hd|lra]. }
    destruct (String.eqb t "futures_long").
    { destruct (IH (delta + q)) as [d [Hd Hv]]. exists d. split; [exact Hd|lra]. }
    destruct (String.eqb t "futures_short").
    { destruct (IH (delta - q)) as [d [Hd Hv]]. exists d. split; [exact Hd|lra]. }
    destruct (IH delta) as [d [Hd Hv]]. exists d. split; [exact Hd|lra].
Qed.

Lemma delta_exposure_loop_fields (positions : list position) :
  forall delta d, delta_exposure_loop delta positions = Ok d ->
  Forall (fun pos => is_Some (quantity pos) /\ is_Some (position_type pos))
    positions.
Proof.
  induction positions as [|pos rest IH]; intros delta d H; simpl in H.
  - constructor.
  - destruct (quantity pos) as [q|] eqn:Eq; simpl in H; [|discriminate].
    destruct (position_type pos) as [t|] eqn:Et; simpl in H; [|discriminate].
    constructor; [split; [exists q; exact Eq | exists t; exact Et]|].
    repeat (destruct (String.eqb _ _); [eapply IH; exact H|]).
    eapply IH; exact H.
Qed.

(** X4. Delta exposure needs only the quantity and position_type of each
    position: it is defined exactly when every position carries both, needs
    neither asset, entry price nor any market price, and a position of a
    kind other than spot, futures_long and futures_short is skipped, not
    rejected; the first position that lacks a key decides the KeyError. *)
Theorem delta_exposure_defined_iff (positions : list position) :
  ((exists d, calculate_delta_exposure positions = Ok d)
   <-> Forall (fun pos => is_Some (quantity pos) /\ is_Some (position_type pos))
         positions)
  /\ (forall d, calculate_delta_exposure positions = Ok d ->
        d == spec_delta_exposure positions)
  /\ (forall ps1 pos ps2 d1,
        positions = ps1 ++ pos :: ps2 ->
        calculate_delta_exposure ps1 = Ok d1 ->
        (quantity pos = None ->
         calculate_delta_exposure positions = Raise (KeyError "quantity"))
        /\ (is_Some (quantity pos) -> position_type pos = None ->
            calculate_delta_exposure positions
            = Raise (KeyError "position_type"))
        /\ (forall q t, quantity pos = Some q -> position_type pos = Some t ->
              string_in t valid_position_types = false ->
              calculate_delta_exposure positions
              = calculate_delta_exposure (ps1 ++ ps2))).
Proof.
  unfold calculate_delta_exposure. split; [|split].
  - split.
    + intros [d Hd]. eapply delta_exposure_loop_fields. exact Hd.
    + intros H. destruct (delta_exposure_loop_total positions H 0) as [d [Hd _]].
      exists d. exact Hd.
  - intros d Hd.
    destruct (delta_exposure_loop_total positions
                (delta_exposure_loop_fields positions 0 d Hd) 0) as [d' [Hd' Hv]].
    assert (d' = d) by congruence. subst d'. lra.
  - intros ps1 pos ps2 d1 -> H1.
    rewrite !delta_exposure_loop_app, H1. cbn [bind delta_exposure_loop].
    split; [|split].
    + intros ->. reflexivity.
    + intros [q ->] ->. reflexivity.
    + intros q t -> -> Hk. cbn [getitem bind].
      unfold string_in, valid_position_types in Hk. simpl in Hk.
      destruct (String.eqb t "spot"); [discriminate|].
      destruct (String.eqb t "futures_long"); [discriminate|].
      destruct (String.eqb t "futures_short"); [discriminate|]. reflexivity.
Qed.

Lemma validate_position_error_index (i : nat) (pos : position) (err : exn) :
  validate_position i pos = Raise err ->
  exists e, err = ValueError e /\ error_index e = Some i
            /\ (forall j f, e = MissingField j f ->
                  field_present f pos = false
                  /\ In f ["asset"; "quantity"; "position_type";
                           "entry_price"]%string).
Proof.
  unfold validate_position.
  destruct (asset pos) as [a|] eqn:Ea; cbn [has_key negb getitem bind];
    [|intros [= <-]; eexists; split; [reflexivity|]; split; [reflexivity|];
      intros j f [= <- <-]; unfold field_present; rewrite Ea; simpl; tauto].
  destruct (quantity pos) as [q|] eqn:Eq; cbn [has_key negb getitem bind];
    [|intros [= <-]; eexists; split; [reflexivity|]; split; [reflexivity|];
      intros j f [= <- <-]; unfold field_present; rewrite Eq; simpl; tauto].
  destruct (position_type pos) as [t|] eqn:Et; cbn [has_key negb getitem bind];
    [|intros [= <-]; eexists; split; [reflexivity|]; split; [reflexivity|];
      intros j f [= <- <-]; unfold field_present; rewrite Et; simpl; tauto].
  destruct (entry_price pos) as [e|] eqn:Ee; cbn [has_key negb getitem bind];
    [|intros [= <-]; eexists; split; [reflexivity|]; split; [reflexivity|];
      intros j f [= <- <-]; unfold field_present; rewrite Ee; simpl; tauto].
  destruct (string_in t valid_position_types); cbn [negb];
    [|intros [= <-]; eexists; split; [reflexivity|]; split; [reflexivity|];
      intros j f [=]].
  destruct (Qle_bool q 0);
    [intros [= <-]; eexists; split; [reflexivity|]; split; [reflexivity|];
      intros j f [=]|].
  destruct (Qle_bool e 0);
    [intros [= <-]; eexists; split; [reflexivity|]; split; [reflexivity|];
      intros j f [=]|].
  destruct (_ || _); [|discriminate].
  intros [= <-]; eexists; split; [reflexivity|]; split; [reflexivity|];
      intros j f [=].
Qed.

Lemma validate_loop_first_error (positions : list position) :
  forall i err, validate_loop i positions = Raise err ->
  exists e k pos,
    err = ValueError e /\ error_index e = Some (i + k)%nat
    /\ positions !! k = Some pos
    /\ validate_position (i + k) pos = Raise err
    /\ (forall j pos', (j < k)%nat -> positions !! j = Some pos' ->
          ~ invalid_position pos').
Proof.
  induction positions as [|pos rest IH]; intros i err H; simpl in H;
    [discriminate|].
  destruct (validate_position_spec i pos) as [[Hok Hv]|[err' [Herr [_ Hv]]]].
  - rewrite Hok in H; simpl in H.
    destruct (IH (S i) err H) as [e [k [pos' [He [Hi [Hl [Hr Hb]]]]]]].
    exists e, (S k), pos'. split; [exact He|].
    replace (i + S k)%nat with (S i + k)%nat by lia.
    split; [exact Hi|]. split; [exact Hl|]. split; [exact Hr|].
    intros [|j] p Hj Hp.
    + injection Hp as <-. exact Hv.
    + apply (Hb j p); [lia | exact Hp].
  - rewrite Herr in H; simpl in H. injection H as <-.
    destruct (validate_position_error_index i pos err' Herr) as [e [He [Hi _]]].
    exists e, 0%nat, pos. rewrite Nat.add_0_r.
    split; [exact He|]. split; [exact Hi|]. split; [reflexivity|].
    split; [exact Herr|]. intros j p Hj. lia.
Qed.

(** X5. A validation error that names a position names the first invalid
    one: the index lies within the list, the position at it is invalid, every
    position before it is valid, and a MissingField error names a key, among
    asset, quantity, position_type and entry_price, that this position lacks.
    The size of the list is checked before any position: an empty list and a
    list of more than 20 positions are refused whatever they hold. *)
Theorem validation_reports_first_invalid_position
    (positions : list position) (e : value_error) :
  _validate_positions positions = Raise (ValueError e) ->
  (positions = [] /\ e = EmptyPortfolio)
  \/ ((20 < length positions)%nat /\ e = TooManyPositions)
  \/ (exists i pos,
        (0 < length positions <= 20)%nat
        /\ error_index e = Some i
        /\ positions !! i = Some pos
        /\ invalid_position pos
        /\ (forall j pos', (j < i)%nat -> positions !! j = Some pos' ->
              ~ invalid_position pos')
        /\ (forall j f, e = MissingField j f ->
              field_present f pos = false
              /\ In f ["asset"; "quantity"; "position_type";
                       "entry_price"]%string)).
Proof.
  unfold _validate_positions. destruct positions as [|p rest].
  { intros [= <-]. left. split; reflexivity. }
  destruct (20 <? length (p :: rest))%nat eqn:El.
  { intros [= <-]. right; left. split; [apply Nat.ltb_lt; exact El | reflexivity]. }
  apply Nat.ltb_ge in El. intros H. right; right.
  destruct (validate_loop_first_error (p :: rest) 0 _ H)
    as [e' [k [pos [He [Hi [Hl [Hr Hb]]]]]]].
  injection He as <-. simpl in Hi, Hr.
  exists k, pos. split; [simpl in *; lia|]. split; [exact Hi|].
  split; [exact Hl|]. split.
  - destruct (validate_position_spec k pos) as [[Hok _]|[err [_ [_ Hv]]]];
      [congruence | exact Hv].
  - split; [exact Hb|].
    destruct (validate_position_error_index k pos _ Hr) as [e' [He' [_ Hf]]].
    injection He' as <-. exact Hf.
Qed.

Lemma validation_reports_first_invalid_position_witness :
  exists i pos,
    [btc_spot; Position (Some "ETH"%string) (Some 10) (Some "spot"%string) None None]
      !! i = Some pos
    /\ invalid_position pos.
Proof.
  destruct (validation_reports_first_invalid_position
              [btc_spot; Position (Some "ETH"%string) (Some 10)
                           (Some "spot"%string) None None]
              (MissingField 1 "entry_price") eq_refl)
    as [[H _]|[[H _]|[i [pos [_ [_ [Hl [Hv _]]]]]]]].
  - discriminate H.
  - simpl in H. lia.
  - exists i, pos. split; assumption.
Defined.

(** ** Current prices and the valuation steps *)

Lemma extract_prices_loop_spec (aligned : data_frame) (latest : aligned_row)
    (positions : list position) :
  forall acc prices,
    extract_prices_loop aligned latest positions acc = Ok prices ->
    (forall a t v, acc !! (inl (a, t) : price_key) = Some v ->
       get_cell (price_column a t) latest = Some v) ->
    (forall a t v, prices !! (inl (a, t) : price_key) = Some v ->
       get_cell (price_column a t) latest = Some v)
    /\ (forall k, is_Some (acc !! k) -> is_Some (prices !! k))
    /\ (forall k, is_Some (prices !! k) ->
          is_Some (acc !! k)
          \/ exists pos a t, In pos positions /\ asset pos = Some a
                             /\ position_type pos = Some t /\ k = inl (a, t))
    /\ Forall (fun pos =>
                 exists a t, asset pos = Some a /\ position_type pos = Some t
                   /\ has_column (price_column a t) aligned = true
                   /\ is_Some (prices !! (inl (a, t) : price_key)))
         positions.
Proof.
  induction positions as [|pos rest IH]; intros acc prices H Hacc;
    cbn [extract_prices_loop] in H.
  - injection H as <-. split; [exact Hacc|]. split; [auto|].
    split; [auto | constructor].
  - destruct (asset pos) as [a|] eqn:Ea; cbn [getitem bind] in H;
      [|discriminate].
    destruct (position_type pos) as [t|] eqn:Et; cbn [getitem bind] in H;
      [|discriminate].
    assert (Hstep : exists v,
               has_column (price_column a t) aligned = true
               /\ get_cell (price_column a t) latest = Some v
               /\ extract_prices_loop aligned latest rest
                    (<[(inl (a, t) : price_key) := v]> acc) = Ok prices).
    { unfold price_column, cell_value in *.
      destruct (String.eqb t "spot").
      - destruct (has_column (spot_column a) aligned); [|discriminate].
        destruct (get_cell (spot_column a) latest) as [v|];
          cbn [bind] in H; [|discriminate].
        exists v. repeat split. exact H.
      - destruct (has_column (futures_mark_column a) aligned); [|discriminate].
        destruct (get_cell (futures_mark_column a) latest) as [v|];
          cbn [bind] in H; [|discriminate].
        exists v. repeat split. exact H. }
    destruct Hstep as [v [Hcol [Hcell Hrest]]].
    destruct (IH _ _ Hrest) as [I1 [I2 [I3 I4]]].
    { intros a' t' v' Hl.
      destruct (decide ((inl (a', t') : price_key) = inl (a, t))) as [E|E].
      - rewrite E, lookup_insert_eq in Hl. injection Hl as <-.
        injection E as -> ->. exact Hcell.
      - rewrite lookup_insert_ne in Hl by congruence. eapply Hacc. exact Hl. }
    split; [exact I1|]. split; [|split].
    + intros k Hk. apply I2.
      destruct (decide (k = inl (a, t))) as [->|E].
      * rewrite lookup_insert_eq. eexists; reflexivity.
      * rewrite lookup_insert_ne by congruence. exact Hk.
    + intros k Hk. destruct (I3 k Hk) as [Hin|[p [a' [t' [Hp Hrest']]]]].
      * destruct (decide (k = inl (a, t))) as [->|E].
        -- right. exists pos, a, t. repeat split; try assumption. left; reflexivity.
        -- rewrite lookup_insert_ne in Hin by congruence. left. exact Hin.
      * right. exists p, a', t'. split; [right; exact Hp | exact Hrest'].
    + constructor; [|exact I4].
      exists a, t. repeat split; try assumption.
      apply I2. rewrite lookup_insert_eq. eexists; reflexivity.
Qed.

Lemma extract_current_prices_spec (aligned : data_frame)
    (positions : list position) (prices : gmap price_key Q) :
  _extract_current_prices aligned positions = Ok prices ->
  exists latest,
    last (rows aligned) = Some latest
    /\ Forall (fun pos =>
                 exists a t v, asset pos = Some a /\ position_type pos = Some t
                   /\ has_column (price_column a t) aligned = true
                   /\ get_cell (price_column a t) latest = Some v
                   /\ prices !! (inl (a, t) : price_key) = Some v)
         positions
    /\ (forall k, is_Some (prices !! k) ->
          exists pos a t, In pos positions /\ asset pos = Some a
                          /\ position_type pos = Some t /\ k = inl (a, t)).
Proof.
  unfold _extract_current_prices.
  destruct (last (rows aligned)) as [latest|]; [|discriminate].
  intros H. exists latest. split; [reflexivity|].
  destruct (extract_prices_loop_spec aligned latest positions ∅ prices H)
    as [I1 [_ [I3 I4]]].
  { intros a t v Hl. rewrite lookup_empty in Hl. discriminate. }
  split.
  - eapply List.Forall_impl; [|exact I4].
    intros pos [a [t [Ha [Ht [Hc [v Hv]]]]]].
    exists a, t, v. repeat split; try assumption. apply I1. exact Hv.
  - intros k Hk. destruct (I3 k Hk) as [Hin|Hp]; [|exact Hp].
    rewrite lookup_empty in Hin. destruct Hin as [? Hin]. discriminate.
Qed.

(** X6. When the current prices are extracted, every position has its
    composite key in the snapshot, bound to the cell of the latest row in
    the asset's spot column for a spot position and in its futures mark
    column for any other kind, so a long and a short future of one asset are
    priced alike; the snapshot has no other key.  A table without rows
    raises IndexError. *)
Theorem current_prices_read_latest_row (aligned : data_frame)
    (positions : list position) :
  (forall prices,
     _extract_current_prices aligned positions = Ok prices ->
     exists latest,
       last (rows aligned) = Some latest
       /\ (forall pos, In pos positions ->
             exists a t v, asset pos = Some a /\ position_type pos = Some t
               /\ has_column (price_column a t) aligned = true
               /\ get_cell (price_column a t) latest = Some v
               /\ prices !! (inl (a, t) : price_key) = Some v
               /\ lookup_price prices a t = Some v)
       /\ (forall k, is_Some (prices !! k) ->
             exists pos a t, In pos positions /\ asset pos = Some a
                             /\ position_type pos = Some t /\ k = inl (a, t))
       /\ (forall a v1 v2,
             prices !! (inl (a, "futures_long"%string) : price_key) = Some v1 ->
             prices !! (inl (a, "futures_short"%string) : price_key) = Some v2 ->
             v1 = v2))
  /\ (rows aligned = [] ->
      _extract_current_prices aligned positions = Raise IndexError).
Proof.
  split.
  - intros prices H.
    destruct (extract_current_prices_spec aligned positions prices H)
      as [latest [Hl [Hall Hdom]]].
    exists latest. split; [exact Hl|]. split; [|split; [exact Hdom|]].
    + intros pos Hin. rewrite List.Forall_forall in Hall.
      destruct (Hall pos Hin) as [a [t [v [Ha [Ht [Hc [Hg Hp]]]]]]].
      exists a, t, v. repeat split; try assumption.
      unfold lookup_price. rewrite Hp. reflexivity.
    + intros a v1 v2 H1 H2.
      assert (Hkey : forall t v, prices !! (inl (a, t) : price_key) = Some v ->
                get_cell (price_column a t) latest = Some v).
      { intros t v Hv.
        destruct (Hdom (inl (a, t))) as [pos [a' [t' [Hin [Ha [Ht E]]]]]];
          [eexists; exact Hv|].
        injection E as <- <-. rewrite List.Forall_forall in Hall.
        destruct (Hall pos Hin) as [a'' [t'' [v' [Ha' [Ht' [_ [Hg Hp]]]]]]].
        assert (a'' = a) by congruence. assert (t'' = t) by congruence.
        subst a'' t''. congruence. }
      apply Hkey in H1, H2. unfold price_column in H1, H2. simpl in H1, H2.
      congruence.
  - intros Hr. unfold _extract_current_prices. rewrite Hr. reflexivity.
Qed.

Lemma current_prices_read_latest_row_witness :
  exists prices,
    _extract_current_prices aligned_ex [btc_spot; eth_long] = Ok prices
    /\ lookup_price prices "BTC" "spot" = Some 50000.
Proof.
  eexists. split; [reflexivity|].
  destruct (proj1 (current_prices_read_latest_row aligned_ex
                     [btc_spot; eth_long]) _ eq_refl)
    as [latest [Hl [Hp _]]].
  destruct (Hp btc_spot (or_introl eq_refl))
    as [a [t [v [Ha [Ht [_ [Hg [_ Hlp]]]]]]]].
  injection Ha as <-. injection Ht as <-. injection Hl as <-.
  vm_compute in Hg. injection Hg as <-. exact Hlp.
Defined.

Lemma position_value_defined (pos : position) (prices : gmap price_key Q)
    (a t : string) (q e p : Q) :
  asset pos = Some a -> quantity pos = Some q -> position_type pos = Some t ->
  entry_price pos = Some e -> lookup_price prices a t = Some p ->
  string_in t valid_position_types = true ->
  ~ get_default (leverage pos) 1 == 0 ->
  exists v, calculate_position_value pos prices = Ok v.
Proof.
  intros Ha Hq Ht He Hp Hk Hl.
  rewrite (position_value_resolved pos prices a t q e p Ha Hq Ht He Hp).
  unfold calculate_futures_long_value, calculate_futures_short_value.
  rewrite (Qeq_bool_false _ _ Hl).
  unfold string_in, valid_position_types in Hk. simpl in Hk.
  destruct (String.eqb t "spot"); [eexists; reflexivity|].
  destruct (String.eqb t "futures_long"); [eexists; reflexivity|].
  destruct (String.eqb t "futures_short"); [eexists; reflexivity|].
  discriminate.
Qed.

Lemma portfolio_value_loop_defined (positions : list position)
    (prices : gmap price_key Q) :
  Forall (fun pos => exists v, calculate_position_value pos prices = Ok v)
    positions ->
  forall total, exists v, portfolio_value_loop total positions prices = Ok v.
Proof.
  induction 1 as [|pos rest [x Hx] _ IH]; intros total; simpl.
  - eexists; reflexivity.
  - rewrite Hx; simpl. apply IH.
Qed.

Lemma valid_position_fields (pos : position) :
  ~ invalid_position pos ->
  exists a q t e,
    asset pos = Some a /\ quantity pos = Some q /\ position_type pos = Some t
    /\ entry_price pos = Some e
    /\ string_in t valid_position_types = true
    /\ 0 < q /\ 0 < e
    /\ 0 < get_default (leverage pos) 1 <= 125.
Proof.
  unfold invalid_position. intros H.
  destruct (asset pos) as [a|]; [|tauto].
  destruct (quantity pos) as [q|]; [|tauto].
  destruct (position_type pos) as [t|]; [|tauto].
  destruct (entry_price pos) as [e|]; [|tauto].
  exists a, q, t, e. repeat (split; [reflexivity|]).
  split; [|split; [|split]].
  - destruct (string_in t valid_position_types) eqn:E; [reflexivity|].
    apply string_in_valid_types in E. exfalso. apply H.
    do 4 right; left. exists t. tauto.
  - destruct (Qlt_le_dec 0 q) as [Hq|Hq]; [exact Hq|]. exfalso. apply H.
    do 5 right; left. exists q. tauto.
  - destruct (Qlt_le_dec 0 e) as [Hq|Hq]; [exact Hq|]. exfalso. apply H.
    do 6 right; left. exists e. tauto.
  - destruct (leverage pos) as [l|]; cbn [get_default]; [|lra].
    destruct (Qlt_le_dec 0 l) as [H1|H1];
      [|exfalso; apply H; do 7 right; exists l; tauto].
    destruct (Qlt_le_dec 125 l) as [H2|H2];
      [exfalso; apply H; do 7 right; exists l; tauto|].
    split; assumption.
Qed.

(** X7. Once a position list has passed validation and its current prices
    have been extracted from the aligned table, the valuation steps of the
    run cannot fail: the portfolio value, the delta exposure and the
    sensitivity table over any shock range are all produced. *)
Theorem valuation_steps_succeed_after_validation
    (positions : list position) (aligned : data_frame)
    (prices : gmap price_key Q) :
  _validate_positions positions = Ok tt ->
  _extract_current_prices aligned positions = Ok prices ->
  (exists v, calculate_portfolio_value positions prices = Ok v)
  /\ (exists d, calculate_delta_exposure positions = Ok d
                /\ d == spec_delta_exposure positions)
  /\ (forall shock_range, exists table,
        calculate_sensitivity_table positions prices shock_range = Ok table
        /\ length table = length shock_range).
Proof.
  intros Hv Hp.
  assert (Hvalid : Forall (fun pos => ~ invalid_position pos) positions).
  { destruct (validate_positions_spec positions)
      as [[_ Hn]|[err [Herr _]]]; [|congruence].
    apply List.Forall_forall. intros pos Hin Hbad. apply Hn.
    right; right. apply List.Exists_exists. exists pos. split; assumption. }
  destruct (extract_current_prices_spec aligned positions prices Hp)
    as [latest [_ [Hall _]]].
  assert (Hval : exists v, calculate_portfolio_value positions prices = Ok v).
  { apply portfolio_value_loop_defined. apply List.Forall_forall.
    intros pos Hin. rewrite List.Forall_forall in Hvalid, Hall.
    destruct (valid_position_fields pos (Hvalid pos Hin))
      as [a [q [t [e [Ha [Hq [Ht [He [Hk [_ [_ Hl]]]]]]]]]]].
    destruct (Hall pos Hin) as [a' [t' [v [Ha' [Ht' [_ [_ Hl']]]]]]].
    assert (a' = a) by congruence. assert (t' = t) by congruence. subst a' t'.
    apply (position_value_defined pos prices a t q e v); try assumption.
    - unfold lookup_price. rewrite Hl'. reflexivity.
    - lra. }
  split; [exact Hval|]. split.
  - destruct (delta_exposure_loop_spec positions) with (delta := 0)
      as [d [Hd Hs]].
    + eapply List.Forall_impl; [|exact Hvalid]. intros pos Hn.
      destruct (valid_position_fields pos Hn)
        as [a [q [t [e [Ha [Hq [Ht [He [Hk _]]]]]]]]].
      split; [exists q; exact Hq | exists t; split; assumption].
    + exists d. split; [exact Hd | lra].
  - intros shock_range. destruct Hval as [v Hval].
    destruct (sensitivity_rows_spec positions prices v shock_range Hval)
      as [table [Ht [Hm _]]].
    exists table. unfold calculate_sensitivity_table. rewrite Hval; simpl.
    split; [exact Ht|].
    rewrite <- (length_map price_change_pct), Hm, length_map. reflexivity.
Qed.

Lemma valuation_steps_succeed_after_validation_witness :
  exists v d table,
    calculate_portfolio_value [btc_spot; eth_long]
      {[ (inl ("BTC", "spot") : price_key)%string := 50000;
         (inl ("ETH", "futures_long") : price_key)%string := 2700 ]} = Ok v
    /\ calculate_delta_exposure [btc_spot; eth_long] = Ok d
    /\ calculate_sensitivity_table [btc_spot; eth_long]
         {[ (inl ("BTC", "spot") : price_key)%string := 50000;
            (inl ("ETH", "futures_long") : price_key)%string := 2700 ]}
         [0] = Ok table.
Proof.
  destruct (valuation_steps_succeed_after_validation [btc_spot; eth_long]
              aligned_ex _ eq_refl eq_refl) as [[v Hv] [[d [Hd _]] Ht]].
  destruct (Ht [0]) as [table [Htab _]].
  exists v, d, table. vm_compute in Hv, Htab. vm_compute.
  split; [exact Hv|]. split; [exact Hd | exact Htab].
Defined.

(** ** Historical portfolio values *)

Lemma row_prices_loop_extract (aligned : data_frame) (row : aligned_row)
    (positions : list position) :
  Forall (fun pos =>
            exists a t, asset pos = Some a /\ position_type pos = Some t
              /\ has_column (price_column a t) aligned = true)
    positions ->
  forall acc,
    row_prices_loop aligned row positions acc
    = extract_prices_loop aligned row positions acc.
Proof.
  induction 1 as [|pos rest [a [t [Ha [Ht Hc]]]] _ IH]; intros acc;
    cbn [row_prices_loop extract_prices_loop]; [reflexivity|].
  rewrite Ha, Ht. cbn [getitem bind]. unfold price_column in Hc.
  destruct (String.eqb t "spot"); rewrite Hc;
    (destruct (cell_value _ row); cbn [bind]; [apply IH | reflexivity]).
Qed.

Lemma extract_prices_nonempty (aligned : data_frame) (row : aligned_row)
    (positions : list position) (prices : gmap price_key Q) :
  positions <> [] ->
  extract_prices_loop aligned row positions ∅ = Ok prices ->
  prices <> ∅.
Proof.
  intros Hne H.
  destruct (extract_prices_loop_spec aligned row positions ∅ prices H)
    as [_ [_ [_ I4]]].
  { intros a t v Hl. rewrite lookup_empty in Hl. discriminate. }
  destruct positions as [|pos rest]; [contradiction|].
  apply List.Forall_cons_iff in I4.
  destruct I4 as [[a [t [_ [_ [_ [v Hv]]]]]] _].
  intros He. rewrite He, lookup_empty in Hv. discriminate.
Qed.

Lemma portfolio_values_loop_spec (aligned : data_frame)
    (positions : list position) :
  positions <> [] ->
  Forall (fun pos =>
            exists a t, asset pos = Some a /\ position_type pos = Some t
              /\ has_column (price_column a t) aligned = true)
    positions ->
  forall rs values,
    portfolio_values_loop aligned rs positions = Ok values ->
    Forall2 (fun row v =>
               exists prices_at,
                 extract_prices_loop aligned row positions ∅ = Ok prices_at
                 /\ calculate_portfolio_value positions prices_at = Ok v)
      rs values.
Proof.
  intros Hne Hcols. induction rs as [|row rest IH]; intros values H;
    cbn [portfolio_values_loop] in H.
  - injection H as <-. constructor.
  - rewrite (row_prices_loop_extract aligned row positions Hcols) in H.
    destruct (extract_prices_loop aligned row positions ∅) as [pr|] eqn:E;
      cbn [bind] in H; [|discriminate].
    pose proof (extract_prices_nonempty aligned row positions pr Hne E) as Hpr.
    rewrite bool_decide_eq_false_2 in H by exact Hpr. cbn [negb] in H.
    destruct (calculate_portfolio_value positions pr) as [v|] eqn:Ev;
      cbn [bind] in H; [|discriminate].
    destruct (portfolio_values_loop aligned rest positions) as [vs|];
      cbn [bind] in H; [|discriminate].
    injection H as <-. constructor; [|apply IH; reflexivity].
    exists pr. split; [exact E | exact Ev].
Qed.

Lemma Forall2_last {A B : Type} (R : A -> B -> Prop) (l : list A)
    (l' : list B) (x : A) :
  Forall2 R l l' -> last l = Some x -> exists y, last l' = Some y /\ R x y.
Proof.
  induction 1 as [|a b l l' Hab Hl IH]; intros Hx; [discriminate|].
  destruct Hl as [|a' b' l l' Hab' Hl].
  - injection Hx as <-. exists b. split; [reflexivity | exact Hab].
  - apply IH. exact Hx.
Qed.

(** X8. The historical series values the portfolio once per row of the
    aligned table, at the prices of that row, and its last value is the
    current portfolio value: the value of the positions at the prices
    extracted from the latest row.  The returns are computed from exactly
    these values.  An empty position list gives an empty series, and the
    returns of an empty series. *)
Theorem historical_series_ends_at_current_value {returns : Type}
    (calculate_returns : list Q -> result returns)
    (positions : list position) (aligned : data_frame) :
  (forall prices values r,
     positions <> [] ->
     _extract_current_prices aligned positions = Ok prices ->
     _calculate_historical_portfolio_series calculate_returns positions aligned
     = Ok (values, r) ->
     length values = length (rows aligned)
     /\ calculate_returns values = Ok r
     /\ Forall2 (fun row v =>
                   exists prices_at,
                     extract_prices_loop aligned row positions ∅ = Ok prices_at
                     /\ calculate_portfolio_value positions prices_at = Ok v)
          (rows aligned) values
     /\ exists v, calculate_portfolio_value positions prices = Ok v
                  /\ last values = Some v)
  /\ (positions = [] ->
      _calculate_historical_portfolio_series calculate_returns positions aligned
      = (try r <- calculate_returns [] ; Ok ([], r))).
Proof.
  split.
  - intros prices values r Hne Hp H.
    unfold _calculate_historical_portfolio_series in H.
    destruct (portfolio_values_loop aligned (rows aligned) positions)
      as [vs|] eqn:E; cbn [bind] in H; [|discriminate].
    destruct (calculate_returns vs) as [r'|] eqn:Er; cbn [bind] in H;
      [|discriminate].
    injection H as <- <-.
    destruct (extract_current_prices_spec aligned positions prices Hp)
      as [latest [Hl [Hall _]]].
    assert (Hcols : Forall (fun pos =>
              exists a t, asset pos = Some a /\ position_type pos = Some t
                /\ has_column (price_column a t) aligned = true) positions).
    { eapply List.Forall_impl; [|exact Hall].
      intros pos [a [t [v [Ha [Ht [Hc _]]]]]]. exists a, t. tauto. }
    pose proof (portfolio_values_loop_spec aligned positions Hne Hcols _ _ E)
      as HF.
    split; [symmetry; eapply Forall2_length; exact HF|].
    split; [exact Er|]. split; [exact HF|].
    destruct (Forall2_last _ _ _ latest HF Hl) as [v [Hv [pr [Hpr Hval]]]].
    exists v. split; [|exact Hv].
    unfold _extract_current_prices in Hp. rewrite Hl in Hp.
    assert (pr = prices) by congruence. subst pr. exact Hval.
  - intros ->. unfold _calculate_historical_portfolio_series.
    assert (H : portfolio_values_loop aligned (rows aligned) [] = Ok []).
    { induction (rows aligned) as [|row rest IH]; [reflexivity|].
      cbn [portfolio_values_loop row_prices_loop bind].
      rewrite bool_decide_eq_true_2 by reflexivity. exact IH. }
    rewrite H. reflexivity.
Qed.

Lemma historical_series_ends_at_current_value_witness :
  exists values v,
    _calculate_historical_portfolio_series (fun l => Ok (length l))
      [btc_spot; eth_long] aligned_ex = Ok (values, 2%nat)
    /\ last values = Some v.
Proof.
  destruct (proj1 (historical_series_ends_at_current_value
                     (fun l => Ok (length l)) [btc_spot; eth_long]
                     aligned_ex)
              _ _ _ ltac:(discriminate) eq_refl eq_refl)
    as [_ [_ [_ [v [_ Hv]]]]].
  eexists. exists v. split; [reflexivity | exact Hv].
Defined.

(** ** More on fetching *)

Lemma dict_get_In {V : Type} (k : string) (v : V) (d : list (string * V)) :
  dict_get k d = Some v -> In (k, v) d.
Proof.
  induction d as [|[k' v'] d IH]; simpl; [discriminate|].
  destruct (String.eqb_spec k k') as [->|Hne].
  - intros [= ->]. left. reflexivity.
  - intros H. right. apply IH. exact H.
Qed.

Lemma dict_set_keys {V : Type} (k : string) (v : V) (d : list (string * V)) :
  forall x, In x (map fst (dict_set k v d)) <-> x = k \/ In x (map fst d).
Proof.
  induction d as [|[k' v'] d IH]; intros x; simpl.
  - split; [intros [H|[]]; auto | intros [H|[]]; auto].
  - destruct (String.eqb_spec k k') as [->|Hne]; simpl.
    + split; [intros [H|H]; auto | intros [H|[H|H]]; auto].
    + rewrite IH. split; [intros [H|[H|H]]; auto | intros [H|[H|H]]; auto].
Qed.

Lemma dict_set_NoDup {V : Type} (k : string) (v : V) (d : list (string * V)) :
  List.NoDup (map fst d) -> List.NoDup (map fst (dict_set k v d)).
Proof.
  induction d as [|[k' v'] d IH]; simpl; intros H.
  - constructor; [intros [] | constructor].
  - apply List.NoDup_cons_iff in H. destruct H as [Hn Hd].
    destruct (String.eqb_spec k k') as [->|Hne]; simpl.
    + constructor; assumption.
    + constructor; [|apply IH; exact Hd].
      intros Hin. apply dict_set_keys in Hin. destruct Hin as [->|Hin];
        [apply Hne; reflexivity | contradiction].
Qed.

Lemma dict_get_None {V : Type} (k : string) (d : list (string * V)) :
  dict_get k d = None <-> ~ In k (map fst d).
Proof.
  induction d as [|[k' v'] d IH]; simpl; [tauto|].
  destruct (String.eqb_spec k k') as [->|Hne].
  - split; [discriminate | intros H; exfalso; apply H; left; reflexivity].
  - rewrite IH. split; [intros H [E|E]; [congruence | contradiction] | tauto].
Qed.

(** The fold of a per-asset step that either stores a frame under the asset
    or logs a warning, as both fetch loops are. *)
Lemma string_in_In (a : string) (l : list string) :
  string_in a l = true <-> In a l.
Proof.
  unfold string_in. rewrite existsb_exists. split.
  - intros [x [Hx E]]. apply String.eqb_eq in E. subst x. exact Hx.
  - intros H. exists a. split; [exact H | apply String.eqb_refl].
Qed.

Lemma fetch_fold {F : Type} (outcome : string -> F + fetch_warning)
    (assets : list string) :
  forall d0 log0,
    let st :=
      fold_left
        (fun (st : list (string * F) * list fetch_warning) asset =>
           let '(d, log) := st in
           match outcome asset with
           | inr w => (d, log ++ [w])
           | inl df => (dict_set asset df d, log)
           end)
        assets (d0, log0) in
    (forall a, dict_get a (fst st)
               = match outcome a with
                 | inl df => if string_in a assets then Some df
                             else dict_get a d0
                 | inr _ => dict_get a d0
                 end)
    /\ (forall w, In w (snd st)
                  <-> In w log0 \/ exists x, In x assets /\ outcome x = inr w)
    /\ (List.NoDup (map fst d0) -> List.NoDup (map fst (fst st)))
    /\ (forall a, In a (map fst (fst st)) -> In a (map fst d0) \/ In a assets).
Proof.
  induction assets as [|x assets IH]; intros d0 log0; cbn [fold_left].
  - cbn [fst snd]. split; [|split; [|split]].
    + intros a. destruct (outcome a); reflexivity.
    + intros w. split; [auto | intros [H|[y [[] _]]]; exact H].
    + auto.
    + auto.
  - destruct (outcome x) as [dfx|wx] eqn:Ex.
    + destruct (IH (dict_set x dfx d0) log0) as [I1 [I2 [I3 I4]]].
      split; [|split; [|split]].
      * intros a. rewrite I1. unfold string_in. cbn [existsb].
        fold (string_in a assets).
        destruct (outcome a) as [df|w] eqn:Ea.
        -- destruct (String.eqb_spec a x) as [->|Hne]; cbn [orb].
           ++ rewrite dict_get_set_eq.
              assert (df = dfx) by congruence. subst df.
              destruct (string_in x assets); reflexivity.
           ++ rewrite dict_get_set_ne by exact Hne. reflexivity.
        -- destruct (String.eqb_spec a x) as [->|Hne]; [congruence|].
           apply dict_get_set_ne. exact Hne.
      * intros w. rewrite I2. split.
        -- intros [H|[y [Hy Ho]]]; [left; exact H|].
           right. exists y. split; [right; exact Hy | exact Ho].
        -- intros [H|[y [[<-|Hy] Ho]]]; [left; exact H | congruence|].
           right. exists y. split; assumption.
      * intros Hnd. apply I3. apply dict_set_NoDup. exact Hnd.
      * intros a Ha. destruct (I4 a Ha) as [H|H].
        -- apply dict_set_keys in H. destruct H as [->|H];
             [right; left; reflexivity | left; exact H].
        -- right; right; exact H.
    + destruct (IH d0 (log0 ++ [wx])) as [I1 [I2 [I3 I4]]].
      split; [|split; [|split]].
      * intros a. rewrite I1. unfold string_in. cbn [existsb].
        fold (string_in a assets).
        destruct (outcome a) as [df|w] eqn:Ea; [|reflexivity].
        destruct (String.eqb_spec a x) as [->|Hne]; [congruence|].
        reflexivity.
      * intros w. rewrite I2, in_app_iff. split.
        -- intros [[H|[<-|[]]]|[y [Hy Ho]]].
           ++ left; exact H.
           ++ right. exists x. split; [left; reflexivity | exact Ex].
           ++ right. exists y. split; [right; exact Hy | exact Ho].
        -- intros [H|[y [[<-|Hy] Ho]]].
           ++ left; left; exact H.
           ++ left; right; left. congruence.
           ++ right. exists y. split; assumption.
      * exact I3.
      * intros a Ha. destruct (I4 a Ha) as [H|H];
          [left; exact H | right; right; exact H].
Qed.

Lemma process_spot_fold (db : database) (assets : list string) :
  process_spot db assets
  = fold_left
      (fun (st : list (string * list (Z * Q)) * list fetch_warning) asset =>
         let '(d, log) := st in
         match spot_outcome db asset with
         | inr w => (d, log ++ [w])
         | inl df => (dict_set asset df d, log)
         end)
      assets ([], []).
Proof.
  unfold process_spot. generalize ([] : list (string * list (Z * Q)),
                                   [] : list fetch_warning).
  induction assets as [|x assets IH]; intros st; cbn [fold_left];
    [reflexivity|].
  rewrite <- IH. f_equal. destruct st as [d log]. unfold spot_outcome.
  destruct (get_ohlcv_data db x) as [[|c cs]|]; reflexivity.
Qed.

Lemma fetch_portfolio_data_spec (db : database) (assets : list string)
    (lookback_days : Z) (a : string) :
  let data := fetch_portfolio_data db assets lookback_days in
  (forall df, dict_get a (pd_spot data) = Some df
              <-> In a assets
                  /\ exists c cs, get_ohlcv_data db a = Rows (c :: cs)
                                  /\ df = sort_values fst (c :: cs))
  /\ (forall df, dict_get a (pd_futures data) = Some df
                 <-> In a assets /\ process_futures_asset db a = inl df)
  /\ (In (SpotFetchFailed a) (pd_log data)
      <-> In a assets /\ get_ohlcv_data db a = FetchError)
  /\ (In (NoSpotDataAvailable a) (pd_log data)
      <-> In a assets /\ get_ohlcv_data db a = Rows [])
  /\ (In (FuturesFetchFailed a) (pd_log data)
      <-> In a assets
          /\ (get_mark_klines db a = FetchError
              \/ get_funding_rates db a = FetchError))
  /\ (In (NoMarkPriceData a) (pd_log data)
      <-> In a assets /\ get_mark_klines db a = Rows []
          /\ get_funding_rates db a <> FetchError)
  /\ List.NoDup (map fst (pd_spot data))
  /\ List.NoDup (map fst (pd_futures data)).
Proof.
  intros data. subst data. unfold fetch_portfolio_data.
  rewrite process_spot_fold. unfold process_futures.
  pose proof (fetch_fold (spot_outcome db) assets [] []) as Hs.
  pose proof (fetch_fold (process_futures_asset db) assets [] []) as Hf.
  cbv zeta in Hs, Hf.
  destruct (fold_left _ assets ([], [])) as [sd sl] in Hs |- *.
  destruct (fold_left _ assets ([], [])) as [fd fl] in Hf |- *.
  cbn [fst snd] in Hs, Hf. cbn [pd_spot pd_futures pd_log].
  destruct Hs as [S1 [S2 [S3 _]]]. destruct Hf as [F1 [F2 [F3 _]]].
  assert (Hlog : forall w, In w (sl ++ fl)
            <-> exists x, In x assets
                  /\ (spot_outcome db x = inr w
                      \/ process_futures_asset db x = inr w)).
  { intros w. rewrite in_app_iff, S2, F2. split.
    - intros [[[]|[x [Hx Ho]]]|[[]|[x [Hx Ho]]]]; exists x; auto.
    - intros [x [Hx [Ho|Ho]]]; [left | right]; right; exists x; auto. }
  split; [|split; [|split; [|split; [|split; [|split; [|split]]]]]].
  - intros df. rewrite S1. unfold spot_outcome.
    destruct (get_ohlcv_data db a) as [[|c cs]|]; cbn [dict_get].
    + split; [discriminate | intros [_ [c [cs [H _]]]]; discriminate].
    + destruct (string_in a assets) eqn:Eb.
      * apply string_in_In in Eb. split.
        -- intros [= <-]. split; [exact Eb|]. exists c, cs. auto.
        -- intros [_ [c' [cs' [[= <- <-] ->]]]]. reflexivity.
      * split; [discriminate|]. intros [H _]. apply string_in_In in H.
        congruence.
    + split; [discriminate | intros [_ [c [cs [H _]]]]; discriminate].
  - intros df. rewrite F1.
    destruct (process_futures_asset db a) as [df'|w]; cbn [dict_get].
    + destruct (string_in a assets) eqn:Eb.
      * apply string_in_In in Eb. split.
        -- intros [= <-]. auto.
        -- intros [_ [= <-]]. reflexivity.
      * split; [discriminate|]. intros [H _]. apply string_in_In in H.
        congruence.
    + split; [discriminate | intros [_ H]; discriminate].
  - rewrite Hlog. split.
    + intros [x [Hx [Ho|Ho]]].
      * unfold spot_outcome in Ho.
        destruct (get_ohlcv_data db x) as [[|c cs]|] eqn:E;
          try discriminate. injection Ho as ->. auto.
      * destruct (process_futures_asset_warning db x _ Ho); discriminate.
    + intros [Ha Hq]. exists a. split; [exact Ha|]. left.
      unfold spot_outcome. rewrite Hq. reflexivity.
  - rewrite Hlog. split.
    + intros [x [Hx [Ho|Ho]]].
      * unfold spot_outcome in Ho.
        destruct (get_ohlcv_data db x) as [[|c cs]|] eqn:E;
          try discriminate. injection Ho as ->. auto.
      * destruct (process_futures_asset_warning db x _ Ho); discriminate.
    + intros [Ha Hq]. exists a. split; [exact Ha|]. left.
      unfold spot_outcome. rewrite Hq. reflexivity.
  - rewrite Hlog. split.
    + intros [x [Hx [Ho|Ho]]].
      * unfold spot_outcome in Ho.
        destruct (get_ohlcv_data db x) as [[|c cs]|]; discriminate.
      * unfold process_futures_asset in Ho.
        destruct (get_mark_klines db x) as [[|m ms]|] eqn:Em;
          destruct (get_funding_rates db x) as [fs|] eqn:Ef;
          try discriminate; injection Ho as ->; auto.
    + intros [Ha Hq]. exists a. split; [exact Ha|]. right.
      unfold process_futures_asset.
      destruct Hq as [Hq|Hq]; rewrite Hq; [reflexivity|].
      destruct (get_mark_klines db a) as [[|m ms]|]; reflexivity.
  - rewrite Hlog. split.
    + intros [x [Hx [Ho|Ho]]].
      * unfold spot_outcome in Ho.
        destruct (get_ohlcv_data db x) as [[|c cs]|]; discriminate.
      * unfold process_futures_asset in Ho.
        destruct (get_mark_klines db x) as [[|m ms]|] eqn:Em;
          destruct (get_funding_rates db x) as [fs|] eqn:Ef;
          try discriminate; injection Ho as ->.
        split; [exact Hx|]. split; [exact Em|]. rewrite Ef. discriminate.
    + intros [Ha [Hm Hq]]. exists a. split; [exact Ha|]. right.
      unfold process_futures_asset. rewrite Hm.
      destruct (get_funding_rates db a); [reflexivity | contradiction].
  - apply S3. constructor.
  - apply F3. constructor.
Qed.

(** X9. Fetching treats each asset on its own: the spot frame of an asset
    is stored exactly when the asset is requested and its spot query returns
    rows, and is then these rows sorted by timestamp; the futures frame
    exactly when both futures queries return and there is a mark price; every
    other outcome logs one warning for that asset and leaves the frames of
    the other assets as they are.  Each dict has at most one frame per
    asset and no frame for an asset that was not requested. *)
Theorem fetch_outcome_is_per_asset (db : database) (assets : list string)
    (lookback_days : Z) (a : string) :
  let data := fetch_portfolio_data db assets lookback_days in
  (forall df, dict_get a (pd_spot data) = Some df
              <-> In a assets
                  /\ exists c cs, get_ohlcv_data db a = Rows (c :: cs)
                                  /\ df = sort_values fst (c :: cs))
  /\ (forall df, dict_get a (pd_futures data) = Some df
                 <-> In a assets /\ process_futures_asset db a = inl df)
  /\ (In (SpotFetchFailed a) (pd_log data)
      <-> In a assets /\ get_ohlcv_data db a = FetchError)
  /\ (In (NoSpotDataAvailable a) (pd_log data)
      <-> In a assets /\ get_ohlcv_data db a = Rows [])
  /\ (In (FuturesFetchFailed a) (pd_log data)
      <-> In a assets
          /\ (get_mark_klines db a = FetchError
              \/ get_funding_rates db a = FetchError))
  /\ (In (NoMarkPriceData a) (pd_log data)
      <-> In a assets /\ get_mark_klines db a = Rows []
          /\ get_funding_rates db a <> FetchError)
  /\ List.NoDup (map fst (pd_spot data))
  /\ List.NoDup (map fst (pd_futures data)).
Proof. exact (fetch_portfolio_data_spec db assets lookback_days a). Qed.

Lemma dict_get_of_In {V : Type} (k : string) (v : V) (d : list (string * V)) :
  List.NoDup (map fst d) -> In (k, v) d -> dict_get k d = Some v.
Proof.
  induction d as [|[k' v'] d IH]; simpl; intros Hnd Hin; [destruct Hin|].
  apply List.NoDup_cons_iff in Hnd. destruct Hnd as [Hn Hnd].
  destruct Hin as [[= -> ->]|Hin].
  - rewrite String.eqb_refl. reflexivity.
  - destruct (String.eqb_spec k k') as [->|Hne].
    + exfalso. apply Hn. apply (in_map fst) in Hin. exact Hin.
    + apply IH; assumption.
Qed.

Lemma days_available_nonneg (df : list (Z * Q)) : (0 <= days_available df)%Z.
Proof.
  unfold days_available, seconds_per_day. apply Z.div_pos; [|lia].
  destruct (map fst df) as [|t ts] eqn:E; [simpl; lia|].
  assert (Hne : t :: ts <> []) by discriminate.
  destruct (ts_min_spec (t :: ts) Hne) as [Hin Hmin].
  destruct (ts_max_spec (t :: ts) Hne) as [_ Hmax].
  specialize (Hmax _ Hin). lia.
Qed.

Lemma actual_days_available_spec (lookback_days : Z)
    (d : list (string * list (Z * Q))) :
  (actual_days_available lookback_days d <= lookback_days)%Z
  /\ (forall item, In item d ->
        (actual_days_available lookback_days d <= days_available (snd item))%Z)
  /\ (actual_days_available lookback_days d = lookback_days
      \/ exists item, In item d
           /\ actual_days_available lookback_days d = days_available (snd item)).
Proof.
  unfold actual_days_available. revert lookback_days.
  induction d as [|x d IH]; intros n; simpl.
  - split; [lia|]. split; [intros item []|left; reflexivity].
  - destruct (IH (Z.min n (days_available (snd x)))) as [H1 [H2 H3]].
    split; [lia|]. split.
    + intros item [<-|Hin]; [lia | apply H2; exact Hin].
    + destruct H3 as [H3|[item [Hin H3]]].
      * rewrite H3.
        destruct (Z.min_spec n (days_available (snd x))) as [[_ ->]|[_ ->]];
          [left; reflexivity | right; exists x; auto].
      * right. exists item. auto.
Qed.

(** X10. The number of days of data a fetch reports is the smallest span,
    in whole days, among the spot frames it stored, capped by the requested
    lookback: never above the lookback or above the span of any stored spot
    frame, equal to one of them, and never negative for a lookback that is
    not. *)
Theorem actual_days_is_smallest_spot_span (db : database)
    (assets : list string) (lookback_days : Z) :
  let data := fetch_portfolio_data db assets lookback_days in
  (pd_actual_days data <= lookback_days)%Z
  /\ (forall a df, dict_get a (pd_spot data) = Some df ->
        (pd_actual_days data <= days_available df)%Z)
  /\ (pd_actual_days data = lookback_days
      \/ exists a df, dict_get a (pd_spot data) = Some df
           /\ pd_actual_days data = days_available df)
  /\ ((0 <= lookback_days)%Z -> (0 <= pd_actual_days data)%Z)
  /\ (pd_spot data = [] -> pd_actual_days data = lookback_days).
Proof.
  intros data.
  pose proof (fetch_portfolio_data_spec db assets lookback_days ""%string)
    as Hnd. cbv zeta in Hnd. fold data in Hnd.
  destruct Hnd as [_ [_ [_ [_ [_ [_ [Hnd _]]]]]]].
  assert (Hd : pd_actual_days data
               = actual_days_available lookback_days (pd_spot data)).
  { subst data. unfold fetch_portfolio_data.
    destruct (process_spot db assets), (process_futures db assets).
    reflexivity. }
  destruct (actual_days_available_spec lookback_days (pd_spot data))
    as [H1 [H2 H3]].
  rewrite Hd. split; [exact H1|]. split; [|split; [|split]].
  - intros a df Hg. apply (H2 (a, df)). apply dict_get_In. exact Hg.
  - destruct H3 as [H3|[[a df] [Hin H3]]]; [left; exact H3|].
    right. exists a, df. split; [|exact H3].
    apply dict_get_of_In; assumption.
  - intros Hl. destruct H3 as [->|[item [_ ->]]];
      [exact Hl | apply days_available_nonneg].
  - intros ->. reflexivity.
Qed.

(** ** Order of the fetched frames *)

Lemma insert_by_sorted {A : Type} (key : A -> Z) (x : A) (l : list A) :
  StronglySorted (fun a b => (key a <= key b)%Z) l ->
  StronglySorted (fun a b => (key a <= key b)%Z) (insert_by key x l).
Proof.
  induction 1 as [|y l Hs IH Hall]; simpl.
  - constructor; constructor.
  - destruct (key x <? key y)%Z eqn:E.
    + apply Z.ltb_lt in E. constructor; [constructor; assumption|].
      constructor; [lia|].
      rewrite List.Forall_forall in Hall |- *. intros z Hz.
      specialize (Hall z Hz). lia.
    + apply Z.ltb_ge in E. constructor; [exact IH|].
      apply List.Forall_forall. intros z Hz. apply In_insert_by in Hz.
      destruct Hz as [->|Hz]; [exact E|].
      rewrite List.Forall_forall in Hall. apply Hall. exact Hz.
Qed.

Lemma insert_by_perm {A : Type} (key : A -> Z) (x : A) (l : list A) :
  Permutation (insert_by key x l) (x :: l).
Proof.
  induction l as [|y l IH]; simpl; [reflexivity|].
  destruct (key x <? key y)%Z; [reflexivity|].
  rewrite IH. apply perm_swap.
Qed.

Lemma sort_values_sorted {A : Type} (key : A -> Z) (l : list A) :
  StronglySorted (fun a b => (key a <= key b)%Z) (sort_values key l)
  /\ Permutation (sort_values key l) l.
Proof.
  unfold sort_values.
  assert (H : forall acc,
             StronglySorted (fun a b => (key a <= key b)%Z) acc ->
             StronglySorted (fun a b => (key a <= key b)%Z)
               (fold_left (fun acc x => insert_by key x acc) l acc)
             /\ Permutation (fold_left (fun acc x => insert_by key x acc) l acc)
                  (acc ++ l)).
  { induction l as [|x l IH]; intros acc Hacc; simpl.
    - split; [exact Hacc | rewrite app_nil_r; reflexivity].
    - destruct (IH (insert_by key x acc) (insert_by_sorted key x acc Hacc))
        as [H1 H2].
      split; [exact H1|]. rewrite H2, insert_by_perm.
      apply Permutation_middle. }
  destruct (H [] (SSorted_nil _)) as [H1 H2]. split; assumption.
Qed.

Lemma merge_funding_timestamps (mark_df funding_df : list (Z * Q)) (t : Z) :
  In t (map f_timestamp (merge_funding mark_df funding_df))
  <-> In t (map fst mark_df).
Proof.
  unfold merge_funding. rewrite !in_map_iff. split.
  - intros [r [<- Hr]]. apply in_flat_map in Hr.
    destruct Hr as [x [Hx Hr]]. exists x. split; [|exact Hx].
    destruct (List.filter _ funding_df) as [|g gs].
    + destruct Hr as [<-|[]]. reflexivity.
    + apply in_map_iff in Hr. destruct Hr as [y [<- _]]. reflexivity.
  - intros [x [<- Hx]].
    destruct (List.filter (fun g => (fst g =? fst x)%Z) funding_df)
      as [|g gs] eqn:Eg.
    + exists (FuturesRow (fst x) (snd x) None). split; [reflexivity|].
      apply in_flat_map. exists x. split; [exact Hx|]. rewrite Eg.
      left. reflexivity.
    + exists (FuturesRow (fst x) (snd x) (Some (snd g))).
      split; [reflexivity|].
      apply in_flat_map. exists x. split; [exact Hx|]. rewrite Eg.
      left. reflexivity.
Qed.

Lemma process_futures_asset_timestamps (db : database) (a : string)
    (df : list futures_row) :
  process_futures_asset db a = inl df ->
  StronglySorted (fun x y => (f_timestamp x <= f_timestamp y)%Z) df
  /\ exists mark_result,
       get_mark_klines db a = Rows mark_result /\ mark_result <> []
       /\ forall t, In t (map f_timestamp df) <-> In t (map fst mark_result).
Proof.
  unfold process_futures_asset.
  destruct (get_mark_klines db a) as [marks|]; [|discriminate].
  destruct (get_funding_rates db a) as [fs|];
    [|destruct marks; discriminate].
  destruct marks as [|m ms] eqn:Em; [discriminate|]. rewrite <- Em.
  intros [= <-]. split; [apply sort_values_sorted|].
  exists marks. split; [reflexivity|]. split; [rewrite Em; discriminate|].
  intros t. rewrite in_map_iff. split.
  - intros [r [<- Hr]]. apply In_sort_values in Hr.
    destruct fs as [|f fs].
    + apply in_map_iff in Hr. destruct Hr as [x [<- Hx]].
      cbn [f_timestamp]. apply in_map. exact Hx.
    + apply (merge_funding_timestamps marks (f :: fs)).
      apply in_map. exact Hr.
  - intros Ht. destruct fs as [|f fs].
    + apply in_map_iff in Ht. destruct Ht as [x [<- Hx]].
      exists (FuturesRow (fst x) (snd x) (Some 0)). split; [reflexivity|].
      apply In_sort_values.
      apply (in_map (fun m => FuturesRow (fst m) (snd m) (Some 0))). exact Hx.
    + apply (merge_funding_timestamps marks (f :: fs)) in Ht.
      apply in_map_iff in Ht. destruct Ht as [r [<- Hr]].
      exists r. split; [reflexivity|]. apply In_sort_values. exact Hr.
Qed.

(** X11. The frames a fetch stores are in timestamp order: the spot frame of
    an asset holds exactly the rows its query returned, each as often as
    returned, ordered by timestamp, and the futures frame is ordered by
    timestamp with a row for every mark-price timestamp and for no other. *)
Theorem fetched_frames_sorted_by_timestamp (db : database)
    (assets : list string) (lookback_days : Z) (a : string) :
  let data := fetch_portfolio_data db assets lookback_days in
  (forall df, dict_get a (pd_spot data) = Some df ->
     StronglySorted (fun x y => (fst x <= fst y)%Z) df
     /\ df <> []
     /\ exists result, get_ohlcv_data db a = Rows result
                       /\ Permutation df result)
  /\ (forall df, dict_get a (pd_futures data) = Some df ->
        StronglySorted (fun x y => (f_timestamp x <= f_timestamp y)%Z) df
        /\ exists mark_result,
             get_mark_klines db a = Rows mark_result
             /\ forall t, In t (map f_timestamp df)
                          <-> In t (map fst mark_result)).
Proof.
  intros data.
  destruct (fetch_portfolio_data_spec db assets lookback_days a)
    as [Hs [Hf _]]. fold data in Hs, Hf.
  split.
  - intros df Hd. apply Hs in Hd. destruct Hd as [_ [c [cs [Hq ->]]]].
    destruct (sort_values_sorted fst (c :: cs)) as [H1 H2].
    split; [exact H1|]. split.
    + intros He. rewrite He in H2. apply Permutation_nil in H2. discriminate.
    + exists (c :: cs). split; [exact Hq | exact H2].
  - intros df Hd. apply Hf in Hd. destruct Hd as [_ Hd].
    destruct (process_futures_asset_timestamps db a df Hd)
      as [H1 [marks [Hm [_ Ht]]]].
    split; [exact H1|]. exists marks. split; [exact Hm | exact Ht].
Qed.

(** ** Daily resampling *)

Lemma in_day_In {A : Type} (key : A -> Z) (d : Z) (rows : list A) (r : A) :
  In r (in_day key d rows) <-> In r rows /\ day_start (key r) = d.
Proof.
  unfold in_day. rewrite filter_In, Z.eqb_eq. reflexivity.
Qed.

Lemma in_day_nonempty {A : Type} (key : A -> Z) (d : Z) (rows : list A) :
  In d (day_bins (map key rows)) ->
  exists r, last (in_day key d rows) = Some r.
Proof.
  intros Hd. apply In_day_bins in Hd. destruct Hd as [t [Ht Hday]].
  apply in_map_iff in Ht. destruct Ht as [r0 [<- Hr0]].
  destruct (last (in_day key d rows)) as [r|] eqn:El; [exists r; reflexivity|].
  apply last_None in El.
  assert (Hin : In r0 (in_day key d rows)) by (apply in_day_In; auto).
  rewrite El in Hin. destruct Hin.
Qed.

Lemma last_In {A : Type} (l : list A) (x : A) : last l = Some x -> In x l.
Proof.
  induction l as [|y l IH]; [discriminate|].
  destruct l as [|z l]; [intros [= <-]; left; reflexivity|].
  intros H. right. apply IH. exact H.
Qed.

Lemma sorted_last_max {A : Type} (key : A -> Z) (l : list A) (r : A) :
  StronglySorted (fun x y => (key x <= key y)%Z) l ->
  last l = Some r -> forall x, In x l -> (key x <= key r)%Z.
Proof.
  induction 1 as [|y l Hs IH Hall]; [discriminate|].
  destruct l as [|z l].
  - intros [= <-] x [<-|[]]. lia.
  - intros Hl x [<-|Hx]; [|apply IH; assumption].
    rewrite List.Forall_forall in Hall. apply Hall. apply last_In. exact Hl.
Qed.

Lemma sorted_filter {A : Type} (R : A -> A -> Prop) (f : A -> bool)
    (l : list A) :
  StronglySorted R l -> StronglySorted R (List.filter f l).
Proof.
  induction 1 as [|y l Hs IH Hall]; simpl; [constructor|].
  destruct (f y); [|exact IH]. constructor; [exact IH|].
  rewrite List.Forall_forall in Hall |- *. intros x Hx.
  apply filter_In in Hx. apply Hall. tauto.
Qed.

Lemma omap_keys_sorted {A : Type} (key : A -> Z) (f : Z -> option A)
    (days : list Z) :
  (forall d x, f d = Some x -> key x = d) ->
  StronglySorted Z.lt days ->
  StronglySorted Z.lt (map key (omap f days))
  /\ forall d, In d (map key (omap f days)) <-> In d days /\ is_Some (f d).
Proof.
  intros Hkey. induction 1 as [|d days Hs [IH1 IH2] Hall]; simpl.
  - split; [constructor|]. intros d. split; [intros [] | intros [[] _]].
  - destruct (f d) as [x|] eqn:E; simpl.
    + rewrite (Hkey d x E). split.
      * constructor; [exact IH1|]. apply List.Forall_forall. intros y Hy.
        apply IH2 in Hy. rewrite List.Forall_forall in Hall. apply Hall, Hy.
      * intros y. rewrite IH2. split.
        -- intros [<-|[Hy Hf]]; [split; [left; reflexivity|]|auto].
           rewrite E. eexists; reflexivity.
        -- intros [[<-|Hy] Hf]; [left; reflexivity | right; auto].
    + split; [exact IH1|]. intros y. rewrite IH2. split.
      * intros [Hy Hf]. auto.
      * intros [[<-|Hy] Hf]; [|auto]. rewrite E in Hf.
        destruct Hf as [? Hf]. discriminate.
Qed.

Lemma insert_day_last (d : Z) (days : list Z) :
  Forall (fun x => (x < d)%Z) days -> insert_day d days = days ++ [d].
Proof.
  induction 1 as [|x days Hx _ IH]; simpl; [reflexivity|].
  destruct (d <? x)%Z eqn:E1; [apply Z.ltb_lt in E1; lia|].
  destruct (d =? x)%Z eqn:E2; [apply Z.eqb_eq in E2; lia|].
  rewrite IH. reflexivity.
Qed.

Lemma day_start_of_aligned (t : Z) : day_aligned t -> day_start t = t.
Proof.
  unfold day_aligned, day_start, seconds_per_day. intros H.
  pose proof (Z.div_mod t 86400). lia.
Qed.

Lemma day_bins_of_daily (ts : list Z) :
  StronglySorted Z.lt ts -> Forall day_aligned ts -> day_bins ts = ts.
Proof.
  intros Hs Ha. unfold day_bins.
  assert (H : forall acc,
             Forall (fun x => Forall (fun t => (x < t)%Z) ts) acc ->
             fold_left (fun days t => insert_day (day_start t) days) ts acc
             = acc ++ ts).
  { induction Hs as [|t ts Hs IH Hall]; intros acc Hacc; simpl.
    - rewrite app_nil_r. reflexivity.
    - apply List.Forall_cons_iff in Ha. destruct Ha as [Ht Ha].
      rewrite (day_start_of_aligned t Ht).
      rewrite insert_day_last.
      + rewrite IH; [rewrite <- app_assoc; reflexivity | exact Ha|].
        apply List.Forall_app. split.
        * eapply List.Forall_impl; [|exact Hacc]. intros x Hx.
          apply List.Forall_cons_iff in Hx. tauto.
        * constructor; [exact Hall | constructor].
      + eapply List.Forall_impl; [|exact Hacc]. intros x Hx.
        apply List.Forall_cons_iff in Hx. tauto. }
  apply (H []). constructor.
Qed.

Lemma omap_map_id {A B : Type} (g : A -> B) (f : B -> option A) (l : list A) :
  (forall x, In x l -> f (g x) = Some x) -> omap f (map g l) = l.
Proof.
  induction l as [|x l IH]; intros H; simpl; [reflexivity|].
  rewrite (H x (or_introl eq_refl)). simpl. f_equal.
  apply IH. intros y Hy. apply H. right. exact Hy.
Qed.

Lemma in_day_of_daily (l : list (Z * Q)) (x : Z * Q) :
  List.NoDup (map fst l) -> Forall day_aligned (map fst l) -> In x l ->
  in_day fst (fst x) l = [x].
Proof.
  intros Hnd Ha Hin. unfold in_day.
  assert (Hf : List.filter (fun r => (day_start (fst r) =? fst x)%Z) l
               = List.filter (fun r => (fst r =? fst x)%Z) l).
  { apply filter_ext_in. intros r Hr. rewrite day_start_of_aligned;
      [reflexivity|].
    rewrite List.Forall_forall in Ha. apply Ha. apply in_map. exact Hr. }
  rewrite Hf, (filter_ts_find _ _ Hnd).
  destruct (find (fun r => (fst r =? fst x)%Z) l) as [y|] eqn:E.
  - f_equal. apply find_some in E. destruct E as [Hy E].
    apply Z.eqb_eq in E.
    clear -Hnd Hin Hy E. induction l as [|z l IH]; [destruct Hin|].
    simpl in Hnd. apply List.NoDup_cons_iff in Hnd. destruct Hnd as [Hz Hnd].
    destruct Hin as [->|Hin], Hy as [->|Hy]; try reflexivity.
    + exfalso. apply Hz. rewrite <- E. apply in_map. exact Hy.
    + exfalso. apply Hz. rewrite E. apply in_map. exact Hin.
    + apply IH; assumption.
  - pose proof (find_none _ _ E x Hin) as Hn. simpl in Hn.
    rewrite Z.eqb_refl in Hn. discriminate.
Qed.

Lemma resample_spot_timestamps (df : list (Z * Q)) :
  map fst (resample_spot df) = day_bins (map fst df).
Proof.
  unfold resample_spot.
  assert (H : forall d, In d (day_bins (map fst df)) ->
            exists r, last (in_day fst d df) = Some r)
    by (intros d; apply in_day_nonempty).
  induction (day_bins (map fst df)) as [|d bins IH]; simpl; [reflexivity|].
  destruct (H d (or_introl eq_refl)) as [r Hr]. rewrite Hr. simpl.
  f_equal. apply IH. intros d' Hd'. apply H. right. exact Hd'.
Qed.

Lemma resample_spot_of_daily (l : list (Z * Q)) :
  StronglySorted Z.lt (map fst l) -> Forall day_aligned (map fst l) ->
  resample_spot l = l.
Proof.
  intros Hs Ha. unfold resample_spot.
  rewrite (day_bins_of_daily _ Hs Ha).
  apply omap_map_id. intros x Hx.
  rewrite (in_day_of_daily l x (sorted_NoDup _ Hs) Ha Hx). simpl.
  destruct x; reflexivity.
Qed.

(** X12. For a spot frame in timestamp order, as a fetch stores it, the
    daily spot series has one row for each calendar day that holds an
    observation and for no other day, at midnight and in increasing order;
    its close is the close of the last row of that day, which is an
    observation of the day with the latest timestamp.  Resampling a series
    that is already daily changes nothing. *)
Theorem resample_spot_last_close_of_each_day (df : list (Z * Q)) :
  StronglySorted (fun x y => (fst x <= fst y)%Z) df ->
  map fst (resample_spot df) = day_bins (map fst df)
  /\ StronglySorted Z.lt (map fst (resample_spot df))
  /\ Forall day_aligned (map fst (resample_spot df))
  /\ (forall d, In d (map fst (resample_spot df))
                <-> exists r, In r df /\ day_start (fst r) = d)
  /\ (forall d v, In (d, v) (resample_spot df) ->
        exists r, last (in_day fst d df) = Some r
                  /\ In r df /\ day_start (fst r) = d /\ snd r = v
                  /\ forall r', In r' df -> day_start (fst r') = d ->
                                (fst r' <= fst r)%Z)
  /\ resample_spot (resample_spot df) = resample_spot df.
Proof.
  intros Hsorted.
  pose proof (resample_spot_timestamps df) as Hts.
  assert (Hs : StronglySorted Z.lt (map fst (resample_spot df)))
    by (rewrite Hts; apply day_bins_sorted).
  assert (Ha : Forall day_aligned (map fst (resample_spot df))).
  { rewrite Hts. apply List.Forall_forall. intros d Hd.
    apply In_day_bins in Hd. destruct Hd as [t [_ <-]].
    apply day_start_aligned. }
  split; [exact Hts|]. split; [exact Hs|]. split; [exact Ha|].
  split; [|split].
  - intros d. rewrite Hts, In_day_bins. split.
    + intros [t [Ht Hd]]. apply in_map_iff in Ht.
      destruct Ht as [r [<- Hr]]. exists r. auto.
    + intros [r [Hr Hd]]. exists (fst r). split; [apply in_map; exact Hr|].
      exact Hd.
  - intros d v Hin. unfold resample_spot in Hin.
    apply list_elem_of_In, list_elem_of_omap in Hin.
    destruct Hin as [d' [_ Hf]].
    destruct (last (in_day fst d' df)) as [r|] eqn:El; [|discriminate].
    simpl in Hf. injection Hf as <- <-.
    pose proof (last_In _ _ El) as Hr. apply in_day_In in Hr.
    destruct Hr as [Hr Hd]. exists r. repeat split; try assumption.
    intros r' Hr' Hd'.
    apply (sorted_last_max fst (in_day fst d' df) r);
      [apply sorted_filter; exact Hsorted | exact El|].
    apply in_day_In. auto.
  - apply resample_spot_of_daily; assumption.
Qed.

Lemma resample_spot_last_close_of_each_day_witness :
  In (0%Z, 2) (resample_spot [(0%Z, 1); (3600%Z, 2); (86400%Z, 3)])
  /\ exists r,
       In r [(0%Z, 1); (3600%Z, 2); (86400%Z, 3)]
       /\ day_start (fst r) = 0%Z /\ snd r = 2
       /\ forall r', In r' [(0%Z, 1); (3600%Z, 2); (86400%Z, 3)] ->
                     day_start (fst r') = 0%Z -> (fst r' <= fst r)%Z.
Proof.
  assert (Hin : In (0%Z, 2)
                  (resample_spot [(0%Z, 1); (3600%Z, 2); (86400%Z, 3)]))
    by (vm_compute; left; reflexivity).
  split; [exact Hin|].
  destruct (resample_spot_last_close_of_each_day
              [(0%Z, 1); (3600%Z, 2); (86400%Z, 3)])
    as [_ [_ [_ [_ [Hlast _]]]]].
  - repeat (constructor; cbn [fst]; try lia).
  - destruct (Hlast 0%Z 2 Hin) as [r [_ [Hr [Hd [Hv Hmax]]]]].
    exists r. repeat split; assumption.
Defined.

Lemma mean_is_Some (l : list Q) : is_Some (mean l) <-> l <> [].
Proof.
  destruct l as [|x l]; simpl.
  - split; [intros [? H]; discriminate | intros H; contradiction].
  - split; [discriminate | intros _; eexists; reflexivity].
Qed.

Lemma omap_nonempty {A B : Type} (f : A -> option B) (l : list A) :
  omap f l <> [] <-> exists x y, In x l /\ f x = Some y.
Proof.
  split.
  - intros H. destruct (omap f l) as [|y ys] eqn:E; [contradiction|].
    assert (Hy : y ∈ omap f l) by (rewrite E; left).
    apply list_elem_of_omap in Hy. destruct Hy as [x [Hx Hf]].
    exists x, y. split; [apply list_elem_of_In; exact Hx | exact Hf].
  - intros [x [y [Hx Hf]]] He.
    assert (Hy : y ∈ omap f l)
      by (apply list_elem_of_omap; exists x; split;
          [apply list_elem_of_In; exact Hx | exact Hf]).
    rewrite He in Hy. inversion Hy.
Qed.

Lemma resample_futures_spec (df : list futures_row) :
  StronglySorted Z.lt (map d_timestamp (resample_futures df))
  /\ (forall d, In d (map d_timestamp (resample_futures df))
                <-> exists r f, In r df /\ day_start (f_timestamp r) = d
                                /\ funding_rate r = Some f)
  /\ (forall row, In row (resample_futures df) ->
        day_aligned (d_timestamp row)
        /\ exists r,
             last (in_day f_timestamp (d_timestamp row) df) = Some r
             /\ In r df /\ day_start (f_timestamp r) = d_timestamp row
             /\ d_mark_price row = mark_price r
             /\ mean (omap funding_rate
                        (in_day f_timestamp (d_timestamp row) df))
                = Some (d_funding_rate row))
  /\ (Forall (fun r => funding_rate r = None) df -> resample_futures df = []).
Proof.
  set (f := fun d =>
              match last (in_day f_timestamp d df),
                    mean (omap funding_rate (in_day f_timestamp d df)) with
              | Some r, Some m => Some (DailyFuturesRow d (mark_price r) m)
              | _, _ => None
              end).
  assert (Hres : resample_futures df = omap f (day_bins (map f_timestamp df)))
    by reflexivity.
  assert (Hkey : forall d x, f d = Some x -> d_timestamp x = d).
  { intros d x. unfold f.
    destruct (last _); [|discriminate]. destruct (mean _); [|discriminate].
    intros [= <-]. reflexivity. }
  destruct (omap_keys_sorted d_timestamp f (day_bins (map f_timestamp df))
              Hkey (day_bins_sorted _)) as [Hs Hin].
  rewrite <- Hres in Hs, Hin.
  assert (Hdays : forall d, In d (map d_timestamp (resample_futures df))
            <-> exists r m, In r df /\ day_start (f_timestamp r) = d
                            /\ funding_rate r = Some m).
  { intros d. rewrite Hin. split.
    - intros [Hd [x Hx]]. unfold f in Hx.
      destruct (last _) as [r|]; [|discriminate].
      destruct (mean (omap funding_rate (in_day f_timestamp d df)))
        as [m|] eqn:Em; [|discriminate].
      assert (Hne : omap funding_rate (in_day f_timestamp d df) <> [])
        by (apply mean_is_Some; rewrite Em; eexists; reflexivity).
      apply omap_nonempty in Hne. destruct Hne as [r' [m' [Hr' Hm']]].
      apply in_day_In in Hr'. destruct Hr' as [Hr' Hd'].
      exists r', m'. auto.
    - intros [r [m [Hr [Hd Hm]]]].
      assert (Hbin : In d (day_bins (map f_timestamp df))).
      { apply In_day_bins. exists (f_timestamp r).
        split; [apply in_map; exact Hr | exact Hd]. }
      split; [exact Hbin|].
      destruct (in_day_nonempty f_timestamp d df Hbin) as [r0 Hr0].
      unfold f. rewrite Hr0.
      assert (Hne : omap funding_rate (in_day f_timestamp d df) <> []).
      { apply omap_nonempty. exists r, m. split; [|exact Hm].
        apply in_day_In. auto. }
      apply mean_is_Some in Hne. destruct Hne as [m0 ->].
      eexists; reflexivity. }
  split; [exact Hs|]. split; [exact Hdays|]. split.
  - intros row Hrow. rewrite Hres in Hrow.
    apply list_elem_of_In, list_elem_of_omap in Hrow.
    destruct Hrow as [d [Hd Hf]]. apply list_elem_of_In in Hd.
    pose proof (Hkey d row Hf) as Hk. unfold f in Hf.
    destruct (last (in_day f_timestamp d df)) as [r|] eqn:El; [|discriminate].
    destruct (mean (omap funding_rate (in_day f_timestamp d df)))
      as [m|] eqn:Em; [|discriminate].
    injection Hf as <-. cbn [d_timestamp d_mark_price d_funding_rate].
    split.
    + apply In_day_bins in Hd. destruct Hd as [t [_ <-]].
      apply day_start_aligned.
    + exists r. rewrite El, Em.
      pose proof (last_In _ _ El) as Hr. apply in_day_In in Hr.
      destruct Hr as [Hr Hdr]. repeat split; assumption.
  - intros Hnone.
    destruct (resample_futures df) as [|row rows] eqn:E; [reflexivity|].
    exfalso.
    assert (Hd : In (d_timestamp row) (map d_timestamp (row :: rows)))
      by (left; reflexivity).
    apply Hdays in Hd. destruct Hd as [r [m [Hr [_ Hm]]]].
    rewrite List.Forall_forall in Hnone. rewrite (Hnone r Hr) in Hm.
    discriminate.
Qed.

(** X13. For a futures frame in timestamp order, as a fetch stores it, the
    daily futures series has a row for a calendar day exactly when some row
    of that day carries a funding rate; the rows are at midnight and in
    increasing order, the mark price is that of the last row of the day,
    which is a row of the day with the latest timestamp, and the funding
    rate is the mean of the funding rates present on that day.  A frame in
    which no row carries a funding rate resamples to the empty series. *)
Theorem resample_futures_keeps_days_with_funding (df : list futures_row) :
  StronglySorted (fun x y => (f_timestamp x <= f_timestamp y)%Z) df ->
  StronglySorted Z.lt (map d_timestamp (resample_futures df))
  /\ (forall d, In d (map d_timestamp (resample_futures df))
                <-> exists r f, In r df /\ day_start (f_timestamp r) = d
                                /\ funding_rate r = Some f)
  /\ (forall row, In row (resample_futures df) ->
        day_aligned (d_timestamp row)
        /\ exists r,
             last (in_day f_timestamp (d_timestamp row) df) = Some r
             /\ In r df /\ day_start (f_timestamp r) = d_timestamp row
             /\ (forall r', In r' df ->
                   day_start (f_timestamp r') = d_timestamp row ->
                   (f_timestamp r' <= f_timestamp r)%Z)
             /\ d_mark_price row = mark_price r
             /\ mean (omap funding_rate
                        (in_day f_timestamp (d_timestamp row) df))
                = Some (d_funding_rate row))
  /\ (Forall (fun r => funding_rate r = None) df -> resample_futures df = []).
Proof.
  intros Hsorted.
  destruct (resample_futures_spec df) as [H1 [H2 [H3 H4]]].
  split; [exact H1|]. split; [exact H2|]. split; [|exact H4].
  intros row Hrow. destruct (H3 row Hrow) as [Ha [r [El [Hr [Hd [Hm Hf]]]]]].
  split; [exact Ha|]. exists r. repeat split; try assumption.
  intros r' Hr' Hd'.
  apply (sorted_last_max f_timestamp
           (in_day f_timestamp (d_timestamp row) df) r);
    [apply sorted_filter; exact Hsorted | exact El|].
  apply in_day_In. auto.
Qed.

Lemma resample_futures_keeps_days_with_funding_witness :
  resample_futures
    [FuturesRow 0 2700 (Some (1 # 100)); FuturesRow 28800 2710 None;
     FuturesRow 86400 2720 None]
  <> []
  /\ forall row,
       In row (resample_futures
                 [FuturesRow 0 2700 (Some (1 # 100));
                  FuturesRow 28800 2710 None; FuturesRow 86400 2720 None]) ->
       d_timestamp row = 0%Z /\ d_mark_price row = 2710.
Proof.
  destruct (resample_futures_keeps_days_with_funding
              [FuturesRow 0 2700 (Some (1 # 100)); FuturesRow 28800 2710 None;
               FuturesRow 86400 2720 None])
    as [_ [Hdays [Hrows _]]].
  - repeat (constructor; cbn [f_timestamp]; try lia).
  - split; [vm_compute; discriminate|].
    intros row Hrow. destruct (Hrows row Hrow) as [_ [r [El [_ [Hd [_ [Hm _]]]]]]].
    assert (Hday : d_timestamp row = 0%Z).
    { pose proof (proj1 (Hdays (d_timestamp row))
                    (in_map d_timestamp _ _ Hrow)) as [r' [f [Hr' [Hd' Hf]]]].
      destruct Hr' as [<-|[<-|[<-|[]]]]; try discriminate Hf.
      symmetry. exact Hd'. }
    split; [exact Hday|]. rewrite Hm. rewrite Hday in El.
    vm_compute in El. injection El as <-. reflexivity.
Defined.

(** ** Column names *)

Lemma string_length_append (s1 s2 : string) :
  String.length (s1 ++ s2) = (String.length s1 + String.length s2)%nat.
Proof. induction s1 as [|c s1 IH]; simpl; [reflexivity | rewrite IH; reflexivity]. Qed.

Lemma append_inv_tail (a b s : string) : (a ++ s = b ++ s)%string -> a = b.
Proof.
  intros H.
  assert (Hl : String.length a = String.length b).
  { pose proof (f_equal String.length H) as Hl.
    rewrite !string_length_append in Hl. lia. }
  revert b H Hl. induction a as [|c a IH]; intros [|c' b] H Hl;
    try discriminate; [reflexivity|].
  simpl in H. injection H as -> H. f_equal. apply IH; [exact H|].
  simpl in Hl. lia.
Qed.

(** Two names with suffixes whose last characters differ are different. *)
Lemma append_last_char (a b s1 s2 : string) :
  s1 <> ""%string -> s2 <> ""%string ->
  String.get (String.length s1 - 1) s1 <> String.get (String.length s2 - 1) s2 ->
  (a ++ s1)%string <> (b ++ s2)%string.
Proof.
  intros N1 N2 Hc H. apply Hc.
  assert (L1 : (0 < String.length s1)%nat)
    by (destruct s1; [contradiction | simpl; lia]).
  assert (L2 : (0 < String.length s2)%nat)
    by (destruct s2; [contradiction | simpl; lia]).
  pose proof (f_equal String.length H) as Hl.
  rewrite !string_length_append in Hl.
  rewrite (String.append_correct2 a s1), (String.append_correct2 b s2), H.
  f_equal. lia.
Qed.

Lemma spot_column_inj (a b : string) : spot_column a = spot_column b -> a = b.
Proof. apply append_inv_tail. Qed.

Lemma futures_mark_column_inj (a b : string) :
  futures_mark_column a = futures_mark_column b -> a = b.
Proof. apply append_inv_tail. Qed.

Lemma funding_column_inj (a b : string) :
  funding_column a = funding_column b -> a = b.
Proof. apply append_inv_tail. Qed.

Lemma spot_column_not_mark (a b : string) :
  spot_column a <> futures_mark_column b.
Proof.
  apply (append_last_char a b "_spot" "_futures_mark"); discriminate.
Qed.

Lemma spot_column_not_funding (a b : string) :
  spot_column a <> funding_column b.
Proof.
  apply (append_last_char a b "_spot" "_funding"); discriminate.
Qed.

Lemma mark_column_not_funding_of (a b : string) :
  futures_mark_column a <> funding_column b.
Proof.
  apply (append_last_char a b "_futures_mark" "_funding"); discriminate.
Qed.

Lemma In_spot_columns c (spot_data : list (string * list (Z * Q))) :
  In c (spot_columns spot_data)
  <-> exists a, In a (map fst spot_data) /\ c = spot_column a.
Proof.
  unfold spot_columns. rewrite in_map_iff. split.
  - intros [item [<- Hi]]. exists (fst item). split; [apply in_map; exact Hi|].
    reflexivity.
  - intros [a [Ha ->]]. apply in_map_iff in Ha. destruct Ha as [item [<- Hi]].
    exists item. auto.
Qed.

Lemma In_futures_columns c (futures_data : list (string * list daily_futures_row)) :
  In c (futures_columns futures_data)
  <-> exists a, In a (map fst futures_data)
                /\ (c = futures_mark_column a \/ c = funding_column a).
Proof.
  unfold futures_columns. rewrite in_flat_map. split.
  - intros [item [Hi [<-|[<-|[]]]]]; exists (fst item);
      (split; [apply in_map; exact Hi | auto]).
  - intros [a [Ha Hc]]. apply in_map_iff in Ha. destruct Ha as [item [<- Hi]].
    exists item. split; [exact Hi|]. destruct Hc as [->| ->]; simpl; auto.
Qed.

Lemma NoDup_map_injective {A B : Type} (f : A -> B) (l : list A) :
  (forall x y, f x = f y -> x = y) -> List.NoDup l -> List.NoDup (map f l).
Proof.
  intros Hinj. induction 1 as [|x l Hx _ IH]; simpl; constructor; [|exact IH].
  intros Hin. apply in_map_iff in Hin. destruct Hin as [y [Hy Hin]].
  apply Hinj in Hy. subst y. contradiction.
Qed.

Lemma column_names_NoDup (spot_data : list (string * list (Z * Q)))
    (futures_data : list (string * list daily_futures_row)) :
  List.NoDup (map fst spot_data) -> List.NoDup (map fst futures_data) ->
  List.NoDup (spot_columns spot_data ++ futures_columns futures_data).
Proof.
  intros Hs Hf. apply List.NoDup_app; [| |].
  - unfold spot_columns.
    rewrite <- (map_map fst spot_column).
    apply (NoDup_map_injective spot_column); [|exact Hs].
    intros a b. apply spot_column_inj.
  - induction futures_data as [|[a df] rest IH]; simpl; [constructor|].
    simpl in Hf. apply List.NoDup_cons_iff in Hf. destruct Hf as [Ha Hf].
    constructor.
    + intros [H|H]; [symmetry in H; revert H; apply mark_column_not_funding|].
      apply In_futures_columns in H. destruct H as [b [Hb [H|H]]].
      * apply futures_mark_column_inj in H. subst b. contradiction.
      * revert H. apply mark_column_not_funding_of.
    + constructor; [|apply IH; exact Hf].
      intros H. apply In_futures_columns in H. destruct H as [b [Hb [H|H]]].
      * symmetry in H. revert H. apply mark_column_not_funding_of.
      * apply funding_column_inj in H. subst b. contradiction.
  - intros c Hc1 Hc2. apply In_spot_columns in Hc1.
    destruct Hc1 as [a [_ ->]]. apply In_futures_columns in Hc2.
    destruct Hc2 as [b [_ [H|H]]]; revert H;
      [apply spot_column_not_mark | apply spot_column_not_funding].
Qed.

(** ** From the fetched frames to the aligned table *)

Lemma resample_spot_daily_series (df : list (Z * Q)) :
  df <> [] -> daily_series (map fst (resample_spot df)).
Proof.
  intros Hne. rewrite resample_spot_timestamps.
  apply day_bins_daily_series. destruct df; [contradiction | discriminate].
Qed.

Lemma resample_futures_daily_series (df : list futures_row) :
  resample_futures df <> [] ->
  daily_series (map d_timestamp (resample_futures df)).
Proof.
  intros Hne. destruct (resample_futures_spec df) as [Hs [_ [Hrows _]]].
  split; [|split].
  - destruct (resample_futures df); [contradiction | discriminate].
  - apply sorted_NoDup. exact Hs.
  - apply List.Forall_forall. intros d Hd. apply in_map_iff in Hd.
    destruct Hd as [row [<- Hrow]]. apply Hrows. exact Hrow.
Qed.

Lemma filter_keys_NoDup {V : Type} (f : string * V -> bool)
    (d : list (string * V)) :
  List.NoDup (map fst d) -> List.NoDup (map fst (List.filter f d)).
Proof.
  induction d as [|x d IH]; simpl; intros H; [constructor|].
  apply List.NoDup_cons_iff in H. destruct H as [Hx Hd].
  destruct (f x); simpl; [|apply IH; exact Hd].
  constructor; [|apply IH; exact Hd].
  intros Hin. apply Hx. apply in_map_iff in Hin.
  destruct Hin as [y [Hy Hin]]. apply filter_In in Hin.
  rewrite <- Hy. apply in_map. tauto.
Qed.

Lemma resampled_frames_align_complete
    (spot_data : list (string * list (Z * Q)))
    (futures_data : list (string * list futures_row)) :
  List.NoDup (map fst spot_data) -> List.NoDup (map fst futures_data) ->
  let daily := resample_to_daily spot_data futures_data in
  Forall (fun item => snd item <> []) (snd daily) ->
  fst daily <> [] \/ snd daily <> [] ->
  let timeline :=
    date_range (ts_min (all_timestamps (fst daily) (snd daily)))
      (ts_max (all_timestamps (fst daily) (snd daily))) in
  exists aligned,
    align_time_series (fst daily) (snd daily)
    = Ok (aligned, spec_warnings timeline (fst daily) (snd daily))
    /\ complete (spot_columns (fst daily) ++ futures_columns (snd daily))
         timeline aligned.
Proof.
  intros Hs Hf daily Hfull Hsome timeline.
  unfold resample_to_daily in daily.
  set (sp := List.filter (fun item : string * list (Z * Q) =>
                            negb (is_empty (snd item))) spot_data) in *.
  set (fu := List.filter (fun item : string * list futures_row =>
                            negb (is_empty (snd item))) futures_data) in *.
  subst daily. cbn [fst snd] in *.
  assert (Hds : Forall (fun item => daily_series (map fst (snd item)))
                  (map (fun item => (fst item, resample_spot (snd item))) sp)).
  { apply List.Forall_forall. intros item Hi. apply in_map_iff in Hi.
    destruct Hi as [[a df] [<- Hi]]. cbn [fst snd].
    apply resample_spot_daily_series. subst sp. apply filter_In in Hi.
    destruct Hi as [_ Hi]. cbn [snd] in Hi. destruct df; [discriminate|].
    discriminate. }
  assert (Hdf : Forall (fun item => daily_series (map d_timestamp (snd item)))
                  (map (fun item => (fst item, resample_futures (snd item))) fu)).
  { apply List.Forall_forall. intros item Hi.
    rewrite List.Forall_forall in Hfull. specialize (Hfull item Hi).
    apply in_map_iff in Hi. destruct Hi as [[a df] [<- Hi]].
    cbn [fst snd] in *. apply resample_futures_daily_series. exact Hfull. }
  apply alignment_complete_for_daily_series; [exact Hds | exact Hdf | |].
  - apply column_names_NoDup; rewrite map_map; cbn [fst];
      apply filter_keys_NoDup; assumption.
  - intros He. destruct Hsome as [Hne|Hne].
    + destruct (map _ sp) as [|item rest] eqn:E; [contradiction|].
      apply List.Forall_cons_iff in Hds. destruct Hds as [[Hn _] _].
      destruct (map fst (snd item)) as [|t ts] eqn:Et; [contradiction|].
      assert (Hin : In t (all_timestamps (item :: rest)
                            (map (fun item => (fst item,
                                               resample_futures (snd item))) fu))).
      { apply In_all_timestamps. left. exists item.
        split; [left; reflexivity | rewrite Et; left; reflexivity]. }
      rewrite He in Hin. exact Hin.
    + destruct (map _ fu) as [|item rest] eqn:E; [contradiction|].
      apply List.Forall_cons_iff in Hdf. destruct Hdf as [[Hn _] _].
      destruct (map d_timestamp (snd item)) as [|t ts] eqn:Et; [contradiction|].
      assert (Hin : In t (all_timestamps
                            (map (fun item => (fst item,
                                               resample_spot (snd item))) sp)
                            (item :: rest))).
      { apply In_all_timestamps. right. exists item.
        split; [left; reflexivity | rewrite Et; left; reflexivity]. }
      rewrite He in Hin. exact Hin.
Qed.

(** X14. When no daily futures frame has lost all its days, the run aligns
    whatever it fetched into a complete table: over the daily timeline from
    the first to the last day of data, with a spot column for each asset
    with spot data and a mark-price and a funding column for each asset with
    futures data, and with no missing value left in any of them; the
    warnings are one entry per asset and field with a leading gap, counting
    the filled days, and the reported days of data are those of the
    fetch. *)
Theorem fetched_history_aligns_without_gaps (db : database)
    (positions : list position) (lookback_days : Z) (names : list string) :
  asset_names positions = Ok names ->
  let data := fetch_portfolio_data db (unique names) lookback_days in
  let daily := resample_to_daily (pd_spot data) (pd_futures data) in
  Forall (fun item => snd item <> []) (snd daily) ->
  fst daily <> [] \/ snd daily <> [] ->
  let timeline :=
    date_range (ts_min (all_timestamps (fst daily) (snd daily)))
      (ts_max (all_timestamps (fst daily) (snd daily))) in
  exists aligned,
    fetch_and_align db positions lookback_days
    = Ok (AlignedHistory aligned
            (spec_warnings timeline (fst daily) (snd daily))
            (pd_actual_days data))
    /\ complete (spot_columns (fst daily) ++ futures_columns (snd daily))
         timeline aligned.
Proof.
  intros Hn data daily Hfull Hsome timeline.
  destruct (fetch_portfolio_data_spec db (unique names) lookback_days ""%string)
    as [_ [_ [_ [_ [_ [_ [Hs Hf]]]]]]]. fold data in Hs, Hf.
  destruct (resampled_frames_align_complete (pd_spot data) (pd_futures data)
              Hs Hf Hfull Hsome) as [aligned [Ha Hc]].
  exists aligned. split; [|exact Hc].
  unfold fetch_and_align. rewrite Hn. cbn [bind]. fold data.
  unfold resample_to_daily in *. cbn [fst snd] in *.
  rewrite Ha. reflexivity.
Qed.

Lemma fetched_history_aligns_without_gaps_witness :
  exists h,
    fetch_and_align db_no_funding [eth_long] 30 = Ok h
    /\ ah_alignment_warnings h = [].
Proof.
  destruct (fetched_history_aligns_without_gaps db_no_funding [eth_long] 30
              ["ETH"%string] eq_refl) as [aligned [Ha _]].
  - vm_compute. repeat constructor; discriminate.
  - left. vm_compute. discriminate.
  - eexists. split; [exact Ha|]. vm_compute. reflexivity.
Defined.

(** ** The content of the aligned table *)

Lemma bfill_list_all_some (l : list (option Q)) :
  Forall is_Some l -> bfill_list l = l.
Proof.
  intros H. unfold bfill_list.
  rewrite ffill_list_all_some by (apply Forall_rev; exact H).
  apply rev_involutive.
Qed.

Lemma fillna_list_all_some (v : Q) (l : list (option Q)) :
  Forall is_Some l -> fillna_list v l = l.
Proof.
  induction 1 as [|x l [w ->] _ IH]; simpl; [reflexivity|].
  f_equal. exact IH.
Qed.

Lemma no_na_all_some (l : list (option Q)) :
  existsb (fun c => negb (has_key c)) l = false -> Forall is_Some l.
Proof.
  induction l as [|[v|] l IH]; simpl; intros H.
  - constructor.
  - constructor; [eexists; reflexivity | apply IH; exact H].
  - discriminate.
Qed.

Lemma add_spot_content aligned ws a df :
  List.NoDup (map fst df) ->
  let aligned' := fst (add_spot (aligned, ws) (a, df)) in
  map row_timestamp (rows aligned') = map row_timestamp (rows aligned)
  /\ columns aligned' = columns aligned ++ [spot_column a]
  /\ column (spot_column a) (rows aligned')
     = bfill_list (ffill_list None
                     (series_column df (map row_timestamp (rows aligned))))
  /\ forall c, c <> spot_column a ->
       column c (rows aligned') = column c (rows aligned).
Proof.
  intros Hnd. unfold add_spot. cbn [fst snd].
  set (col := spot_column a).
  destruct (merged_column col df (rows aligned) Hnd) as [F2 [F1 F3]].
  set (rs := ffill col (merge_left col df (rows aligned))) in *.
  fold (series_column df (map row_timestamp (rows aligned))) in F1.
  destruct (isna_any col rs) eqn:E; cbn [fst rows columns].
  - split; [rewrite bfill_timestamps; exact F2|]. split; [reflexivity|].
    split; [rewrite bfill_column, F1; reflexivity|].
    intros c Hc. rewrite bfill_other by exact Hc. apply F3. exact Hc.
  - split; [exact F2|]. split; [reflexivity|]. split; [|exact F3].
    rewrite isna_any_column in E. apply no_na_all_some in E.
    rewrite <- F1. symmetry. apply bfill_list_all_some. exact E.
Qed.

Lemma add_futures_content aligned ws a df :
  List.NoDup (map d_timestamp df) ->
  let aligned' := fst (add_futures (aligned, ws) (a, df)) in
  let timeline := map row_timestamp (rows aligned) in
  map row_timestamp (rows aligned') = timeline
  /\ columns aligned'
     = columns aligned ++ [futures_mark_column a; funding_column a]
  /\ column (futures_mark_column a) (rows aligned')
     = bfill_list (ffill_list None (series_column (mark_series df) timeline))
  /\ column (funding_column a) (rows aligned')
     = fillna_list 0 (ffill_list None
                        (series_column (funding_series df) timeline))
  /\ forall c, c <> futures_mark_column a -> c <> funding_column a ->
       column c (rows aligned') = column c (rows aligned).
Proof.
  intros Hnd. unfold add_futures. cbn [fst snd].
  set (mark := futures_mark_column a).
  set (funding := funding_column a).
  fold (mark_series df). fold (funding_series df).
  assert (Hm : map fst (mark_series df) = map d_timestamp df)
    by (unfold mark_series; rewrite map_map; reflexivity).
  assert (Hf : map fst (funding_series df) = map d_timestamp df)
    by (unfold funding_series; rewrite map_map; reflexivity).
  assert (Hmf : mark <> funding) by apply mark_column_not_funding.
  assert (Hfm : funding <> mark) by (intros H; apply Hmf; symmetry; exact H).
  destruct (merged_column mark (mark_series df) (rows aligned))
    as [A2 [A1 A3]]; [rewrite Hm; exact Hnd|].
  set (rs1 := ffill mark (merge_left mark (mark_series df) (rows aligned))) in *.
  destruct (merged_column funding (funding_series df) rs1) as [B2 [B1 B3]];
    [rewrite Hf; exact Hnd|].
  set (rs2 := ffill funding (merge_left funding (funding_series df) rs1)) in *.
  rewrite A2 in B1, B2.
  fold (series_column (mark_series df) (map row_timestamp (rows aligned))) in A1.
  fold (series_column (funding_series df) (map row_timestamp (rows aligned)))
    in B1.
  assert (Hmark2 : column mark rs2
                   = ffill_list None
                       (series_column (mark_series df)
                          (map row_timestamp (rows aligned))))
    by (rewrite B3 by exact Hmf; exact A1).
  cbv zeta.
  destruct (isna_any mark rs2) eqn:E1.
  - destruct (isna_any funding (bfill mark rs2)) eqn:E2; cbn [fst rows columns].
    + split; [rewrite fillna_timestamps, bfill_timestamps; exact B2|].
      split; [reflexivity|].
      split; [rewrite fillna_other, bfill_column, Hmark2 by exact Hmf;
              reflexivity|].
      split; [rewrite fillna_column, bfill_other, B1 by exact Hfm; reflexivity|].
      intros c H1 H2. rewrite fillna_other, bfill_other, B3, A3 by assumption.
      reflexivity.
    + split; [rewrite bfill_timestamps; exact B2|]. split; [reflexivity|].
      split; [rewrite bfill_column, Hmark2; reflexivity|].
      split.
      * rewrite isna_any_column, bfill_other in E2 by exact Hfm.
        apply no_na_all_some in E2. rewrite bfill_other by exact Hfm.
        rewrite <- B1. symmetry. apply fillna_list_all_some. exact E2.
      * intros c H1 H2. rewrite bfill_other, B3, A3 by assumption. reflexivity.
  - assert (Hall : Forall is_Some (column mark rs2))
      by (rewrite isna_any_column in E1; apply no_na_all_some; exact E1).
    destruct (isna_any funding rs2) eqn:E2; cbn [fst rows columns].
    + split; [rewrite fillna_timestamps; exact B2|]. split; [reflexivity|].
      split.
      * rewrite fillna_other by exact Hmf. rewrite <- Hmark2. symmetry.
        apply bfill_list_all_some. exact Hall.
      * split; [rewrite fillna_column, B1; reflexivity|].
        intros c H1 H2. rewrite fillna_other, B3, A3 by assumption.
        reflexivity.
    + split; [exact B2|]. split; [reflexivity|]. split.
      * rewrite <- Hmark2. symmetry. apply bfill_list_all_some. exact Hall.
      * split.
        -- rewrite isna_any_column in E2. apply no_na_all_some in E2.
           rewrite <- B1. symmetry. apply fillna_list_all_some. exact E2.
        -- intros c H1 H2. rewrite B3, A3 by assumption. reflexivity.
Qed.

Lemma fold_add_spot_content (spot_data : list (string * list (Z * Q))) :
  forall aligned ws,
    Forall (fun item => List.NoDup (map fst (snd item))) spot_data ->
    List.NoDup (spot_columns spot_data) ->
    let aligned' := fst (fold_left add_spot spot_data (aligned, ws)) in
    let timeline := map row_timestamp (rows aligned) in
    map row_timestamp (rows aligned') = timeline
    /\ columns aligned' = columns aligned ++ spot_columns spot_data
    /\ (forall a df, In (a, df) spot_data ->
          column (spot_column a) (rows aligned')
          = bfill_list (ffill_list None (series_column df timeline)))
    /\ (forall c, ~ In c (spot_columns spot_data) ->
          column c (rows aligned') = column c (rows aligned)).
Proof.
  induction spot_data as [|[a df] rest IH]; intros aligned ws Hts Hnd;
    cbn [fold_left].
  - cbn [fst spot_columns map]. rewrite app_nil_r.
    repeat split; try reflexivity. intros a df [].
  - apply List.Forall_cons_iff in Hts. destruct Hts as [Hd Hts].
    cbn [spot_columns map fst snd] in Hnd, Hd.
    apply List.NoDup_cons_iff in Hnd. destruct Hnd as [Hnew Hnd].
    pose proof (add_spot_content aligned ws a df Hd) as Hstep.
    destruct (add_spot (aligned, ws) (a, df)) as [al1 ws1].
    cbn [fst] in Hstep. cbv zeta in Hstep.
    destruct Hstep as [S1 [S2 [S3 S4]]].
    specialize (IH al1 ws1 Hts Hnd). cbv zeta in IH.
    destruct IH as [I1 [I2 [I3 I4]]].
    cbv zeta. rewrite S1 in I1, I3.
    split; [exact I1|]. split.
    { rewrite I2, S2, <- app_assoc. reflexivity. }
    split.
    + intros b db [[= <- <-]|Hin].
      * rewrite I4 by exact Hnew. exact S3.
      * apply I3. exact Hin.
    + intros c Hc. rewrite I4.
      * apply S4. intros ->. apply Hc. left. reflexivity.
      * intros Hin. apply Hc. right. exact Hin.
Qed.

Lemma fold_add_futures_content
    (futures_data : list (string * list daily_futures_row)) :
  forall aligned ws,
    Forall (fun item => List.NoDup (map d_timestamp (snd item))) futures_data ->
    List.NoDup (futures_columns futures_data) ->
    let aligned' := fst (fold_left add_futures futures_data (aligned, ws)) in
    let timeline := map row_timestamp (rows aligned) in
    map row_timestamp (rows aligned') = timeline
    /\ columns aligned' = columns aligned ++ futures_columns futures_data
    /\ (forall a df, In (a, df) futures_data ->
          column (futures_mark_column a) (rows aligned')
          = bfill_list (ffill_list None (series_column (mark_series df) timeline))
          /\ column (funding_column a) (rows aligned')
             = fillna_list 0
                 (ffill_list None (series_column (funding_series df) timeline)))
    /\ (forall c, ~ In c (futures_columns futures_data) ->
          column c (rows aligned') = column c (rows aligned)).
Proof.
  induction futures_data as [|[a df] rest IH]; intros aligned ws Hts Hnd;
    cbn [fold_left].
  - cbn [fst futures_columns flat_map]. rewrite app_nil_r.
    repeat split; try reflexivity; destruct H.
  - apply List.Forall_cons_iff in Hts. destruct Hts as [Hd Hts].
    cbn [futures_columns flat_map fst snd app] in Hnd, Hd.
    fold (futures_columns rest) in Hnd.
    apply List.NoDup_cons_iff in Hnd. destruct Hnd as [Hnew1 Hnd].
    apply List.NoDup_cons_iff in Hnd. destruct Hnd as [Hnew2 Hnd].
    pose proof (add_futures_content aligned ws a df Hd) as Hstep.
    destruct (add_futures (aligned, ws) (a, df)) as [al1 ws1].
    cbn [fst] in Hstep. cbv zeta in Hstep.
    destruct Hstep as [S1 [S2 [S3 [S4 S5]]]].
    specialize (IH al1 ws1 Hts Hnd). cbv zeta in IH.
    destruct IH as [I1 [I2 [I3 I4]]].
    cbv zeta. rewrite S1 in I1, I3.
    split; [exact I1|]. split.
    { rewrite I2, S2, <- app_assoc. reflexivity. }
    split.
    + intros b db [[= <- <-]|Hin].
      * rewrite !I4; [split; [exact S3 | exact S4] | exact Hnew2|].
        intros Hin. apply Hnew1. right. exact Hin.
      * apply I3. exact Hin.
    + intros c Hc. cbn [futures_columns flat_map app] in Hc.
      fold (futures_columns rest) in Hc. rewrite I4.
      * apply S5; intros ->; apply Hc; [left | right; left]; reflexivity.
      * intros Hin. apply Hc. right; right. exact Hin.
Qed.

Lemma Ok_inj {A : Type} (x y : A) : Ok x = Ok y -> x = y.
Proof. congruence. Qed.

Lemma NoDup_keys_In {V : Type} (d : list (string * V)) (a : string) (v : V) :
  In (a, v) d -> In a (map fst d).
Proof. intros H. apply (in_map fst) in H. exact H. Qed.

Lemma aligned_table_content (spot_data : list (string * list (Z * Q)))
    (futures_data : list (string * list daily_futures_row))
    (aligned : data_frame) (ws : list alignment_warning) :
  align_time_series spot_data futures_data = Ok (aligned, ws) ->
  Forall (fun item => List.NoDup (map fst (snd item))) spot_data ->
  Forall (fun item => List.NoDup (map d_timestamp (snd item))) futures_data ->
  List.NoDup (map fst spot_data) -> List.NoDup (map fst futures_data) ->
  let timeline :=
    date_range (ts_min (all_timestamps spot_data futures_data))
      (ts_max (all_timestamps spot_data futures_data)) in
  map row_timestamp (rows aligned) = timeline
  /\ columns aligned
     = "timestamp"%string
       :: spot_columns spot_data ++ futures_columns futures_data
  /\ (forall a df, In (a, df) spot_data ->
        column (spot_column a) (rows aligned)
        = bfill_list (ffill_list None (series_column df timeline)))
  /\ (forall a df, In (a, df) futures_data ->
        column (futures_mark_column a) (rows aligned)
        = bfill_list (ffill_list None (series_column (mark_series df) timeline))
        /\ column (funding_column a) (rows aligned)
           = fillna_list 0
               (ffill_list None (series_column (funding_series df) timeline))).
Proof.
  intros Ha Hs Hf Hks Hkf timeline. unfold align_time_series in Ha.
  destruct (is_empty (all_timestamps spot_data futures_data)); [discriminate|].
  fold timeline in Ha. apply Ok_inj in Ha.
  pose proof (column_names_NoDup spot_data futures_data Hks Hkf) as Hnd.
  set (init := DataFrame ["timestamp"%string]
                 (map (fun t => AlignedRow t []) timeline)) in *.
  assert (Hinit : map row_timestamp (rows init) = timeline).
  { subst init. cbn [rows]. rewrite map_map. cbn [row_timestamp].
    apply map_id. }
  pose proof (fold_add_spot_content spot_data init [] Hs
                (List.NoDup_app_remove_r _ _ Hnd)) as H1.
  destruct (fold_left add_spot spot_data (init, [])) as [al1 ws1].
  cbn [fst] in H1. cbv zeta in H1. rewrite Hinit in H1.
  destruct H1 as [A1 [A2 [A3 A4]]].
  pose proof (fold_add_futures_content futures_data al1 ws1 Hf
                (List.NoDup_app_remove_l _ _ Hnd)) as H2.
  rewrite Ha in H2. cbn [fst] in H2. cbv zeta in H2. rewrite A1 in H2.
  destruct H2 as [B1 [B2 [B3 B4]]].
  split; [exact B1|]. split.
  { rewrite B2, A2. reflexivity. }
  split; [|exact B3].
  intros a df Hin. rewrite B4; [apply A3; exact Hin|].
  intros Hc. apply In_futures_columns in Hc. destruct Hc as [b [_ [H|H]]];
    revert H; [apply spot_column_not_mark | apply spot_column_not_funding].
Qed.

(** *** The fills, cell by cell *)

Lemma ffill_list_keeps c l i v :
  l !! i = Some (Some v) -> ffill_list c l !! i = Some (Some v).
Proof.
  revert c i. induction l as [|[w|] l IH]; intros c [|i] H; simpl in *;
    try discriminate; try exact H; apply IH; exact H.
Qed.

Lemma ffill_list_values c l i v :
  ffill_list c l !! i = Some (Some v) -> c = Some v \/ In (Some v) l.
Proof.
  revert c i. induction l as [|[w|] l IH]; intros c [|i] H; simpl in *;
    try discriminate.
  - injection H as <-. right; left; reflexivity.
  - destruct (IH _ _ H) as [E|E]; [right; left; exact E | right; right; exact E].
  - injection H as <-. left; reflexivity.
  - destruct (IH _ _ H) as [E|E]; [left; exact E | right; right; exact E].
Qed.

Lemma ffill_list_prev c l i :
  l !! S i = Some None -> ffill_list c l !! S i = ffill_list c l !! i.
Proof.
  revert c i. induction l as [|x l IH]; intros c i H; [discriminate|].
  destruct i as [|i].
  - destruct l as [|[w|] l]; try discriminate. destruct x; reflexivity.
  - destruct x; simpl; apply IH; exact H.
Qed.

Lemma last_cons_default (y : option Q) (t : list (option Q)) (c : option Q) :
  List.last (y :: t) c = List.last t y.
Proof.
  destruct t as [|z t]; [reflexivity|].
  change (List.last (z :: t) c = List.last (z :: t) y).
  apply last_default_irrelevant.
Qed.

Lemma ffill_list_snoc c a x :
  ffill_list c (a ++ [x])
  = ffill_list c a
    ++ [match x with
        | Some v => Some v
        | None => List.last (ffill_list c a) c
        end].
Proof.
  revert c. induction a as [|[w|] a IH]; intros c.
  - destruct x; reflexivity.
  - cbn [app ffill_list]. rewrite IH. cbn [app]. f_equal. f_equal. f_equal.
    destruct x; [reflexivity|]. rewrite last_cons_default. reflexivity.
  - cbn [app ffill_list]. rewrite IH. cbn [app]. f_equal. f_equal. f_equal.
    destruct x; [reflexivity|]. rewrite last_cons_default. reflexivity.
Qed.

Lemma last_hd_rev {A : Type} (t : list A) (c : A) :
  List.last t c = hd c (rev t).
Proof.
  induction t as [|y t IH] using rev_ind; [reflexivity|].
  rewrite rev_app_distr. simpl. apply last_last.
Qed.

Lemma bfill_list_cons x l :
  bfill_list (x :: l)
  = match x with
    | Some v => Some v
    | None => hd None (bfill_list l)
    end :: bfill_list l.
Proof.
  unfold bfill_list. cbn [rev]. rewrite ffill_list_snoc, rev_app_distr.
  cbn [rev app]. f_equal. destruct x; [reflexivity|]. apply last_hd_rev.
Qed.

Lemma bfill_list_keeps l i v :
  l !! i = Some (Some v) -> bfill_list l !! i = Some (Some v).
Proof.
  revert i. induction l as [|x l IH]; intros [|i] H; try discriminate;
    rewrite bfill_list_cons; simpl in *.
  - injection H as ->. reflexivity.
  - apply IH. exact H.
Qed.

Lemma bfill_list_values l i v :
  bfill_list l !! i = Some (Some v) -> In (Some v) l.
Proof.
  revert i. induction l as [|x l IH]; intros i H; [destruct i; discriminate|].
  rewrite bfill_list_cons in H. destruct i as [|i]; simpl in H.
  - destruct x as [w|]; [injection H as <-; left; reflexivity|].
    right. apply (IH 0%nat). destruct (bfill_list l); simpl in *; congruence.
  - right. apply (IH i). exact H.
Qed.

Lemma bfill_list_prev l i :
  l !! S i = l !! i -> bfill_list l !! S i = bfill_list l !! i.
Proof.
  revert i. induction l as [|x l IH]; intros i H; [reflexivity|].
  rewrite bfill_list_cons. destruct i as [|i]; simpl in *.
  - destruct l as [|y l]; [discriminate|]. simpl in H. injection H as ->.
    rewrite bfill_list_cons. simpl. destruct x; reflexivity.
  - apply IH. exact H.
Qed.

Lemma fillna_list_lookup v l i :
  fillna_list v l !! i
  = (fun c => match c with None => Some v | Some _ => c end) <$> l !! i.
Proof. unfold fillna_list. apply list_lookup_fmap. Qed.

Lemma price_fill_cells (l : list (option Q)) (i : nat) :
  let out := bfill_list (ffill_list None l) in
  (forall v, l !! i = Some (Some v) -> out !! i = Some (Some v))
  /\ (forall v, out !! i = Some (Some v) -> In (Some v) l)
  /\ (l !! S i = Some None -> out !! S i = out !! i).
Proof.
  intros out. subst out. split; [|split].
  - intros v H. apply bfill_list_keeps, ffill_list_keeps. exact H.
  - intros v H. apply bfill_list_values in H.
    apply list_elem_of_In, list_elem_of_lookup in H. destruct H as [j Hj].
    destruct (ffill_list_values _ _ _ _ Hj) as [E|E]; [discriminate | exact E].
  - intros H. apply bfill_list_prev, ffill_list_prev. exact H.
Qed.

Lemma funding_fill_cells (l : list (option Q)) (i : nat) :
  let out := fillna_list 0 (ffill_list None l) in
  (forall v, l !! i = Some (Some v) -> out !! i = Some (Some v))
  /\ (forall c, out !! i = Some c ->
        exists v, c = Some v /\ (In (Some v) l \/ v = 0))
  /\ (l !! S i = Some None -> out !! S i = out !! i).
Proof.
  intros out. subst out. split; [|split].
  - intros v H. rewrite fillna_list_lookup.
    rewrite (ffill_list_keeps None l i v H). reflexivity.
  - intros c H. rewrite fillna_list_lookup in H.
    destruct (ffill_list None l !! i) as [[w|]|] eqn:E; simpl in H;
      try discriminate; injection H as <-.
    + exists w. split; [reflexivity|].
      destruct (ffill_list_values _ _ _ _ E) as [E'|E'];
        [discriminate | left; exact E'].
    + exists 0. split; [reflexivity | right; reflexivity].
  - intros H. rewrite !fillna_list_lookup.
    rewrite (ffill_list_prev None l i H). reflexivity.
Qed.

Lemma lookup_ts_of_In (t : Z) (v : Q) (df : list (Z * Q)) :
  List.NoDup (map fst df) -> In (t, v) df -> lookup_ts t df = Some v.
Proof.
  intros Hnd Hin. unfold lookup_ts.
  induction df as [|x df IH]; [destruct Hin|]. simpl in *.
  apply List.NoDup_cons_iff in Hnd. destruct Hnd as [Hx Hnd].
  destruct Hin as [->|Hin]; simpl.
  - rewrite Z.eqb_refl. reflexivity.
  - destruct (fst x =? t)%Z eqn:E; [|apply IH; assumption].
    apply Z.eqb_eq in E. exfalso. apply Hx. rewrite E.
    apply (in_map fst) in Hin. exact Hin.
Qed.

Lemma lookup_ts_In (t : Z) (v : Q) (df : list (Z * Q)) :
  lookup_ts t df = Some v -> In (t, v) df.
Proof.
  unfold lookup_ts. destruct (find _ df) as [x|] eqn:E; [|discriminate].
  intros [= <-]. apply find_some in E. destruct E as [Hin E].
  apply Z.eqb_eq in E. rewrite <- E. destruct x; exact Hin.
Qed.

Lemma lookup_ts_None (t : Z) (df : list (Z * Q)) :
  ~ In t (map fst df) -> lookup_ts t df = None.
Proof.
  intros H. destruct (lookup_ts t df) as [v|] eqn:E; [|reflexivity].
  exfalso. apply H. apply lookup_ts_In in E. apply (in_map fst) in E. exact E.
Qed.

Lemma series_column_values (df : list (Z * Q)) (timeline : list Z) (v : Q) :
  In (Some v) (series_column df timeline) -> In v (map snd df).
Proof.
  unfold series_column. intros H. apply in_map_iff in H.
  destruct H as [t [Ht _]]. apply lookup_ts_In in Ht.
  apply (in_map snd) in Ht. exact Ht.
Qed.

Lemma column_lookup col (rs : list aligned_row) i row :
  rs !! i = Some row -> column col rs !! i = Some (get_cell col row).
Proof. intros H. unfold column. rewrite list_lookup_fmap, H. reflexivity. Qed.

Lemma series_column_lookup df (rs : list aligned_row) i row :
  rs !! i = Some row ->
  series_column df (map row_timestamp rs) !! i
  = Some (lookup_ts (row_timestamp row) df).
Proof.
  intros H. unfold series_column. rewrite !list_lookup_fmap, H. reflexivity.
Qed.

Lemma price_column_cells col (df : list (Z * Q)) (rs : list aligned_row) :
  column col rs
  = bfill_list (ffill_list None (series_column df (map row_timestamp rs))) ->
  List.NoDup (map fst df) ->
  forall i row, rs !! i = Some row ->
    (forall v, In (row_timestamp row, v) df -> get_cell col row = Some v)
    /\ (forall v, get_cell col row = Some v -> In v (map snd df))
    /\ (forall next, rs !! S i = Some next ->
          ~ In (row_timestamp next) (map fst df) ->
          get_cell col next = get_cell col row).
Proof.
  intros Hcol Hnd i row Hrow.
  destruct (price_fill_cells (series_column df (map row_timestamp rs)) i)
    as [P1 [P2 P3]]. rewrite <- Hcol in P1, P2, P3.
  rewrite (column_lookup col rs i row Hrow) in P1, P2, P3.
  rewrite (series_column_lookup df rs i row Hrow) in P1.
  split; [|split].
  - intros v Hin. rewrite (lookup_ts_of_In _ _ _ Hnd Hin) in P1.
    specialize (P1 v eq_refl). congruence.
  - intros v Hv. rewrite Hv in P2.
    eapply series_column_values. apply (P2 v). reflexivity.
  - intros next Hnext Hmiss.
    rewrite (column_lookup col rs (S i) next Hnext) in P3.
    rewrite (series_column_lookup df rs (S i) next Hnext) in P3.
    rewrite (lookup_ts_None _ _ Hmiss) in P3. specialize (P3 eq_refl).
    congruence.
Qed.

Lemma funding_column_cells col (df : list (Z * Q)) (rs : list aligned_row) :
  column col rs
  = fillna_list 0 (ffill_list None (series_column df (map row_timestamp rs))) ->
  List.NoDup (map fst df) ->
  forall i row, rs !! i = Some row ->
    (forall v, In (row_timestamp row, v) df -> get_cell col row = Some v)
    /\ (exists v, get_cell col row = Some v /\ (In v (map snd df) \/ v = 0))
    /\ (forall next, rs !! S i = Some next ->
          ~ In (row_timestamp next) (map fst df) ->
          get_cell col next = get_cell col row).
Proof.
  intros Hcol Hnd i row Hrow.
  destruct (funding_fill_cells (series_column df (map row_timestamp rs)) i)
    as [P1 [P2 P3]]. rewrite <- Hcol in P1, P2, P3.
  rewrite (column_lookup col rs i row Hrow) in P1, P2, P3.
  rewrite (series_column_lookup df rs i row Hrow) in P1.
  split; [|split].
  - intros v Hin. rewrite (lookup_ts_of_In _ _ _ Hnd Hin) in P1.
    specialize (P1 v eq_refl). congruence.
  - destruct (P2 _ eq_refl) as [v [Hv Hor]]. exists v. split; [exact Hv|].
    destruct Hor as [Hin|Hz]; [left | right; exact Hz].
    eapply series_column_values. exact Hin.
  - intros next Hnext Hmiss.
    rewrite (column_lookup col rs (S i) next Hnext) in P3.
    rewrite (series_column_lookup df rs (S i) next Hnext) in P3.
    rewrite (lookup_ts_None _ _ Hmiss) in P3. specialize (P3 eq_refl).
    congruence.
Qed.

Ltac distinct_keys :=
  cbn;
  repeat first
    [ apply List.Forall_nil
    | apply List.NoDup_nil
    | apply List.Forall_cons; cbn
    | apply List.NoDup_cons; [cbn; intuition discriminate|] ].

(** X15. Whatever the series hold, each column of the aligned table is its
    series read over the daily timeline and then filled: forward fill
    followed by backward fill for a spot or mark-price column, forward fill
    followed by zeros for a funding column; the timeline runs from the
    first to the last timestamp of the input and the columns come in the
    order of the input. *)
Theorem aligned_columns_are_filled_series
    (spot_data : list (string * list (Z * Q)))
    (futures_data : list (string * list daily_futures_row))
    (aligned : data_frame) (ws : list alignment_warning) :
  align_time_series spot_data futures_data = Ok (aligned, ws) ->
  Forall (fun item => List.NoDup (map fst (snd item))) spot_data ->
  Forall (fun item => List.NoDup (map d_timestamp (snd item))) futures_data ->
  List.NoDup (map fst spot_data) -> List.NoDup (map fst futures_data) ->
  let timeline :=
    date_range (ts_min (all_timestamps spot_data futures_data))
      (ts_max (all_timestamps spot_data futures_data)) in
  map row_timestamp (rows aligned) = timeline
  /\ columns aligned
     = "timestamp"%string
       :: spot_columns spot_data ++ futures_columns futures_data
  /\ (forall a df, In (a, df) spot_data ->
        column (spot_column a) (rows aligned)
        = bfill_list (ffill_list None (series_column df timeline)))
  /\ (forall a df, In (a, df) futures_data ->
        column (futures_mark_column a) (rows aligned)
        = bfill_list (ffill_list None (series_column (mark_series df) timeline))
        /\ column (funding_column a) (rows aligned)
           = fillna_list 0
               (ffill_list None (series_column (funding_series df) timeline))).
Proof. exact (aligned_table_content spot_data futures_data aligned ws). Qed.

Lemma aligned_columns_are_filled_series_witness :
  exists aligned ws,
    align_time_series spot_gap_input futures_gap_input = Ok (aligned, ws)
    /\ column "ETH_futures_mark" (rows aligned) = [None; None].
Proof.
  eexists. eexists. split; [reflexivity|].
  destruct (aligned_columns_are_filled_series spot_gap_input futures_gap_input
              _ _ eq_refl) as [_ [_ [_ Hf]]].
  - distinct_keys.
  - distinct_keys.
  - distinct_keys.
  - distinct_keys.
  - destruct (Hf "ETH"%string [] (or_introl eq_refl)) as [Hm _].
    etransitivity; [exact Hm | reflexivity].
Defined.

(** X16. Alignment neither alters nor invents an observation: at a day on
    which a series has an observation the table carries that value, every
    price in a spot or mark-price column is a value of its series, a funding
    cell is never missing and is a value of its series or 0, and a day
    without an observation repeats the cell of the day before. *)
Theorem alignment_keeps_observed_values
    (spot_data : list (string * list (Z * Q)))
    (futures_data : list (string * list daily_futures_row))
    (aligned : data_frame) (ws : list alignment_warning) :
  align_time_series spot_data futures_data = Ok (aligned, ws) ->
  Forall (fun item => List.NoDup (map fst (snd item))) spot_data ->
  Forall (fun item => List.NoDup (map d_timestamp (snd item))) futures_data ->
  List.NoDup (map fst spot_data) -> List.NoDup (map fst futures_data) ->
  (forall a df i row,
     In (a, df) spot_data -> rows aligned !! i = Some row ->
     (forall v, In (row_timestamp row, v) df ->
        get_cell (spot_column a) row = Some v)
     /\ (forall v, get_cell (spot_column a) row = Some v -> In v (map snd df))
     /\ (forall next, rows aligned !! S i = Some next ->
           ~ In (row_timestamp next) (map fst df) ->
           get_cell (spot_column a) next = get_cell (spot_column a) row))
  /\ (forall a df i row,
        In (a, df) futures_data -> rows aligned !! i = Some row ->
        (forall r, In r df -> d_timestamp r = row_timestamp row ->
           get_cell (futures_mark_column a) row = Some (d_mark_price r)
           /\ get_cell (funding_column a) row = Some (d_funding_rate r))
        /\ (forall v, get_cell (futures_mark_column a) row = Some v ->
              In v (map d_mark_price df))
        /\ (exists v, get_cell (funding_column a) row = Some v
                      /\ (In v (map d_funding_rate df) \/ v = 0))
        /\ (forall next, rows aligned !! S i = Some next ->
              ~ In (row_timestamp next) (map d_timestamp df) ->
              get_cell (futures_mark_column a) next
              = get_cell (futures_mark_column a) row
              /\ get_cell (funding_column a) next
                 = get_cell (funding_column a) row)).
Proof.
  intros Ha Hs Hf Hks Hkf.
  destruct (aligned_table_content spot_data futures_data aligned ws
              Ha Hs Hf Hks Hkf) as [Hts [_ [Hspot Hfut]]].
  rewrite <- Hts in Hspot, Hfut.
  split.
  - intros a df i row Hin Hrow.
    rewrite List.Forall_forall in Hs.
    apply (price_column_cells _ df (rows aligned) (Hspot a df Hin)
             (Hs (a, df) Hin) i row Hrow).
  - intros a df i row Hin Hrow.
    rewrite List.Forall_forall in Hf. pose proof (Hf (a, df) Hin) as Hnd.
    cbn [snd] in Hnd.
    assert (Hm : map fst (mark_series df) = map d_timestamp df)
      by (unfold mark_series; rewrite map_map; reflexivity).
    assert (Hfu : map fst (funding_series df) = map d_timestamp df)
      by (unfold funding_series; rewrite map_map; reflexivity).
    destruct (Hfut a df Hin) as [Hmark Hfund].
    destruct (price_column_cells _ _ _ Hmark) with (i := i) (row := row)
      as [M1 [M2 M3]]; [rewrite Hm; exact Hnd | exact Hrow|].
    destruct (funding_column_cells _ _ _ Hfund) with (i := i) (row := row)
      as [F1 [F2 F3]]; [rewrite Hfu; exact Hnd | exact Hrow|].
    split; [|split; [|split]].
    + intros r Hr Ht. split.
      * apply M1. unfold mark_series. rewrite <- Ht.
        apply (in_map (fun r => (d_timestamp r, d_mark_price r))). exact Hr.
      * apply F1. unfold funding_series. rewrite <- Ht.
        apply (in_map (fun r => (d_timestamp r, d_funding_rate r))). exact Hr.
    + intros v Hv. apply M2 in Hv. unfold mark_series in Hv.
      rewrite map_map in Hv. exact Hv.
    + destruct F2 as [v [Hv Hor]]. exists v. split; [exact Hv|].
      unfold funding_series in Hor. rewrite map_map in Hor. exact Hor.
    + intros next Hnext Hmiss. split.
      * apply M3; [exact Hnext | rewrite Hm; exact Hmiss].
      * apply F3; [exact Hnext | rewrite Hfu; exact Hmiss].
Qed.

Lemma alignment_keeps_observed_values_witness :
  exists aligned ws row,
    align_time_series spot_gap_input [] = Ok (aligned, ws)
    /\ rows aligned !! 1%nat = Some row
    /\ get_cell "BTC_spot" row = Some 51000.
Proof.
  eexists. eexists. eexists. split; [reflexivity|]. split; [reflexivity|].
  destruct (alignment_keeps_observed_values spot_gap_input [] _ _ eq_refl)
    as [Hspot _].
  - distinct_keys.
  - distinct_keys.
  - distinct_keys.
  - distinct_keys.
  - destruct (Hspot "BTC"%string [(0%Z, 50000); (86400%Z, 51000)] 1%nat _
                (or_introl eq_refl) eq_refl) as [Hv _].
    apply Hv. right; left. reflexivity.
Defined.

(** ** Chart data *)

Lemma sensitivity_graph_loop_spec (table : list sensitivity_row) :
  forall idx pts cur_idx cur_val,
    let '(pts', idx', val') :=
      sensitivity_graph_loop idx table pts cur_idx cur_val in
    pts' = pts ++ map (fun row => DataPoint (price_change_pct row)
                                    (portfolio_value row) (return_pct row)
                                    (pnl row)) table
    /\ ((idx' = cur_idx /\ val' = cur_val
         /\ Forall (fun row => ~ price_change_pct row == 0) table)
        \/ exists k row,
             idx' = (idx + k)%nat /\ table !! k = Some row
             /\ price_change_pct row == 0 /\ val' = portfolio_value row
             /\ forall j row', (k < j)%nat -> table !! j = Some row' ->
                  ~ price_change_pct row' == 0).
Proof.
  induction table as [|row rest IH]; intros idx pts cur_idx cur_val;
    cbn [sensitivity_graph_loop].
  - split; [rewrite app_nil_r; reflexivity|]. left. repeat split. constructor.
  - destruct (Qeq_bool (price_change_pct row) 0) eqn:E.
    + apply Qeq_bool_iff in E.
      specialize (IH (S idx) (pts ++ [DataPoint (price_change_pct row)
                                        (portfolio_value row) (return_pct row)
                                        (pnl row)]) idx (portfolio_value row)).
      destruct (sensitivity_graph_loop _ rest _ _ _) as [[pts' idx'] val'].
      destruct IH as [Hp Hc]. split.
      { rewrite Hp, <- app_assoc. reflexivity. }
      right. destruct Hc as [[-> [-> Hall]]|[k [r [-> [Hk [Hz [-> Hlast]]]]]]].
      * exists 0%nat, row. rewrite Nat.add_0_r. repeat split; try assumption.
        intros [|j] row' Hj Hrow'; [lia|]. simpl in Hrow'.
        rewrite List.Forall_forall in Hall. apply Hall.
        apply list_elem_of_In. eapply list_elem_of_lookup_2. exact Hrow'.
      * exists (S k), r. split; [lia|]. repeat split; try assumption.
        intros [|j] row' Hj Hrow'; [lia|]. simpl in Hrow'.
        apply (Hlast j); [lia | exact Hrow'].
    + assert (Hnz : ~ price_change_pct row == 0)
        by (intros H; apply Qeq_bool_iff in H; congruence).
      specialize (IH (S idx) (pts ++ [DataPoint (price_change_pct row)
                                        (portfolio_value row) (return_pct row)
                                        (pnl row)]) cur_idx cur_val).
      destruct (sensitivity_graph_loop _ rest _ _ _) as [[pts' idx'] val'].
      destruct IH as [Hp Hc]. split.
      { rewrite Hp, <- app_assoc. reflexivity. }
      destruct Hc as [[-> [-> Hall]]|[k [r [-> [Hk [Hz [-> Hlast]]]]]]].
      * left. repeat split. constructor; assumption.
      * right. exists (S k), r. split; [lia|]. repeat split; try assumption.
        intros [|j] row' Hj Hrow'; [lia|]. simpl in Hrow'.
        apply (Hlast j); [lia | exact Hrow'].
Qed.

Lemma pymin_spec (a b : Q) :
  pymin a b <= a /\ pymin a b <= b /\ (pymin a b = a \/ pymin a b = b).
Proof.
  unfold pymin. destruct (Qlt_bool b a) eqn:E.
  - apply Qlt_bool_iff in E. repeat split; try lra. right; reflexivity.
  - apply Qlt_bool_false_iff in E. repeat split; try lra. left; reflexivity.
Qed.

Lemma pymax_spec (a b : Q) :
  a <= pymax a b /\ b <= pymax a b /\ (pymax a b = a \/ pymax a b = b).
Proof.
  unfold pymax. destruct (Qlt_bool a b) eqn:E.
  - apply Qlt_bool_iff in E. repeat split; try lra. right; reflexivity.
  - apply Qlt_bool_false_iff in E. repeat split; try lra. left; reflexivity.
Qed.

Lemma fold_pymin_spec (l : list Q) (x : Q) :
  fold_left pymin l x <= x
  /\ (forall y, In y l -> fold_left pymin l x <= y)
  /\ (fold_left pymin l x = x \/ In (fold_left pymin l x) l).
Proof.
  revert x. induction l as [|y l IH]; intros x; simpl.
  - split; [lra|]. split; [intros y []|left; reflexivity].
  - destruct (IH (pymin x y)) as [H1 [H2 H3]].
    destruct (pymin_spec x y) as [P1 [P2 P3]].
    split; [lra|]. split.
    + intros z [<-|Hz]; [lra | apply H2; exact Hz].
    + destruct H3 as [H3|H3]; [|right; right; exact H3].
      rewrite H3. destruct P3 as [->| ->]; auto.
Qed.

Lemma fold_pymax_spec (l : list Q) (x : Q) :
  x <= fold_left pymax l x
  /\ (forall y, In y l -> y <= fold_left pymax l x)
  /\ (fold_left pymax l x = x \/ In (fold_left pymax l x) l).
Proof.
  revert x. induction l as [|y l IH]; intros x; simpl.
  - split; [lra|]. split; [intros y []|left; reflexivity].
  - destruct (IH (pymax x y)) as [H1 [H2 H3]].
    destruct (pymax_spec x y) as [P1 [P2 P3]].
    split; [lra|]. split.
    + intros z [<-|Hz]; [lra | apply H2; exact Hz].
    + destruct H3 as [H3|H3]; [|right; right; exact H3].
      rewrite H3. destruct P3 as [->| ->]; auto.
Qed.

Lemma min_max_or_zero_spec (values : list Q) :
  values <> [] ->
  In (min_or_zero values) values /\ In (max_or_zero values) values
  /\ forall y, In y values -> min_or_zero values <= y <= max_or_zero values.
Proof.
  destruct values as [|v rest]; [contradiction|]. intros _.
  unfold min_or_zero, max_or_zero.
  destruct (fold_pymin_spec rest v) as [A1 [A2 A3]].
  destruct (fold_pymax_spec rest v) as [B1 [B2 B3]].
  split; [destruct A3 as [->|A3]; [left; reflexivity | right; exact A3]|].
  split; [destruct B3 as [->|B3]; [left; reflexivity | right; exact B3]|].
  intros y [<-|Hy]; split; auto.
Qed.

Lemma sensitivity_graph_spec (table : list sensitivity_row) :
  let g := calculate_sensitivity_graph table in
  data_points g
  = map (fun row => DataPoint (price_change_pct row) (portfolio_value row)
                      (return_pct row) (pnl row)) table
  /\ (forall row, In row table ->
        vr_min (sg_value_range g) <= portfolio_value row
        <= vr_max (sg_value_range g))
  /\ (table <> [] ->
      In (vr_min (sg_value_range g)) (map portfolio_value table)
      /\ In (vr_max (sg_value_range g)) (map portfolio_value table))
  /\ ((current_position g = 0%nat /\ vr_current (sg_value_range g) = 0
       /\ Forall (fun row => ~ price_change_pct row == 0) table)
      \/ exists row,
           table !! current_position g = Some row
           /\ price_change_pct row == 0
           /\ vr_current (sg_value_range g) = portfolio_value row
           /\ forall j row', (current_position g < j)%nat ->
                table !! j = Some row' -> ~ price_change_pct row' == 0).
Proof.
  intros g. subst g. destruct table as [|r0 rest].
  { cbn. split; [reflexivity|]. split; [intros row []|].
    split; [intros H; contradiction|]. left. repeat split. constructor. }
  set (table := r0 :: rest).
  unfold calculate_sensitivity_graph. fold table.
  change (match table with [] => _ | _ :: _ => ?x end) with x.
  pose proof (sensitivity_graph_loop_spec table 0 [] 0%nat 0) as H.
  destruct (sensitivity_graph_loop 0 table [] 0 0) as [[pts idx] val].
  destruct H as [Hp Hc]. cbn [app] in Hp.
  cbn [data_points current_position sg_value_range vr_min vr_max vr_current].
  assert (Hy : map dp_y pts = map portfolio_value table)
    by (rewrite Hp, map_map; reflexivity).
  rewrite Hy.
  destruct (min_max_or_zero_spec (map portfolio_value table)) as [M1 [M2 M3]];
    [discriminate|].
  split; [exact Hp|]. split.
  { intros row Hin. apply M3. apply in_map. exact Hin. }
  split; [intros _; split; assumption|].
  destruct Hc as [[-> [-> Hall]]|[k [row [-> [Hk [Hz [-> Hlast]]]]]]].
  - left. repeat split. exact Hall.
  - right. exists row. cbn [Nat.add]. repeat split; assumption.
Qed.

(** X17. The sensitivity chart has one data point per row of the table, in
    the order of the table and with the row's four numbers; its value range
    is the smallest and the largest portfolio value of the table, both
    attained; its current position is the last row with price change 0, with
    that row's portfolio value as current value, and position 0 with current
    value 0 when no row has price change 0. *)
Theorem sensitivity_graph_mirrors_table (table : list sensitivity_row) :
  let g := calculate_sensitivity_graph table in
  data_points g
  = map (fun row => DataPoint (price_change_pct row) (portfolio_value row)
                      (return_pct row) (pnl row)) table
  /\ (forall row, In row table ->
        vr_min (sg_value_range g) <= portfolio_value row
        <= vr_max (sg_value_range g))
  /\ (table <> [] ->
      In (vr_min (sg_value_range g)) (map portfolio_value table)
      /\ In (vr_max (sg_value_range g)) (map portfolio_value table))
  /\ ((current_position g = 0%nat /\ vr_current (sg_value_range g) = 0
       /\ Forall (fun row => ~ price_change_pct row == 0) table)
      \/ exists row,
           table !! current_position g = Some row
           /\ price_change_pct row == 0
           /\ vr_current (sg_value_range g) = portfolio_value row
           /\ forall j row', (current_position g < j)%nat ->
                table !! j = Some row' -> ~ price_change_pct row' == 0).
Proof. exact (sensitivity_graph_spec table). Qed.

(** X18. Charting the sensitivity table of a portfolio: when the shock
    range contains 0, the chart's current value is the base portfolio value,
    its current position is the place of a zero shock in the range, the base
    value lies within the value range, and there is one data point per
    shock. *)
Theorem sensitivity_graph_current_is_base_value (positions : list position)
    (base_prices : gmap price_key Q) (shock_range : list Q) (base_value : Q)
    (table : list sensitivity_row) :
  calculate_portfolio_value positions base_prices = Ok base_value ->
  calculate_sensitivity_table positions base_prices shock_range = Ok table ->
  (exists s, In s shock_range /\ s == 0) ->
  let g := calculate_sensitivity_graph table in
  vr_current (sg_value_range g) == base_value
  /\ vr_min (sg_value_range g) <= base_value <= vr_max (sg_value_range g)
  /\ (exists s, shock_range !! current_position g = Some s /\ s == 0)
  /\ length (data_points g) = length shock_range.
Proof.
  intros Hbase Htab [s0 [Hin0 Hz0]] g.
  destruct (sensitivity_rows_spec positions base_prices base_value shock_range
              Hbase) as [table' [Ht [Hm Hf]]].
  unfold calculate_sensitivity_table in Htab. rewrite Hbase in Htab.
  cbn [bind] in Htab. assert (table' = table) by congruence. subst table'.
  destruct (sensitivity_graph_spec table) as [Hp [Hr [_ Hc]]]. fold g in Hp, Hr, Hc.
  assert (Hlen : length (data_points g) = length shock_range).
  { rewrite Hp, length_map, <- (length_map price_change_pct), Hm, length_map.
    reflexivity. }
  destruct Hc as [[_ [_ Hall]]|[row [Hk [Hz [Hv _]]]]].
  - exfalso.
    assert (Hin' : In (s0 * 100) (map price_change_pct table))
      by (rewrite Hm; apply (in_map (fun s => s * 100)); exact Hin0).
    apply in_map_iff in Hin'. destruct Hin' as [row [Hrow Hin']].
    rewrite List.Forall_forall in Hall. apply (Hall row Hin').
    rewrite Hrow, Hz0. ring.
  - assert (Hin : In row table)
      by (apply list_elem_of_In; eapply list_elem_of_lookup_2; exact Hk).
    rewrite List.Forall_forall in Hf. destruct (Hf row Hin Hz) as [Hval _].
    split; [rewrite Hv; exact Hval|]. split.
    + rewrite <- Hval. apply Hr. exact Hin.
    + split; [|exact Hlen].
      assert (Hl : map price_change_pct table !! current_position g
                   = Some (price_change_pct row))
        by (rewrite list_lookup_fmap, Hk; reflexivity).
      rewrite Hm, list_lookup_fmap in Hl.
      destruct (shock_range !! current_position g) as [s|]; [|discriminate].
      exists s. split; [reflexivity|]. simpl in Hl. injection Hl as Hl.
      rewrite <- Hl in Hz. lra.
Qed.

Lemma sensitivity_graph_current_is_base_value_witness :
  exists table,
    calculate_sensitivity_table [btc_spot; eth_long] snapshot_ex
      [- (5 # 100); 0; 5 # 100] = Ok table
    /\ vr_current (sg_value_range (calculate_sensitivity_graph table))
       == 0 + 1 * 50000 + (margin 10 2500 2 + pnl_long 10 2500 2700).
Proof.
  eexists. split; [reflexivity|].
  apply (sensitivity_graph_current_is_base_value [btc_spot; eth_long]
           snapshot_ex [- (5 # 100); 0; 5 # 100] _ _ eq_refl eq_refl).
  exists 0. split; [right; left; reflexivity | reflexivity].
Defined.

Lemma fold_Qplus_pos (l : list Q) (acc : Q) :
  Forall (fun p => 0 < p) l -> 0 <= acc ->
  acc <= fold_left Qplus l acc /\ (l <> [] -> 0 < fold_left Qplus l acc).
Proof.
  intros H. revert acc. induction H as [|x l Hx _ IH]; intros acc Ha; simpl.
  - split; [lra | intros Hn; contradiction].
  - destruct (IH (acc + x)) as [H1 _]; [lra|]. split; [lra|]. intros _. lra.
Qed.

Lemma mean_positive (l : list Q) :
  Forall (fun p => 0 < p) l -> 0 < get_default (mean l) 1.
Proof.
  intros H. destruct l as [|x l]; [simpl; lra|].
  unfold mean, get_default.
  destruct (fold_Qplus_pos (x :: l) 0 H) as [_ Hpos]; [lra|].
  specialize (Hpos ltac:(discriminate)).
  apply Qlt_shift_div_l; [|unfold Qsum; lra].
  change 0 with (inject_Z 0). rewrite <- Zlt_Qlt. simpl. lia.
Qed.

Lemma clamp_spec (x : Q) :
  let c := pymax (- (1)) (pymin 1 x) in
  - (1) <= c <= 1
  /\ (- (1) <= x <= 1 -> c == x)
  /\ (0 < c -> 0 < x) /\ (c < 0 -> x < 0) /\ (x == 0 -> c == 0).
Proof.
  intros c. subst c. unfold pymax, pymin.
  destruct (Qlt_bool x 1) eqn:E1; bool_to_prop.
  - destruct (Qlt_bool (- (1)) x) eqn:E2; bool_to_prop;
      repeat split; intros; lra.
  - destruct (Qlt_bool (- (1)) 1) eqn:E2; bool_to_prop;
      repeat split; intros; lra.
Qed.

Lemma gauge_raw_sign (delta_exposure portfolio_value avg_price : Q) :
  0 < avg_price ->
  let raw :=
    if Qlt_bool 0 portfolio_value && Qlt_bool 0 avg_price then
      let position_equivalent := portfolio_value / avg_price in
      if negb (Qeq_bool position_equivalent 0) then
        delta_exposure / position_equivalent
      else 0
    else 0 in
  (0 < raw -> 0 < delta_exposure) /\ (raw < 0 -> delta_exposure < 0)
  /\ (delta_exposure == 0 -> raw == 0)
  /\ (portfolio_value <= 0 -> raw = 0)
  /\ (0 < portfolio_value ->
      raw == delta_exposure * avg_price / portfolio_value).
Proof.
  intros Havg raw. subst raw.
  destruct (Qlt_bool 0 portfolio_value) eqn:Ev; bool_to_prop; cbn [andb].
  2:{ repeat split; intros; try lra; try reflexivity. }
  assert (Ea : Qlt_bool 0 avg_price = true) by (apply Qlt_bool_iff; exact Havg).
  rewrite Ea. cbv zeta.
  assert (Hpe : 0 < portfolio_value / avg_price)
    by (apply Qlt_shift_div_l; lra).
  assert (Hne : ~ portfolio_value / avg_price == 0) by lra.
  rewrite (Qeq_bool_false _ _ Hne). cbn [negb].
  set (pe := portfolio_value / avg_price) in *.
  assert (Hd : delta_exposure == (delta_exposure / pe) * pe)
    by (field; exact Hne).
  repeat split.
  - intros Hq. rewrite Hd. apply Qmult_lt_0_compat; assumption.
  - intros Hq.
    assert (0 < (- (delta_exposure / pe)) * pe)
      by (apply Qmult_lt_0_compat; lra).
    assert (Hm : (- (delta_exposure / pe)) * pe == - delta_exposure)
      by (rewrite Hd at 2; ring).
    lra.
  - intros Hz. rewrite Hz. unfold Qdiv. ring.
  - intros Hle. lra.
  - intros _. subst pe. field. split; lra.
Qed.

Lemma delta_gauge_spec (delta_exposure portfolio_value : Q)
    (positions : list position) (current_prices : gmap price_key Q) :
  let g := calculate_delta_gauge delta_exposure portfolio_value positions
             current_prices in
  let dn := dg_delta_normalized g in
  - (1) <= dn <= 1
  /\ 0 <= directional_exposure_pct g
  /\ delta_raw g = delta_exposure /\ dg_portfolio_value g = portfolio_value
  /\ (dg_status g = "neutral"%string <-> Qabs dn <= 5 # 100)
  /\ (dg_status g = "slight_long"%string <-> 5 # 100 < dn /\ dn <= 2 # 10)
  /\ (dg_status g = "slight_short"%string
      <-> - (2 # 10) <= dn /\ dn < - (5 # 100))
  /\ (dg_status g = "high_long"%string <-> 2 # 10 < dn)
  /\ (dg_status g = "high_short"%string <-> dn < - (2 # 10))
  /\ (0 < dn -> 0 < delta_exposure)
  /\ (dn < 0 -> delta_exposure < 0)
  /\ (delta_exposure == 0 -> dn == 0)
  /\ (portfolio_value <= 0 ->
      dn == 0 /\ dg_status g = "neutral"%string
      /\ directional_exposure_pct g = 0).
Proof.
  intros g dn. subst dn g. unfold calculate_delta_gauge.
  set (prices := List.filter (fun p => Qlt_bool 0 p)
                   (map snd (map_to_list current_prices))).
  assert (Havg : 0 < get_default (mean prices) 1).
  { apply mean_positive. apply List.Forall_forall. intros p Hp.
    subst prices. apply filter_In in Hp. destruct Hp as [_ Hp].
    apply Qlt_bool_iff in Hp. exact Hp. }
  set (avg := get_default (mean prices) 1) in *.
  destruct (gauge_raw_sign delta_exposure portfolio_value avg Havg)
    as [R1 [R2 [R3 [R4 _]]]].
  set (raw := if Qlt_bool 0 portfolio_value && Qlt_bool 0 avg then _ else 0)
    in *.
  destruct (clamp_spec raw) as [C1 [C2 [C3 [C4 C5]]]].
  set (dn := pymax (- (1)) (pymin 1 raw)) in *.
  cbn [dg_delta_normalized directional_exposure_pct delta_raw
       dg_portfolio_value dg_status].
  assert (Habs : (Qabs dn <= 5 # 100 <-> - (5 # 100) <= dn <= 5 # 100)
                 /\ (Qabs dn <= 2 # 10 <-> - (2 # 10) <= dn <= 2 # 10)).
  { split; apply Qabs_Qle_condition. }
  destruct Habs as [Hab1 Hab2].
  assert (Hdir : 0 <= (if Qlt_bool 0 portfolio_value
                       then Qabs delta_exposure / portfolio_value * 100
                       else 0)).
  { destruct (Qlt_bool 0 portfolio_value) eqn:Ev; bool_to_prop; [|lra].
    apply Qmult_le_0_compat; [|lra].
    apply Qle_shift_div_l; [exact Ev|]. pose proof (Qabs_nonneg delta_exposure).
    lra. }
  split; [exact C1|]. split; [exact Hdir|]. split; [reflexivity|].
  split; [reflexivity|].
  destruct (Qle_bool (Qabs dn) (5 # 100)) eqn:E1.
  - apply Qle_bool_iff in E1. pose proof (proj1 Hab1 E1) as E1'.
    repeat split; intros; try discriminate; try lra; try assumption;
      try (match goal with H : _ /\ _ |- _ => destruct H end; lra);
      try (apply C5, R3; assumption || (rewrite R4 by assumption; reflexivity)).
    + rewrite R4 in C2 by assumption. apply C2. lra.
    + destruct (Qlt_bool 0 portfolio_value) eqn:Ev; bool_to_prop;
        [lra | reflexivity].
  - apply Qle_bool_false_iff in E1.
    assert (E1' : ~ (- (5 # 100) <= dn <= 5 # 100))
      by (intros H; apply Hab1 in H; lra).
    assert (Hpv : portfolio_value <= 0 -> False).
    { intros Hle. rewrite R4 in C2 by exact Hle.
      assert (dn == 0) by (apply C2; lra). apply E1'. lra. }
    destruct (Qle_bool (Qabs dn) (2 # 10)) eqn:E2.
    + apply Qle_bool_iff in E2. pose proof (proj1 Hab2 E2) as E2'.
      destruct (Qlt_bool 0 dn) eqn:E3; bool_to_prop;
        repeat split; intros; try discriminate; try lra; try assumption;
        try (match goal with H : _ /\ _ |- _ => destruct H end; lra);
        try (exfalso; apply Hpv; assumption);
        try (apply C5, R3; assumption).
    + apply Qle_bool_false_iff in E2.
      assert (E2' : ~ (- (2 # 10) <= dn <= 2 # 10))
        by (intros H; apply Hab2 in H; lra).
      destruct (Qlt_bool 0 dn) eqn:E3; bool_to_prop;
        repeat split; intros; try discriminate; try lra; try assumption;
        try (match goal with H : _ /\ _ |- _ => destruct H end; lra);
        try (exfalso; apply Hpv; assumption);
        try (apply C5, R3; assumption).
Qed.

(** X19. The delta gauge always reports a normalized delta between -1 and
    1 and a directional exposure that is not negative; its status is
    neutral within 5%, slight up to 20% and high beyond, long or short by
    the sign of the normalized delta, which is the sign of the delta
    exposure; a portfolio value that is not positive gives a neutral gauge
    with normalized delta and directional exposure 0. *)
Theorem delta_gauge_bounded_and_signed (delta_exposure portfolio_value : Q)
    (positions : list position) (current_prices : gmap price_key Q) :
  let g := calculate_delta_gauge delta_exposure portfolio_value positions
             current_prices in
  let dn := dg_delta_normalized g in
  - (1) <= dn <= 1
  /\ 0 <= directional_exposure_pct g
  /\ delta_raw g = delta_exposure /\ dg_portfolio_value g = portfolio_value
  /\ (dg_status g = "neutral"%string <-> Qabs dn <= 5 # 100)
  /\ (dg_status g = "slight_long"%string <-> 5 # 100 < dn /\ dn <= 2 # 10)
  /\ (dg_status g = "slight_short"%string
      <-> - (2 # 10) <= dn /\ dn < - (5 # 100))
  /\ (dg_status g = "high_long"%string <-> 2 # 10 < dn)
  /\ (dg_status g = "high_short"%string <-> dn < - (2 # 10))
  /\ (0 < dn -> 0 < delta_exposure)
  /\ (dn < 0 -> delta_exposure < 0)
  /\ (delta_exposure == 0 -> dn == 0)
  /\ (portfolio_value <= 0 ->
      dn == 0 /\ dg_status g = "neutral"%string
      /\ directional_exposure_pct g = 0).
Proof.
  exact (delta_gauge_spec delta_exposure portfolio_value positions
           current_prices).
Qed.

(** ** More on the alert dashboard *)

Lemma round_half_even_mono (x y : Q) :
  x <= y -> (round_half_even x <= round_half_even y)%Z.
Proof.
  intros Hxy. unfold round_half_even.
  pose proof (Qfloor_resp_le x y Hxy) as Hfl.
  pose proof (Qfloor_le x) as Hx1. pose proof (Qlt_floor x) as Hx2.
  pose proof (Qfloor_le y) as Hy1. pose proof (Qlt_floor y) as Hy2.
  remember (Qfloor x) as n eqn:En. remember (Qfloor y) as m eqn:Em.
  clear En Em.
  assert (Hcase : n = m \/ (n + 1 <= m)%Z) by lia.
  destruct Hcase as [<-|Hs].
  - destruct (Qcompare (x - inject_Z n) (1 # 2)) eqn:Ex;
      destruct (Qcompare (y - inject_Z n) (1 # 2)) eqn:Ey;
      first [apply Qeq_alt in Ex | apply Qlt_alt in Ex | apply Qgt_alt in Ex];
      first [apply Qeq_alt in Ey | apply Qlt_alt in Ey | apply Qgt_alt in Ey];
      destruct (Z.even n); try lia; exfalso; lra.
  - destruct (Qcompare (x - inject_Z n) (1 # 2));
      destruct (Qcompare (y - inject_Z m) (1 # 2));
      destruct (Z.even n); destruct (Z.even m); lia.
Qed.

Lemma round1_mono (x y : Q) : x <= y -> round1 x <= round1 y.
Proof.
  intros Hxy. unfold round1.
  assert (H : (round_half_even (x * 10) <= round_half_even (y * 10))%Z)
    by (apply round_half_even_mono; lra).
  rewrite Zle_Qle in H. qconst_inv. lra.
Qed.

Lemma pymax_zero_mono (x y : Q) : x <= y -> pymax 0 x <= pymax 0 y.
Proof.
  intros H. unfold pymax.
  destruct (Qlt_bool 0 x) eqn:E1; destruct (Qlt_bool 0 y) eqn:E2;
    bool_to_prop; lra.
Qed.

Ltac score_mono :=
  cbn [score]; apply round1_mono;
  first
    [ lra
    | apply pymax_zero_mono; qconst_inv; lra
    | match goal with
      | |- pymax 0 ?a <= _ =>
          let H := fresh in
          assert (H : a <= 25) by (qconst_inv; lra);
          destruct (pymax_zero_bounds a H); lra
      | |- _ <= pymax 0 ?a =>
          unfold pymax; destruct (Qlt_bool 0 a) eqn:?; bool_to_prop; lra
      end
    | qconst_inv; lra ].

Lemma volatility_score_antitone (m1 m2 : risk_metrics) :
  get_default (portfolio_volatility_annual m1) 0
  <= get_default (portfolio_volatility_annual m2) 0 ->
  score (volatility_component m2) <= score (volatility_component m1).
Proof.
  unfold volatility_component.
  set (v1 := get_default (portfolio_volatility_annual m1) 0).
  set (v2 := get_default (portfolio_volatility_annual m2) 0).
  intros H.
  destruct (Qle_bool v1 (3 # 10)) eqn:A1; destruct (Qle_bool v2 (3 # 10)) eqn:B1;
    destruct (Qle_bool v1 1) eqn:A2; destruct (Qle_bool v2 1) eqn:B2;
    bool_to_prop; try (exfalso; lra); score_mono.
Qed.

Lemma leverage_score_antitone (ps1 ps2 : list position) :
  max_leverage ps1 <= max_leverage ps2 ->
  score (leverage_component ps2) <= score (leverage_component ps1).
Proof.
  unfold leverage_component.
  set (v1 := max_leverage ps1). set (v2 := max_leverage ps2). intros H.
  destruct (Qle_bool v1 2) eqn:A1; destruct (Qle_bool v2 2) eqn:B1;
    destruct (Qle_bool v1 20) eqn:A2; destruct (Qle_bool v2 20) eqn:B2;
    bool_to_prop; try (exfalso; lra); score_mono.
Qed.

Lemma delta_score_antitone (d1 v1 d2 v2 : Q) :
  delta_normalized d1 v1 <= delta_normalized d2 v2 ->
  score (delta_neutral_component d2 v2) <= score (delta_neutral_component d1 v1).
Proof.
  unfold delta_neutral_component.
  set (x1 := delta_normalized d1 v1). set (x2 := delta_normalized d2 v2).
  intros H.
  destruct (Qle_bool x1 (5 # 100)) eqn:A1; destruct (Qle_bool x2 (5 # 100)) eqn:B1;
    destruct (Qle_bool x1 (5 # 10)) eqn:A2; destruct (Qle_bool x2 (5 # 10)) eqn:B2;
    bool_to_prop; try (exfalso; lra); score_mono.
Qed.

Lemma sharpe_score_monotone (m1 m2 : risk_metrics) (d v : Q) :
  get_default (sharpe_ratio m1) 0 <= get_default (sharpe_ratio m2) 0 ->
  score (sharpe_component m1 d v) <= score (sharpe_component m2 d v).
Proof.
  unfold sharpe_component.
  set (s1 := get_default (sharpe_ratio m1) 0).
  set (s2 := get_default (sharpe_ratio m2) 0). intros H.
  destruct (Qlt_bool (delta_normalized d v) (5 # 100)); [cbn [score]; lra|].
  destruct (Qle_bool 1 s1) eqn:A1; destruct (Qle_bool 1 s2) eqn:B1;
    destruct (Qle_bool (5 # 10) s1) eqn:A2;
    destruct (Qle_bool (5 # 10) s2) eqn:B2;
    destruct (Qle_bool 0 s1) eqn:A3; destruct (Qle_bool 0 s2) eqn:B3;
    destruct (Qle_bool (- (5 # 10)) s1) eqn:A4;
    destruct (Qle_bool (- (5 # 10)) s2) eqn:B4;
    bool_to_prop; try (exfalso; lra); score_mono.
Qed.

Lemma fold_pymax_leverage (ps : list position) (x : Q) :
  let m := fold_left (fun m p => pymax m (get_default (leverage p) 1)) ps x in
  x <= m
  /\ (forall p, In p ps -> get_default (leverage p) 1 <= m)
  /\ (m = x \/ exists p, In p ps /\ m = get_default (leverage p) 1).
Proof.
  revert x. induction ps as [|q ps IH]; intros x; cbn [fold_left].
  - split; [lra|]. split; [intros p []|left; reflexivity].
  - destruct (IH (pymax x (get_default (leverage q) 1))) as [H1 [H2 H3]].
    destruct (pymax_spec x (get_default (leverage q) 1)) as [P1 [P2 P3]].
    cbv zeta. split; [lra|]. split.
    + intros p [<-|Hp]; [lra | apply H2; exact Hp].
    + destruct H3 as [H3|[p [Hp H3]]].
      * rewrite H3. destruct P3 as [->| ->]; [left; reflexivity|].
        right. exists q. split; [left|]; reflexivity.
      * right. exists p. split; [right; exact Hp | exact H3].
Qed.

Lemma max_leverage_spec (positions : list position) :
  (forall p, In p positions ->
     get_default (leverage p) 1 <= max_leverage positions)
  /\ (positions = [] -> max_leverage positions = 1)
  /\ (positions <> [] ->
      exists p, In p positions
                /\ max_leverage positions = get_default (leverage p) 1).
Proof.
  destruct positions as [|q ps]; cbn [max_leverage].
  - split; [intros p []|]. split; [reflexivity | intros H; contradiction].
  - destruct (fold_pymax_leverage ps (get_default (leverage q) 1))
      as [H1 [H2 H3]]. cbv zeta in *.
    split; [intros p [<-|Hp]; [exact H1 | apply H2; exact Hp]|].
    split; [discriminate|]. intros _.
    destruct H3 as [H3|[p [Hp H3]]].
    + exists q. split; [left; reflexivity | exact H3].
    + exists p. split; [right; exact Hp | exact H3].
Qed.

Lemma max_leverage_snoc (ps : list position) (p : position) :
  ps <> [] ->
  max_leverage (ps ++ [p])
  = pymax (max_leverage ps) (get_default (leverage p) 1).
Proof.
  destruct ps as [|q ps]; [contradiction|]. intros _.
  cbn [app max_leverage]. rewrite fold_left_app. reflexivity.
Qed.

(** X20. More risk never scores better: the volatility score does not rise
    with the volatility, the delta score does not rise with the normalized
    delta, the leverage score does not rise with the highest leverage, and
    for a portfolio that is not market neutral the Sharpe score does not
    fall when the Sharpe ratio rises. *)
Theorem health_scores_are_monotone :
  (forall m1 m2,
     get_default (portfolio_volatility_annual m1) 0
     <= get_default (portfolio_volatility_annual m2) 0 ->
     score (volatility_component m2) <= score (volatility_component m1))
  /\ (forall d1 v1 d2 v2,
        delta_normalized d1 v1 <= delta_normalized d2 v2 ->
        score (delta_neutral_component d2 v2)
        <= score (delta_neutral_component d1 v1))
  /\ (forall ps1 ps2,
        max_leverage ps1 <= max_leverage ps2 ->
        score (leverage_component ps2) <= score (leverage_component ps1))
  /\ (forall m1 m2 d v,
        get_default (sharpe_ratio m1) 0 <= get_default (sharpe_ratio m2) 0 ->
        score (sharpe_component m1 d v) <= score (sharpe_component m2 d v)).
Proof.
  split; [exact volatility_score_antitone|].
  split; [exact delta_score_antitone|].
  split; [exact leverage_score_antitone | exact sharpe_score_monotone].
Qed.

(** X21. The leverage score is decided by the highest leverage in the
    portfolio, a position without a leverage entry counting as 1: the
    maximum bounds every position's leverage and is the leverage of one of
    them, or 1 for an empty portfolio; a highest leverage of at most 2
    scores the full 25 and one above 20 scores 0; adding a position never
    raises the score. *)
Theorem leverage_score_follows_highest_leverage (positions : list position) :
  (forall p, In p positions ->
     get_default (leverage p) 1 <= max_leverage positions)
  /\ (positions = [] -> max_leverage positions = 1)
  /\ (positions <> [] ->
      exists p, In p positions
                /\ max_leverage positions = get_default (leverage p) 1)
  /\ (max_leverage positions <= 2 ->
      score (leverage_component positions) == 25
      /\ status (leverage_component positions) = "excellent"%string)
  /\ (20 < max_leverage positions ->
      score (leverage_component positions) == 0
      /\ status (leverage_component positions) = "poor"%string)
  /\ (forall p, score (leverage_component (positions ++ [p]))
                <= score (leverage_component positions)).
Proof.
  destruct (max_leverage_spec positions) as [H1 [H2 H3]].
  split; [exact H1|]. split; [exact H2|]. split; [exact H3|].
  split; [|split].
  - intros Hle. unfold leverage_component.
    apply Qle_bool_iff in Hle. rewrite Hle. cbn [score status].
    split; [vm_compute; reflexivity | reflexivity].
  - intros Hgt. unfold leverage_component.
    assert (E1 : Qle_bool (max_leverage positions) 2 = false)
      by (apply Qle_bool_false_iff; lra).
    assert (E2 : Qle_bool (max_leverage positions) 20 = false)
      by (apply Qle_bool_false_iff; lra).
    rewrite E1, E2. cbn [score status].
    split; [vm_compute; reflexivity | reflexivity].
  - intros p. destruct positions as [|q ps].
    + pose proof (leverage_component_bounds ([] ++ [p])) as Hb.
      assert (Hfull : score (leverage_component []) == 25)
        by (vm_compute; reflexivity).
      rewrite Hfull. apply Hb.
    + apply leverage_score_antitone.
      rewrite max_leverage_snoc by discriminate.
      apply pymax_spec.
Qed.

(** X22. The rebalancing signal of the dashboard agrees with its delta
    component: rebalancing is needed exactly when the normalized delta
    exceeds 5%, which is exactly when the urgency is not none and exactly
    when the delta component is not excellent; the urgency is high
    exactly above 15%; the normalized delta reported is not negative, and a
    portfolio value that is not positive never asks for rebalancing. *)
Theorem rebalancing_signal_consistent (risk_metrics : risk_metrics)
    (current_value : Q) (positions : list position)
    (current_prices : gmap price_key Q) (delta_exposure : Q) (d : dashboard) :
  calculate_alert_dashboard risk_metrics current_value positions
    current_prices delta_exposure = Ok d ->
  let s := db_rebalancing_signal d in
  current_delta s = delta_exposure
  /\ rs_delta_normalized s = delta_normalized delta_exposure current_value
  /\ 0 <= rs_delta_normalized s
  /\ (needed s = true <-> 5 # 100 < rs_delta_normalized s)
  /\ (needed s = true <-> urgency s <> "none"%string)
  /\ (needed s = false
      <-> status (hc_delta_neutral (db_health_components d))
          = "excellent"%string)
  /\ (urgency s = "high"%string <-> 15 # 100 < rs_delta_normalized s)
  /\ (urgency s = "medium"%string
      <-> 5 # 100 < rs_delta_normalized s /\ rs_delta_normalized s <= 15 # 100)
  /\ (current_value <= 0 -> needed s = false /\ urgency s = "none"%string).
Proof.
  intros Hd s. subst s. unfold calculate_alert_dashboard in Hd.
  destruct (liquidation_loop positions current_prices) as [risks|];
    cbn [bind] in Hd; [|discriminate].
  injection Hd as <-.
  cbn [db_rebalancing_signal db_health_components current_delta
       rs_delta_normalized needed urgency hc_delta_neutral
       calculate_health_components].
  assert (Hnn : 0 <= delta_normalized delta_exposure current_value).
  { unfold delta_normalized.
    destruct (Qlt_bool 0 current_value) eqn:Ev; bool_to_prop; [|lra].
    apply Qle_shift_div_l; [exact Ev|].
    pose proof (Qabs_nonneg delta_exposure). lra. }
  assert (Hzero : current_value <= 0 ->
                  delta_normalized delta_exposure current_value = 0).
  { intros Hle. unfold delta_normalized.
    destruct (Qlt_bool 0 current_value) eqn:Ev; bool_to_prop;
      [lra | reflexivity]. }
  unfold delta_neutral_component.
  set (dn := delta_normalized delta_exposure current_value) in *.
  assert (Hlin : forall x, linear_status x <> "excellent"%string).
  { intros x. unfold linear_status.
    repeat (destruct (Qle_bool _ x)); discriminate. }
  split; [reflexivity|]. split; [reflexivity|]. split; [exact Hnn|].
  destruct (Qlt_bool (5 # 100) dn) eqn:E1;
    destruct (Qlt_bool (15 # 100) dn) eqn:E2;
    destruct (Qle_bool dn (5 # 100)) eqn:E3;
    destruct (Qle_bool dn (5 # 10)) eqn:E4;
    bool_to_prop; try (exfalso; lra); cbn [status];
    repeat split; intros; try discriminate; try reflexivity; try lra;
    try congruence;
    try (match goal with H : _ /\ _ |- _ => destruct H end; lra);
    try (exfalso; eapply Hlin; eassumption);
    try (rewrite Hzero in * by assumption; lra).
Qed.

Lemma rebalancing_signal_consistent_witness :
  exists d,
    calculate_alert_dashboard metrics_ex 100000 [btc_spot; eth_long_safe]
      snapshot_ex 11 = Ok d
    /\ needed (db_rebalancing_signal d) = false.
Proof.
  eexists. split; [reflexivity|].
  destruct (rebalancing_signal_consistent metrics_ex 100000
              [btc_spot; eth_long_safe] snapshot_ex 11 _ eq_refl)
    as [_ [_ [_ [_ [_ [Hn _]]]]]].
  apply Hn. reflexivity.
Defined.

Lemma liquidation_loop_assessable (prices : gmap price_key Q)
    (positions : list position) (risks : list liquidation_entry) :
  liquidation_loop positions prices = Ok risks ->
  Forall (assessable prices) positions.
Proof.
  revert risks. induction positions as [|pos rest IH]; intros risks H;
    [constructor|].
  cbn [liquidation_loop] in H.
  destruct (position_type pos) as [t|] eqn:Et; cbn [getitem bind] in H;
    [|discriminate].
  destruct (is_leveraged_future t pos) eqn:El.
  - destruct (asset pos) as [a|] eqn:Ea; cbn [getitem bind] in H;
      [|discriminate].
    fold (assessment_price prices a t pos) in H.
    destruct (Qeq_bool (assessment_price prices a t pos) 0) eqn:Ez;
      [discriminate|].
    destruct (liquidation_loop rest prices) as [rs|] eqn:Er;
      cbn [bind] in H; [|discriminate].
    constructor; [|eapply IH; reflexivity].
    exists t. split; [exact Et|]. intros _. exists a. split; [exact Ea|].
    intros Hz. apply Qeq_bool_iff in Hz. congruence.
  - constructor; [|eapply IH; exact H].
    exists t. split; [exact Et|]. intros Hl. congruence.
Qed.

Lemma liquidation_loop_errors (prices : gmap price_key Q)
    (positions : list position) (e : exn) :
  liquidation_loop positions prices = Raise e ->
  e = KeyError "position_type" \/ e = KeyError "asset"
  \/ e = ZeroDivisionError.
Proof.
  induction positions as [|pos rest IH]; cbn [liquidation_loop];
    [discriminate|].
  destruct (position_type pos) as [t|]; cbn [getitem bind];
    [|intros [= <-]; auto].
  destruct (is_leveraged_future t pos); [|exact IH].
  destruct (asset pos) as [a|]; cbn [getitem bind]; [|intros [= <-]; auto].
  destruct (Qeq_bool _ 0); [intros [= <-]; auto|].
  destruct (liquidation_loop rest prices); cbn [bind]; [discriminate|].
  intros [= <-]. apply IH. reflexivity.
Qed.

(** X23. The dashboard is returned exactly when the liquidation loop can go
    through every position: each position has a position_type, and each
    futures position with leverage above 1 has an asset and a current price
    (the snapshot's, or else its entry price) that is not 0.  Otherwise it
    raises KeyError for the missing key or ZeroDivisionError for the price
    0, and nothing else.  Positions that passed validation can only fail on
    a price of 0. *)
Theorem dashboard_fails_exactly_when (risk_metrics : risk_metrics)
    (current_value : Q) (positions : list position)
    (current_prices : gmap price_key Q) (delta_exposure : Q) :
  ((exists d, calculate_alert_dashboard risk_metrics current_value positions
                current_prices delta_exposure = Ok d)
   <-> Forall (assessable current_prices) positions)
  /\ (forall e, calculate_alert_dashboard risk_metrics current_value positions
                  current_prices delta_exposure = Raise e ->
        e = KeyError "position_type" \/ e = KeyError "asset"
        \/ e = ZeroDivisionError)
  /\ (Forall (fun pos => is_Some (position_type pos)
                         /\ leveraged_future pos = false) positions ->
      exists d, calculate_alert_dashboard risk_metrics current_value positions
                  current_prices delta_exposure = Ok d
                /\ liquidation_positions d = []
                /\ overall_risk d = "low"%string)
  /\ (_validate_positions positions = Ok tt ->
      (forall k p, current_prices !! k = Some p -> ~ p == 0) ->
      exists d, calculate_alert_dashboard risk_metrics current_value positions
                  current_prices delta_exposure = Ok d).
Proof.
  assert (Hok : Forall (assessable current_prices) positions ->
                exists d, calculate_alert_dashboard risk_metrics current_value
                            positions current_prices delta_exposure = Ok d).
  { intros Hall.
    destruct (liquidation_loop_spec current_prices positions Hall)
      as [risks [Hr _]].
    unfold calculate_alert_dashboard. rewrite Hr. cbn [bind].
    eexists; reflexivity. }
  split; [|split; [|split]].
  - split; [|exact Hok].
    intros [d Hd]. unfold calculate_alert_dashboard in Hd.
    destruct (liquidation_loop positions current_prices) as [risks|] eqn:E;
      cbn [bind] in Hd; [|discriminate].
    eapply liquidation_loop_assessable. exact E.
  - intros e He. unfold calculate_alert_dashboard in He.
    destruct (liquidation_loop positions current_prices) as [risks|] eqn:E;
      cbn [bind] in He; [discriminate|].
    injection He as <-. eapply liquidation_loop_errors. exact E.
  - intros Hall.
    assert (Hloop : liquidation_loop positions current_prices = Ok []).
    { clear Hok. induction Hall as [|pos rest [[t Ht] Hl] _ IH]; [reflexivity|].
      cbn [liquidation_loop]. rewrite Ht. cbn [getitem bind].
      unfold leveraged_future in Hl. rewrite Ht in Hl. rewrite Hl. exact IH. }
    unfold calculate_alert_dashboard. rewrite Hloop. cbn [bind].
    eexists. split; [reflexivity|]. split; reflexivity.
  - intros Hv Hp. apply Hok.
    destruct (validate_positions_spec positions)
      as [[_ Hn]|[err [Herr _]]]; [|congruence].
    apply List.Forall_forall. intros pos Hin.
    assert (Hpos : ~ invalid_position pos).
    { intros Hbad. apply Hn. right; right. apply List.Exists_exists.
      exists pos. split; assumption. }
    unfold invalid_position in Hpos.
    destruct (position_type pos) as [t|] eqn:Et; [|tauto].
    destruct (asset pos) as [a|] eqn:Ea; [|tauto].
    destruct (entry_price pos) as [e|] eqn:Ee; [|tauto].
    exists t. split; [exact Et|]. intros _. exists a.
    split; [exact Ea|]. unfold assessment_price. rewrite Ee. cbn [get_default].
    destruct (current_prices !! (inl (a, t) : price_key)) as [p|] eqn:El;
      cbn [get_default]; [eapply Hp; exact El|].
    intros Hz. apply Hpos. do 6 right; left. exists e. split; [reflexivity|].
    lra.
Qed.

Lemma leverage_fraction_bounds (l : Q) :
  1 < l -> 0 < (9 # 10) / l /\ (9 # 10) / l < 9 # 10.
Proof.
  intros Hl. split.
  - apply Qlt_shift_div_l; lra.
  - apply Qlt_shift_div_r; lra.
Qed.

Lemma signed_distance_crossed (num c : Q) :
  0 < c -> num <= 0 -> num / c * 100 <= 25.
Proof.
  intros Hc Hn.
  assert (num / c <= 0) by (apply Qle_shift_div_r; lra).
  lra.
Qed.

(** X24. Every entry of the liquidation list belongs to a futures position
    with leverage above 1 and reports a price distance that is not
    negative.  For a positive entry price the liquidation price of a long
    lies between a tenth of the entry price and the entry price, that of a
    short between the entry price and 1.9 times the entry price.  A long
    whose positive current price is at or below its liquidation price, and a
    short whose current price is at or above it, is rated high. *)
Theorem liquidation_price_brackets_entry (risk_metrics : risk_metrics)
    (current_value : Q) (positions : list position)
    (current_prices : gmap price_key Q) (delta_exposure : Q) (d : dashboard) :
  calculate_alert_dashboard risk_metrics current_value positions
    current_prices delta_exposure = Ok d ->
  Forall2
    (fun pos r =>
       let l := get_default (leverage pos) 1 in
       let e := get_default (entry_price pos) 0 in
       asset pos = Some (liq_asset r)
       /\ position_type pos = Some (liq_position_type r)
       /\ (liq_position_type r = "futures_long"%string
           \/ liq_position_type r = "futures_short"%string)
       /\ 1 < l
       /\ 0 <= price_distance_pct r
       /\ (0 < e -> liq_position_type r = "futures_long"%string ->
           (1 # 10) * e < liquidation_price r /\ liquidation_price r < e)
       /\ (0 < e -> liq_position_type r = "futures_short"%string ->
           e < liquidation_price r /\ liquidation_price r < (19 # 10) * e)
       /\ (0 < liq_current_price r ->
           liq_position_type r = "futures_long"%string ->
           liq_current_price r <= liquidation_price r ->
           risk_level r = "high"%string)
       /\ (0 < liq_current_price r ->
           liq_position_type r = "futures_short"%string ->
           liquidation_price r <= liq_current_price r ->
           risk_level r = "high"%string))
    (List.filter leveraged_future positions) (liquidation_positions d).
Proof.
  intros Hd. unfold calculate_alert_dashboard in Hd.
  destruct (liquidation_loop positions current_prices) as [risks|] eqn:E;
    cbn [bind] in Hd; [|discriminate].
  injection Hd as <-. cbn [liquidation_positions].
  destruct (liquidation_loop_spec current_prices positions
              (liquidation_loop_assessable _ _ _ E)) as [risks' [Hr HF]].
  assert (risks' = risks) by congruence. subst risks'.
  eapply Forall2_impl; [exact HF|].
  intros pos r [a [t [Ha [Ht [Hla [Hlt H]]]]]]. cbv zeta in H.
  destruct H as [Hl [Hc [Hkind [Hlong [Hshort [Hpct [_ [_ Hhigh]]]]]]]].
  subst a t. cbv zeta.
  destruct (leverage_fraction_bounds _ Hl) as [Hx0 Hx1].
  set (l := get_default (leverage pos) 1) in *.
  set (e := get_default (entry_price pos) 0) in *.
  set (x := (9 # 10) / l) in *.
  split; [exact Ha|]. split; [exact Ht|]. split; [exact Hkind|].
  split; [exact Hl|]. split; [rewrite Hpct; apply Qabs_nonneg|].
  split; [|split; [|split]].
  - intros He Hk. rewrite (Hlong Hk).
    assert (0 < e * x) by (apply Qmult_lt_0_compat; assumption).
    assert (e * x < e * (9 # 10)) by (apply Qmult_lt_l; assumption).
    assert (Hq : e * (1 - x) == e - e * x) by ring.
    rewrite Hq. split; lra.
  - intros He Hk. rewrite (Hshort Hk).
    assert (0 < e * x) by (apply Qmult_lt_0_compat; assumption).
    assert (e * x < e * (9 # 10)) by (apply Qmult_lt_l; assumption).
    assert (Hq : e * (1 + x) == e + e * x) by ring.
    rewrite Hq. split; lra.
  - intros Hpos Hk Hcross. apply Hhigh. rewrite <- Hc, Hk.
    cbn [String.eqb Ascii.eqb Bool.eqb]. apply signed_distance_crossed; [exact Hpos | lra].
  - intros Hpos Hk Hcross. apply Hhigh. rewrite <- Hc, Hk.
    cbn [String.eqb Ascii.eqb Bool.eqb]. apply signed_distance_crossed; [exact Hpos | lra].
Qed.

Lemma liquidation_price_brackets_entry_witness :
  exists d r,
    calculate_alert_dashboard metrics_ex 100000 [btc_spot; eth_long_safe]
      snapshot_ex 11 = Ok d
    /\ liquidation_positions d = [r]
    /\ liquidation_price r < 2500.
Proof.
  eexists. eexists. split; [reflexivity|]. split; [reflexivity|].
  pose proof (liquidation_price_brackets_entry metrics_ex 100000
                [btc_spot; eth_long_safe] snapshot_ex 11 _ eq_refl) as H.
  apply Forall2_cons_1 in H. destruct H as [H _].
  destruct H as [_ [_ [_ [_ [_ [Hlong _]]]]]].
  apply Hlong; reflexivity.
Defined.

(** ** Sanitizing values for JSON *)

Lemma json_nested_ind (P : json -> Prop) :
  P JNone -> (forall b, P (JBool b)) -> (forall n, P (JInt n)) ->
  (forall f, P (JFloat f)) -> (forall s, P (JStr s)) ->
  (forall items, Forall P items -> P (JList items)) ->
  (forall items, Forall (fun kv => P (snd kv)) items -> P (JDict items)) ->
  forall v, P v.
Proof.
  intros HN HB HI HF HS HL HD. fix IH 1. intros [| b | n | f | s | items | items].
  - exact HN.
  - apply HB.
  - apply HI.
  - apply HF.
  - apply HS.
  - apply HL. induction items as [|x items IHl]; constructor;
      [apply IH | exact IHl].
  - apply HD. induction items as [|x items IHl]; constructor;
      [apply IH | exact IHl].
Qed.

Lemma sanitize_item_compliant (v : json) : json_compliant (sanitize_item v) = true.
Proof.
  induction v as [| b | n | f | s | items IH | items IH] using json_nested_ind;
    try reflexivity.
  - destruct f; reflexivity.
  - cbn [sanitize_item json_compliant]. rewrite forallb_forall.
    intros x Hx. apply in_map_iff in Hx. destruct Hx as [y [<- Hy]].
    rewrite List.Forall_forall in IH. apply IH. exact Hy.
  - cbn [sanitize_item json_compliant]. rewrite forallb_forall.
    intros x Hx. apply in_map_iff in Hx. destruct Hx as [y [<- Hy]].
    cbn [snd]. rewrite List.Forall_forall in IH. apply (IH y Hy).
Qed.

Lemma sanitize_item_fixed (v : json) :
  json_compliant v = true -> sanitize_item v = v.
Proof.
  induction v as [| b | n | f | s | items IH | items IH] using json_nested_ind;
    try reflexivity.
  - destruct f; [reflexivity | discriminate..].
  - cbn [sanitize_item json_compliant]. intros Hc. f_equal.
    rewrite forallb_forall in Hc.
    induction IH as [|x items Hx _ IHl]; [reflexivity|].
    cbn [map]. rewrite Hx by (apply Hc; left; reflexivity). f_equal.
    apply IHl. intros y Hy. apply Hc. right. exact Hy.
  - cbn [sanitize_item json_compliant]. intros Hc. f_equal.
    rewrite forallb_forall in Hc.
    induction IH as [|x items Hx _ IHl]; [reflexivity|].
    cbn [map]. rewrite Hx by (apply (Hc x); left; reflexivity).
    destruct x; cbn [fst snd]. f_equal.
    apply IHl. intros y Hy. apply Hc. right. exact Hy.
Qed.

Lemma same_shape_sanitize_item (v : json) : same_shape v (sanitize_item v) = true.
Proof.
  induction v as [| b | n | f | s | items IH | items IH] using json_nested_ind.
  - reflexivity.
  - destruct b; reflexivity.
  - apply Z.eqb_refl.
  - destruct f; try reflexivity. simpl. apply Qeq_bool_refl.
  - apply String.eqb_refl.
  - cbn [sanitize_item same_shape].
    induction IH as [|x items Hx _ IHl]; [reflexivity|].
    cbn [map]. rewrite Hx. exact IHl.
  - cbn [sanitize_item same_shape].
    induction IH as [|x items Hx _ IHl]; [reflexivity|].
    cbn [map fst snd]. rewrite String.eqb_refl, Hx. exact IHl.
Qed.

(** X25. Sanitizing a dict or a list leaves a value JSON can carry: no
    float at any depth of the result is infinite or NaN.  The result has the
    shape of the input, with the same keys in the same order and the same
    entries, except that each infinite or NaN float has become None.
    Sanitizing twice is sanitizing once, and a value that was compliant
    comes back unchanged.  A value that is not a dict is returned by
    sanitize_dict as it is, and one that is not a list by sanitize_list. *)
Theorem sanitize_makes_json_compliant (data : json) :
  (forall items, data = JDict items ->
     json_compliant (sanitize_dict data) = true
     /\ same_shape data (sanitize_dict data) = true)
  /\ (forall items, data = JList items ->
        json_compliant (sanitize_list data) = true
        /\ same_shape data (sanitize_list data) = true)
  /\ sanitize_dict (sanitize_dict data) = sanitize_dict data
  /\ sanitize_list (sanitize_list data) = sanitize_list data
  /\ (json_compliant data = true ->
      sanitize_dict data = data /\ sanitize_list data = data)
  /\ ((forall items, data <> JDict items) -> sanitize_dict data = data)
  /\ ((forall items, data <> JList items) -> sanitize_list data = data).
Proof.
  assert (Hd : forall items, sanitize_dict (JDict items)
                             = sanitize_item (JDict items)) by reflexivity.
  assert (Hl : forall items, sanitize_list (JList items)
                             = sanitize_item (JList items)) by reflexivity.
  split; [|split; [|split; [|split; [|split; [|split]]]]].
  - intros items ->. rewrite Hd.
    split; [apply sanitize_item_compliant | apply same_shape_sanitize_item].
  - intros items ->. rewrite Hl.
    split; [apply sanitize_item_compliant | apply same_shape_sanitize_item].
  - destruct data; try reflexivity.
    rewrite Hd. change (sanitize_item (JDict items))
      with (JDict (map (fun kv => (fst kv, sanitize_item (snd kv))) items)).
    rewrite Hd. apply sanitize_item_fixed.
    apply (sanitize_item_compliant (JDict items)).
  - destruct data; try reflexivity.
    rewrite Hl. change (sanitize_item (JList items))
      with (JList (map sanitize_item items)).
    rewrite Hl. apply sanitize_item_fixed.
    apply (sanitize_item_compliant (JList items)).
  - intros Hc. split.
    + destruct data; try reflexivity. rewrite Hd.
      apply sanitize_item_fixed. exact Hc.
    + destruct data; try reflexivity. rewrite Hl.
      apply sanitize_item_fixed. exact Hc.
  - intros Hn. destruct data; try reflexivity. exfalso. eapply Hn. reflexivity.
  - intros Hn. destruct data; try reflexivity. exfalso. eapply Hn. reflexivity.
Qed.

(** ** Request models and validation *)

Lemma validate_model_dump (i : nat) (p : PositionInput) :
  validate_position i (model_dump p) = Ok tt
  <-> position_input_constraints p = true.
Proof.
  unfold validate_position, position_input_constraints, model_dump.
  cbn [asset quantity position_type entry_price leverage has_key negb
       getitem bind get_default].
  change (["spot"; "futures_long"; "futures_short"]%string)
    with valid_position_types.
  unfold Qlt_bool.
  destruct (string_in (pi_position_type p) valid_position_types);
    cbn [negb andb]; [|rewrite andb_false_r; split; discriminate].
  destruct (Qle_bool (pi_quantity p) 0); cbn [negb andb];
    [split; discriminate|].
  destruct (Qle_bool (pi_entry_price p) 0); cbn [negb andb];
    [split; discriminate|].
  destruct (Qle_bool (pi_leverage p) 0); cbn [negb andb orb];
    [split; discriminate|].
  destruct (Qle_bool (pi_leverage p) 125) eqn:E; cbn [negb].
  - split; reflexivity.
  - split; discriminate.
Qed.

Lemma validate_loop_model_dump (positions : list PositionInput) :
  forall i, validate_loop i (map model_dump positions) = Ok tt
            <-> forallb position_input_constraints positions = true.
Proof.
  induction positions as [|p rest IH]; intros i; cbn [map validate_loop forallb].
  - split; reflexivity.
  - rewrite andb_true_iff, <- (validate_model_dump i p), <- (IH (S i)).
    destruct (validate_position i (model_dump p)) as [[]|e]; cbn [bind].
    + split; [intros H; split; [reflexivity | exact H] | intros [_ H]; exact H].
    + split; [discriminate | intros [H _]; discriminate].
Qed.

Lemma validate_positions_nonempty (positions : list position) :
  positions <> [] ->
  _validate_positions positions
  = if (20 <? length positions)%nat then Raise (ValueError TooManyPositions)
    else validate_loop 0 positions.
Proof. destruct positions; [contradiction | reflexivity]. Qed.

(** X26. The request model and the validator of the orchestrator agree: a
    list of position inputs meets the constraints of the request model
    exactly when the dicts dumped from it pass the validation of the
    orchestrator, so a request the model accepted is never refused as an
    invalid portfolio. *)
Theorem request_model_agrees_with_validation
    (positions : list PositionInput) (lookback_days : Z) :
  (risk_profile_request_constraints positions lookback_days = true ->
   _validate_positions (map model_dump positions) = Ok tt)
  /\ (_validate_positions (map model_dump positions) = Ok tt ->
      (7 <= lookback_days <= 180)%Z ->
      risk_profile_request_constraints positions lookback_days = true)
  /\ (forall e, _validate_positions (map model_dump positions) = Raise e ->
        risk_profile_request_constraints positions lookback_days = false).
Proof.
  assert (Hiff : _validate_positions (map model_dump positions) = Ok tt
                 <-> ((1 <=? length positions)%nat
                      && (length positions <=? 20)%nat
                      && forallb position_input_constraints positions) = true).
  { rewrite !andb_true_iff.
    destruct positions as [|p rest].
    - cbn. split; [discriminate | intros [[H _] _]; discriminate].
    - rewrite validate_positions_nonempty by discriminate.
      assert (H1 : (1 <=? length (p :: rest))%nat = true) by reflexivity.
      rewrite H1, length_map. clear H1. set (ps := p :: rest).
      destruct (20 <? length ps)%nat eqn:El.
      + apply Nat.ltb_lt in El. split; [discriminate|].
        intros [[_ H] _]. apply Nat.leb_le in H. lia.
      + apply Nat.ltb_ge in El.
        rewrite (validate_loop_model_dump ps 0).
        split.
        * intros H. repeat split; [apply Nat.leb_le; exact El | exact H].
        * intros [_ H]. exact H. }
  unfold risk_profile_request_constraints. split; [|split].
  - intros H. apply andb_true_iff in H. destruct H as [H _].
    apply Hiff. exact H.
  - intros H [H7 H180]. apply Hiff in H. rewrite H. cbn [andb].
    apply andb_true_iff. split; apply Z.leb_le; assumption.
  - intros e He. apply not_true_is_false. intros H.
    apply andb_true_iff in H. destruct H as [H _]. apply Hiff in H.
    congruence.
Qed.

(** ** The run, end to end *)

Lemma In_unique (a : string) (names : list string) :
  In a (unique names) <-> In a names.
Proof.
  induction names as [|x rest IH]; cbn [unique]; [reflexivity|].
  cbn [In]. rewrite filter_In, IH. split.
  - intros [H|[H _]]; auto.
  - intros [H|H]; [left; exact H|].
    destruct (String.eqb_spec x a) as [E|E]; [left; exact E|].
    right. split; [exact H | reflexivity].
Qed.

Lemma In_omap_asset (pos : position) (a : string) (positions : list position) :
  In pos positions -> asset pos = Some a -> In a (omap asset positions).
Proof.
  intros Hin Ha. apply list_elem_of_In. apply list_elem_of_omap.
  exists pos. split; [apply list_elem_of_In; exact Hin | exact Ha].
Qed.

Lemma asset_names_omap (positions : list position) :
  Forall (fun pos => is_Some (asset pos)) positions ->
  asset_names positions = Ok (omap asset positions).
Proof.
  induction 1 as [|pos rest [a Ha] _ IH]; cbn [asset_names omap list_omap];
    [reflexivity|].
  rewrite Ha, IH. reflexivity.
Qed.

Lemma validated_positions (positions : list position) :
  _validate_positions positions = Ok tt ->
  positions <> [] /\ Forall (fun pos => ~ invalid_position pos) positions.
Proof.
  intros Hv.
  destruct (validate_positions_spec positions)
    as [[_ Hn]|[err [Herr _]]]; [|congruence].
  split.
  - intros He. apply Hn. left. exact He.
  - apply List.Forall_forall. intros pos Hin Hbad. apply Hn.
    right; right. apply List.Exists_exists. exists pos. split; assumption.
Qed.

Lemma complete_cells (cols : list string) (timeline : list Z)
    (aligned : data_frame) (c : string) :
  complete cols timeline aligned -> In c cols ->
  has_column c aligned = true
  /\ forall row, In row (rows aligned) -> is_Some (get_cell c row).
Proof.
  intros [_ [Hcols Hfull]] Hc. split.
  - unfold has_column. rewrite Hcols. apply string_in_In. right. exact Hc.
  - intros row Hrow. specialize (Hfull c Hc). unfold column in Hfull.
    rewrite List.Forall_forall in Hfull. apply Hfull. apply in_map. exact Hrow.
Qed.

Lemma extract_prices_loop_defined (aligned : data_frame) (row : aligned_row)
    (positions : list position) :
  Forall (fun pos =>
            exists a t, asset pos = Some a /\ position_type pos = Some t
              /\ has_column (price_column a t) aligned = true
              /\ is_Some (get_cell (price_column a t) row))
    positions ->
  forall acc, exists prices,
    extract_prices_loop aligned row positions acc = Ok prices.
Proof.
  induction 1 as [|pos rest [a [t [Ha [Ht [Hc [v Hv]]]]]] _ IH]; intros acc;
    cbn [extract_prices_loop]; [eexists; reflexivity|].
  rewrite Ha, Ht. cbn [getitem bind]. unfold price_column in Hc, Hv.
  unfold cell_value.
  destruct (String.eqb t "spot"); rewrite Hc, Hv; cbn [bind]; apply IH.
Qed.

Lemma portfolio_value_defined_at (aligned : data_frame) (row : aligned_row)
    (positions : list position) (prices : gmap price_key Q) :
  Forall (fun pos => ~ invalid_position pos) positions ->
  extract_prices_loop aligned row positions ∅ = Ok prices ->
  exists v, calculate_portfolio_value positions prices = Ok v.
Proof.
  intros Hvalid Hp.
  destruct (extract_prices_loop_spec aligned row positions ∅ prices Hp)
    as [_ [_ [_ Hall]]].
  { intros a t v Hl. rewrite lookup_empty in Hl. discriminate. }
  apply portfolio_value_loop_defined. apply List.Forall_forall.
  intros pos Hin. rewrite List.Forall_forall in Hvalid, Hall.
  destruct (valid_position_fields pos (Hvalid pos Hin))
    as [a [q [t [e [Ha [Hq [Ht [He [Hk [_ [_ Hl]]]]]]]]]]].
  destruct (Hall pos Hin) as [a' [t' [Ha' [Ht' [_ [v Hl']]]]]].
  assert (a' = a) by congruence. assert (t' = t) by congruence. subst a' t'.
  apply (position_value_defined pos prices a t q e v); try assumption.
  - unfold lookup_price. rewrite Hl'. reflexivity.
  - lra.
Qed.

Lemma portfolio_values_loop_defined (aligned : data_frame)
    (positions : list position) :
  positions <> [] ->
  Forall (fun pos => ~ invalid_position pos) positions ->
  forall rs,
    (forall row, In row rs ->
       Forall (fun pos =>
                 exists a t, asset pos = Some a /\ position_type pos = Some t
                   /\ has_column (price_column a t) aligned = true
                   /\ is_Some (get_cell (price_column a t) row))
         positions) ->
    exists values,
      portfolio_values_loop aligned rs positions = Ok values
      /\ length values = length rs.
Proof.
  intros Hne Hvalid. induction rs as [|row rest IH]; intros Hrows;
    cbn [portfolio_values_loop]; [exists []; split; reflexivity|].
  assert (Hcols : Forall (fun pos =>
            exists a t, asset pos = Some a /\ position_type pos = Some t
              /\ has_column (price_column a t) aligned = true) positions).
  { eapply List.Forall_impl; [|apply (Hrows row); left; reflexivity].
    intros pos [a [t [Ha [Ht [Hc _]]]]]. exists a, t. auto. }
  rewrite (row_prices_loop_extract aligned row positions Hcols).
  destruct (extract_prices_loop_defined aligned row positions
              (Hrows row (or_introl eq_refl)) ∅) as [pr E].
  rewrite E. cbn [bind].
  pose proof (extract_prices_nonempty aligned row positions pr Hne E) as Hpr.
  rewrite bool_decide_eq_false_2 by exact Hpr. cbn [negb].
  destruct (portfolio_value_defined_at aligned row positions pr Hvalid E)
    as [v Ev].
  rewrite Ev. cbn [bind].
  destruct IH as [vs [Hvs Hlen]].
  { intros r Hr. apply Hrows. right. exact Hr. }
  rewrite Hvs. cbn [bind]. exists (v :: vs).
  split; [reflexivity | simpl; rewrite Hlen; reflexivity].
Qed.

Lemma futures_frame_fetched (db : database) (a : string) :
  (exists m ms, get_mark_klines db a = Rows (m :: ms)) ->
  get_funding_rates db a <> FetchError ->
  exists df, process_futures_asset db a = inl df /\ df <> [].
Proof.
  intros [m [ms Hm]] Hf.
  assert (H : exists df, process_futures_asset db a = inl df).
  { unfold process_futures_asset. rewrite Hm.
    destruct (get_funding_rates db a); [eexists; reflexivity | contradiction]. }
  destruct H as [df Hdf]. exists df. split; [exact Hdf|].
  destruct (process_futures_asset_timestamps db a df Hdf)
    as [_ [marks [Hmk [_ Hts]]]].
  rewrite Hm in Hmk. injection Hmk as <-.
  intros ->. apply (proj2 (Hts (fst m))). left. reflexivity.
Qed.

(** The column a position is priced from is a column of the aligned table
    as soon as the store has data for the asset. *)
Lemma position_columns_present (db : database) (positions : list position)
    (lookback_days : Z) :
  (forall pos a t,
     In pos positions -> asset pos = Some a -> position_type pos = Some t ->
     if String.eqb t "spot"
     then exists c cs, get_ohlcv_data db a = Rows (c :: cs)
     else (exists m ms, get_mark_klines db a = Rows (m :: ms))
          /\ get_funding_rates db a <> FetchError) ->
  let data :=
    fetch_portfolio_data db (unique (omap asset positions)) lookback_days in
  let daily := resample_to_daily (pd_spot data) (pd_futures data) in
  forall pos a t,
    In pos positions -> asset pos = Some a -> position_type pos = Some t ->
    In (price_column a t)
      (spot_columns (fst daily) ++ futures_columns (snd daily)).
Proof.
  intros Hdata data daily pos a t Hin Ha Ht.
  specialize (Hdata pos a t Hin Ha Ht).
  assert (Hasset : In a (unique (omap asset positions))).
  { apply In_unique. eapply In_omap_asset; eassumption. }
  destruct (fetch_portfolio_data_spec db (unique (omap asset positions))
              lookback_days a) as [Hs [Hf _]].
  fold data in Hs, Hf. apply in_app_iff. unfold price_column.
  subst daily. unfold resample_to_daily. cbn [fst snd].
  destruct (String.eqb t "spot").
  - left. destruct Hdata as [c [cs Hc]].
    apply In_spot_columns. exists a. split; [|reflexivity].
    rewrite map_map. cbn [fst].
    apply (in_map fst _ (a, sort_values fst (c :: cs))).
    apply filter_In. split.
    + apply dict_get_In. apply Hs. split; [exact Hasset|].
      exists c, cs. split; [exact Hc | reflexivity].
    + cbn [snd].
      destruct (sort_values fst (c :: cs)) as [|x xs] eqn:E; [|reflexivity].
      exfalso.
      pose proof (proj2 (In_sort_values fst c (c :: cs)) (or_introl eq_refl))
        as Hin'.
      rewrite E in Hin'. exact Hin'.
  - right. destruct Hdata as [Hm Hfr].
    destruct (futures_frame_fetched db a Hm Hfr) as [df [Hdf Hne]].
    apply In_futures_columns. exists a. split; [|left; reflexivity].
    rewrite map_map. cbn [fst].
    apply (in_map fst _ (a, df)).
    apply filter_In. split.
    + apply dict_get_In. apply Hf. split; [exact Hasset | exact Hdf].
    + cbn [snd]. destruct df; [contradiction | reflexivity].
Qed.

Lemma date_range_nonempty (min_ts max_ts : Z) : date_range min_ts max_ts <> [].
Proof. unfold date_range. cbn [seq map]. discriminate. Qed.

Lemma delta_exposure_defined (positions : list position) :
  Forall (fun pos => ~ invalid_position pos) positions ->
  exists d, calculate_delta_exposure positions = Ok d.
Proof.
  intros Hvalid.
  destruct (delta_exposure_loop_spec positions) with (delta := 0)
    as [d [Hd _]].
  - eapply List.Forall_impl; [|exact Hvalid]. intros pos Hn.
    destruct (valid_position_fields pos Hn)
      as [a [q [t [e [Ha [Hq [Ht [He [Hk _]]]]]]]]].
    split; [exists q; exact Hq | exists t; split; assumption].
  - exists d. exact Hd.
Qed.

Lemma sensitivity_table_defined (positions : list position)
    (prices : gmap price_key Q) (v : Q) (shock_range : list Q) :
  calculate_portfolio_value positions prices = Ok v ->
  exists table,
    calculate_sensitivity_table positions prices shock_range = Ok table.
Proof.
  intros Hval.
  destruct (sensitivity_rows_spec positions prices v shock_range Hval)
    as [table [Ht _]].
  exists table. unfold calculate_sensitivity_table. rewrite Hval; simpl.
  exact Ht.
Qed.

Section RunEndToEnd.
Variable SENSITIVITY_RANGE : list Z.
Variables returns metrics_data scenario_results : Type.
Variable calculate_returns : list Q -> result returns.
Variable risk_metrics_of :
  list Q * returns -> Q -> Z -> list position -> data_frame ->
  result metrics_data.
Variable run_all_scenarios :
  list position -> gmap price_key Q -> result scenario_results.

(** X27. A run over validated positions can fail only in the computation
    of the returns, in the risk metrics or in the scenario engine, provided
    the store returns at least one candle for the asset of every spot
    position, at least one mark-price kline and no funding error for the
    asset of every other position, and no futures frame loses all its days
    in resampling.  Fetching and alignment, the current prices, the current
    value, the historical values (one per row of the aligned table), the
    sensitivity table and the delta exposure are then all produced, and the
    run returns the profile assembled from them as soon as those three steps
    return; otherwise it raises the error of the first of them that
    fails. *)
Theorem run_fails_only_in_estimators (db : database)
    (positions : list position) (lookback_days : option Z) :
  _validate_positions positions = Ok tt ->
  (forall pos a t,
     In pos positions -> asset pos = Some a -> position_type pos = Some t ->
     if String.eqb t "spot"
     then exists c cs, get_ohlcv_data db a = Rows (c :: cs)
     else (exists m ms, get_mark_klines db a = Rows (m :: ms))
          /\ get_funding_rates db a <> FetchError) ->
  let data :=
    fetch_portfolio_data db (unique (omap asset positions))
      (get_default lookback_days 30%Z) in
  let daily := resample_to_daily (pd_spot data) (pd_futures data) in
  Forall (fun item => snd item <> []) (snd daily) ->
  exists h current_prices current_value portfolio_values table delta,
    fetch_and_align db positions (get_default lookback_days 30%Z) = Ok h
    /\ _extract_current_prices (ah_aligned h) positions = Ok current_prices
    /\ calculate_portfolio_value positions current_prices = Ok current_value
    /\ portfolio_values_loop (ah_aligned h) (rows (ah_aligned h)) positions
       = Ok portfolio_values
    /\ length portfolio_values = length (rows (ah_aligned h))
    /\ calculate_sensitivity_table positions current_prices
         (map (fun x => inject_Z x / 100) SENSITIVITY_RANGE) = Ok table
    /\ calculate_delta_exposure positions = Ok delta
    /\ calculate_risk_profile SENSITIVITY_RANGE (list Q * returns)
         metrics_data scenario_results
         (_calculate_historical_portfolio_series calculate_returns)
         risk_metrics_of run_all_scenarios db positions lookback_days
       = (try portfolio_returns <- calculate_returns portfolio_values ;
          try risk_metrics_data <-
            risk_metrics_of (portfolio_values, portfolio_returns)
              current_value (ah_actual_days h) positions (ah_aligned h) ;
          try scenario_results <- run_all_scenarios positions current_prices ;
          Ok (RiskProfile current_value
                (data_warning_of (ah_actual_days h)
                   (map warning_text (ah_alignment_warnings h)))
                table risk_metrics_data delta scenario_results)).
Proof.
  intros Hv Hdata data daily Hfull.
  destruct (validated_positions positions Hv) as [Hne Hvalid].
  assert (Hfields : forall pos, In pos positions ->
            exists a t, asset pos = Some a /\ position_type pos = Some t).
  { intros pos Hin. rewrite List.Forall_forall in Hvalid.
    destruct (valid_position_fields pos (Hvalid pos Hin))
      as [a [q [t [e [Ha [_ [Ht _]]]]]]]. exists a, t. auto. }
  assert (Hnames : asset_names positions = Ok (omap asset positions)).
  { apply asset_names_omap. apply List.Forall_forall. intros pos Hin.
    destruct (Hfields pos Hin) as [a [_ [Ha _]]]. exists a. exact Ha. }
  pose proof (position_columns_present db positions
                (get_default lookback_days 30%Z) Hdata) as Hcols.
  cbv zeta in Hcols. fold data in Hcols. fold daily in Hcols.
  destruct (fetch_portfolio_data_spec db (unique (omap asset positions))
              (get_default lookback_days 30%Z) ""%string)
    as [_ [_ [_ [_ [_ [_ [Hs Hf]]]]]]]. fold data in Hs, Hf.
  assert (Hsome : fst daily <> [] \/ snd daily <> []).
  { destruct positions as [|pos rest]; [contradiction|].
    destruct (Hfields pos (or_introl eq_refl)) as [a [t [Ha Ht]]].
    specialize (Hcols pos a t (or_introl eq_refl) Ha Ht).
    apply in_app_iff in Hcols. destruct Hcols as [Hc|Hc].
    - left. intros He. rewrite He in Hc. exact Hc.
    - right. intros He. rewrite He in Hc. exact Hc. }
  destruct (resampled_frames_align_complete (pd_spot data) (pd_futures data)
              Hs Hf Hfull Hsome) as [aligned [Ha Hc]].
  fold daily in Ha, Hc.
  set (timeline := date_range (ts_min (all_timestamps (fst daily) (snd daily)))
                     (ts_max (all_timestamps (fst daily) (snd daily)))) in *.
  set (h := AlignedHistory aligned
              (spec_warnings timeline (fst daily) (snd daily))
              (pd_actual_days data)).
  assert (Hh : fetch_and_align db positions (get_default lookback_days 30%Z)
               = Ok h).
  { unfold fetch_and_align. rewrite Hnames. cbn [bind]. fold data.
    subst daily. unfold resample_to_daily in *. cbn [fst snd] in *.
    rewrite Ha. reflexivity. }
  assert (Hrowsok : forall row, In row (rows aligned) ->
            Forall (fun pos =>
                      exists a t, asset pos = Some a
                        /\ position_type pos = Some t
                        /\ has_column (price_column a t) aligned = true
                        /\ is_Some (get_cell (price_column a t) row))
              positions).
  { intros row Hrow. apply List.Forall_forall. intros pos Hin.
    destruct (Hfields pos Hin) as [a [t [Hpa Hpt]]]. exists a, t.
    destruct (complete_cells _ _ _ _ Hc (Hcols pos a t Hin Hpa Hpt))
      as [Hcol Hcell].
    repeat split; try assumption. apply Hcell. exact Hrow. }
  assert (Hlast : exists latest, last (rows aligned) = Some latest).
  { destruct Hc as [Hts _].
    destruct (rows aligned) as [|r rs] eqn:Er.
    - exfalso. simpl in Hts. subst timeline.
      symmetry in Hts. revert Hts. apply date_range_nonempty.
    - destruct (last (r :: rs)) as [x|] eqn:El; [exists x; reflexivity|].
      apply last_None in El. discriminate. }
  destruct Hlast as [latest Hlatest].
  assert (Hin_latest : In latest (rows aligned)).
  { apply last_In. exact Hlatest. }
  destruct (extract_prices_loop_defined aligned latest positions
              (Hrowsok latest Hin_latest) ∅) as [prices Hprices].
  destruct (portfolio_value_defined_at aligned latest positions prices
              Hvalid Hprices) as [value Hvalue].
  destruct (portfolio_values_loop_defined aligned positions Hne Hvalid
              (rows aligned) Hrowsok) as [values [Hvalues Hlen]].
  destruct (sensitivity_table_defined positions prices value
              (map (fun x => inject_Z x / 100) SENSITIVITY_RANGE) Hvalue)
    as [table Htable].
  destruct (delta_exposure_defined positions Hvalid) as [delta Hdelta].
  assert (Hextract : _extract_current_prices aligned positions = Ok prices).
  { unfold _extract_current_prices. rewrite Hlatest. exact Hprices. }
  exists h, prices, value, values, table, delta.
  split; [exact Hh|]. cbn [ah_aligned ah_actual_days ah_alignment_warnings h].
  repeat (split; [assumption|]).
  unfold calculate_risk_profile. rewrite Hv. cbn [bind]. rewrite Hh.
  cbn [bind]. unfold value_and_assemble.
  cbn [ah_aligned ah_actual_days ah_alignment_warnings h].
  rewrite Hextract. cbn [bind]. rewrite Hvalue. cbn [bind].
  unfold _calculate_historical_portfolio_series. rewrite Hvalues. cbn [bind].
  destruct (calculate_returns values) as [r|]; cbn [bind]; [|reflexivity].
  rewrite Htable. cbn [bind]. rewrite Hdelta.
  destruct (risk_metrics_of _ _ _ _ _); cbn [bind]; reflexivity.
Qed.
End RunEndToEnd.

Lemma run_fails_only_in_estimators_witness :
  exists r,
    calculate_risk_profile [0%Z] (list Q * nat) unit unit
      (_calculate_historical_portfolio_series (fun l => Ok (length l)))
      (fun _ _ _ _ _ => Ok tt) (fun _ _ => Ok tt)
      db_no_funding [eth_long] None = Ok r.
Proof.
  destruct (run_fails_only_in_estimators [0%Z] nat unit unit
              (fun l => Ok (length l)) (fun _ _ _ _ _ => Ok tt)
              (fun _ _ => Ok tt)
              db_no_funding [eth_long] None eq_refl)
    as [h [cp [cv [pv [tb [de [_ [_ [_ [_ [_ [_ [_ Hrun]]]]]]]]]]]]].
  - intros pos a t [<-|[]] [= <-] [= <-]. cbn [String.eqb Ascii.eqb Bool.eqb].
    split; [vm_compute; eexists; eexists; reflexivity | vm_compute; discriminate].
  - vm_compute. repeat constructor; discriminate.
  - eexists. exact Hrun.
Defined.

(** ** The warnings of alignment, whatever the series hold *)

Lemma ffilled_gap (l : list (option Q)) :
  existsb (fun c => negb (has_key c)) (ffill_list None l)
  = negb (leading_na l =? 0)%nat
  /\ count_na (ffill_list None l) = leading_na l.
Proof.
  destruct (ffill_list_none l) as [a [Ha [Hs _]]].
  assert (Hcount : count_na (ffill_list None l) = leading_na l).
  { rewrite Ha, count_na_app, count_na_repeat, (count_na_some a Hs). lia. }
  split; [rewrite existsb_na_count, Hcount; reflexivity | exact Hcount].
Qed.

Lemma add_spot_warnings aligned ws a df :
  List.NoDup (map fst df) ->
  snd (add_spot (aligned, ws) (a, df))
  = ws ++ gap_entry SpotGap a
            (leading_missing (map fst df) (map row_timestamp (rows aligned))).
Proof.
  intros Hnd. unfold add_spot. cbn [fst snd].
  set (col := spot_column a).
  destruct (merged_column col df (rows aligned) Hnd) as [_ [F1 _]].
  set (rs := ffill col (merge_left col df (rows aligned))) in *.
  destruct (ffilled_gap (map (fun t => lookup_ts t df)
                           (map row_timestamp (rows aligned)))) as [G1 G2].
  rewrite leading_na_lookup in G1, G2.
  rewrite isna_any_column, isna_sum_column, F1, G1, G2.
  unfold gap_entry.
  destruct (_ =? 0)%nat; cbn [negb snd]; [rewrite app_nil_r|]; reflexivity.
Qed.

Lemma add_futures_warnings aligned ws a df :
  List.NoDup (map d_timestamp df) ->
  let n :=
    leading_missing (map d_timestamp df) (map row_timestamp (rows aligned)) in
  snd (add_futures (aligned, ws) (a, df))
  = ws ++ gap_entry MarkGap a n ++ gap_entry FundingGap a n.
Proof.
  intros Hnd n. unfold add_futures. cbn [fst snd].
  set (mark := futures_mark_column a).
  set (funding := funding_column a).
  set (mark_df := map (fun r => (d_timestamp r, d_mark_price r)) df).
  set (funding_df := map (fun r => (d_timestamp r, d_funding_rate r)) df).
  assert (Hm : map fst mark_df = map d_timestamp df)
    by (subst mark_df; rewrite map_map; reflexivity).
  assert (Hf : map fst funding_df = map d_timestamp df)
    by (subst funding_df; rewrite map_map; reflexivity).
  assert (Hmf : mark <> funding) by apply mark_column_not_funding.
  assert (Hfm : funding <> mark) by (intros H; apply Hmf; symmetry; exact H).
  destruct (merged_column mark mark_df (rows aligned)) as [A2 [A1 A3]];
    [rewrite Hm; exact Hnd|].
  set (rs1 := ffill mark (merge_left mark mark_df (rows aligned))) in *.
  destruct (merged_column funding funding_df rs1) as [B2 [B1 B3]];
    [rewrite Hf; exact Hnd|].
  set (rs2 := ffill funding (merge_left funding funding_df rs1)) in *.
  rewrite A2 in B1.
  assert (Hmark2 : column mark rs2
                   = ffill_list None
                       (map (fun t => lookup_ts t mark_df)
                          (map row_timestamp (rows aligned))))
    by (rewrite B3 by exact Hmf; exact A1).
  destruct (ffilled_gap (map (fun t => lookup_ts t mark_df)
                           (map row_timestamp (rows aligned)))) as [M1 M2].
  destruct (ffilled_gap (map (fun t => lookup_ts t funding_df)
                           (map row_timestamp (rows aligned)))) as [N1 N2].
  rewrite leading_na_lookup, Hm in M1, M2.
  rewrite leading_na_lookup, Hf in N1, N2.
  fold n in M1, M2, N1, N2.
  rewrite isna_any_column, isna_sum_column, Hmark2, M1, M2.
  unfold gap_entry. destruct (n =? 0)%nat eqn:En; cbn [negb].
  - rewrite isna_any_column, B1, N1. cbn [negb snd].
    rewrite app_nil_r. reflexivity.
  - rewrite isna_any_column, isna_sum_column.
    rewrite bfill_other by exact Hfm. rewrite B1, N1, N2. cbn [negb snd].
    rewrite <- app_assoc. reflexivity.
Qed.

Lemma fold_add_spot_warnings (spot_data : list (string * list (Z * Q))) :
  forall aligned ws,
    Forall (fun item => List.NoDup (map fst (snd item))) spot_data ->
    let st := fold_left add_spot spot_data (aligned, ws) in
    map row_timestamp (rows (fst st)) = map row_timestamp (rows aligned)
    /\ snd st
       = ws ++ flat_map
                 (fun item =>
                    gap_entry SpotGap (fst item)
                      (leading_missing (map fst (snd item))
                         (map row_timestamp (rows aligned))))
                 spot_data.
Proof.
  induction spot_data as [|[a df] rest IH]; intros aligned ws Hts;
    cbn [fold_left].
  - cbn [fst snd flat_map]. rewrite app_nil_r. split; reflexivity.
  - apply List.Forall_cons_iff in Hts. destruct Hts as [Hd Hts].
    cbn [fst snd] in Hd.
    pose proof (add_spot_content aligned ws a df Hd) as Hc.
    pose proof (add_spot_warnings aligned ws a df Hd) as Hw.
    destruct (add_spot (aligned, ws) (a, df)) as [al1 ws1].
    cbn [fst snd] in Hc, Hw. cbv zeta in Hc. destruct Hc as [S1 _].
    destruct (IH al1 ws1 Hts) as [I1 I2]. cbv zeta.
    split; [rewrite I1; exact S1|].
    rewrite I2, S1, Hw. cbn [flat_map fst snd]. rewrite <- app_assoc.
    reflexivity.
Qed.

Lemma fold_add_futures_warnings
    (futures_data : list (string * list daily_futures_row)) :
  forall aligned ws,
    Forall (fun item => List.NoDup (map d_timestamp (snd item))) futures_data ->
    let st := fold_left add_futures futures_data (aligned, ws) in
    map row_timestamp (rows (fst st)) = map row_timestamp (rows aligned)
    /\ snd st
       = ws ++ flat_map
                 (fun item =>
                    let n :=
                      leading_missing (map d_timestamp (snd item))
                        (map row_timestamp (rows aligned)) in
                    gap_entry MarkGap (fst item) n
                    ++ gap_entry FundingGap (fst item) n)
                 futures_data.
Proof.
  induction futures_data as [|[a df] rest IH]; intros aligned ws Hts;
    cbn [fold_left].
  - cbn [fst snd flat_map]. rewrite app_nil_r. split; reflexivity.
  - apply List.Forall_cons_iff in Hts. destruct Hts as [Hd Hts].
    cbn [fst snd] in Hd.
    pose proof (add_futures_content aligned ws a df Hd) as Hc.
    pose proof (add_futures_warnings aligned ws a df Hd) as Hw.
    destruct (add_futures (aligned, ws) (a, df)) as [al1 ws1].
    cbn [fst snd] in Hc, Hw. cbv zeta in Hc, Hw. destruct Hc as [S1 _].
    destruct (IH al1 ws1 Hts) as [I1 I2]. cbv zeta.
    split; [rewrite I1; exact S1|].
    rewrite I2, S1, Hw. cbn [flat_map fst snd]. rewrite <- !app_assoc.
    reflexivity.
Qed.

(** Alignment records, per asset and field, the days of the timeline before
    the first observation of the series, and nothing else. *)
Lemma alignment_warnings_are_leading_gaps
    (spot_data : list (string * list (Z * Q)))
    (futures_data : list (string * list daily_futures_row))
    (aligned : data_frame) (ws : list alignment_warning) :
  align_time_series spot_data futures_data = Ok (aligned, ws) ->
  Forall (fun item => List.NoDup (map fst (snd item))) spot_data ->
  Forall (fun item => List.NoDup (map d_timestamp (snd item))) futures_data ->
  ws = spec_warnings
         (date_range (ts_min (all_timestamps spot_data futures_data))
            (ts_max (all_timestamps spot_data futures_data)))
         spot_data futures_data.
Proof.
  intros Ha Hs Hf. unfold align_time_series in Ha.
  destruct (is_empty (all_timestamps spot_data futures_data)); [discriminate|].
  set (timeline := date_range (ts_min (all_timestamps spot_data futures_data))
                     (ts_max (all_timestamps spot_data futures_data))) in *.
  apply Ok_inj in Ha.
  set (init := DataFrame ["timestamp"%string]
                 (map (fun t => AlignedRow t []) timeline)) in *.
  assert (Hinit : map row_timestamp (rows init) = timeline).
  { subst init. cbn [rows]. rewrite map_map. cbn [row_timestamp].
    apply map_id. }
  pose proof (fold_add_spot_warnings spot_data init [] Hs) as H1.
  destruct (fold_left add_spot spot_data (init, [])) as [al1 ws1].
  cbn [fst snd] in H1. cbv zeta in H1. rewrite Hinit in H1.
  destruct H1 as [A1 A2].
  pose proof (fold_add_futures_warnings futures_data al1 ws1 Hf) as H2.
  rewrite Ha in H2. cbn [fst snd] in H2. cbv zeta in H2. rewrite A1 in H2.
  destruct H2 as [_ B2]. rewrite B2, A2. reflexivity.
Qed.

Lemma In_gap_entry mk mk' (a b : string) (n k : nat) :
  In (mk' b k) (gap_entry mk a n) ->
  mk' b k = mk a n /\ n <> 0%nat.
Proof.
  unfold gap_entry. destruct (n =? 0)%nat eqn:E; [intros []|].
  apply Nat.eqb_neq in E. intros [H|[]]. split; [symmetry; exact H | exact E].
Qed.

Lemma In_futures_gap (mark : bool) timeline sp fu (a : string) (n : nat) :
  In ((if mark then MarkGap else FundingGap) a n) (spec_warnings timeline sp fu)
  <-> exists df, In (a, df) fu
                 /\ n = leading_missing (map d_timestamp df) timeline
                 /\ n <> 0%nat.
Proof.
  unfold spec_warnings. rewrite in_app_iff, !in_flat_map. split.
  - intros [[[b df] [_ Hin]]|[[b df] [Hi Hin]]]; cbn [fst snd] in Hin.
    + apply In_gap_entry in Hin. destruct Hin as [H _].
      destruct mark; discriminate H.
    + cbv zeta in Hin. apply in_app_or in Hin.
      destruct Hin as [Hin|Hin]; apply In_gap_entry in Hin;
        destruct Hin as [H Hn]; destruct mark; try discriminate H;
        injection H as -> ->; exists df; auto.
  - intros [df [Hi [-> Hn]]]. right. exists (a, df). split; [exact Hi|].
    cbn [fst snd]. cbv zeta. apply in_or_app. unfold gap_entry.
    apply Nat.eqb_neq in Hn. rewrite Hn.
    destruct mark; [left | right]; left; reflexivity.
Qed.

Lemma leading_missing_first_observed (ts : list Z) (min_ts max_ts : Z) :
  In min_ts ts -> leading_missing ts (date_range min_ts max_ts) = 0%nat.
Proof.
  intros Hin. unfold date_range. cbn [seq map leading_missing].
  replace (min_ts + Z.of_nat 0 * seconds_per_day)%Z with min_ts by lia.
  rewrite observed_In by exact Hin. reflexivity.
Qed.

Lemma dict_value_unique {V : Type} (d : list (string * V)) (a : string)
    (v v' : V) :
  List.NoDup (map fst d) -> In (a, v) d -> In (a, v') d -> v = v'.
Proof.
  intros Hnd H1 H2.
  pose proof (dict_get_of_In a v d Hnd H1) as E1.
  pose proof (dict_get_of_In a v' d Hnd H2) as E2. congruence.
Qed.

Lemma resampled_frames_distinct (spot_data : list (string * list (Z * Q)))
    (futures_data : list (string * list futures_row)) :
  List.NoDup (map fst spot_data) -> List.NoDup (map fst futures_data) ->
  let daily := resample_to_daily spot_data futures_data in
  List.NoDup (map fst (fst daily)) /\ List.NoDup (map fst (snd daily))
  /\ Forall (fun item => List.NoDup (map fst (snd item))) (fst daily)
  /\ Forall (fun item => List.NoDup (map d_timestamp (snd item))) (snd daily).
Proof.
  intros Hs Hf daily. subst daily. unfold resample_to_daily. cbn [fst snd].
  split; [|split; [|split]].
  - rewrite map_map. cbn [fst]. apply filter_keys_NoDup. exact Hs.
  - rewrite map_map. cbn [fst]. apply filter_keys_NoDup. exact Hf.
  - apply List.Forall_forall. intros item Hi. apply in_map_iff in Hi.
    destruct Hi as [[a df] [<- _]]. cbn [fst snd].
    rewrite resample_spot_timestamps. apply sorted_NoDup, day_bins_sorted.
  - apply List.Forall_forall. intros item Hi. apply in_map_iff in Hi.
    destruct Hi as [[a df] [<- _]]. cbn [fst snd].
    apply sorted_NoDup. apply (resample_futures_spec df).
Qed.

(** ** Missing funding data, in the run *)

(** C10, as amended. When the mark-price query of an asset returns rows and
    its funding-rate query returns none, the futures frame of the asset
    carries funding rate 0.0 at every mark-price timestamp, no warning is
    logged for the asset's futures data, and the daily frame handed to
    alignment keeps every day that has a mark price, with funding rate 0.
    Alignment of what was fetched then returns a funding column for the
    asset without a missing value, 0 in every row; it records a funding gap
    for the asset exactly for the days of the timeline before the asset's
    first day with a mark price, with their count, which is exactly when
    and with the count it records a mark-price gap; it records none when
    the timeline starts on a day that has a mark price of the asset. *)
Theorem missing_funding_defaults_to_zero (db : database)
    (assets : list string) (lookback_days : Z) (a : string)
    (mark_result : list (Z * Q)) :
  In a assets ->
  get_mark_klines db a = Rows mark_result -> mark_result <> [] ->
  get_funding_rates db a = Rows [] ->
  let data := fetch_portfolio_data db assets lookback_days in
  let daily := resample_to_daily (pd_spot data) (pd_futures data) in
  exists futures_df,
    dict_get a (pd_futures data) = Some futures_df
    /\ futures_df
       = sort_values f_timestamp
           (map (fun m => FuturesRow (fst m) (snd m) (Some 0)) mark_result)
    /\ futures_df <> []
    /\ (forall t, In t (map f_timestamp futures_df)
                  <-> In t (map fst mark_result))
    /\ Forall (fun r => funding_rate r = Some 0) futures_df
    /\ ~ In (FuturesFetchFailed a) (pd_log data)
    /\ ~ In (NoMarkPriceData a) (pd_log data)
    /\ dict_get a (snd daily) = Some (resample_futures futures_df)
    /\ (forall d, In d (map d_timestamp (resample_futures futures_df))
                  <-> exists t, In t (map fst mark_result) /\ day_start t = d)
    /\ Forall (fun r => d_funding_rate r == 0) (resample_futures futures_df)
    /\ exists aligned ws,
         align_time_series (fst daily) (snd daily) = Ok (aligned, ws)
         /\ has_column (funding_column a) aligned = true
         /\ Forall (fun c => exists v, c = Some v /\ v == 0)
              (column (funding_column a) (rows aligned))
         /\ (forall n,
               In (FundingGap a n) ws
               <-> n = leading_missing
                         (map d_timestamp (resample_futures futures_df))
                         (map row_timestamp (rows aligned))
                   /\ n <> 0%nat)
         /\ (forall n, In (FundingGap a n) ws <-> In (MarkGap a n) ws)
         /\ (forall first rest,
               map row_timestamp (rows aligned) = first :: rest ->
               In first (map d_timestamp (resample_futures futures_df)) ->
               forall n, ~ In (FundingGap a n) ws).
Proof.
  intros Hin Hmark Hne Hfund data daily.
  set (futures_df :=
         sort_values f_timestamp
           (map (fun m => FuturesRow (fst m) (snd m) (Some 0)) mark_result)).
  assert (Hasset : process_futures_asset db a = inl futures_df).
  { unfold process_futures_asset. rewrite Hmark, Hfund.
    destruct mark_result; [contradiction | reflexivity]. }
  assert (Hmem : forall r, In r futures_df
                   <-> exists m, In m mark_result
                                 /\ r = FuturesRow (fst m) (snd m) (Some 0)).
  { intros r. unfold futures_df. rewrite In_sort_values, in_map_iff.
    split; intros [m [H1 H2]]; exists m; auto. }
  assert (Hts : forall t, In t (map f_timestamp futures_df)
                  <-> In t (map fst mark_result)).
  { intros t. rewrite !in_map_iff. split.
    - intros [r [<- Hr]]. apply Hmem in Hr. destruct Hr as [m [Hm ->]].
      exists m. auto.
    - intros [m [<- Hm]]. exists (FuturesRow (fst m) (snd m) (Some 0)).
      split; [reflexivity|]. apply Hmem. exists m. auto. }
  assert (Hzero : Forall (fun r => funding_rate r = Some 0) futures_df).
  { apply List.Forall_forall. intros r Hr. apply Hmem in Hr.
    destruct Hr as [m [_ ->]]. reflexivity. }
  assert (Hdf : futures_df <> []).
  { intros He. destruct mark_result as [|m ms]; [contradiction|].
    assert (Hi : In (FuturesRow (fst m) (snd m) (Some 0)) futures_df)
      by (apply Hmem; exists m; split; [left; reflexivity | reflexivity]).
    rewrite He in Hi. exact Hi. }
  destruct (resample_futures_zero_funding futures_df Hzero) as [Hdays Hfz].
  destruct (fetch_portfolio_data_spec db assets lookback_days a)
    as [_ [Hfut [_ [_ [Hfail [Hnomark [Hks Hkf]]]]]]].
  fold data in Hfut, Hfail, Hnomark, Hks, Hkf.
  assert (Hget : dict_get a (pd_futures data) = Some futures_df)
    by (apply Hfut; split; assumption).
  destruct (resampled_frames_distinct (pd_spot data) (pd_futures data) Hks Hkf)
    as [Hds [Hdk [Hts_s Hts_f]]]. fold daily in Hds, Hdk, Hts_s, Hts_f.
  set (df := resample_futures futures_df) in *.
  assert (Hdaily : In (a, df) (snd daily)).
  { subst daily. unfold resample_to_daily. cbn [snd].
    apply in_map_iff. exists (a, futures_df). split; [reflexivity|].
    apply filter_In. split; [apply dict_get_In; exact Hget|].
    cbn [snd]. destruct futures_df; [contradiction | reflexivity]. }
  assert (Hdfne : df <> []).
  { intros He. destruct futures_df as [|r rs] eqn:E; [contradiction|].
    assert (Hd : In (day_start (f_timestamp r)) (map d_timestamp df)).
    { rewrite Hdays. apply In_day_bins. exists (f_timestamp r).
      split; [left; reflexivity | reflexivity]. }
    rewrite He in Hd. exact Hd. }
  exists futures_df. fold df.
  split; [exact Hget|]. split; [reflexivity|]. split; [exact Hdf|].
  split; [exact Hts|]. split; [exact Hzero|].
  split.
  { rewrite Hfail, Hmark, Hfund. intros [_ [H|H]]; discriminate H. }
  split.
  { rewrite Hnomark, Hmark. intros [_ [H _]]. injection H as H.
    apply Hne. exact H. }
  split; [apply dict_get_of_In; assumption|].
  split.
  { intros d. rewrite Hdays, In_day_bins.
    split; intros [t [Ht Hd]]; exists t; split; try exact Hd; apply Hts;
      exact Ht. }
  split; [exact Hfz|].
  assert (Hall : all_timestamps (fst daily) (snd daily) <> []).
  { destruct df as [|r rs] eqn:E; [contradiction|]. intros He.
    assert (Hi : In (d_timestamp r)
                   (all_timestamps (fst daily) (snd daily))).
    { apply In_all_timestamps. right. exists (a, r :: rs).
      split; [exact Hdaily | left; reflexivity]. }
    rewrite He in Hi. exact Hi. }
  destruct (align_time_series (fst daily) (snd daily)) as [[aligned ws]|e]
    eqn:Hal.
  2:{ exfalso.
      destruct (alignment_fails_exactly_when_no_timestamps
                  (fst daily) (snd daily)) as [Hiff Honly].
      pose proof (Honly e Hal) as ->. apply Hall. apply Hiff. exact Hal. }
  exists aligned, ws. split; [reflexivity|].
  destruct (aligned_table_content (fst daily) (snd daily) aligned ws Hal
              Hts_s Hts_f Hds Hdk) as [Htl [Hcols [_ Hfcols]]].
  pose proof (alignment_warnings_are_leading_gaps (fst daily) (snd daily)
                aligned ws Hal Hts_s Hts_f) as Hws.
  set (timeline := date_range (ts_min (all_timestamps (fst daily) (snd daily)))
                     (ts_max (all_timestamps (fst daily) (snd daily)))) in *.
  destruct (Hfcols a df Hdaily) as [_ Hfunding].
  assert (Hgap : forall (mark : bool) n,
            In ((if mark then MarkGap else FundingGap) a n) ws
            <-> n = leading_missing (map d_timestamp df)
                      (map row_timestamp (rows aligned))
                /\ n <> 0%nat).
  { intros mark n. rewrite Hws, In_futures_gap, Htl. split.
    - intros [df' [Hi [Hn Hn0]]].
      rewrite (dict_value_unique (snd daily) a df df' Hdk Hdaily Hi).
      auto.
    - intros [Hn Hn0]. exists df. auto. }
  split.
  { unfold has_column. rewrite Hcols. apply string_in_In. right.
    apply in_or_app. right. apply In_futures_columns. exists a.
    split; [apply (in_map fst _ _ Hdaily) | right; reflexivity]. }
  split.
  { apply List.Forall_forall. intros c Hc. unfold column in Hc.
    apply in_map_iff in Hc. destruct Hc as [row [<- Hrow]].
    apply list_elem_of_In, list_elem_of_lookup in Hrow.
    destruct Hrow as [i Hi].
    rewrite <- Htl in Hfunding.
    destruct (funding_column_cells (funding_column a) (funding_series df)
                (rows aligned) Hfunding) with (i := i) (row := row)
      as [_ [[v [Hv Hval]] _]].
    - unfold funding_series. rewrite map_map. cbn [fst].
      rewrite List.Forall_forall in Hts_f. apply (Hts_f (a, df) Hdaily).
    - exact Hi.
    - exists v. split; [exact Hv|]. destruct Hval as [Hval| ->]; [|reflexivity].
      unfold funding_series in Hval. rewrite map_map in Hval. cbn [snd] in Hval.
      apply in_map_iff in Hval. destruct Hval as [r [<- Hr]].
      rewrite List.Forall_forall in Hfz. apply Hfz. exact Hr. }
  split; [exact (Hgap false)|].
  split.
  { intros n. rewrite (Hgap false n), (Hgap true n). reflexivity. }
  intros first rest Hfirst Hobs n Hn. apply (Hgap false) in Hn.
  destruct Hn as [Hn Hn0]. apply Hn0. rewrite Hn, Hfirst.
  cbn [leading_missing]. rewrite observed_In by exact Hobs. reflexivity.
Qed.

Lemma missing_funding_defaults_to_zero_witness :
  exists futures_df aligned,
    dict_get "ETH"
      (pd_futures (fetch_portfolio_data db_no_funding ["ETH"%string] 30))
    = Some futures_df
    /\ Forall (fun r => funding_rate r = Some 0) futures_df
    /\ (let data := fetch_portfolio_data db_no_funding ["ETH"%string] 30 in
        let daily := resample_to_daily (pd_spot data) (pd_futures data) in
        align_time_series (fst daily) (snd daily) = Ok (aligned, []))
    /\ Forall (fun c => exists v, c = Some v /\ v == 0)
         (column (funding_column "ETH") (rows aligned)).
Proof.
  destruct (missing_funding_defaults_to_zero db_no_funding ["ETH"%string] 30
              "ETH" [(0%Z, 2700); (28800%Z, 2710); (86400%Z, 2720)])
    as (df & H1 & _ & _ & _ & H5 & _ & _ & _ & _ & _ & aligned & ws & Hal & _
        & Hz & _).
  - left. reflexivity.
  - reflexivity.
  - discriminate.
  - reflexivity.
  - exists df, aligned. split; [exact H1|]. split; [exact H5|].
    split; [|exact Hz].
    cbv zeta. rewrite Hal. vm_compute in Hal. injection Hal as _ <-.
    reflexivity.
Defined.

(** C10 as stated fails: with ETH closes on days 0 to 3, ETH mark prices on
    days 2 and 3 only and no funding row, the funding rate is 0.0 at both
    mark-price timestamps and the fetch logs nothing, and alignment still
    records a gap in the funding column of ETH, of 2 days. *)
Lemma funding_gap_recorded_for_late_futures :
  get_mark_klines db_late_futures "ETH"
  = Rows [(172800%Z, 2700); (259200%Z, 2710)]
  /\ get_funding_rates db_late_futures "ETH" = Rows []
  /\ let data := fetch_portfolio_data db_late_futures ["ETH"%string] 30 in
     let daily := resample_to_daily (pd_spot data) (pd_futures data) in
     dict_get "ETH" (pd_futures data)
     = Some [FuturesRow 172800 2700 (Some 0); FuturesRow 259200 2710 (Some 0)]
     /\ pd_log data = []
     /\ exists aligned ws,
          align_time_series (fst daily) (snd daily) = Ok (aligned, ws)
          /\ In (FundingGap "ETH" 2) ws
          /\ map warning_text ws
             = ["ETH futures: 2 missing mark prices";
                "ETH funding: 2 missing funding rates"]%string.
Proof.
  split; [reflexivity|]. split; [reflexivity|]. cbv zeta.
  split; [vm_compute; reflexivity|]. split; [vm_compute; reflexivity|].
  eexists. eexists. split; [vm_compute; reflexivity|].
  split; [right; left; reflexivity | vm_compute; reflexivity].
Qed.
